(** * scEmacs: a shallow embedding of the editing core

    The definitions below follow [sc_Editor.c] and [sc_Main.c] function by
    function and keep the source's names.  Conventions:

    - a [char] is its unsigned value, a [Z] in [0..255]; where the source
      compares plain (signed) [char]s, [Int8] gives the signed reading;
    - [Int16]/[Int32] values are unbounded [Z]: signed overflow is undefined
      in C, so the model describes the runs in which it does not happen;
    - a [char *] into a malloc'ed block is the [Z] offset from the start of
      the block, and the block itself is a [list Z]; [BufStartP] is offset 0;
    - [malloc]/[realloc] succeed (the source aborts the process otherwise);
      freshly allocated bytes read as 0;
    - X11 drawing, scroll-bar geometry, timers and the clipboard handshake
      change no state any statement below talks about and are left out;
    - Xlib's [XKeysymToString], and the bound commands that are not
      modelled, are parameters of the definitions that reach them. *)

From Stdlib Require Import ZArith List Lia Bool.
From Stdlib Require String Ascii.
Import ListNotations String.StringSyntax.
Delimit Scope string_scope with string.
Local Open Scope list_scope.
Local Open Scope Z_scope.

(** ** Bytes and raw memory *)

Definition Uns8 (C : Z) : Z := C mod 256.
Definition Int8 (C : Z) : Z := if Uns8 C <? 128 then Uns8 C else Uns8 C - 256.

Fixpoint bytes_of (s : String.string) : list Z :=
  match s with
  | String.EmptyString => []
  | String.String c s' => Z.of_N (Ascii.N_of_ascii c) :: bytes_of s'
  end.

(** [rd m p] is [*p]; reading outside the block is undefined in C and reads 0
    here. *)
Definition rd (m : list Z) (p : Z) : Z :=
  if p <? 0 then 0 else nth (Z.to_nat p) m 0.

(** [sub m p n] is the [n] bytes at [p]. *)
Definition sub (m : list Z) (p n : Z) : list Z :=
  firstn (Z.to_nat n) (skipn (Z.to_nat p) m).

(** [memcpy (m + p, d, |d|)]. *)
Definition wr (m : list Z) (p : Z) (d : list Z) : list Z :=
  firstn (Z.to_nat p) m ++ d ++ skipn (Z.to_nat p + length d) m.

(** [memmove (m + dst, m + src, n)]: the source bytes are read before any is
    written. *)
Definition memmove (m : list Z) (dst src n : Z) : list Z :=
  wr m dst (sub m src n).

(** [realloc (m, n)]: the old bytes, then unspecified ones. *)
Definition realloc (m : list Z) (n : Z) : list Z :=
  firstn (Z.to_nat n) (m ++ repeat 0 (Z.to_nat n - length m)).

(** ** Constants of [sc_Editor.c] *)

Definition ED_GAPEXTRAEXPAND : Z := 512.
Definition ED_UNDOINITLEN : Z := 8192.
Definition ED_UNDOEXTRALEN : Z := 8192.
Definition ED_UNDOGCSLABCOUNT : Z := 16.
Definition ED_UNDOGCL0SLABCOUNT : Z := 12.
Definition ED_UNDO_DATASIZE : Z := 35.

Definition ED_EXTCOMMANDCODE : Z := 0x15.
Definition ED_CTLCOMMANDCODE : Z := 0x16.
Definition ED_ALTCOMMANDCODE : Z := 0x17.
Definition ED_SUPCOMMANDCODE : Z := 0x18.
Definition ED_HYPCOMMANDCODE : Z := 0x19.

Definition ED_MARKRINGCOUNT : Z := 16.
Definition ED_MARKRINGMASK : Z := ED_MARKRINGCOUNT - 1.
Definition ED_KILLRINGCOUNT : Z := 16.
Definition ED_KILLRINGMASK : Z := ED_KILLRINGCOUNT - 1.
Definition ED_KRTOPINITLEN : Z := 128.
Definition ED_KRTOPEXTRA : Z := 128.
Definition ED_KRRESTINITLEN : Z := 128.
Definition ED_KRRESTEXTRA : Z := 128.
Definition ED_ISSTRLEN : Z := 128.

Definition ED_BUFREADONLYFLAG : Z := 0x00000020.
Definition ED_BUFMODFLAG : Z := 0x80000000.
Definition ED_BUFCLEANUNDOFLAG : Z := 0x40000000.

Definition ED_UB_ADD : Z := 0x01.
Definition ED_UB_DEL : Z := 0x02.
Definition ED_UB_CHAIN : Z := 0x08.
Definition ED_UB_CHUNK : Z := 0x10.
Definition ED_UB_FIRSTMOD : Z := 0x20.
Definition ED_UB_SAVE : Z := 0x40.

(** [ED_CmdId] *)
Definition ED_StartId : Z := 1.
Definition ED_InsertId : Z := 6.
Definition ED_KillId : Z := 8.
Definition ED_YankId : Z := 9.
Definition ED_ExecId : Z := 10.
Definition ED_UndoId : Z := 11.

(** [F & X] as a C truth value, [F |= X], [F &= ~X]. *)
Definition has (F X : Z) : bool := negb (Z.land F X =? 0).
Definition setf (F X : Z) : Z := Z.lor F X.
Definition clrf (F X : Z) : Z := Z.ldiff F X.

(** ** Records *)

(** [ED_UBlockRecord]; [Data] holds the bytes of a DEL block. *)
Record ED_UBlockRecord := mkUBlock {
  PrevUBlock : Z;
  DataPos : Z;
  DataLen : Z;
  UBFlags : Z;
  Data : list Z
}.

(** [ED_USlabRecord].  [SlabAddr] stands for the address malloc returned (the
    source compares slab pointers); [UBlocks] maps the byte offset of each
    block written so far to its contents.  [NextUSP]/[PrevUSP] are the
    neighbours in the buffer's slab list. *)
Record ED_USlabRecord := mkUSlab {
  SlabAddr : Z;
  SlabSize : Z;
  LastUBlock : Z;
  UBlocks : list (Z * ED_UBlockRecord)
}.

(** [ED_BufferRecord].  [USlabs] is the chain [FirstUSP .. LastUSP]; the empty
    list is [LastUSP == NULL]. *)
Record ED_BufferRecord := mkBuffer {
  Flags : Z;
  Mem : list Z;
  BufEndP : Z;
  GapStartP : Z;
  GapEndP : Z;
  USlabs : list ED_USlabRecord;
  USCount : Z;
  USTotalSize : Z;
  LastPos : Z;
  PaneRefCount : Z;
  MarkRingIndex : Z;
  MarkRingArr : list Z
}.

Definition set_Flags (b : ED_BufferRecord) (v : Z) : ED_BufferRecord :=
  mkBuffer v (Mem b) (BufEndP b) (GapStartP b) (GapEndP b) (USlabs b)
           (USCount b) (USTotalSize b) (LastPos b) (PaneRefCount b)
           (MarkRingIndex b) (MarkRingArr b).

Definition set_store (b : ED_BufferRecord) (m : list Z) (e gs ge : Z)
  : ED_BufferRecord :=
  mkBuffer (Flags b) m e gs ge (USlabs b) (USCount b) (USTotalSize b)
           (LastPos b) (PaneRefCount b) (MarkRingIndex b) (MarkRingArr b).

Definition set_Mem (b : ED_BufferRecord) (m : list Z) : ED_BufferRecord :=
  set_store b m (BufEndP b) (GapStartP b) (GapEndP b).

Definition set_GapStartP (b : ED_BufferRecord) (v : Z) : ED_BufferRecord :=
  set_store b (Mem b) (BufEndP b) v (GapEndP b).

Definition set_GapEndP (b : ED_BufferRecord) (v : Z) : ED_BufferRecord :=
  set_store b (Mem b) (BufEndP b) (GapStartP b) v.

Definition set_undo (b : ED_BufferRecord) (s : list ED_USlabRecord) (c t : Z)
  : ED_BufferRecord :=
  mkBuffer (Flags b) (Mem b) (BufEndP b) (GapStartP b) (GapEndP b) s c t
           (LastPos b) (PaneRefCount b) (MarkRingIndex b) (MarkRingArr b).

Definition set_USlabs (b : ED_BufferRecord) (s : list ED_USlabRecord)
  : ED_BufferRecord := set_undo b s (USCount b) (USTotalSize b).

Definition set_LastPos (b : ED_BufferRecord) (v : Z) : ED_BufferRecord :=
  mkBuffer (Flags b) (Mem b) (BufEndP b) (GapStartP b) (GapEndP b) (USlabs b)
           (USCount b) (USTotalSize b) v (PaneRefCount b)
           (MarkRingIndex b) (MarkRingArr b).

Definition set_marks (b : ED_BufferRecord) (i : Z) (a : list Z)
  : ED_BufferRecord :=
  mkBuffer (Flags b) (Mem b) (BufEndP b) (GapStartP b) (GapEndP b) (USlabs b)
           (USCount b) (USTotalSize b) (LastPos b) (PaneRefCount b) i a.

(** ** The gap buffer *)

(** The logical text: the bytes before the gap, then the bytes after it. *)
Definition buf_text (b : ED_BufferRecord) : list Z :=
  sub (Mem b) 0 (GapStartP b) ++ sub (Mem b) (GapEndP b) (BufEndP b - GapEndP b).

(** Capacity and text length as the spec's data model has them. *)
Definition capacity (b : ED_BufferRecord) : Z := BufEndP b.
Definition gap_size (b : ED_BufferRecord) : Z := GapEndP b - GapStartP b.
Definition text_length (b : ED_BufferRecord) : Z := capacity b - gap_size b.

(** The representation invariant of a buffer's storage. *)
Definition buf_wf (b : ED_BufferRecord) : Prop :=
  0 <= GapStartP b /\ GapStartP b <= GapEndP b /\ GapEndP b <= BufEndP b /\
  BufEndP b = Z.of_nat (length (Mem b)) /\
  LastPos b = text_length b.

(** [#define ED_SLIDEDOWN(P, Len, Delta) memmove(P + Delta, P, Len)] *)
Definition ED_SLIDEDOWN (m : list Z) (P Len Delta : Z) : list Z :=
  memmove m (P + Delta) P Len.

(** [ED_BufferPlaceGap] *)
Definition ED_BufferPlaceGap (BufP : ED_BufferRecord) (Offset Len : Z)
  : ED_BufferRecord :=
  let Len := if Len <? 0 then 0 else Len in
  let OldGapLen := GapEndP BufP - GapStartP BufP in
  if OldGapLen <? Len then
    let NewGapLen := Len + ED_GAPEXTRAEXPAND in
    let NewMemLen := (BufEndP BufP - 0) + (NewGapLen - OldGapLen) in
    let NewMem := realloc (Mem BufP) NewMemLen in
    let NewGapStartP := 0 + Offset in
    let GapMove := NewGapStartP - GapStartP BufP in
    let m :=
      if GapMove =? 0 then
        ED_SLIDEDOWN NewMem (GapEndP BufP) (BufEndP BufP - GapEndP BufP)
                     (NewGapLen - OldGapLen)
      else if GapMove <? 0 then
        let m1 := ED_SLIDEDOWN NewMem (GapEndP BufP)
                               (BufEndP BufP - GapEndP BufP)
                               (NewGapLen - OldGapLen) in
        ED_SLIDEDOWN m1 NewGapStartP (- GapMove) NewGapLen
      else
        let m1 := ED_SLIDEDOWN NewMem (GapEndP BufP + GapMove)
                               (BufEndP BufP - (GapEndP BufP + GapMove))
                               (NewGapLen - OldGapLen) in
        ED_SLIDEDOWN m1 (GapEndP BufP) GapMove (- OldGapLen) in
    set_store BufP m (0 + NewMemLen) NewGapStartP (NewGapStartP + NewGapLen)
  else
    let NewGapStartP := 0 + Offset in
    if negb (NewGapStartP =? GapStartP BufP) then
      let GapMove := NewGapStartP - GapStartP BufP in
      let m :=
        if GapMove <? 0 then
          ED_SLIDEDOWN (Mem BufP) NewGapStartP (- GapMove) OldGapLen
        else
          ED_SLIDEDOWN (Mem BufP) (GapEndP BufP) GapMove (- OldGapLen) in
      set_store BufP m (BufEndP BufP) NewGapStartP (NewGapStartP + OldGapLen)
    else BufP.

(** [ED_BufferGetUTF8Len] *)
Definition ED_BufferGetUTF8Len (C : Z) : Z :=
  if Uns8 C <=? 127 then 1
  else if (192 <=? Uns8 C) && (Uns8 C <? 224) then 2
  else if (224 <=? Uns8 C) && (Uns8 C <? 240) then 3
  else if (240 <=? Uns8 C) && (Uns8 C <? 248) then 4
  else 1.

(** [#define ED_BUFFERISMIDUTF8(C) (((Uns8)C & 0xC0) == 0x80)] *)
Definition ED_BUFFERISMIDUTF8 (C : Z) : bool :=
  Z.land (Uns8 C) 0xC0 =? 0x80.

(** [ED_BufferCIsAlpha] *)
Definition ED_BufferCIsAlpha (C : Z) : bool :=
  if Uns8 C <? 48 then false
  else if Uns8 C <? 57 + 1 then true
  else if Uns8 C <? 65 then false
  else if Uns8 C <? 90 + 1 then true
  else if Uns8 C <? 97 then false
  else if Uns8 C <? 122 + 1 then true
  else if Uns8 C <? 128 then false
  else true.

(** [ED_BufferPosToPtr] *)
Definition ED_BufferPosToPtr (BufP : ED_BufferRecord) (Pos : Z) : Z :=
  let P := 0 + Pos in
  if P >=? GapStartP BufP then P + (GapEndP BufP - GapStartP BufP) else P.

(** [*ED_BufferPosToPtr(BufP, Pos)] *)
Definition byte_at (BufP : ED_BufferRecord) (Pos : Z) : Z :=
  rd (Mem BufP) (ED_BufferPosToPtr BufP Pos).

(** [ED_BufferGetLineEndPos]: the [while (CurPos < BufP->LastPos)] loop, one
    unit of fuel per iteration. *)
Fixpoint LineEndPos_loop (fuel : nat) (BufP : ED_BufferRecord) (CurPos : Z)
  : option Z :=
  match fuel with
  | O => None
  | S f =>
      if CurPos <? LastPos BufP then
        let C := byte_at BufP CurPos in
        if C =? 10 then Some CurPos
        else LineEndPos_loop f BufP (CurPos + ED_BufferGetUTF8Len C)
      else Some CurPos
  end.

Definition ED_BufferGetLineEndPos (fuel : nat) (BufP : ED_BufferRecord)
  (OldPos : Z) : option Z :=
  if OldPos =? LastPos BufP then Some (LastPos BufP)
  else LineEndPos_loop fuel BufP OldPos.

(** The second loop of [ED_BufferGetLineLen] (characters up to the hard end
    of the line). *)
Fixpoint LineLen_loop (fuel : nat) (BufP : ED_BufferRecord) (CurPos Count : Z)
  : option Z :=
  match fuel with
  | O => None
  | S f =>
      if CurPos <? LastPos BufP then
        let C := byte_at BufP CurPos in
        if C =? 10 then Some Count
        else LineLen_loop f BufP (CurPos + ED_BufferGetUTF8Len C) (Count + 1)
      else Some Count
  end.

(** ** Incremental search: matching *)

(** The incremental-search globals.  [ED_ISStr] is the pattern without its
    terminating NUL; [ED_ISStrLen] is kept equal to its length by every
    writer in the source, and is read off the list here.  [ED_ISPaneP] is
    [None] for NULL. *)
Record ED_ISRecord := mkIS {
  ED_ISPaneP : option Z;
  ED_ISDir : Z;
  ED_ISStr : list Z;
  ED_ISCaseSen : Z;
  ED_ISPrevStr : list Z;
  ED_ISMatchPos : Z;
  ED_ISSearchPos : Z;
  ED_ISAltPos : Z;
  ED_ISOriginPos : Z;
  ED_ISDoWrap : Z
}.

Definition ED_ISStrLen (s : ED_ISRecord) : Z := Z.of_nat (length (ED_ISStr s)).

Definition set_ISDoWrap (s : ED_ISRecord) (v : Z) : ED_ISRecord :=
  mkIS (ED_ISPaneP s) (ED_ISDir s) (ED_ISStr s) (ED_ISCaseSen s)
       (ED_ISPrevStr s) (ED_ISMatchPos s) (ED_ISSearchPos s) (ED_ISAltPos s)
       (ED_ISOriginPos s) v.

Definition set_ISCaseSen (s : ED_ISRecord) (v : Z) : ED_ISRecord :=
  mkIS (ED_ISPaneP s) (ED_ISDir s) (ED_ISStr s) v
       (ED_ISPrevStr s) (ED_ISMatchPos s) (ED_ISSearchPos s) (ED_ISAltPos s)
       (ED_ISOriginPos s) (ED_ISDoWrap s).

Definition set_ISStr (s : ED_ISRecord) (v : list Z) : ED_ISRecord :=
  mkIS (ED_ISPaneP s) (ED_ISDir s) v (ED_ISCaseSen s)
       (ED_ISPrevStr s) (ED_ISMatchPos s) (ED_ISSearchPos s) (ED_ISAltPos s)
       (ED_ISOriginPos s) (ED_ISDoWrap s).

Definition set_ISPos (s : ED_ISRecord) (m p : Z) : ED_ISRecord :=
  mkIS (ED_ISPaneP s) (ED_ISDir s) (ED_ISStr s) (ED_ISCaseSen s)
       (ED_ISPrevStr s) m p (ED_ISAltPos s) (ED_ISOriginPos s) (ED_ISDoWrap s).

Definition set_ISPaneP (s : ED_ISRecord) (v : option Z) : ED_ISRecord :=
  mkIS v (ED_ISDir s) (ED_ISStr s) (ED_ISCaseSen s)
       (ED_ISPrevStr s) (ED_ISMatchPos s) (ED_ISSearchPos s) (ED_ISAltPos s)
       (ED_ISOriginPos s) (ED_ISDoWrap s).

(** The test inside the loop of [ED_ISCheckMatch]: [true] when the buffer
    byte [C] fails to match the pattern byte [M].  The comparisons are on
    plain [char], hence signed. *)
Definition IS_mismatch (CaseSen C M : Z) : bool :=
  if negb (Int8 C =? Int8 M) then
    if negb (CaseSen =? 0) then true
    else (Int8 C <? 65) || (90 <? Int8 C) || negb (Int8 C + 97 - 65 =? Int8 M)
  else false.

(** The loop of [ED_ISCheckMatch] from label [DoRest]: [MatchP] is the part
    of the pattern still to match ([MatchLen] is its length).  When the
    [while] runs off [EndP] with [LoopBack] set, the scan resumes after the
    gap. *)
Fixpoint ISCheck_loop (BufP : ED_BufferRecord) (CaseSen : Z) (MatchP : list Z)
  (CurP EndP : Z) (LoopBack : bool) : bool :=
  match MatchP with
  | [] => true
  | M :: MatchP' =>
      let '(CurP, EndP, LoopBack, more) :=
        if CurP <? EndP then (CurP, EndP, LoopBack, true)
        else if LoopBack then
          (GapEndP BufP, BufEndP BufP, false, GapEndP BufP <? BufEndP BufP)
        else (CurP, EndP, LoopBack, false) in
      if negb more then false
      else if IS_mismatch CaseSen (rd (Mem BufP) CurP) M then false
      else ISCheck_loop BufP CaseSen MatchP' (CurP + 1) EndP LoopBack
  end.

(** [ED_ISCheckMatch] *)
Definition ED_ISCheckMatch (s : ED_ISRecord) (BufP : ED_BufferRecord) (Pos : Z)
  : bool :=
  if ED_ISStrLen s =? 0 then false
  else
    let CurP := 0 + Pos in
    if CurP >=? GapStartP BufP then
      ISCheck_loop BufP (ED_ISCaseSen s) (ED_ISStr s)
                   (CurP + (GapEndP BufP - GapStartP BufP)) (BufEndP BufP) false
    else
      ISCheck_loop BufP (ED_ISCaseSen s) (ED_ISStr s) CurP (GapStartP BufP) true.

(** The [while (CurPos < BufP->LastPos)] loop of [ED_ISMatchForward]; [n]
    counts the positions left before [LastPos]. *)
Fixpoint ISForward_loop (n : nat) (s : ED_ISRecord) (BufP : ED_BufferRecord)
  (CurPos : Z) : Z :=
  match n with
  | O => -1
  | S n' =>
      if ED_ISCheckMatch s BufP CurPos then CurPos
      else ISForward_loop n' s BufP (CurPos + 1)
  end.

(** [ED_ISMatchForward]; the result carries the updated globals
    ([ED_ISDoWrap]). *)
Definition ED_ISMatchForward (s : ED_ISRecord) (BufP : ED_BufferRecord)
  (StartPos : Z) : ED_ISRecord * Z :=
  if negb (ED_ISDoWrap s =? 0) then
    (set_ISDoWrap s 0,
     ISForward_loop (Z.to_nat (LastPos BufP - 0)) (set_ISDoWrap s 0) BufP 0)
  else
    let CurPos := if StartPos <? 0 then 0 else StartPos in
    if (0 <=? StartPos) && (StartPos >=? LastPos BufP) then (s, -1)
    else (s, ISForward_loop (Z.to_nat (LastPos BufP - CurPos)) s BufP CurPos).

(** The [while (CurPos)] loop of [ED_ISMatchBackward], entered with
    [CurPos = Z.of_nat n]: it stops, without testing it, at position 0. *)
Fixpoint ISBackward_loop (n : nat) (s : ED_ISRecord) (BufP : ED_BufferRecord)
  : Z :=
  match n with
  | O => -1
  | S n' =>
      if ED_ISCheckMatch s BufP (Z.of_nat n) then Z.of_nat n
      else ISBackward_loop n' s BufP
  end.

(** [ED_ISMatchBackward].  Entering the loop with a negative [CurPos] (a
    wrap with a pattern longer than the text) scans below the buffer until
    the counter overflows; that run is undefined and is [None] here. *)
Definition ED_ISMatchBackward (s : ED_ISRecord) (BufP : ED_BufferRecord)
  (StartPos : Z) : option (ED_ISRecord * Z) :=
  let CurPos := StartPos - 1 in
  if negb (ED_ISDoWrap s =? 0) then
    let CurPos := LastPos BufP - ED_ISStrLen s in
    if CurPos <? 0 then None
    else Some (set_ISDoWrap s 0,
               ISBackward_loop (Z.to_nat CurPos) (set_ISDoWrap s 0) BufP)
  else if CurPos <? 0 then
    let CurPos := LastPos BufP - ED_ISStrLen s in
    if CurPos <? 0 then Some (s, -1)
    else Some (s, ISBackward_loop (Z.to_nat CurPos) s BufP)
  else if CurPos >? LastPos BufP - ED_ISStrLen s then Some (s, -1)
  else Some (s, ISBackward_loop (Z.to_nat CurPos) s BufP).

(** The case-sensitivity decisions.  [ED_ISHandleChars], branch "Insert
    other Chars": a typed character [SymChar] in ['A'..'Z'] switches the
    flag on. *)
Definition ISHandleChars_CaseSen (s : ED_ISRecord) (SymChar : Z) : ED_ISRecord :=
  if (65 <=? SymChar) && (SymChar <=? 90) then set_ISCaseSen s 1 else s.

(** [ED_QREPStart]: the [for] loop that scans the from-string; note the
    strict [< 'Z']. *)
Fixpoint QREPStart_CaseSen (Str : list Z) : Z :=
  match Str with
  | [] => 0
  | C :: Str' =>
      if (65 <=? Int8 C) && (Int8 C <? 90) then 1 else QREPStart_CaseSen Str'
  end.

(** "The pattern contains an uppercase ASCII letter, 'A' through 'Z'
    inclusive": the condition of the specification. *)
Definition has_upper (Str : list Z) : bool :=
  existsb (fun C => (65 <=? C) && (C <=? 90)) Str.

(** ** The command line ([main] of [sc_Main.c]) *)

(** What [ED_EditorOpenFile] does with a path it managed to open. *)
Inductive OpenAction :=
| InInitialFrame (path : list Z)   (* [ED_PaneGetNewBuf (ED_FirstFrameP->FirstPaneP, BufP)] *)
| InNewFrame (path : list Z).      (* [ED_FrameNew (...)] *)

(** [ED_EditorOpenFile]: [readable] stands for the file system (path
    normalisation, [realpath], [open] and [ED_BufferReadFile] all
    succeeding, or the buffer being there already); on failure the function
    returns without any effect. *)
Definition ED_EditorOpenFile (readable : list Z -> bool) (PathP : list Z)
  (NewFrame : bool) : list OpenAction :=
  if readable PathP then
    if NewFrame then [InNewFrame PathP] else [InInitialFrame PathP]
  else [].

(** The [while (OpenInitCount < ArgC)] loop of [main]; [args] are
    [ArgV[OpenInitCount ..]]. *)
Fixpoint main_loop (readable : list Z -> bool) (OpenInitCount : Z)
  (args : list (list Z)) : list OpenAction :=
  match args with
  | [] => []
  | CP :: rest =>
      (match CP with
       | C :: _ =>
           if negb (C =? 45) then
             ED_EditorOpenFile readable CP (OpenInitCount >? 1)
           else []
       | [] => []
       end) ++ main_loop readable (OpenInitCount + 1) rest
  end.

(** [main]: [ArgV[0]] is the program name. *)
Definition main (readable : list Z -> bool) (ArgV : list (list Z))
  : list OpenAction :=
  main_loop readable 1 (tl ArgV).

(** The arguments [main] does not ignore. *)
Definition is_path (CP : list Z) : bool :=
  match CP with
  | C :: _ => negb (C =? 45)
  | [] => false
  end.

(** ** Key bindings and the dispatcher's globals *)

(** X11 modifier masks. *)
Definition ShiftMask : Z := 1.
Definition LockMask : Z := 2.
Definition ControlMask : Z := 4.
Definition Mod1Mask : Z := 8.
Definition Mod4Mask : Z := 64.

(** A binding record: [KeyStr] (without its NUL) and the function it is
    bound to, [(Uns64) FRegP->FuncP]. *)
Definition ED_FBindRecord : Type := (list Z * Z)%type.

(** The dispatcher's globals.  [ED_CmdBindP] is the part of the sorted
    binding list from the record it points at ([[]] for NULL).  The bytes
    of [ED_CmdStr] past [ED_CmdLen] are dead and not kept; the array of the
    source has [ED_FBINDKEYSTRLEN] = 16 bytes, and a key sequence that
    outgrows it is outside the model. *)
Record ED_CmdRecord := mkCmd {
  ED_CmdLen : Z;
  ED_CmdBindP : list ED_FBindRecord;
  ED_CmdStr : list Z;
  ED_CmdEchoDelay : Z;
  ED_CmdShift : Z;
  ED_CmdMult : Z;
  ED_CmdMultNeg : Z;
  ED_CmdMultCmd : Z;
  ED_CmdMultDigit : Z;
  ED_CmdMultIn : Z;
  ED_CmdMultLen : Z;
  ED_CmdThisId : Z;
  ED_CmdLastId : Z
}.

Definition set_CmdLen (c : ED_CmdRecord) (v : Z) : ED_CmdRecord :=
  mkCmd v (ED_CmdBindP c) (ED_CmdStr c) (ED_CmdEchoDelay c) (ED_CmdShift c)
        (ED_CmdMult c) (ED_CmdMultNeg c) (ED_CmdMultCmd c) (ED_CmdMultDigit c)
        (ED_CmdMultIn c) (ED_CmdMultLen c) (ED_CmdThisId c) (ED_CmdLastId c).

Definition set_CmdEchoDelay (c : ED_CmdRecord) (v : Z) : ED_CmdRecord :=
  mkCmd (ED_CmdLen c) (ED_CmdBindP c) (ED_CmdStr c) v (ED_CmdShift c)
        (ED_CmdMult c) (ED_CmdMultNeg c) (ED_CmdMultCmd c) (ED_CmdMultDigit c)
        (ED_CmdMultIn c) (ED_CmdMultLen c) (ED_CmdThisId c) (ED_CmdLastId c).

Definition set_CmdStr (c : ED_CmdRecord) (s : list Z) : ED_CmdRecord :=
  mkCmd (Z.of_nat (length s)) (ED_CmdBindP c) s (ED_CmdEchoDelay c)
        (ED_CmdShift c) (ED_CmdMult c) (ED_CmdMultNeg c) (ED_CmdMultCmd c)
        (ED_CmdMultDigit c) (ED_CmdMultIn c) (ED_CmdMultLen c)
        (ED_CmdThisId c) (ED_CmdLastId c).

Definition set_CmdBindP (c : ED_CmdRecord) (b : list ED_FBindRecord)
  : ED_CmdRecord :=
  mkCmd (ED_CmdLen c) b (ED_CmdStr c) (ED_CmdEchoDelay c) (ED_CmdShift c)
        (ED_CmdMult c) (ED_CmdMultNeg c) (ED_CmdMultCmd c) (ED_CmdMultDigit c)
        (ED_CmdMultIn c) (ED_CmdMultLen c) (ED_CmdThisId c) (ED_CmdLastId c).

(** [ED_CmdMult], [ED_CmdMultNeg], [ED_CmdMultCmd], [ED_CmdMultDigit],
    [ED_CmdMultIn] at once. *)
Definition set_CmdMults (c : ED_CmdRecord) (mult neg cmd digit inn : Z)
  : ED_CmdRecord :=
  mkCmd (ED_CmdLen c) (ED_CmdBindP c) (ED_CmdStr c) (ED_CmdEchoDelay c)
        (ED_CmdShift c) mult neg cmd digit inn (ED_CmdMultLen c)
        (ED_CmdThisId c) (ED_CmdLastId c).

Definition set_CmdMultLen (c : ED_CmdRecord) (v : Z) : ED_CmdRecord :=
  mkCmd (ED_CmdLen c) (ED_CmdBindP c) (ED_CmdStr c) (ED_CmdEchoDelay c)
        (ED_CmdShift c) (ED_CmdMult c) (ED_CmdMultNeg c) (ED_CmdMultCmd c)
        (ED_CmdMultDigit c) (ED_CmdMultIn c) v
        (ED_CmdThisId c) (ED_CmdLastId c).

Definition set_CmdIds (c : ED_CmdRecord) (shift this last : Z) : ED_CmdRecord :=
  mkCmd (ED_CmdLen c) (ED_CmdBindP c) (ED_CmdStr c) (ED_CmdEchoDelay c)
        shift (ED_CmdMult c) (ED_CmdMultNeg c) (ED_CmdMultCmd c)
        (ED_CmdMultDigit c) (ED_CmdMultIn c) (ED_CmdMultLen c) this last.

(** [ED_FRegBindCompare] on the two C strings. *)
Fixpoint ED_FRegBindCompare (EntryP KeyStrP : list Z) : Z :=
  match EntryP, KeyStrP with
  | E :: EntryP', K :: KeyStrP' =>
      if Uns8 E <? Uns8 K then -1
      else if Uns8 E >? Uns8 K then 0
      else ED_FRegBindCompare EntryP' KeyStrP'
  | _ :: _, [] => -1
  | [], _ :: _ => 1
  | [], [] => 99
  end.

(** [ED_FRegFindBinding]: the new [*StartBPP] and the result. *)
Fixpoint ED_FRegFindBinding (StartBPP : list ED_FBindRecord) (KeyStrP : list Z)
  : list ED_FBindRecord * Z :=
  match StartBPP with
  | [] => ([], -1)
  | B :: rest =>
      let Res := ED_FRegBindCompare KeyStrP (fst B) in
      if negb (Res =? 0) then (StartBPP, Res)
      else ED_FRegFindBinding rest KeyStrP
  end.

(** A C string stops at its first NUL. *)
Fixpoint cstr (s : list Z) : list Z :=
  match s with
  | [] => []
  | C :: s' => if C =? 0 then [] else C :: cstr s'
  end.

(** How a call of [ED_FrameCommandMatch] ends. *)
Inductive CmdOutcome :=
| Pending                      (* returns 0: prefix or partial match, keep typing *)
| InsertChar                   (* returns 1: the key is text to insert *)
| BadEcho (Error : Z)          (* [ED_FrameCommandBadEcho (.., Error)], returns 0 *)
| Invoked (FuncP Mult MultNeg MultCmd : Z).
                               (* the bound function was called with these globals *)

(** The bytes one key press appends to [ED_CmdStr], and the local [C]. *)
Definition key_bytes (SymChar Mods : Z) : list Z * Z :=
  let m1 := if has Mods ControlMask then [ED_CTLCOMMANDCODE] else [] in
  let m2 := if has Mods Mod1Mask then [ED_ALTCOMMANDCODE] else [] in
  let m3 := if has Mods Mod4Mask then [ED_SUPCOMMANDCODE] else [] in
  let '(x, C) :=
    if SymChar =? 0xff0d then ([], 0x0d)
    else if has SymChar 0xff00 then
      ([ED_EXTCOMMANDCODE], Int8 (Z.land SymChar 0x00ff))
    else
      let C := Int8 SymChar in
      ([], if (65 <=? C) && (C <=? 90) then C + (97 - 65) else C) in
  (m1 ++ m2 ++ m3 ++ x ++ [Uns8 C], C).

(** The dispatcher's globals as the program starts. *)
Definition Cmd_init : ED_CmdRecord :=
  mkCmd 0 [] [] 0 0 1 0 0 0 0 0 0 ED_StartId.

(** ** Panes, selection, echo line *)

(** [ED_PaneRecord], with [FrameP->RowChars] of its frame.  [PaneAddr] is
    the pane's address and [PaneBufP] the address of its buffer: the source
    compares both as pointers. *)
Record ED_PaneRecord := mkPane {
  PaneAddr : Z;
  PaneBufP : Z;
  RowChars : Z;
  CursorPos : Z;
  PanePos : Z;
  CursorRow : Z;
  CursorCol : Z;
  StartRowCount : Z;
  BufRowCount : Z;
  RowCount : Z
}.

Definition set_CursorPos (p : ED_PaneRecord) (v : Z) : ED_PaneRecord :=
  mkPane (PaneAddr p) (PaneBufP p) (RowChars p) v (PanePos p) (CursorRow p)
         (CursorCol p) (StartRowCount p) (BufRowCount p) (RowCount p).

Definition set_PanePos (p : ED_PaneRecord) (v : Z) : ED_PaneRecord :=
  mkPane (PaneAddr p) (PaneBufP p) (RowChars p) (CursorPos p) v (CursorRow p)
         (CursorCol p) (StartRowCount p) (BufRowCount p) (RowCount p).

Definition set_CursorRC (p : ED_PaneRecord) (r c : Z) : ED_PaneRecord :=
  mkPane (PaneAddr p) (PaneBufP p) (RowChars p) (CursorPos p) (PanePos p) r c
         (StartRowCount p) (BufRowCount p) (RowCount p).

Definition set_StartRowCount (p : ED_PaneRecord) (v : Z) : ED_PaneRecord :=
  mkPane (PaneAddr p) (PaneBufP p) (RowChars p) (CursorPos p) (PanePos p)
         (CursorRow p) (CursorCol p) v (BufRowCount p) (RowCount p).

Definition set_BufRowCount (p : ED_PaneRecord) (v : Z) : ED_PaneRecord :=
  mkPane (PaneAddr p) (PaneBufP p) (RowChars p) (CursorPos p) (PanePos p)
         (CursorRow p) (CursorCol p) (StartRowCount p) v (RowCount p).

(** The selection globals; [ED_SelPaneP] is a pane address or NULL. *)
Record ED_SelRecord := mkSel {
  ED_SelPaneP : option Z;
  ED_SelMarkPos : Z;
  ED_SelMarkCol : Z;
  ED_SelMarkRow : Z
}.

Definition sel_is (s : ED_SelRecord) (PaneP : ED_PaneRecord) : bool :=
  match ED_SelPaneP s with
  | Some a => a =? PaneAddr PaneP
  | None => false
  end.

(** The echo line: [ED_FrameEchoS], [ED_FrameEchoLen], [ED_FrameEchoMode]. *)
Record ED_EchoRecord := mkEcho {
  ED_FrameEchoS : list Z;
  ED_FrameEchoLen : Z;
  ED_FrameEchoMode : Z
}.

Definition ED_ECHOMSGMODE : Z := 0.
Definition ED_ECHOERRORMODE : Z := 1.
Definition ED_ECHOPROMPTMODE : Z := 2.
Definition ED_MSGSTRLEN : Z := 256.

Definition ED_STR_EchoBegBuf : list Z := bytes_of "Beginning of buffer"%string.
Definition ED_STR_EchoEndBuf : list Z := bytes_of "End of buffer"%string.
Definition ED_STR_EchoReadOnly : list Z := bytes_of "Buffer is read only!"%string.
Definition ED_STR_EchoMarkSet : list Z := bytes_of "Mark set"%string.
Definition ED_STR_EchoBufNoUndo : list Z :=
  bytes_of "Undo has been disabled, 'M-x reset-undo' to turn back on!"%string.
Definition ED_STR_EchoUndoNoMore : list Z :=
  bytes_of "Reached limit of Undo history"%string.

(** [ED_FrameSetEchoS] *)
Definition ED_FrameSetEchoS (Mode : Z) (SourceP : list Z) : ED_EchoRecord :=
  mkEcho SourceP (Z.of_nat (length SourceP)) Mode.

(** [ED_FrameSPrintEchoS] once [vsnprintf] has rendered [text]: at most
    [ED_MSGSTRLEN - 2] bytes are stored, the full length is returned. *)
Definition ED_FrameSPrintEchoS (Mode : Z) (text : list Z) : ED_EchoRecord :=
  mkEcho (firstn (Z.to_nat (ED_MSGSTRLEN - 2)) text) (Z.of_nat (length text)) Mode.

(** [ED_FrameEchoLen = 0] *)
Definition Echo_clear (e : ED_EchoRecord) : ED_EchoRecord :=
  mkEcho (ED_FrameEchoS e) 0 (ED_FrameEchoMode e).

(** What the frame's echo line displays after [ED_FrameDrawEchoLine]
    (outside a mini-query): nothing when [ED_FrameEchoLen] is 0. *)
Definition echo_shown (e : ED_EchoRecord) : list Z :=
  if ED_FrameEchoLen e =? 0 then []
  else firstn (Z.to_nat (ED_FrameEchoLen e)) (ED_FrameEchoS e).

(** [printf ("%d")] *)
Fixpoint fmt_digits (fuel : nat) (n : Z) (acc : list Z) : list Z :=
  match fuel with
  | O => acc
  | S f =>
      let acc := (48 + n mod 10) :: acc in
      if n / 10 =? 0 then acc else fmt_digits f (n / 10) acc
  end.

Definition fmt_d (n : Z) : list Z :=
  if n <? 0 then 45 :: fmt_digits 20 (- n) [] else fmt_digits 20 n [].

(** ** Mark ring *)

(** [A[i] = v] on a C array. *)
Fixpoint upd {A : Type} (l : list A) (i : nat) (v : A) : list A :=
  match l, i with
  | [], _ => []
  | _ :: l', O => v :: l'
  | x :: l', S i' => x :: upd l' i' v
  end.

(** [ED_BufferPushMark]; the echo message is returned with the buffer. *)
Definition ED_BufferPushMark (BufP : ED_BufferRecord) (Pos : Z)
  : ED_BufferRecord * ED_EchoRecord :=
  let BufP :=
    if negb (nth (Z.to_nat (MarkRingIndex BufP)) (MarkRingArr BufP) 0 =? Pos)
    then
      let i := Z.land (MarkRingIndex BufP + 1) ED_MARKRINGMASK in
      set_marks BufP i (upd (MarkRingArr BufP) (Z.to_nat i) Pos)
    else BufP in
  (BufP, ED_FrameSetEchoS ED_ECHOMSGMODE ED_STR_EchoMarkSet).

(** [ED_BufferUpdateMark] *)
Definition ED_BufferUpdateMark (BufP : ED_BufferRecord) (Pos Delta : Z)
  : ED_BufferRecord :=
  set_marks BufP (MarkRingIndex BufP)
    (map (fun RAP =>
            if RAP >=? Pos then
              let RAP := RAP + Delta in
              if RAP <? Pos then Pos else RAP
            else RAP)
         (MarkRingArr BufP)).

(** ** Layout: rows, columns and positions *)

(** How the scan of [ED_PaneFindLoc] ends. *)
Inductive FindLocExit :=
| FoundIt (CurRow CurCol RowStartPos : Z)    (* [goto FoundIt] *)
| OffPane (FinalPos : Z)                     (* the [PaneLimit] return *)
| EndOfBuf (CurRow CurCol RowStartPos : Z).  (* the scan ran off the buffer *)

(** The scan of [ED_PaneFindLoc] from label [DoRest].  Every iteration moves
    [CurP] forward and the jump over the gap is taken once, so
    [length Mem + 2] units of fuel are never used up. *)
Fixpoint FindLoc_loop (fuel : nat) (BufP : ED_BufferRecord)
  (Pos ColLimit LastRow : Z) (PaneLimit : bool)
  (CurP EndP CurPos CurRow CurCol RowStartPos FinalPos : Z) : FindLocExit :=
  match fuel with
  | O => EndOfBuf CurRow (CurCol + 1) RowStartPos
  | S f =>
      if CurP <? EndP then
        let C := rd (Mem BufP) CurP in
        let CurCol := CurCol + 1 in
        if (C =? 10) && (CurPos =? Pos) then FoundIt CurRow CurCol RowStartPos
        else
          let '(CurRow, CurCol, FinalPos, RowStartPos) :=
            if C =? 10 then (CurRow + 1, 0, RowStartPos, CurPos + 1)
            else (CurRow, CurCol, FinalPos, RowStartPos) in
          let '(CurRow, CurCol, FinalPos, RowStartPos) :=
            if CurCol >? ColLimit then (CurRow + 1, 1, RowStartPos, CurPos)
            else (CurRow, CurCol, FinalPos, RowStartPos) in
          if PaneLimit && (CurRow >? LastRow) then OffPane FinalPos
          else if CurPos =? Pos then FoundIt CurRow CurCol RowStartPos
          else
            let L := ED_BufferGetUTF8Len C in
            FindLoc_loop f BufP Pos ColLimit LastRow PaneLimit
                         (CurP + L) EndP (CurPos + L) CurRow CurCol
                         RowStartPos FinalPos
      else if EndP <? BufEndP BufP then
        FindLoc_loop f BufP Pos ColLimit LastRow PaneLimit
                     (GapEndP BufP) (BufEndP BufP) CurPos CurRow CurCol
                     RowStartPos FinalPos
      else EndOfBuf CurRow (CurCol + 1) RowStartPos
  end.

(** [ED_PaneFindLoc]: the returned position, [*RowP] and [*ColP].
    ([FinalPos] is read uninitialised by the source when the [PaneLimit]
    exit is taken before any row ended; it is 0 here.) *)
Definition ED_PaneFindLoc (PaneP : ED_PaneRecord) (BufP : ED_BufferRecord)
  (Pos : Z) (FromZero PaneLimit : bool) : Z * Z * Z :=
  let '(CurPos, CurRow) :=
    if FromZero || (Pos <? PanePos PaneP) then (0, 0)
    else (PanePos PaneP, StartRowCount PaneP) in
  let ColLimit := RowChars PaneP in
  let LastRow := StartRowCount PaneP + RowCount PaneP - 2 in
  let CurP0 := 0 + CurPos in
  let '(CurP, EndP) :=
    if CurP0 >=? GapStartP BufP
    then (CurP0 + (GapEndP BufP - GapStartP BufP), BufEndP BufP)
    else (CurP0, GapStartP BufP) in
  let finish CurRow CurCol RowStartPos :=
    let CurCol := if negb (CurCol =? 0) then CurCol - 1 else CurCol in
    let CurRow := if negb FromZero then CurRow - StartRowCount PaneP else CurRow in
    (RowStartPos, CurRow, CurCol) in
  match FindLoc_loop (length (Mem BufP) + 2) BufP Pos ColLimit LastRow PaneLimit
                     CurP EndP CurPos CurRow 0 CurPos 0 with
  | FoundIt r c s => finish r c s
  | EndOfBuf r c s => finish r c s
  | OffPane FinalPos => (FinalPos, -1, -1)
  end.

(** The loop [while (ED_BUFFERISMIDUTF8 (CurP[0])) CurP--, Pos--;].  Reads below the
    block give 0, which is no continuation byte, so the walk stops. *)
Fixpoint skip_mid_back (fuel : nat) (m : list Z) (CurP Pos : Z) : Z * Z :=
  match fuel with
  | O => (CurP, Pos)
  | S f =>
      if ED_BUFFERISMIDUTF8 (rd m CurP) then skip_mid_back f m (CurP - 1) (Pos - 1)
      else (CurP, Pos)
  end.

Definition skip_mid (BufP : ED_BufferRecord) (CurP Pos : Z) : Z * Z :=
  skip_mid_back (Z.to_nat CurP + 1) (Mem BufP) CurP Pos.

(** First loop of [ED_PaneUpdateStartPos]: back to the hard start of the
    line, counting characters.  Returns [(CurP, Pos, RowCount)].  The walk
    ends at position 0 at the latest; only a text that begins inside a
    UTF-8 sequence can step below 0, where the source is undefined. *)
Fixpoint StartPos_back (fuel : nat) (BufP : ED_BufferRecord)
  (OldRowChars CurP Pos Count : Z) : Z * Z * Z :=
  match fuel with
  | O => (CurP, Pos, Z.quot Count OldRowChars)
  | S f =>
      let '(CurP, Pos) := skip_mid BufP CurP Pos in
      let Count := Count + 1 in
      if Pos =? 0 then (CurP, Pos, Z.quot Count OldRowChars)
      else if rd (Mem BufP) CurP =? 10 then
        let Count := Count - 1 in
        let Pos := Pos + 1 in
        (ED_BufferPosToPtr BufP Pos, Pos, Z.quot Count OldRowChars)
      else
        let Pos := Pos - 1 in
        StartPos_back f BufP OldRowChars (ED_BufferPosToPtr BufP Pos) Pos Count
  end.

(** Second loop of [ED_PaneUpdateStartPos]: [while (Count--)]. *)
Fixpoint StartPos_fwd (Count : nat) (BufP : ED_BufferRecord)
  (NewRowChars CurP Pos PrevRowPos SubCount : Z) : Z :=
  match Count with
  | O => Pos
  | S Count' =>
      let Pos := Pos + ED_BufferGetUTF8Len (rd (Mem BufP) CurP) in
      let CurP := ED_BufferPosToPtr BufP Pos in
      if Pos =? LastPos BufP then Pos
      else if rd (Mem BufP) CurP =? 10 then PrevRowPos
      else
        let SubCount := SubCount + 1 in
        if SubCount =? NewRowChars
        then StartPos_fwd Count' BufP NewRowChars CurP Pos Pos 0
        else StartPos_fwd Count' BufP NewRowChars CurP Pos PrevRowPos SubCount
  end.

(** [ED_PaneUpdateStartPos] *)
Definition ED_PaneUpdateStartPos (PaneP : ED_PaneRecord) (BufP : ED_BufferRecord)
  (OldRowChars : Z) : ED_PaneRecord :=
  let NewRowChars := RowChars PaneP in
  let Pos := PanePos PaneP in
  if (Pos =? 0) || (OldRowChars =? NewRowChars) then PaneP
  else
    let Pos := Pos - 1 in
    let CurP := ED_BufferPosToPtr BufP Pos in
    if rd (Mem BufP) CurP =? 10 then PaneP
    else
      let OldRowChars := if OldRowChars =? 0 then NewRowChars else OldRowChars in
      let '(CurP, Pos, RowCount) :=
        StartPos_back (Z.to_nat Pos + 1) BufP OldRowChars CurP Pos 0 in
      set_PanePos PaneP
        (StartPos_fwd (Z.to_nat (RowCount * NewRowChars)) BufP NewRowChars
                      CurP Pos Pos 0).

(** [ED_BufferGetRowStartPos]: [while (I--)] with [I = Col]. *)
Fixpoint RowStartPos_loop (I : nat) (BufP : ED_BufferRecord) (CurPos : Z) : Z :=
  match I with
  | O => CurPos
  | S I' =>
      let CurPos := CurPos - 1 in
      let '(_, CurPos) := skip_mid BufP (ED_BufferPosToPtr BufP CurPos) CurPos in
      RowStartPos_loop I' BufP CurPos
  end.

Definition ED_BufferGetRowStartPos (BufP : ED_BufferRecord) (OldPos Col : Z) : Z :=
  RowStartPos_loop (Z.to_nat Col) BufP OldPos.

(** The [while (CurP >= EndP)] loop of [ED_BufferGetPosMinusRows] from label
    [DoRest]; [after] is the code both [break]s and the normal exit reach
    (the [if (Loop)] that restarts the scan below the gap).  Returns [Pos]
    and [RowCount]. *)
Fixpoint MinusRows_loop (fuel : nat) (BufP : ED_BufferRecord)
  (Rows ColLimit CurP EndP Pos RowCount ColCount : Z) (Loop : bool)
  : Z * Z :=
  match fuel with
  | O => (Pos, RowCount)
  | S f =>
      let after Pos RowCount ColCount (Loop : bool) :=
        if Loop then
          MinusRows_loop f BufP Rows ColLimit (GapStartP BufP - 1) 0
                         Pos RowCount ColCount false
        else (Pos, RowCount) in
      if CurP >=? EndP then
        let '(CurP, Pos) := skip_mid BufP CurP Pos in
        let ColCount := ColCount + 1 in
        let nl := rd (Mem BufP) CurP =? 10 in
        let RowCount1 :=
          if nl then RowCount + (1 + Z.quot (ColCount - 2) ColLimit)
          else RowCount in
        let ColCount1 := if nl then 0 else ColCount in
        if nl && (RowCount1 >=? Rows) then after (Pos + 1) RowCount1 ColCount1 false
        else if Pos =? 0 then
          after Pos (RowCount1 + (1 + Z.quot (ColCount1 - 1) ColLimit))
                (ColCount1 - 1) Loop
        else
          MinusRows_loop f BufP Rows ColLimit (CurP - 1) EndP (Pos - 1)
                         RowCount1 ColCount1 Loop
      else after Pos RowCount ColCount Loop
  end.

(** [while (Count--) { CurP = ED_BufferPosToPtr (BufP, Pos); Pos += len; }] *)
Fixpoint step_chars (Count : nat) (BufP : ED_BufferRecord) (Pos : Z) : Z :=
  match Count with
  | O => Pos
  | S Count' =>
      step_chars Count' BufP (Pos + ED_BufferGetUTF8Len (byte_at BufP Pos))
  end.

(** [ED_BufferGetPosMinusRows]: the returned position and [*RowsP]. *)
Definition ED_BufferGetPosMinusRows (BufP : ED_BufferRecord)
  (Pos Rows ColLimit : Z) : Z * Z :=
  if Rows =? 0 then (Pos, Rows)
  else if Pos =? 0 then (0, 0)
  else
    let Pos := Pos - 1 in
    let CurP := ED_BufferPosToPtr BufP Pos in
    if Pos =? 0 then (0, if rd (Mem BufP) CurP =? 10 then 1 else 0)
    else
      let '(CurP, Pos) :=
        if rd (Mem BufP) CurP =? 10
        then (ED_BufferPosToPtr BufP (Pos - 1), Pos - 1)
        else (CurP, Pos) in
      let '(EndP, Loop) :=
        if CurP <? GapStartP BufP then (0, false) else (GapEndP BufP, true) in
      let '(Pos, RowCount) :=
        MinusRows_loop (Z.to_nat Pos + 3) BufP Rows ColLimit CurP EndP Pos 0 0 Loop in
      if RowCount >? Rows then
        (step_chars (Z.to_nat ((RowCount - Rows) * ColLimit)) BufP Pos, Rows)
      else (Pos, RowCount).

(** [ED_PaneMoveForCursor]; the selection globals come back with the pane
    ([ED_SelMarkRow] follows the scroll). *)
Definition ED_PaneMoveForCursor (PaneP : ED_PaneRecord) (BufP : ED_BufferRecord)
  (sel : ED_SelRecord) (CursorRowStartPos NewCursorRow : Z)
  : ED_PaneRecord * ED_SelRecord :=
  let MaxLen := RowChars PaneP in
  let CursorRowStartPos :=
    if CursorRowStartPos <? 0
    then ED_BufferGetRowStartPos BufP (CursorPos PaneP) (CursorCol PaneP)
    else CursorRowStartPos in
  let PaneP := set_PanePos PaneP CursorRowStartPos in
  let PaneP := set_StartRowCount PaneP (StartRowCount PaneP + CursorRow PaneP) in
  let '(NewPos, NewCursorRow) :=
    ED_BufferGetPosMinusRows BufP (PanePos PaneP) NewCursorRow MaxLen in
  let PaneP := set_PanePos PaneP NewPos in
  let PaneP := set_StartRowCount PaneP (StartRowCount PaneP - NewCursorRow) in
  let sel :=
    if sel_is sel PaneP
    then mkSel (ED_SelPaneP sel) (ED_SelMarkPos sel) (ED_SelMarkCol sel)
               (ED_SelMarkRow sel - (CursorRow PaneP - NewCursorRow))
    else sel in
  (set_CursorRC PaneP (CursorRow PaneP - (CursorRow PaneP - NewCursorRow))
                (CursorCol PaneP), sel).

(** [ED_PaneMoveAfterCursorMove] ([ForceSetScroll] only concerns the
    scroll bar). *)
Definition ED_PaneMoveAfterCursorMove (PaneP : ED_PaneRecord)
  (BufP : ED_BufferRecord) (sel : ED_SelRecord) (CursorRowStartPos DeltaRow : Z)
  : ED_PaneRecord * ED_SelRecord :=
  if CursorRow PaneP >? RowCount PaneP - 2 then
    ED_PaneMoveForCursor PaneP BufP sel CursorRowStartPos
                         ((RowCount PaneP - 2) - DeltaRow)
  else if CursorRow PaneP >=? 0 then (PaneP, sel)
  else ED_PaneMoveForCursor PaneP BufP sel CursorRowStartPos DeltaRow.

(** [ED_PaneUpdateAllPos] *)
Definition ED_PaneUpdateAllPos (PaneP : ED_PaneRecord) (BufP : ED_BufferRecord)
  (sel : ED_SelRecord) (MoveCursor : bool) : ED_PaneRecord * ED_SelRecord :=
  let PaneP :=
    if PanePos PaneP >=? LastPos BufP then set_PanePos PaneP 0 else PaneP in
  let '(Start, Row, _) := ED_PaneFindLoc PaneP BufP (PanePos PaneP) true false in
  let PaneP := set_StartRowCount (set_PanePos PaneP Start) Row in
  let '(_, Row, _) := ED_PaneFindLoc PaneP BufP (LastPos BufP) false false in
  let PaneP := set_BufRowCount PaneP (Row + StartRowCount PaneP) in
  let PaneP :=
    if MoveCursor && (CursorPos PaneP <? PanePos PaneP)
    then set_CursorPos PaneP (PanePos PaneP) else PaneP in
  let '(RowStartPos, Row, Col) :=
    ED_PaneFindLoc PaneP BufP (CursorPos PaneP) false false in
  let PaneP := set_CursorRC PaneP Row Col in
  if (CursorRow PaneP <? 0) || (CursorRow PaneP >? Z.quot (RowCount PaneP) 2)
  then ED_PaneMoveAfterCursorMove PaneP BufP sel RowStartPos
                                  (Z.quot (RowCount PaneP) 2)
  else (PaneP, sel).

(** The block "Figure out PanePos for FPane" of [ED_PaneUpdateOtherPanes]. *)
Definition OtherPane_PanePos (BufP : ED_BufferRecord) (InsertPos InsertCount : Z)
  (FPaneP : ED_PaneRecord) : ED_PaneRecord :=
  if PanePos FPaneP >? InsertPos then
    let P := PanePos FPaneP + InsertCount in
    let P := if P <? InsertPos then InsertPos else P in
    let FPaneP := ED_PaneUpdateStartPos (set_PanePos FPaneP P) BufP 0 in
    let '(_, Row, _) :=
      ED_PaneFindLoc FPaneP BufP (PanePos FPaneP) true false in
    set_StartRowCount FPaneP Row
  else FPaneP.

(** The block "Figure out CursorPos for FPane" of [ED_PaneUpdateOtherPanes]. *)
Definition OtherPane_CursorPos (BufP : ED_BufferRecord)
  (InsertPos InsertCount : Z) (FPaneP : ED_PaneRecord) (sel : ED_SelRecord)
  : ED_PaneRecord * ED_SelRecord :=
  if CursorPos FPaneP >? InsertPos then
    let P := CursorPos FPaneP + InsertCount in
    let P := if P <? InsertPos then InsertPos else P in
    let FPaneP := set_CursorPos FPaneP P in
    let '(RowStart, Row, Col) :=
      ED_PaneFindLoc FPaneP BufP (CursorPos FPaneP) false false in
    ED_PaneMoveAfterCursorMove (set_CursorRC FPaneP Row Col) BufP sel RowStart 2
  else (FPaneP, sel).

(** The body of the inner loop of [ED_PaneUpdateOtherPanes] for one pane
    [FPaneP] that shows the buffer and is not the editing pane;
    [(LastRowChar, LastRowCount)] is the one-entry cache. *)
Definition UpdateOtherPane (BufP : ED_BufferRecord) (InsertPos InsertCount : Z)
  (FPaneP : ED_PaneRecord) (sel : ED_SelRecord) (LastRowChar LastRowCount : Z)
  : ED_PaneRecord * ED_SelRecord * Z * Z :=
  if negb (InsertCount =? 0) then
    let '(LastRowChar, LastRowCount) :=
      if RowChars FPaneP =? LastRowChar then (LastRowChar, LastRowCount)
      else
        let '(_, Row, _) := ED_PaneFindLoc FPaneP BufP (LastPos BufP) true false in
        (RowChars FPaneP, Row) in
    let FPaneP := set_BufRowCount FPaneP LastRowCount in
    let FPaneP := OtherPane_PanePos BufP InsertPos InsertCount FPaneP in
    let '(FPaneP, sel) :=
      OtherPane_CursorPos BufP InsertPos InsertCount FPaneP sel in
    (FPaneP, sel, LastRowChar, LastRowCount)
  else (FPaneP, sel, LastRowChar, LastRowCount).

(** The two nested loops of [ED_PaneUpdateOtherPanes] over the panes of all
    frames, in the order the source visits them. *)
Fixpoint UpdateOtherPanes_loop (PaneP : ED_PaneRecord) (BufP : ED_BufferRecord)
  (InsertPos InsertCount : Z) (panes : list ED_PaneRecord) (sel : ED_SelRecord)
  (LastRowChar LastRowCount : Z) : list ED_PaneRecord * ED_SelRecord :=
  match panes with
  | [] => ([], sel)
  | FPaneP :: rest =>
      if negb (PaneAddr FPaneP =? PaneAddr PaneP)
         && (PaneBufP FPaneP =? PaneBufP PaneP) then
        let '(FPaneP, sel, LastRowChar, LastRowCount) :=
          UpdateOtherPane BufP InsertPos InsertCount FPaneP sel
                          LastRowChar LastRowCount in
        let '(rest, sel) :=
          UpdateOtherPanes_loop PaneP BufP InsertPos InsertCount rest sel
                                LastRowChar LastRowCount in
        (FPaneP :: rest, sel)
      else
        let '(rest, sel) :=
          UpdateOtherPanes_loop PaneP BufP InsertPos InsertCount rest sel
                                LastRowChar LastRowCount in
        (FPaneP :: rest, sel)
  end.

(** [ED_PaneUpdateOtherPanes]: [PaneP] is the pane that edited [BufP] (its
    buffer), [panes] are the panes of all frames. *)
Definition ED_PaneUpdateOtherPanes (PaneP : ED_PaneRecord)
  (BufP : ED_BufferRecord) (panes : list ED_PaneRecord) (sel : ED_SelRecord)
  (InsertPos InsertCount : Z) : list ED_PaneRecord * ED_SelRecord :=
  UpdateOtherPanes_loop PaneP BufP InsertPos InsertCount panes sel 0 0.

(** [ED_PaneUpdateOtherPanesIncrBasic] *)
Definition ED_PaneUpdateOtherPanesIncrBasic (PaneP : ED_PaneRecord)
  (panes : list ED_PaneRecord) (InsertPos InsertCount : Z)
  : list ED_PaneRecord :=
  map (fun FPaneP =>
         if negb (PaneAddr FPaneP =? PaneAddr PaneP)
            && (PaneBufP FPaneP =? PaneBufP PaneP)
            && negb (InsertCount =? 0) then
           let FPaneP :=
             if PanePos FPaneP >? InsertPos then
               let P := PanePos FPaneP + InsertCount in
               set_PanePos FPaneP (if P <? InsertPos then InsertPos else P)
             else FPaneP in
           if CursorPos FPaneP >? InsertPos then
             let P := CursorPos FPaneP + InsertCount in
             set_CursorPos FPaneP (if P <? InsertPos then InsertPos else P)
           else FPaneP
         else FPaneP)
      panes.

(** [ED_PaneUpdateOtherPanesIncrRest] *)
Fixpoint UpdateOtherPanesIncrRest_loop (PaneP : ED_PaneRecord)
  (BufP : ED_BufferRecord) (panes : list ED_PaneRecord) (sel : ED_SelRecord)
  (LastRowChar LastRowCount : Z) : list ED_PaneRecord * ED_SelRecord :=
  match panes with
  | [] => ([], sel)
  | FPaneP :: rest =>
      if negb (PaneAddr FPaneP =? PaneAddr PaneP)
         && (PaneBufP FPaneP =? PaneBufP PaneP) then
        let '(LastRowChar, LastRowCount) :=
          if RowChars FPaneP =? LastRowChar then (LastRowChar, LastRowCount)
          else
            let '(_, Row, _) :=
              ED_PaneFindLoc FPaneP BufP (LastPos BufP) true false in
            (RowChars FPaneP, Row) in
        let FPaneP := set_BufRowCount FPaneP LastRowCount in
        let FPaneP := ED_PaneUpdateStartPos FPaneP BufP 0 in
        let '(_, Row, _) :=
          ED_PaneFindLoc FPaneP BufP (PanePos FPaneP) true false in
        let FPaneP := set_StartRowCount FPaneP Row in
        let '(RowStart, Row, Col) :=
          ED_PaneFindLoc FPaneP BufP (CursorPos FPaneP) false false in
        let '(FPaneP, sel) :=
          ED_PaneMoveAfterCursorMove (set_CursorRC FPaneP Row Col) BufP sel
                                     RowStart 2 in
        let '(rest, sel) :=
          UpdateOtherPanesIncrRest_loop PaneP BufP rest sel
                                        LastRowChar LastRowCount in
        (FPaneP :: rest, sel)
      else
        let '(rest, sel) :=
          UpdateOtherPanesIncrRest_loop PaneP BufP rest sel
                                        LastRowChar LastRowCount in
        (FPaneP :: rest, sel)
  end.

Definition ED_PaneUpdateOtherPanesIncrRest (PaneP : ED_PaneRecord)
  (BufP : ED_BufferRecord) (panes : list ED_PaneRecord) (sel : ED_SelRecord)
  : list ED_PaneRecord * ED_SelRecord :=
  UpdateOtherPanesIncrRest_loop PaneP BufP panes sel 0 0.

(** ** Kill ring *)

Record ED_KERecord := mkKE {
  KEFlags : Z;
  KEPos : Z;
  KELen : Z
}.

(** [ED_KRRecord]: [TopP] and [RestP] are the two malloc'ed blocks. *)
Record ED_KRRecord := mkKR {
  TopP : list Z;
  RestP : list Z;
  TopLen : Z;
  RestLen : Z;
  RestDataLen : Z;
  TopI : Z;
  YankI : Z;
  EltArr : list ED_KERecord
}.

Definition ED_KENOFLAG : Z := 0.
Definition ED_KETOPFLAG : Z := 0x80000000.

Definition KE0 : ED_KERecord := mkKE ED_KENOFLAG 0 0.

(** [ED_KillRing.EltArr + i] *)
Definition Elt (kr : ED_KRRecord) (i : Z) : ED_KERecord :=
  nth (Z.to_nat i) (EltArr kr) KE0.

Definition set_Elt (kr : ED_KRRecord) (i : Z) (e : ED_KERecord) : ED_KRRecord :=
  mkKR (TopP kr) (RestP kr) (TopLen kr) (RestLen kr) (RestDataLen kr)
       (TopI kr) (YankI kr) (upd (EltArr kr) (Z.to_nat i) e).

Definition set_Top (kr : ED_KRRecord) (m : list Z) (len : Z) : ED_KRRecord :=
  mkKR m (RestP kr) len (RestLen kr) (RestDataLen kr) (TopI kr) (YankI kr)
       (EltArr kr).

Definition set_YankI (kr : ED_KRRecord) (v : Z) : ED_KRRecord :=
  mkKR (TopP kr) (RestP kr) (TopLen kr) (RestLen kr) (RestDataLen kr)
       (TopI kr) v (EltArr kr).

(** [ED_KillRingInit] *)
Definition ED_KillRingInit : ED_KRRecord :=
  mkKR (repeat 0 (Z.to_nat ED_KRTOPINITLEN)) (repeat 0 (Z.to_nat ED_KRRESTINITLEN))
       ED_KRTOPINITLEN ED_KRRESTINITLEN 0 0
       (Z.land (0 - 1) ED_KILLRINGMASK)
       (mkKE ED_KETOPFLAG 0 0 :: repeat KE0 (Z.to_nat ED_KILLRINGCOUNT - 1)).

(** The bytes of the entry with index [i]: in [TopP] for the top entry, in
    [RestP] for the others (as [ED_KillRingYank] reads them). *)
Definition kill_entry (kr : ED_KRRecord) (i : Z) : list Z :=
  if i =? TopI kr then sub (TopP kr) (KEPos (Elt kr i)) (KELen (Elt kr i))
  else sub (RestP kr) (KEPos (Elt kr i)) (KELen (Elt kr i)).

Definition kill_top (kr : ED_KRRecord) : list Z := kill_entry kr (TopI kr).

(** [ED_KillRingAppendTop].  The [while] runs at most twice: a first pass
    that slides the data up when [Pos] is not 0, and a pass that expands. *)
Definition ED_KillRingAppendTop (kr : ED_KRRecord) (DataP : list Z)
  : ED_KRRecord :=
  let DataLen := Z.of_nat (length DataP) in
  let KEP := Elt kr (TopI kr) in
  let '(MemP, Pos) :=
    if (KEPos KEP + KELen KEP + DataLen >? TopLen kr) && negb (KEPos KEP =? 0)
    then (memmove (TopP kr) 0 (KEPos KEP) (KELen KEP), 0)
    else (TopP kr, KEPos KEP) in
  let '(MemP, Len) :=
    if Pos + KELen KEP + DataLen >? TopLen kr then
      let Len := KELen KEP + DataLen + ED_KRTOPEXTRA in
      (realloc MemP Len, Len)
    else (MemP, TopLen kr) in
  let MemP := wr MemP (Pos + KELen KEP) DataP in
  set_Elt (set_Top kr MemP Len) (TopI kr)
          (mkKE (KEFlags KEP) Pos (KELen KEP + DataLen)).

(** [ED_KillRingPrependTop] *)
Definition ED_KillRingPrependTop (kr : ED_KRRecord) (DataP : list Z)
  : ED_KRRecord :=
  let DataLen := Z.of_nat (length DataP) in
  let KEP := Elt kr (TopI kr) in
  let '(MemP, TLen, Pos) :=
    if KEPos KEP <? DataLen then
      let '(MemP, TLen) :=
        if DataLen + KELen KEP >? TopLen kr then
          let Len := DataLen + KELen KEP + ED_KRTOPEXTRA in
          (realloc (TopP kr) Len, Len)
        else (TopP kr, TopLen kr) in
      let Len := TLen in
      (memmove MemP (Len - KELen KEP) (KEPos KEP) (KELen KEP), TLen,
       Len - KELen KEP)
    else (TopP kr, TopLen kr, KEPos KEP) in
  let Pos := Pos - DataLen in
  let MemP := wr MemP Pos DataP in
  set_Elt (set_Top kr MemP TLen) (TopI kr)
          (mkKE (KEFlags KEP) Pos (KELen KEP + DataLen)).

(** The closing [for] of [ED_KillRingAdvanceTop]: every entry that holds
    data, the old top apart, moves down by [Delta]. *)
Fixpoint shift_elts (l : list ED_KERecord) (i : Z) (OldTopI Delta : Z)
  : list ED_KERecord :=
  match l with
  | [] => []
  | e :: l' =>
      (if negb (KELen e =? 0) && negb (i =? OldTopI)
       then mkKE (KEFlags e) (KEPos e + Delta) (KELen e) else e)
      :: shift_elts l' (i + 1) OldTopI Delta
  end.

(** [ED_KillRingAdvanceTop] *)
Definition ED_KillRingAdvanceTop (kr : ED_KRRecord) : ED_KRRecord :=
  let OldTopI := TopI kr in
  let TopKEP := Elt kr OldTopI in
  let kr := set_YankI kr OldTopI in
  if KELen TopKEP =? 0 then kr
  else
    let LastI := Z.land (OldTopI + 1) ED_KILLRINGMASK in
    let LastKEP := Elt kr LastI in
    let '(RestData, LastKEP) :=
      if negb (KELen LastKEP =? 0)
      then (RestDataLen kr - KELen LastKEP, mkKE (KEFlags LastKEP) 0 0)
      else (RestDataLen kr, LastKEP) in
    let Len := RestData + KELen TopKEP in
    let '(MemP, RLen) :=
      if RestLen kr <? Len then
        let Len := Len + ED_KRRESTEXTRA in
        (realloc (RestP kr) Len, Len)
      else (RestP kr, RestLen kr) in
    let MemP := memmove MemP (KELen TopKEP) 0 RestData in
    let MemP := wr MemP 0 (sub (TopP kr) (KEPos TopKEP) (KELen TopKEP)) in
    let RestData := RestData + KELen TopKEP in
    let TopKEP := mkKE (clrf (KEFlags TopKEP) ED_KETOPFLAG) 0 (KELen TopKEP) in
    let LastKEP := mkKE ED_KETOPFLAG 0 0 in
    let elts := upd (upd (EltArr kr) (Z.to_nat OldTopI) TopKEP)
                    (Z.to_nat LastI) LastKEP in
    mkKR (TopP kr) MemP (TopLen kr) RLen RestData LastI (YankI kr)
         (shift_elts elts 0 OldTopI (KELen TopKEP)).

(** [ED_KillRingWriteTop] *)
Definition ED_KillRingWriteTop (kr : ED_KRRecord) (DataP : list Z)
  : ED_KRRecord :=
  let DataLen := Z.of_nat (length DataP) in
  let KEP := Elt kr (TopI kr) in
  let kr := set_YankI kr (TopI kr) in
  let '(MemP, Len) :=
    if TopLen kr <? DataLen then
      let Len := DataLen + ED_KRTOPEXTRA in
      (realloc (TopP kr) Len, Len)
    else (TopP kr, TopLen kr) in
  set_Elt (set_Top kr (wr MemP 0 DataP) Len) (TopI kr)
          (mkKE (KEFlags KEP) 0 DataLen).

Definition ED_QRKillCmd : Z := 99.

(** [ED_KillRingAdd]: [QRPaneP], [QRLastCmd] and [CmdLastId] are the globals
    [ED_QRPaneP], [ED_QRLastCmd] and [ED_CmdLastId] it reads. *)
Definition ED_KillRingAdd (QRPaneP : option Z) (QRLastCmd CmdLastId : Z)
  (kr : ED_KRRecord) (DataP : list Z) (OpForward : bool) : ED_KRRecord :=
  if (match QRPaneP with Some _ => QRLastCmd =? ED_QRKillCmd | None => false end)
     || (CmdLastId =? ED_KillId) then
    if OpForward then ED_KillRingAppendTop kr DataP
    else ED_KillRingPrependTop kr DataP
  else ED_KillRingWriteTop (ED_KillRingAdvanceTop kr) DataP.

(** ** Undo log *)

(** Layout of the two records on an LP64 machine. *)
Definition sizeof_USlabRecord : Z := 32.
Definition sizeof_UBlockRecord : Z := 16.
Definition offsetof_Data : Z := 13.

(** The undo read head. *)
Record ED_UndoHead := mkUndoHead {
  ED_UndoBlock : Z;
  ED_UndoSlabP : option Z;
  ED_UndoSeenSave : Z
}.

Definition UBlock0 : ED_UBlockRecord := mkUBlock (-1) (-1) (-1) 0 [].

(** The block at byte offset [off] of a slab. *)
Fixpoint get_block (bs : list (Z * ED_UBlockRecord)) (off : Z) : ED_UBlockRecord :=
  match bs with
  | [] => UBlock0
  | (o, b) :: bs' => if o =? off then b else get_block bs' off
  end.

Fixpoint put_block (bs : list (Z * ED_UBlockRecord)) (off : Z)
  (b : ED_UBlockRecord) : list (Z * ED_UBlockRecord) :=
  match bs with
  | [] => [(off, b)]
  | (o, b0) :: bs' =>
      if o =? off then (off, b) :: bs' else (o, b0) :: put_block bs' off b
  end.

(** [BufP->LastUSP] and an update of the slab it points to. *)
Definition LastUSP (BufP : ED_BufferRecord) : option ED_USlabRecord :=
  match rev (USlabs BufP) with
  | [] => None
  | s :: _ => Some s
  end.

Definition set_LastUSP (BufP : ED_BufferRecord) (s : ED_USlabRecord)
  : ED_BufferRecord :=
  set_USlabs BufP (removelast (USlabs BufP) ++ [s]).

(** [ED_BufferAddNewUndoSlab]; [heap] numbers the allocations. *)
Definition ED_BufferAddNewUndoSlab (BufP : ED_BufferRecord) (heap : Z)
  (Payload : Z) : ED_BufferRecord * Z :=
  let Size :=
    if Payload =? 0 then ED_UNDOINITLEN
    else
      let Size := Payload + ED_UNDOEXTRALEN in
      if Size <? ED_UNDOINITLEN then ED_UNDOINITLEN else Size in
  (set_undo BufP (USlabs BufP ++ [mkUSlab heap Size 0 []])
            (USCount BufP + 1) (USTotalSize BufP + Size),
   heap + 1).

(** [ED_BufferInitUndo] *)
Definition ED_BufferInitUndo (BufP : ED_BufferRecord) (heap : Z)
  : ED_BufferRecord * Z :=
  ED_BufferAddNewUndoSlab (set_undo BufP [] 0 0) heap 0.

(** [ED_BufferKillUndoSlabs]: the loop frees one slab, then goes on while
    [--Count > 0]. *)
Fixpoint KillUndoSlabs_loop (slabs : list ED_USlabRecord) (Count : Z)
  (cnt tot : Z) (h : ED_UndoHead) : list ED_USlabRecord * Z * Z * ED_UndoHead :=
  match slabs with
  | [] => ([], cnt, tot, h)
  | USP :: rest =>
      let h :=
        match ED_UndoSlabP h with
        | Some a => if a =? SlabAddr USP then mkUndoHead 0 None (ED_UndoSeenSave h) else h
        | None => h
        end in
      if Count - 1 <=? 0 then (rest, cnt - 1, tot - SlabSize USP, h)
      else KillUndoSlabs_loop rest (Count - 1) (cnt - 1) (tot - SlabSize USP) h
  end.

Definition ED_BufferKillUndoSlabs (BufP : ED_BufferRecord) (h : ED_UndoHead)
  (Count : Z) : ED_BufferRecord * ED_UndoHead :=
  let '(slabs, cnt, tot, h) :=
    KillUndoSlabs_loop (USlabs BufP) Count (USCount BufP) (USTotalSize BufP) h in
  (set_undo BufP slabs cnt tot, h).

(** [ED_BufferGCUndoSlabs (BufP, 0)]; levels 1 to 3 only run after a failed
    [malloc]. *)
Definition ED_BufferGCUndoSlabs0 (BufP : ED_BufferRecord) (h : ED_UndoHead)
  : ED_BufferRecord * ED_UndoHead :=
  if USCount BufP >? ED_UNDOGCSLABCOUNT
  then ED_BufferKillUndoSlabs BufP h (USCount BufP - ED_UNDOGCL0SLABCOUNT)
  else (BufP, h).

(** One pass of the [do] loop of [ED_BufferAllocUndoBlock] on the last slab:
    [Some (slab, MaxData)] when a block was made on it. *)
Definition AllocUndoBlock_on (LastUSP : ED_USlabRecord) (Wanted : Z)
  : option (ED_USlabRecord * Z) :=
  if LastUBlock LastUSP =? 0 then
    let off := sizeof_USlabRecord in
    Some (mkUSlab (SlabAddr LastUSP) (SlabSize LastUSP) off
                  (put_block (UBlocks LastUSP) off UBlock0),
          (SlabSize LastUSP - off) - offsetof_Data)
  else
    let UBP := get_block (UBlocks LastUSP) (LastUBlock LastUSP) in
    let Size :=
      if has (UBFlags UBP) ED_UB_DEL
      then Z.ldiff (sizeof_UBlockRecord + DataLen UBP) 3
      else sizeof_UBlockRecord in
    let NewOffset := LastUBlock LastUSP + Size in
    let MaxData := (SlabSize LastUSP - NewOffset) - offsetof_Data in
    if (MaxData >=? Wanted) || (MaxData >=? ED_UNDO_DATASIZE) then
      Some (mkUSlab (SlabAddr LastUSP) (SlabSize LastUSP) NewOffset
                    (put_block (UBlocks LastUSP) NewOffset UBlock0),
            MaxData)
    else None.

(** [ED_BufferAllocUndoBlock]: the buffer, the heap counter and [MaxData];
    the new block [*UBlockPP] is the last block of the last slab.  With no
    room on the last slab a new slab is added and the loop's second pass
    makes its first block. *)
Definition ED_BufferAllocUndoBlock (BufP : ED_BufferRecord) (heap : Z)
  (Wanted : Z) : ED_BufferRecord * Z * Z :=
  match LastUSP BufP with
  | None => (BufP, heap, -1)
  | Some USP =>
      match AllocUndoBlock_on USP Wanted with
      | Some (USP, MaxData) => (set_LastUSP BufP USP, heap, MaxData)
      | None =>
          let '(BufP, heap) := ED_BufferAddNewUndoSlab BufP heap Wanted in
          match LastUSP BufP with
          | None => (BufP, heap, -1)
          | Some USP =>
              match AllocUndoBlock_on USP Wanted with
              | Some (USP, MaxData) => (set_LastUSP BufP USP, heap, MaxData)
              | None => (BufP, heap, -1)
              end
          end
      end
  end.

(** A store into the last block of the last slab: the block
    [ED_BufferAllocUndoBlock] just made, or the one a merge extends. *)
Definition set_last_block (BufP : ED_BufferRecord) (b : ED_UBlockRecord)
  : ED_BufferRecord :=
  match LastUSP BufP with
  | None => BufP
  | Some USP =>
      set_LastUSP BufP
        (mkUSlab (SlabAddr USP) (SlabSize USP) (LastUBlock USP)
                 (put_block (UBlocks USP) (LastUBlock USP) b))
  end.

Definition LastUBlock_of (BufP : ED_BufferRecord) : Z :=
  match LastUSP BufP with
  | None => 0
  | Some USP => LastUBlock USP
  end.

(** The [do ... while (LenLeft)] loop of [ED_BufferAddUndoBlock] for a DEL:
    at most two blocks hold the data. *)
Fixpoint AddUndo_del_loop (fuel : nat) (BufP : ED_BufferRecord) (heap : Z)
  (Pos Mode : Z) (DataP : list Z) (LenLeft PrevOffset Count : Z) (FirstMod : bool)
  : ED_BufferRecord * Z :=
  match fuel with
  | O => (BufP, heap)
  | S f =>
      let '(BufP, heap, MaxLen) := ED_BufferAllocUndoBlock BufP heap LenLeft in
      if MaxLen <? 0 then (BufP, heap)
      else
        let '(Len, LenLeft) :=
          if MaxLen >=? LenLeft then (LenLeft, 0) else (MaxLen, LenLeft - MaxLen) in
        let Fl := Z.land Mode (Z.lor ED_UB_CHUNK ED_UB_DEL) in
        let Fl :=
          if Count =? 0 then (if FirstMod then setf Fl ED_UB_FIRSTMOD else Fl)
          else setf Fl ED_UB_CHAIN in
        let BufP :=
          set_last_block BufP (mkUBlock PrevOffset Pos Len Fl (sub DataP 0 Len)) in
        if negb (LenLeft =? 0) then
          AddUndo_del_loop f BufP heap Pos Mode
                           (skipn (Z.to_nat Len) DataP) LenLeft
                           (LastUBlock_of BufP) (Count + 1) FirstMod
        else (BufP, heap)
  end.

(** [ED_BufferAddUndoBlock]; [DataP] are the [Len] bytes at [DataP] for a
    DEL.  ([ED_XSelAlterPrimary] belongs to the clipboard bridge.) *)
Definition ED_BufferAddUndoBlock (BufP : ED_BufferRecord) (h : ED_UndoHead)
  (heap : Z) (Pos Len Mode : Z) (DataP : list Z)
  : ED_BufferRecord * ED_UndoHead * Z :=
  match LastUSP BufP with
  | None => (BufP, h, heap)
  | Some USP0 =>
      let '(BufP, h) := ED_BufferGCUndoSlabs0 BufP h in
      let DoDel := has Mode ED_UB_DEL in
      let DoSave := has Mode ED_UB_SAVE in
      let FirstMod := has (Flags BufP) ED_BUFCLEANUNDOFLAG in
      let BufP :=
        if FirstMod then set_Flags BufP (clrf (Flags BufP) ED_BUFCLEANUNDOFLAG)
        else BufP in
      let UBP := get_block (UBlocks USP0) (LastUBlock USP0) in
      let merged : option ED_UBlockRecord :=
        if FirstMod || (LastUBlock USP0 =? 0) then None
        else if DoDel then
          if negb (has Mode ED_UB_CHUNK)
             && has (UBFlags UBP) ED_UB_DEL
             && negb (has (UBFlags UBP) (Z.lor ED_UB_CHUNK ED_UB_CHAIN))
             && (DataLen UBP + Len <=? ED_UNDO_DATASIZE)
             && (LastUBlock USP0 + offsetof_Data + DataLen UBP + Len
                 <=? SlabSize USP0) then
            if DataPos UBP =? Pos then
              Some (mkUBlock (PrevUBlock UBP) (DataPos UBP) (DataLen UBP + Len)
                             (UBFlags UBP) (Data UBP ++ sub DataP 0 Len))
            else if DataPos UBP - Len =? Pos then
              Some (mkUBlock (PrevUBlock UBP) Pos (DataLen UBP + Len)
                             (UBFlags UBP) (sub DataP 0 Len ++ Data UBP))
            else None
          else None
        else
          if has (UBFlags UBP) ED_UB_ADD then
            if has Mode ED_UB_CHAIN then
              Some (mkUBlock (PrevUBlock UBP) (DataPos UBP) (DataLen UBP + Len)
                             (UBFlags UBP) (Data UBP))
            else if (DataPos UBP >=? 0)
                    && negb (has (UBFlags UBP) (Z.lor ED_UB_CHUNK ED_UB_CHAIN))
                    && (DataLen UBP + Len <=? ED_UNDO_DATASIZE)
                    && (DataPos UBP + DataLen UBP =? Pos) then
              Some (mkUBlock (PrevUBlock UBP) (DataPos UBP) (DataLen UBP + Len)
                             (UBFlags UBP) (Data UBP))
            else None
          else None in
      match merged with
      | Some b => (set_last_block BufP b, h, heap)
      | None =>
          let PrevOffset := LastUBlock USP0 in
          if DoSave then
            let '(BufP, heap, MaxLen) := ED_BufferAllocUndoBlock BufP heap 0 in
            if MaxLen <? 0 then (BufP, h, heap)
            else
              let BufP :=
                set_last_block BufP
                  (mkUBlock PrevOffset (-1) 0 (Z.lor ED_UB_ADD ED_UB_SAVE) []) in
              ((if FirstMod
                then set_Flags BufP (setf (Flags BufP) ED_BUFCLEANUNDOFLAG)
                else BufP), h, heap)
          else if DoDel then
            let '(BufP, heap) :=
              AddUndo_del_loop 3 BufP heap Pos Mode DataP Len PrevOffset 0 FirstMod in
            (BufP, h, heap)
          else
            let '(BufP, heap, MaxLen) := ED_BufferAllocUndoBlock BufP heap 0 in
            if MaxLen <? 0 then (BufP, h, heap)
            else
              let Fl := Z.land Mode (Z.lor ED_UB_CHUNK (Z.lor ED_UB_CHAIN ED_UB_ADD)) in
              let Fl := if FirstMod then setf Fl ED_UB_FIRSTMOD else Fl in
              (set_last_block BufP (mkUBlock PrevOffset Pos Len Fl []), h, heap)
      end
  end.

(** The slab [ED_UndoSlabP] points to, and its [PrevUSP]. *)
Fixpoint find_slab (slabs : list ED_USlabRecord) (prev : option Z) (a : Z)
  : option (ED_USlabRecord * option Z) :=
  match slabs with
  | [] => None
  | s :: rest =>
      if SlabAddr s =? a then Some (s, prev)
      else find_slab rest (Some (SlabAddr s)) a
  end.

(** [ED_BufferUndo]: [Some (Op, Pos, Len, Data)] for return 1, [None] for
    return 0; the echo line and the read head come back too. *)
Definition ED_BufferUndo (BufP : ED_BufferRecord) (h : ED_UndoHead)
  (CmdLastId : Z) (echo : ED_EchoRecord)
  : option (Z * Z * Z * list Z) * ED_UndoHead * ED_EchoRecord :=
  let NoMore h :=
    (None, h, ED_FrameSetEchoS ED_ECHOMSGMODE ED_STR_EchoUndoNoMore) in
  let DoUndo h :=
    match ED_UndoSlabP h with
    | None => NoMore h
    | Some a =>
        match find_slab (USlabs BufP) None a with
        | None => NoMore h
        | Some (s, _) =>
            let UBP := get_block (UBlocks s) (ED_UndoBlock h) in
            (Some (Z.land (UBFlags UBP)
                     (Z.lor ED_UB_CHAIN (Z.lor ED_UB_ADD (Z.lor ED_UB_DEL
                        (Z.lor ED_UB_FIRSTMOD ED_UB_SAVE)))),
                   DataPos UBP, DataLen UBP, Data UBP), h, echo)
        end
    end in
  match LastUSP BufP with
  | None => (None, h, ED_FrameSetEchoS ED_ECHOMSGMODE ED_STR_EchoBufNoUndo)
  | Some Last =>
      if negb (ED_UndoBlock h =? 0) then
        match ED_UndoSlabP h with
        | None => NoMore h
        | Some a =>
            match find_slab (USlabs BufP) None a with
            | None => NoMore h
            | Some (s, prev) =>
                let UBP := get_block (UBlocks s) (ED_UndoBlock h) in
                let first := ED_UndoBlock h =? sizeof_USlabRecord in
                let h := mkUndoHead (PrevUBlock UBP) (ED_UndoSlabP h)
                                    (ED_UndoSeenSave h) in
                if ED_UndoBlock h =? 0 then NoMore h
                else if first then
                  let h := mkUndoHead (ED_UndoBlock h) prev (ED_UndoSeenSave h) in
                  match prev with
                  | None => NoMore h
                  | Some _ => DoUndo h
                  end
                else DoUndo h
            end
        end
      else if CmdLastId =? ED_UndoId then NoMore h
      else
        let h := mkUndoHead (LastUBlock Last) (Some (SlabAddr Last))
                            (ED_UndoSeenSave h) in
        if ED_UndoBlock h =? 0 then NoMore h else DoUndo h
  end.

(** ** The editor's state *)

(** The query-replace globals ([ED_QREPFromLen] and [ED_QREPToLen] are the
    lengths of the two strings). *)
Record ED_QREPRecord := mkQREP {
  ED_QREPPaneP : option Z;
  ED_QREPFromStr : list Z;
  ED_QREPToStr : list Z;
  ED_QREPPrevFromStr : list Z;
  ED_QREPPrevToStr : list Z;
  ED_QREPCount : Z;
  ED_QREPDoAll : Z
}.

Definition ED_QREPFromLen (q : ED_QREPRecord) : Z := Z.of_nat (length (ED_QREPFromStr q)).
Definition ED_QREPToLen (q : ED_QREPRecord) : Z := Z.of_nat (length (ED_QREPToStr q)).

(** Everything a command can reach: the pane it runs in with its buffer,
    the other panes of all frames, and the globals. *)
Record ED_State := mkState {
  Pane : ED_PaneRecord;
  Buf : ED_BufferRecord;
  Others : list ED_PaneRecord;
  KR : ED_KRRecord;
  Cmd : ED_CmdRecord;
  IS : ED_ISRecord;
  QREP : ED_QREPRecord;
  Sel : ED_SelRecord;
  UHead : ED_UndoHead;
  Echo : ED_EchoRecord;
  ED_QRPaneP : option Z;
  ED_QRLastCmd : Z;
  Heap : Z
}.

Definition set_Pane (st : ED_State) (v : ED_PaneRecord) : ED_State :=
  mkState v (Buf st) (Others st) (KR st) (Cmd st) (IS st) (QREP st) (Sel st)
          (UHead st) (Echo st) (ED_QRPaneP st) (ED_QRLastCmd st) (Heap st).
Definition set_Buf (st : ED_State) (v : ED_BufferRecord) : ED_State :=
  mkState (Pane st) v (Others st) (KR st) (Cmd st) (IS st) (QREP st) (Sel st)
          (UHead st) (Echo st) (ED_QRPaneP st) (ED_QRLastCmd st) (Heap st).
Definition set_Others (st : ED_State) (v : list ED_PaneRecord) : ED_State :=
  mkState (Pane st) (Buf st) v (KR st) (Cmd st) (IS st) (QREP st) (Sel st)
          (UHead st) (Echo st) (ED_QRPaneP st) (ED_QRLastCmd st) (Heap st).
Definition set_KR (st : ED_State) (v : ED_KRRecord) : ED_State :=
  mkState (Pane st) (Buf st) (Others st) v (Cmd st) (IS st) (QREP st) (Sel st)
          (UHead st) (Echo st) (ED_QRPaneP st) (ED_QRLastCmd st) (Heap st).
Definition set_Cmd (st : ED_State) (v : ED_CmdRecord) : ED_State :=
  mkState (Pane st) (Buf st) (Others st) (KR st) v (IS st) (QREP st) (Sel st)
          (UHead st) (Echo st) (ED_QRPaneP st) (ED_QRLastCmd st) (Heap st).
Definition set_IS (st : ED_State) (v : ED_ISRecord) : ED_State :=
  mkState (Pane st) (Buf st) (Others st) (KR st) (Cmd st) v (QREP st) (Sel st)
          (UHead st) (Echo st) (ED_QRPaneP st) (ED_QRLastCmd st) (Heap st).
Definition set_QREP (st : ED_State) (v : ED_QREPRecord) : ED_State :=
  mkState (Pane st) (Buf st) (Others st) (KR st) (Cmd st) (IS st) v (Sel st)
          (UHead st) (Echo st) (ED_QRPaneP st) (ED_QRLastCmd st) (Heap st).
Definition set_Sel (st : ED_State) (v : ED_SelRecord) : ED_State :=
  mkState (Pane st) (Buf st) (Others st) (KR st) (Cmd st) (IS st) (QREP st) v
          (UHead st) (Echo st) (ED_QRPaneP st) (ED_QRLastCmd st) (Heap st).
Definition set_UHead (st : ED_State) (v : ED_UndoHead) : ED_State :=
  mkState (Pane st) (Buf st) (Others st) (KR st) (Cmd st) (IS st) (QREP st)
          (Sel st) v (Echo st) (ED_QRPaneP st) (ED_QRLastCmd st) (Heap st).
Definition set_Echo (st : ED_State) (v : ED_EchoRecord) : ED_State :=
  mkState (Pane st) (Buf st) (Others st) (KR st) (Cmd st) (IS st) (QREP st)
          (Sel st) (UHead st) v (ED_QRPaneP st) (ED_QRLastCmd st) (Heap st).
Definition set_QRPaneP (st : ED_State) (v : option Z) : ED_State :=
  mkState (Pane st) (Buf st) (Others st) (KR st) (Cmd st) (IS st) (QREP st)
          (Sel st) (UHead st) (Echo st) v (ED_QRLastCmd st) (Heap st).
Definition set_Heap (st : ED_State) (v : Z) : ED_State :=
  mkState (Pane st) (Buf st) (Others st) (KR st) (Cmd st) (IS st) (QREP st)
          (Sel st) (UHead st) (Echo st) (ED_QRPaneP st) (ED_QRLastCmd st) v.

Definition set_Mult (st : ED_State) (mult : Z) : ED_State :=
  let c := Cmd st in
  set_Cmd st (set_CmdMults c mult (ED_CmdMultNeg c) (ED_CmdMultCmd c)
                           (ED_CmdMultDigit c) (ED_CmdMultIn c)).
Definition set_MultNeg (st : ED_State) (neg : Z) : ED_State :=
  let c := Cmd st in
  set_Cmd st (set_CmdMults c (ED_CmdMult c) neg (ED_CmdMultCmd c)
                           (ED_CmdMultDigit c) (ED_CmdMultIn c)).
Definition set_ThisId (st : ED_State) (id : Z) : ED_State :=
  let c := Cmd st in
  set_Cmd st (set_CmdIds c (ED_CmdShift c) id (ED_CmdLastId c)).
Definition set_SelPaneP (st : ED_State) (v : option Z) : ED_State :=
  let s := Sel st in
  set_Sel st (mkSel v (ED_SelMarkPos s) (ED_SelMarkCol s) (ED_SelMarkRow s)).

(** State-level wrappers of the operations above. *)

Definition st_PlaceGap (st : ED_State) (Offset Len : Z) : ED_State :=
  set_Buf st (ED_BufferPlaceGap (Buf st) Offset Len).

Definition st_AddUndoBlock (st : ED_State) (Pos Len Mode : Z) (DataP : list Z)
  : ED_State :=
  let '(b, h, heap) :=
    ED_BufferAddUndoBlock (Buf st) (UHead st) (Heap st) Pos Len Mode DataP in
  set_Heap (set_UHead (set_Buf st b) h) heap.

Definition st_KillRingAdd (st : ED_State) (DataP : list Z) (OpForward : bool)
  : ED_State :=
  set_KR st (ED_KillRingAdd (ED_QRPaneP st) (ED_QRLastCmd st)
                            (ED_CmdLastId (Cmd st)) (KR st) DataP OpForward).

Definition st_UpdateOtherPanes (st : ED_State) (InsertPos InsertCount : Z)
  : ED_State :=
  let '(panes, sel) :=
    ED_PaneUpdateOtherPanes (Pane st) (Buf st) (Others st) (Sel st)
                            InsertPos InsertCount in
  set_Sel (set_Others st panes) sel.

Definition st_SetEchoS (st : ED_State) (s : list Z) : ED_State :=
  set_Echo st (ED_FrameSetEchoS ED_ECHOMSGMODE s).

Definition st_SetModFlag (st : ED_State) : ED_State :=
  set_Buf st (set_Flags (Buf st) (setf (Flags (Buf st)) ED_BUFMODFLAG)).

(** [ED_PaneFindLoc (PaneP, BufP->LastPos, &PaneP->BufRowCount, &Col, 0, 0);
    PaneP->BufRowCount += PaneP->StartRowCount;] *)
Definition st_SetBufRowCount (st : ED_State) : ED_State :=
  let '(_, Row, _) :=
    ED_PaneFindLoc (Pane st) (Buf st) (LastPos (Buf st)) false false in
  set_Pane st (set_BufRowCount (Pane st) (Row + StartRowCount (Pane st))).

(** The cursor relocation both backward deletions end with. *)
Definition st_RelocateAfterBackDel (st : ED_State) : ED_State :=
  let PaneP := Pane st in
  let '(RowStartPos, Row, Col) :=
    ED_PaneFindLoc PaneP (Buf st) (CursorPos PaneP) true false in
  let PaneP := set_CursorRC PaneP Row Col in
  let PaneP :=
    if PanePos PaneP >=? CursorPos PaneP then
      set_CursorRC (set_StartRowCount (set_PanePos PaneP RowStartPos)
                                      (CursorRow PaneP))
                   0 (CursorCol PaneP)
    else set_CursorRC PaneP (CursorRow PaneP - StartRowCount PaneP)
                      (CursorCol PaneP) in
  set_Pane st PaneP.

(** [ED_BufferReadOnly] *)
Definition ED_BufferReadOnly (st : ED_State) : ED_State * bool :=
  if has (Flags (Buf st)) ED_BUFREADONLYFLAG
  then (st_SetEchoS st ED_STR_EchoReadOnly, true)
  else (st, false).

(** [ED_PaneDelSelRange]: the state and the returned [Total]. *)
Definition ED_PaneDelSelRange (st : ED_State) (DoUpdate : bool) : ED_State * Z :=
  let PaneP := Pane st in
  let s := Sel st in
  if negb (sel_is s PaneP) || (ED_SelMarkPos s =? CursorPos PaneP) then (st, 0)
  else
    let st := st_SetModFlag st in
    let '(StartPos, EndPos, PaneP) :=
      if CursorPos PaneP <? ED_SelMarkPos s
      then (CursorPos PaneP, ED_SelMarkPos s, PaneP)
      else (ED_SelMarkPos s, CursorPos PaneP,
            set_CursorRC (set_CursorPos PaneP (ED_SelMarkPos s))
                         (ED_SelMarkRow s) (ED_SelMarkCol s)) in
    let st := set_SelPaneP (set_Pane st PaneP) None in
    let Total := EndPos - StartPos in
    let st := st_PlaceGap st StartPos 0 in
    let DataP := sub (Mem (Buf st)) (GapEndP (Buf st)) Total in
    let st := st_AddUndoBlock st StartPos Total (Z.lor ED_UB_DEL ED_UB_CHUNK) DataP in
    let st :=
      if ED_CmdThisId (Cmd st) =? ED_KillId then st_KillRingAdd st DataP true
      else st in
    let b := Buf st in
    let st := set_Buf st (set_LastPos (set_GapEndP b (GapEndP b + Total))
                                      (LastPos b - Total)) in
    let '(_, Row, _) :=
      ED_PaneFindLoc (Pane st) (Buf st) (LastPos (Buf st)) true false in
    let st := set_Pane st (set_BufRowCount (Pane st) Row) in
    let st := set_Buf st (ED_BufferUpdateMark (Buf st) StartPos (- Total)) in
    let st :=
      if DoUpdate then
        let st :=
          if CursorPos (Pane st) =? ED_SelMarkPos (Sel st) then
            let '(p, sel) :=
              ED_PaneMoveAfterCursorMove (Pane st) (Buf st) (Sel st) (-1) 2 in
            set_Sel (set_Pane st p) sel
          else st in
        st_UpdateOtherPanes st (CursorPos (Pane st)) (- Total)
      else st in
    (st, Total).

(** The [while (ED_CmdMult--)] loop of [ED_CmdDelNextChar]; [n] is the value
    of [ED_CmdMult] on entry.  (The dispatcher never hands over a negative
    [ED_CmdMult]: the sign is kept in [ED_CmdMultNeg]; with a negative one
    the source's loop would run until it breaks.) *)
Fixpoint DelNextChar_loop (n : nat) (st : ED_State) (Total : Z) : ED_State * Z :=
  match n with
  | O => (set_Mult st (ED_CmdMult (Cmd st) - 1), Total)
  | S n' =>
      let st := set_Mult st (ED_CmdMult (Cmd st) - 1) in
      if CursorPos (Pane st) =? LastPos (Buf st)
      then (st_SetEchoS st ED_STR_EchoEndBuf, Total)
      else
        let b := Buf st in
        let L := ED_BufferGetUTF8Len (rd (Mem b) (GapEndP b)) in
        let st := set_Buf st (set_LastPos (set_GapEndP b (GapEndP b + L))
                                          (LastPos b - L)) in
        DelNextChar_loop n' st (Total + L)
  end.

(** [ED_CmdDelNextChar] from the call of [ED_BufferPlaceGap] on. *)
Definition DelNextChar_main (st : ED_State) : ED_State :=
  let st := st_PlaceGap st (CursorPos (Pane st)) 0 in
  let '(st, Total) := DelNextChar_loop (Z.to_nat (ED_CmdMult (Cmd st))) st 0 in
  if negb (Total =? 0) then
    let b := Buf st in
    let st := st_AddUndoBlock st (CursorPos (Pane st)) Total ED_UB_DEL
                              (sub (Mem b) (GapEndP b - Total) Total) in
    let st := st_SetModFlag st in
    let st := st_SetBufRowCount st in
    let st := set_Buf st (ED_BufferUpdateMark (Buf st) (CursorPos (Pane st)) (- Total)) in
    st_UpdateOtherPanes st (CursorPos (Pane st)) (- Total)
  else st.

(** The [while (ED_CmdMult--)] loop of [ED_CmdDelPrevChar]. *)
Fixpoint DelPrevChar_loop (n : nat) (st : ED_State) (Total : Z) : ED_State * Z :=
  match n with
  | O => (set_Mult st (ED_CmdMult (Cmd st) - 1), Total)
  | S n' =>
      let st := set_Mult st (ED_CmdMult (Cmd st) - 1) in
      if CursorPos (Pane st) =? 0
      then (st_SetEchoS st ED_STR_EchoBegBuf, Total)
      else
        let b := Buf st in
        let '(CurP, _) := skip_mid b (GapStartP b - 1) 0 in
        let L := 1 + ((GapStartP b - 1) - CurP) in
        let st := set_Pane st (set_CursorPos (Pane st) (CursorPos (Pane st) - L)) in
        let st := set_Buf st (set_LastPos (set_GapStartP b (GapStartP b - L))
                                          (LastPos b - L)) in
        DelPrevChar_loop n' st (Total + L)
  end.

(** [ED_CmdDelPrevChar] from the call of [ED_BufferPlaceGap] on. *)
Definition DelPrevChar_main (st : ED_State) : ED_State :=
  let st := st_PlaceGap st (CursorPos (Pane st)) 0 in
  let '(st, Total) := DelPrevChar_loop (Z.to_nat (ED_CmdMult (Cmd st))) st 0 in
  if negb (Total =? 0) then
    let b := Buf st in
    let st := st_AddUndoBlock st (CursorPos (Pane st)) Total ED_UB_DEL
                              (sub (Mem b) (GapStartP b) Total) in
    let st := st_SetModFlag st in
    let st := st_RelocateAfterBackDel st in
    let st := st_SetBufRowCount st in
    let st := set_Buf st (ED_BufferUpdateMark (Buf st) (CursorPos (Pane st)) (- Total)) in
    st_UpdateOtherPanes st (CursorPos (Pane st)) (- Total)
  else st.

(** The common opening of the two character deletions: the command returns
    at once on a read-only buffer, or when a selection was deleted instead;
    [k] is the rest of the command. *)
Definition DelChar_guard (st : ED_State) (k : ED_State -> ED_State) : ED_State :=
  let '(st, ro) := ED_BufferReadOnly st in
  if ro then st
  else
    let '(st, Total) := ED_PaneDelSelRange st true in
    if negb (Total =? 0) then st else k st.

(** [ED_CmdDelNextChar] and [ED_CmdDelPrevChar] call each other for a
    negative multiplier, after clearing [ED_CmdMultNeg]; the callee then
    takes its own forward path. *)
Definition ED_CmdDelNextChar (st : ED_State) : ED_State :=
  DelChar_guard st (fun st =>
    if negb (ED_CmdMultNeg (Cmd st) =? 0)
    then DelChar_guard (set_MultNeg st 0) DelPrevChar_main
    else DelNextChar_main st).

Definition ED_CmdDelPrevChar (st : ED_State) : ED_State :=
  DelChar_guard st (fun st =>
    if negb (ED_CmdMultNeg (Cmd st) =? 0)
    then DelChar_guard (set_MultNeg st 0) DelNextChar_main
    else DelPrevChar_main st).

(** [ED_AuxCmdInWordScan]: the new [CursorPos] and the result.  The cursor
    moves towards [PosLimit], which bounds the number of steps. *)
Fixpoint InWordScan_loop (fuel : nat) (BufP : ED_BufferRecord)
  (InWord : bool) (Dir PosLimit CursorPos : Z) : Z * bool :=
  match fuel with
  | O => (CursorPos, true)
  | S f =>
      let CursorPos := CursorPos + Dir in
      if CursorPos =? PosLimit then (CursorPos, true)
      else if Bool.eqb (ED_BufferCIsAlpha (byte_at BufP CursorPos)) InWord
      then InWordScan_loop f BufP InWord Dir PosLimit CursorPos
      else (CursorPos, false)
  end.

Definition ED_AuxCmdInWordScan (st : ED_State) (InWord : bool)
  (Dir PosLimit : Z) : ED_State * bool :=
  let '(p, r) :=
    InWordScan_loop (Z.to_nat (Z.abs (PosLimit - CursorPos (Pane st))))
                    (Buf st) InWord Dir PosLimit (CursorPos (Pane st)) in
  (set_Pane st (set_CursorPos (Pane st) p), r).

(** The [while (ED_CmdMult--)] loop of [ED_CmdDelNextWord]. *)
Fixpoint DelNextWord_loop (n : nat) (st : ED_State) : ED_State :=
  match n with
  | O => set_Mult st (ED_CmdMult (Cmd st) - 1)
  | S n' =>
      let st := set_Mult st (ED_CmdMult (Cmd st) - 1) in
      if CursorPos (Pane st) =? LastPos (Buf st)
      then st_SetEchoS st ED_STR_EchoEndBuf
      else
        let '(st, done) :=
          if negb (ED_BufferCIsAlpha (byte_at (Buf st) (CursorPos (Pane st))))
          then ED_AuxCmdInWordScan st false 1 (LastPos (Buf st))
          else (st, false) in
        if done then st
        else
          let '(st, done) := ED_AuxCmdInWordScan st true 1 (LastPos (Buf st)) in
          if done then st else DelNextWord_loop n' st
  end.

(** [ED_CmdDelNextWord] after the [ED_CmdMultNeg] test. *)
Definition DelNextWord_main (st : ED_State) : ED_State :=
  let StartPos := CursorPos (Pane st) in
  if StartPos =? LastPos (Buf st) then st_SetEchoS st ED_STR_EchoEndBuf
  else
    let st := set_ThisId st ED_KillId in
    let st := st_PlaceGap st StartPos 0 in
    let st := DelNextWord_loop (Z.to_nat (ED_CmdMult (Cmd st))) st in
    let Total := CursorPos (Pane st) - StartPos in
    if negb (Total =? 0) then
      let DataP := sub (Mem (Buf st)) (GapEndP (Buf st)) Total in
      let st := st_AddUndoBlock st StartPos Total (Z.lor ED_UB_DEL ED_UB_CHUNK) DataP in
      let st := st_SetModFlag st in
      let st := st_KillRingAdd st DataP true in
      let st := set_Pane st (set_CursorPos (Pane st) StartPos) in
      let b := Buf st in
      let st := set_Buf st (set_LastPos (set_GapEndP b (GapEndP b + Total))
                                        (LastPos b - Total)) in
      let st := st_SetBufRowCount st in
      let st := set_Buf st (ED_BufferUpdateMark (Buf st) StartPos (- Total)) in
      st_UpdateOtherPanes st (CursorPos (Pane st)) (- Total)
    else st.

(** The [while (ED_CmdMult--)] loop of [ED_CmdDelPrevWord]; the cursor is
    before the gap, so [BufStartP + CursorPos] is its byte. *)
Fixpoint DelPrevWord_loop (n : nat) (st : ED_State) : ED_State :=
  match n with
  | O => set_Mult st (ED_CmdMult (Cmd st) - 1)
  | S n' =>
      let st := set_Mult st (ED_CmdMult (Cmd st) - 1) in
      let P := CursorPos (Pane st) - 1 in
      let '(CurP, P) := skip_mid (Buf st) (0 + P) P in
      let st := set_Pane st (set_CursorPos (Pane st) P) in
      if P =? 0 then st
      else
        let '(st, done) :=
          if negb (ED_BufferCIsAlpha (rd (Mem (Buf st)) CurP))
          then ED_AuxCmdInWordScan st false (-1) 0
          else (st, false) in
        if done then st
        else
          let '(st, done) := ED_AuxCmdInWordScan st true (-1) 0 in
          if done then st
          else
            let P := CursorPos (Pane st) in
            let st :=
              set_Pane st (set_CursorPos (Pane st)
                 (P + ED_BufferGetUTF8Len (rd (Mem (Buf st)) (0 + P)))) in
            DelPrevWord_loop n' st
  end.

(** [ED_CmdDelPrevWord] after the [ED_CmdMultNeg] test. *)
Definition DelPrevWord_main (st : ED_State) : ED_State :=
  let StartPos := CursorPos (Pane st) in
  if StartPos =? 0 then st_SetEchoS st ED_STR_EchoBegBuf
  else
    let st := set_ThisId st ED_KillId in
    let st := st_PlaceGap st StartPos 0 in
    let st := DelPrevWord_loop (Z.to_nat (ED_CmdMult (Cmd st))) st in
    let Total := StartPos - CursorPos (Pane st) in
    if negb (Total =? 0) then
      let b := Buf st in
      let st := set_Buf st (set_LastPos (set_GapStartP b (GapStartP b - Total))
                                        (LastPos b - Total)) in
      let DataP := sub (Mem (Buf st)) (GapStartP (Buf st)) Total in
      let st := st_AddUndoBlock st (CursorPos (Pane st)) Total
                                (Z.lor ED_UB_DEL ED_UB_CHUNK) DataP in
      let st := st_KillRingAdd st DataP false in
      let st := st_SetModFlag st in
      let st := st_RelocateAfterBackDel st in
      let st := st_SetBufRowCount st in
      let st := set_Buf st (ED_BufferUpdateMark (Buf st) (CursorPos (Pane st)) (- Total)) in
      st_UpdateOtherPanes st (CursorPos (Pane st)) (- Total)
    else st.

(** The opening of both word deletions. *)
Definition DelWord_guard (st : ED_State) (k : ED_State -> ED_State) : ED_State :=
  let '(st, ro) := ED_BufferReadOnly st in
  if ro then st else k (set_SelPaneP st None).

(** [ED_CmdDelNextWord], [ED_CmdDelPrevWord] *)
Definition ED_CmdDelNextWord (st : ED_State) : ED_State :=
  DelWord_guard st (fun st =>
    if negb (ED_CmdMultNeg (Cmd st) =? 0)
    then DelWord_guard (set_MultNeg st 0) DelPrevWord_main
    else DelNextWord_main st).

Definition ED_CmdDelPrevWord (st : ED_State) : ED_State :=
  DelWord_guard st (fun st =>
    if negb (ED_CmdMultNeg (Cmd st) =? 0)
    then DelWord_guard (set_MultNeg st 0) DelNextWord_main
    else DelPrevWord_main st).

(** ** Query-replace *)

Definition ED_STR_EchoQueryReplaceDone (Count : Z) : list Z :=
  bytes_of "Replaced "%string ++ fmt_d Count ++ bytes_of " occurrences"%string.

Definition ED_STR_EchoQueryReplace (From To : list Z) : list Z :=
  bytes_of "Query replacing "%string ++ firstn (Z.to_nat ED_ISSTRLEN) From
  ++ bytes_of " with "%string ++ firstn (Z.to_nat ED_ISSTRLEN) To
  ++ bytes_of ": [y n ! . <Ret>]"%string.

Definition set_QREPPaneP (q : ED_QREPRecord) (v : option Z) : ED_QREPRecord :=
  mkQREP v (ED_QREPFromStr q) (ED_QREPToStr q) (ED_QREPPrevFromStr q)
         (ED_QREPPrevToStr q) (ED_QREPCount q) (ED_QREPDoAll q).
Definition set_QREPCount (q : ED_QREPRecord) (v : Z) : ED_QREPRecord :=
  mkQREP (ED_QREPPaneP q) (ED_QREPFromStr q) (ED_QREPToStr q)
         (ED_QREPPrevFromStr q) (ED_QREPPrevToStr q) v (ED_QREPDoAll q).
Definition set_QREPDoAll (q : ED_QREPRecord) (v : Z) : ED_QREPRecord :=
  mkQREP (ED_QREPPaneP q) (ED_QREPFromStr q) (ED_QREPToStr q)
         (ED_QREPPrevFromStr q) (ED_QREPPrevToStr q) (ED_QREPCount q) v.

(** [ED_QREPPaneUpdate] *)
Definition ED_QREPPaneUpdate (st : ED_State) (Incremental : bool) : ED_State :=
  let DeltaLen := ED_QREPToLen (QREP st) - ED_QREPFromLen (QREP st) in
  let PP := Pane st in
  let PP :=
    if Incremental then set_CursorPos PP (CursorPos PP + DeltaLen)
    else set_CursorPos PP (ED_ISSearchPos (IS st) + DeltaLen) in
  let '(PP, sel) := ED_PaneUpdateAllPos PP (Buf st) (Sel st) false in
  set_Sel (set_Pane st PP) sel.

(** [ED_QREPSearchUpdate] *)
Definition ED_QREPSearchUpdate (st : ED_State) (MatchPos : Z) : ED_State :=
  if MatchPos =? -1 then
    let st := set_Echo st (ED_FrameSPrintEchoS ED_ECHOMSGMODE
                (ED_STR_EchoQueryReplaceDone (ED_QREPCount (QREP st)))) in
    let st :=
      if negb (ED_QREPDoAll (QREP st) =? 0) then
        let st := ED_QREPPaneUpdate st false in
        let '(panes, sel) :=
          ED_PaneUpdateOtherPanesIncrRest (Pane st) (Buf st) (Others st) (Sel st) in
        set_Sel (set_Others st panes) sel
      else st in
    set_QREP (set_IS st (set_ISPaneP (IS st) None)) (set_QREPPaneP (QREP st) None)
  else
    let st := set_IS st (set_ISPos (IS st) MatchPos (MatchPos + ED_ISStrLen (IS st))) in
    let st := set_Pane st (set_CursorPos (Pane st) (ED_ISSearchPos (IS st))) in
    if ED_QREPDoAll (QREP st) =? 0 then
      let PP := Pane st in
      let '(RowStartPos, Row, Col) :=
        ED_PaneFindLoc PP (Buf st) (CursorPos PP) false false in
      let PP := set_CursorRC PP Row Col in
      if (CursorRow PP <? 0) || (CursorRow PP >? RowCount PP - 2) then
        let '(PP, sel) :=
          ED_PaneMoveAfterCursorMove PP (Buf st) (Sel st) RowStartPos
                                     (Z.quot (RowCount PP - 2) 2) in
        set_Sel (set_Pane st PP) sel
      else set_Pane st PP
    else st.

(** [ED_QREPReplace] *)
Definition ED_QREPReplace (st : ED_State) : ED_State :=
  let st := set_QREP st (set_QREPCount (QREP st) (ED_QREPCount (QREP st) + 1)) in
  let FromLen := ED_QREPFromLen (QREP st) in
  let ToLen := ED_QREPToLen (QREP st) in
  let StartPos := ED_ISMatchPos (IS st) in
  let DeltaLen := ToLen - FromLen in
  let st := st_PlaceGap st StartPos DeltaLen in
  let DataP := sub (Mem (Buf st)) (GapEndP (Buf st)) FromLen in
  let st := st_AddUndoBlock st StartPos FromLen (Z.lor ED_UB_DEL ED_UB_CHUNK) DataP in
  let st := st_SetModFlag st in
  let st := if ED_QREPCount (QREP st) =? 1 then st_KillRingAdd st DataP true else st in
  let b := Buf st in
  let st := set_Buf st (set_LastPos (set_GapEndP b (GapEndP b + FromLen))
                                    (LastPos b - FromLen)) in
  let st :=
    if negb (ToLen =? 0) then
      let st := st_AddUndoBlock st StartPos ToLen
                  (Z.lor ED_UB_ADD (Z.lor ED_UB_CHUNK ED_UB_CHAIN)) [] in
      let b := Buf st in
      let b := set_Mem b (wr (Mem b) (GapStartP b) (ED_QREPToStr (QREP st))) in
      set_Buf st (set_LastPos (set_GapStartP b (GapStartP b + ToLen))
                              (LastPos b + ToLen))
    else st in
  let st := set_IS st (set_ISPos (IS st) (ED_ISMatchPos (IS st))
                                 (ED_ISMatchPos (IS st) + ToLen)) in
  if negb (ED_QREPDoAll (QREP st) =? 0) then
    if PaneRefCount (Buf st) >? 1 then
      set_Others st (ED_PaneUpdateOtherPanesIncrBasic (Pane st) (Others st)
                                                      StartPos DeltaLen)
    else st
  else
    let st :=
      if PaneRefCount (Buf st) >? 1 then st_UpdateOtherPanes st StartPos DeltaLen
      else st in
    ED_QREPPaneUpdate st true.

(** [MatchPos = ED_ISMatchForward (...); ED_QREPSearchUpdate (MatchPos);] *)
Definition QREP_next (st : ED_State) : ED_State * Z :=
  let '(s, MatchPos) := ED_ISMatchForward (IS st) (Buf st) (ED_ISSearchPos (IS st)) in
  (ED_QREPSearchUpdate (set_IS st s) MatchPos, MatchPos).

(** The [do ... while (MatchPos > 0)] loops of the ['!'] and ['i'] answers.
    Each pass consumes at least one byte of the text after the search
    position, so [LastPos + 1] passes are never exceeded.  (No X event
    arrives while ['i'] pumps the event loop.) *)
Fixpoint QREP_all_loop (fuel : nat) (DoAll : bool) (st : ED_State) : ED_State :=
  match fuel with
  | O => st
  | S f =>
      let st := if DoAll then set_QREP st (set_QREPDoAll (QREP st) 1) else st in
      let st := ED_QREPReplace st in
      let '(st, MatchPos) := QREP_next st in
      if MatchPos >? 0 then QREP_all_loop f DoAll st else st
  end.

(** [ED_QREPHandleChars]; the result is always 1. *)
Definition ED_QREPHandleChars (st : ED_State) (SymChar Mods : Z) : ED_State :=
  if has Mods (Z.lor ControlMask (Z.lor Mod1Mask Mod4Mask)) then st
  else if (SymChar =? 121) || (SymChar =? 89) || (SymChar =? 32) then
    fst (QREP_next (ED_QREPReplace st))
  else if (SymChar =? 110) || (SymChar =? 78) || (SymChar =? 0xffff)
          || (SymChar =? 0xff08) then
    fst (QREP_next st)
  else if SymChar =? 0xff0d then
    let st :=
      match ED_ISPaneP (IS st) with
      | Some _ =>
          let '(b, e) := ED_BufferPushMark (Buf st) (ED_ISOriginPos (IS st)) in
          set_Echo (set_Buf st b) e
      | None => st
      end in
    ED_QREPSearchUpdate st (-1)
  else if SymChar =? 46 then ED_QREPSearchUpdate (ED_QREPReplace st) (-1)
  else if (SymChar =? 105) || (SymChar =? 73) then
    QREP_all_loop (Z.to_nat (LastPos (Buf st)) + 1) false st
  else if SymChar =? 33 then
    QREP_all_loop (Z.to_nat (LastPos (Buf st)) + 1) true st
  else st.

(** [ED_QREPStart]; the mini-query has put the two strings in
    [ED_QREPFromStr] and [ED_QREPToStr]. *)
Definition ED_QREPStart (st : ED_State) : ED_State :=
  let PP := Pane st in
  let q := QREP st in
  let q := mkQREP (Some (PaneAddr PP)) (ED_QREPFromStr q) (ED_QREPToStr q)
                  (ED_QREPFromStr q) (ED_QREPToStr q) (ED_QREPCount q)
                  (ED_QREPDoAll q) in
  let st := set_QRPaneP (set_QREP st q) None in
  let st := set_Echo st (ED_FrameSPrintEchoS ED_ECHOPROMPTMODE
              (ED_STR_EchoQueryReplace (ED_QREPFromStr q) (ED_QREPToStr q))) in
  let s := IS st in
  let s := mkIS (Some (PaneAddr PP)) 1 (ED_QREPFromStr q)
                (QREPStart_CaseSen (ED_QREPFromStr q)) (ED_ISPrevStr s)
                (-1) (CursorPos PP) (ED_ISAltPos s) (CursorPos PP)
                (ED_ISDoWrap s) in
  fst (QREP_next (set_IS st s)).

(** [ED_CmdQueryReplace] with its mini-query answered: [From] (not empty)
    and [To] are the two responses, which [EDCB_QREPFunc1] and
    [EDCB_QREPFunc2] store before [ED_QREPStart] runs. *)
Definition ED_CmdQueryReplace (st : ED_State) (From To : list Z) : ED_State :=
  let '(st, ro) := ED_BufferReadOnly st in
  if ro then st
  else
    let st := set_SelPaneP st None in
    let q := QREP st in
    let From := firstn (Z.to_nat (ED_ISSTRLEN - 1)) From in
    let To := firstn (Z.to_nat (ED_ISSTRLEN - 1)) To in
    let st := set_QREP st (mkQREP None From To (ED_QREPPrevFromStr q)
                                  (ED_QREPPrevToStr q) 0 0) in
    ED_QREPStart st.

(** ** The undo command *)

(** The number of blocks the log holds: the read head steps back over each
    at most once. *)
Definition undo_blocks (BufP : ED_BufferRecord) : nat :=
  fold_right (fun s n => (length (UBlocks s) + n)%nat) O (USlabs BufP).

(** [ED_CmdUndo] from label [GetAnother]: [Some (st, DataPos, Total)] when a
    chain was undone, [None] for the jump to [DoneDone]. *)
Fixpoint CmdUndo_loop (fuel : nat) (st : ED_State) (DidChain : bool) (Total : Z)
  : ED_State * option (Z * Z) :=
  match fuel with
  | O => (st, None)
  | S f =>
      let '(r, h, e) :=
        ED_BufferUndo (Buf st) (UHead st) (ED_CmdLastId (Cmd st)) (Echo st) in
      let st := set_Echo (set_UHead st h) e in
      match r with
      | None => (st, None)
      | Some (Op, DataPos, DataLen, DataP) =>
          let flags st :=
            let b := Buf st in
            if (ED_UndoSeenSave (UHead st) =? 0) && has Op ED_UB_FIRSTMOD then
              set_Buf st (set_Flags b
                (clrf (setf (Flags b) ED_BUFCLEANUNDOFLAG) ED_BUFMODFLAG))
            else set_Buf st (set_Flags b (setf (Flags b) ED_BUFMODFLAG)) in
          let next st Total :=
            if has Op ED_UB_CHAIN then CmdUndo_loop f st true Total
            else (st, Some (DataPos, Total)) in
          if has Op ED_UB_ADD then
            if DataPos =? -1 then
              let st :=
                if has Op ED_UB_SAVE then
                  set_UHead st (mkUndoHead (ED_UndoBlock (UHead st))
                                           (ED_UndoSlabP (UHead st)) 1)
                else st in
              CmdUndo_loop f st DidChain Total
            else
              let NewOp := if DidChain then Z.lor ED_UB_DEL ED_UB_CHAIN else ED_UB_DEL in
              let st := set_Buf st (ED_BufferUpdateMark (Buf st) DataPos (- DataLen)) in
              let st := st_PlaceGap st DataPos 0 in
              let st := st_AddUndoBlock st DataPos DataLen NewOp
                          (sub (Mem (Buf st)) (GapEndP (Buf st)) DataLen) in
              let b := Buf st in
              let st := set_Buf st (set_LastPos (set_GapEndP b (GapEndP b + DataLen))
                                                (LastPos b - DataLen)) in
              next (flags st) (Total - DataLen)
          else if has Op ED_UB_DEL then
            let NewOp := if DidChain then Z.lor ED_UB_ADD ED_UB_CHAIN else ED_UB_ADD in
            let st := set_Buf st (ED_BufferUpdateMark (Buf st) DataPos DataLen) in
            let st := st_PlaceGap st DataPos DataLen in
            let b := Buf st in
            let b := set_Mem b (wr (Mem b) (GapStartP b) (sub DataP 0 DataLen)) in
            let st := set_Buf st (set_LastPos (set_GapStartP b (GapStartP b + DataLen))
                                              (LastPos b + DataLen)) in
            let st := st_AddUndoBlock st DataPos DataLen NewOp [] in
            next (flags st) (Total + DataLen)
          else next st Total
      end
  end.

(** [ED_CmdUndo] *)
Definition ED_CmdUndo (st : ED_State) : ED_State :=
  let '(st, ro) := ED_BufferReadOnly st in
  if ro then st
  else
    let st :=
      if negb (ED_CmdLastId (Cmd st) =? ED_UndoId)
      then set_UHead st (mkUndoHead 0 None 0) else st in
    let '(st, r) := CmdUndo_loop (undo_blocks (Buf st) + 1) st false 0 in
    let st :=
      match r with
      | Some (DataPos, Total) =>
          let st := set_Pane st (set_CursorPos (Pane st) DataPos) in
          let '(p, sel) := ED_PaneUpdateAllPos (Pane st) (Buf st) (Sel st) false in
          st_UpdateOtherPanes (set_Sel (set_Pane st p) sel) DataPos Total
      | None => st
      end in
    set_ThisId st ED_UndoId.

(** ** Initial states *)

(** [ED_BufferNew] (for a file buffer), then [ED_BufferReadFile] reading
    [content]: the text sits at the start of the block, the gap after it. *)
Definition ED_BufferReadFile (content : list Z) (heap : Z) : ED_BufferRecord * Z :=
  let Size := Z.of_nat (length content) in
  let InitSize := Size + ED_GAPEXTRAEXPAND in
  let b := mkBuffer ED_BUFCLEANUNDOFLAG
                    (content ++ repeat 0 (Z.to_nat ED_GAPEXTRAEXPAND))
                    InitSize Size InitSize [] 0 0 Size 0 0
                    (repeat 0 (Z.to_nat ED_MARKRINGCOUNT)) in
  ED_BufferInitUndo b heap.

Definition IS_init : ED_ISRecord := mkIS None 0 [] 0 [] (-1) (-1) (-1) 0 0.
Definition QREP_init : ED_QREPRecord := mkQREP None [] [] [] [] 0 0.
Definition Sel_init : ED_SelRecord := mkSel None 0 0 0.
Definition Echo_init : ED_EchoRecord := mkEcho [] 0 ED_ECHOMSGMODE.

(** A pane at the top of its buffer, [rows] rows of [cols] characters. *)
Definition Pane_init (addr buf cols rows : Z) : ED_PaneRecord :=
  mkPane addr buf cols 0 0 0 0 0 0 rows.

(** The editor just after start-up with one frame, one pane, showing a file
    with the given content; the cursor is at position 0. *)
Definition editor_with (content : list Z) : ED_State :=
  let '(b, heap) := ED_BufferReadFile content 1 in
  let b := mkBuffer (Flags b) (Mem b) (BufEndP b) (GapStartP b) (GapEndP b)
                    (USlabs b) (USCount b) (USTotalSize b) (LastPos b) 1
                    (MarkRingIndex b) (MarkRingArr b) in
  mkState (Pane_init 100 200 80 40) b [] ED_KillRingInit Cmd_init IS_init
          QREP_init Sel_init (mkUndoHead 0 None 0) Echo_init None 0 heap.

(** ** Invariants used by the statements *)

(** The top entry of the kill ring lies inside the block [TopP]. *)
Definition kr_wf (kr : ED_KRRecord) : Prop :=
  0 <= KEPos (Elt kr (TopI kr)) /\ 0 <= KELen (Elt kr (TopI kr)) /\
  KEPos (Elt kr (TopI kr)) + KELen (Elt kr (TopI kr)) <= TopLen kr /\
  TopLen kr = Z.of_nat (length (TopP kr)) /\
  0 <= TopI kr < Z.of_nat (length (EltArr kr)).

(** What a write to the top entry leaves alone: the index of the top, the
    block of the older entries and their records. *)
Definition same_entries (kr kr' : ED_KRRecord) : Prop :=
  TopI kr' = TopI kr /\ YankI kr' = YankI kr /\ RestP kr' = RestP kr /\
  RestDataLen kr' = RestDataLen kr /\
  length (EltArr kr') = length (EltArr kr) /\
  forall i, 0 <= i -> i <> TopI kr -> Elt kr' i = Elt kr i.


(** The dispatcher is in the middle of a numeric argument: [ED_CmdMultIn]
    is set, and the keys typed so far are all part of the argument. *)
Definition in_prefix (c : ED_CmdRecord) : Prop :=
  ED_CmdMultIn c <> 0 /\ 0 < ED_CmdLen c /\
  ED_CmdLen c = Z.of_nat (length (ED_CmdStr c)) /\
  ED_CmdMultLen c = ED_CmdLen c.

(** The multiplier a numeric argument stands for when a key that is not
    part of it arrives (the "Done with numbers!" branch). *)
Definition prefix_value (c : ED_CmdRecord) : Z :=
  if ED_CmdMultDigit c =? 0 then
    if negb (ED_CmdMultNeg c =? 0) then 1 else 4
  else ED_CmdMult c.

(** ** Keys and scenarios *)

Definition key_C_u : Z * Z := (117, ControlMask).
Definition key_M_minus : Z * Z := (45, Mod1Mask).
Definition key_minus : Z * Z := (45, 0).
Definition key_a : Z * Z := (97, 0).
Definition key_Backspace : Z * Z := (0xff08, 0).
Definition key_M_Backspace : Z * Z := (0xff08, Mod1Mask).
Definition key_M_d : Z * Z := (100, Mod1Mask).
Definition key_C_slash : Z * Z := (47, ControlMask).
Definition key_digit (d : Z) : Z * Z := (48 + d, 0).

(** The editor on a file with the given content, the cursor moved to [pos]
    on row 0 (the content has one row). *)
Definition editor_at (content : list Z) (pos : Z) : ED_State :=
  let st := editor_with content in
  set_Pane st (set_CursorRC (set_CursorPos (Pane st) pos) 0 pos).

(** Query-replace of "a" by "bb" in "aaa", answered with '!'. *)
Definition qrep_aaa : ED_State :=
  ED_QREPHandleChars
    (ED_CmdQueryReplace (editor_with (bytes_of "aaa"%string))
                        (bytes_of "a"%string) (bytes_of "bb"%string))
    33 0.

(** Query-replace of "Za" by "x" in "ZA", answered with '!'. *)
Definition qrep_Za : ED_State :=
  ED_QREPHandleChars
    (ED_CmdQueryReplace (editor_with (bytes_of "ZA"%string))
                        (bytes_of "Za"%string) (bytes_of "x"%string))
    33 0.



(** A dispatcher with no command bound but the plain key "a", whose
    function leaves the word "called" in the echo line. *)
Definition bind_a : list ED_FBindRecord := [([97], 7)].
Definition mark_call (FuncP : Z) (st : ED_State) : ED_State :=
  st_SetEchoS st (bytes_of "called"%string).

(** An Xlib that names no key, and bound functions that do nothing. *)
Definition no_names (KS : Z) : option (list Z) := None.
Definition no_other (FuncP : Z) (st : ED_State) : ED_State := st.

(** ** Further functions of [sc_Editor.c] *)

(** [ED_UtilGetLastStrSlash]: the offset of [LastP] in [Str], 0 when the
    string has no slash. *)
Fixpoint LastStrSlash_loop (Str : list Z) (P LastP : Z) : Z :=
  match Str with
  | [] => LastP
  | C :: Str' => LastStrSlash_loop Str' (P + 1) (if Int8 C =? 47 then P else LastP)
  end.

Definition ED_UtilGetLastStrSlash (Str : list Z) : Z := LastStrSlash_loop Str 0 0.

(** [ED_UtilIntersectStr]: what [MainSP] holds on return. *)
Fixpoint ED_UtilIntersectStr (MainSP NewSP : list Z) : list Z :=
  match MainSP, NewSP with
  | C :: MainSP', D :: NewSP' =>
      if negb (Int8 C =? Int8 D) then []
      else C :: ED_UtilIntersectStr MainSP' NewSP'
  | _, _ => []
  end.

(** [ED_UtilGetLineEnd]: the returned byte count and [*CharCountP].  [Text]
    are the [TextLen] bytes at [TextP]; every pass moves [CurP] forward. *)
Fixpoint UtilGetLineEnd_loop (fuel : nat) (Text : list Z) (CurP Count : Z)
  : Z * Z :=
  match fuel with
  | O => (CurP, Count)
  | S f =>
      if CurP <? Z.of_nat (length Text) then
        let Count := Count + 1 in
        if rd Text CurP =? 10 then (CurP, Count)
        else UtilGetLineEnd_loop f Text (CurP + ED_BufferGetUTF8Len (rd Text CurP))
                                 Count
      else (CurP, Count)
  end.

Definition ED_UtilGetLineEnd (Text : list Z) : Z * Z :=
  UtilGetLineEnd_loop (length Text + 1) Text 0 0.

Definition ED_STR_EchoMarkPop : list Z := bytes_of "Mark popped"%string.

(** [ED_BufferGetMark]: the mark, and the buffer and echo line it leaves. *)
Definition ED_BufferGetMark (BufP : ED_BufferRecord) (DoPop : bool)
  (echo : ED_EchoRecord) : Z * ED_BufferRecord * ED_EchoRecord :=
  let MarkPos := nth (Z.to_nat (MarkRingIndex BufP)) (MarkRingArr BufP) 0 in
  if DoPop then
    (MarkPos,
     set_marks BufP (Z.land (MarkRingIndex BufP - 1) ED_MARKRINGMASK)
               (MarkRingArr BufP),
     ED_FrameSetEchoS ED_ECHOMSGMODE ED_STR_EchoMarkPop)
  else (MarkPos, BufP, echo).

(** The [for] loop of [ED_BufferGetDiffMark], entered with [I]; [n] passes
    are left.  [MarkPos] is the value read in the pass before. *)
Fixpoint GetDiffMark_loop (n : nat) (I : Z) (BufP : ED_BufferRecord)
  (NotPos MarkPos : Z) : Z * ED_BufferRecord :=
  match n with
  | O => (MarkPos, BufP)
  | S n' =>
      let BufP :=
        set_marks BufP (Z.land (MarkRingIndex BufP - I) ED_MARKRINGMASK)
                  (MarkRingArr BufP) in
      let MarkPos := nth (Z.to_nat (MarkRingIndex BufP)) (MarkRingArr BufP) 0 in
      if negb (MarkPos =? NotPos) then (MarkPos, BufP)
      else GetDiffMark_loop n' (I + 1) BufP NotPos MarkPos
  end.

(** [ED_BufferGetDiffMark] *)
Definition ED_BufferGetDiffMark (BufP : ED_BufferRecord) (NotPos : Z)
  : Z * ED_BufferRecord :=
  GetDiffMark_loop (Z.to_nat ED_MARKRINGCOUNT) 0 BufP NotPos 0.

(** [ED_BufferSwapMark] *)
Definition ED_BufferSwapMark (BufP : ED_BufferRecord) (NewPos : Z)
  : Z * ED_BufferRecord :=
  let MarkPos := nth (Z.to_nat (MarkRingIndex BufP)) (MarkRingArr BufP) 0 in
  let '(MarkPos, BufP) :=
    if MarkPos =? NewPos then
      let BufP :=
        set_marks BufP (Z.land (MarkRingIndex BufP - 1) ED_MARKRINGMASK)
                  (MarkRingArr BufP) in
      (nth (Z.to_nat (MarkRingIndex BufP)) (MarkRingArr BufP) 0, BufP)
    else (MarkPos, BufP) in
  (MarkPos,
   set_marks BufP (MarkRingIndex BufP)
             (upd (MarkRingArr BufP) (Z.to_nat (MarkRingIndex BufP)) NewPos)).

(** The [while] of [ED_KillRingYank]: [Count] runs from 1 to
    [ED_KILLRINGCOUNT], so 16 units of fuel are never used up. *)
Fixpoint KillRingYank_loop (fuel : nat) (kr : ED_KRRecord) (Inc Count : Z)
  : ED_KRRecord :=
  match fuel with
  | O => kr
  | S f =>
      if (Count <? ED_KILLRINGCOUNT) && (KELen (Elt kr (YankI kr)) =? 0) then
        KillRingYank_loop f
          (set_YankI kr (Z.land (YankI kr - Inc) ED_KILLRINGMASK)) Inc (Count + 1)
      else kr
  end.

(** [ED_KillRingYank]: the kill ring, and the [*LenP] bytes at [*PP]. *)
Definition ED_KillRingYank (kr : ED_KRRecord) (PopCount : Z)
  (LoopForData : bool) : ED_KRRecord * list Z :=
  let kr := set_YankI kr (Z.land (YankI kr - PopCount) ED_KILLRINGMASK) in
  let kr :=
    if LoopForData then
      KillRingYank_loop (Z.to_nat ED_KILLRINGCOUNT) kr
                        (if PopCount <? 0 then -1 else 1) 1
    else kr in
  (kr, kill_entry kr (YankI kr)).

(** The [do ... while (CurPos)] loop of [ED_BufferGetLineStartPos]; every
    pass moves [CurPos] back by at least one byte.  (A text that begins
    inside a UTF-8 sequence can take [CurPos] below 0, where the source
    does not stop.) *)
Fixpoint LineStartPos_loop (fuel : nat) (BufP : ED_BufferRecord) (CurPos : Z)
  : Z :=
  match fuel with
  | O => CurPos
  | S f =>
      let CurPos := CurPos - 1 in
      let '(CurP, CurPos) :=
        skip_mid BufP (ED_BufferPosToPtr BufP CurPos) CurPos in
      if rd (Mem BufP) CurP =? 10 then CurPos + 1
      else if negb (CurPos =? 0) then LineStartPos_loop f BufP CurPos
      else CurPos
  end.

(** [ED_BufferGetLineStartPos] *)
Definition ED_BufferGetLineStartPos (BufP : ED_BufferRecord) (OldPos : Z) : Z :=
  if OldPos =? 0 then 0
  else LineStartPos_loop (Z.to_nat OldPos) BufP OldPos.

(** [ED_AuxCmdDoShiftSel] *)
Definition ED_AuxCmdDoShiftSel (st : ED_State) : ED_State :=
  if negb (ED_CmdShift (Cmd st) =? 0) then
    if negb (sel_is (Sel st) (Pane st)) then
      let P := Pane st in
      let st := set_Sel st (mkSel (Some (PaneAddr P)) (CursorPos P)
                                  (CursorCol P) (CursorRow P)) in
      let '(b, e) := ED_BufferPushMark (Buf st) (CursorPos P) in
      set_Echo (set_Buf st b) e
    else st
  else set_SelPaneP st None.

(** The end of the cursor motions: [ED_PaneFindLoc] for the cursor, then
    [ED_PaneMoveAfterCursorMove (PaneP, RowStartPos, (RowCount - 2) / 2, 0)]. *)
Definition st_AfterCursorMove (st : ED_State) : ED_State :=
  let P := Pane st in
  let '(RowStartPos, Row, Col) :=
    ED_PaneFindLoc P (Buf st) (CursorPos P) false false in
  let '(P, sel) :=
    ED_PaneMoveAfterCursorMove (set_CursorRC P Row Col) (Buf st) (Sel st)
                               RowStartPos (Z.quot (RowCount P - 2) 2) in
  set_Sel (set_Pane st P) sel.

(** The loop [while (ED_CmdMult-- && (PaneP->CursorPos < BufP->LastPos))] of
    [ED_CmdGoNextChar]; [n] is the value of [ED_CmdMult] on entry. *)
Fixpoint GoNextChar_loop (n : nat) (st : ED_State) : ED_State :=
  match n with
  | O => set_Mult st (ED_CmdMult (Cmd st) - 1)
  | S n' =>
      let st := set_Mult st (ED_CmdMult (Cmd st) - 1) in
      if CursorPos (Pane st) <? LastPos (Buf st) then
        let P := Pane st in
        let L := ED_BufferGetUTF8Len (byte_at (Buf st) (CursorPos P)) in
        GoNextChar_loop n' (set_Pane st (set_CursorPos P (CursorPos P + L)))
      else st
  end.

(** [ED_CmdGoNextChar] after the [ED_CmdMultNeg] test. *)
Definition GoNextChar_main (st : ED_State) : ED_State :=
  if CursorPos (Pane st) >=? LastPos (Buf st)
  then st_SetEchoS st ED_STR_EchoEndBuf
  else
    let st := ED_AuxCmdDoShiftSel st in
    let st := GoNextChar_loop (Z.to_nat (ED_CmdMult (Cmd st))) st in
    st_AfterCursorMove st.

(** The loop [while (ED_CmdMult-- && PaneP->CursorPos)] of
    [ED_CmdGoPrevChar]. *)
Fixpoint GoPrevChar_loop (n : nat) (st : ED_State) : ED_State :=
  match n with
  | O => set_Mult st (ED_CmdMult (Cmd st) - 1)
  | S n' =>
      let st := set_Mult st (ED_CmdMult (Cmd st) - 1) in
      if negb (CursorPos (Pane st) =? 0) then
        let P := CursorPos (Pane st) - 1 in
        let '(_, P) := skip_mid (Buf st) (ED_BufferPosToPtr (Buf st) P) P in
        GoPrevChar_loop n' (set_Pane st (set_CursorPos (Pane st) P))
      else st
  end.

(** [ED_CmdGoPrevChar] after the [ED_CmdMultNeg] test. *)
Definition GoPrevChar_main (st : ED_State) : ED_State :=
  if CursorPos (Pane st) =? 0 then st_SetEchoS st ED_STR_EchoBegBuf
  else
    let st := ED_AuxCmdDoShiftSel st in
    let st := GoPrevChar_loop (Z.to_nat (ED_CmdMult (Cmd st))) st in
    st_AfterCursorMove st.

(** [ED_CmdGoNextChar] and [ED_CmdGoPrevChar]: each hands over to the other
    for a negative argument, after clearing [ED_CmdMultNeg]. *)
Definition ED_CmdGoNextChar (st : ED_State) : ED_State :=
  if negb (ED_CmdMultNeg (Cmd st) =? 0)
  then GoPrevChar_main (set_MultNeg st 0)
  else GoNextChar_main st.

Definition ED_CmdGoPrevChar (st : ED_State) : ED_State :=
  if negb (ED_CmdMultNeg (Cmd st) =? 0)
  then GoNextChar_main (set_MultNeg st 0)
  else GoPrevChar_main st.

(** ** The dispatcher: [ED_FrameCommandMatch] *)

(** [printf ("%x")] of an [Uns32]. *)
Fixpoint fmt_xdigits (fuel : nat) (n : Z) (acc : list Z) : list Z :=
  match fuel with
  | O => acc
  | S f =>
      let d := n mod 16 in
      let acc := (if d <? 10 then 48 + d else 87 + d) :: acc in
      if n / 16 =? 0 then acc else fmt_xdigits f (n / 16) acc
  end.

Definition fmt_x (n : Z) : list Z := fmt_xdigits 8 n [].

Fixpoint bytes_eqb (a b : list Z) : bool :=
  match a, b with
  | [], [] => true
  | x :: a', y :: b' => (x =? y) && bytes_eqb a' b'
  | _, _ => false
  end.

(** The statements of [ED_FrameCommandMatch] that follow the call of the
    bound function. *)
Definition FrameCommandMatch_after_call (st : ED_State) : ED_State :=
  let c := Cmd st in
  let c := set_CmdIds c (ED_CmdShift c) (ED_CmdThisId c) (ED_CmdThisId c) in
  let c :=
    if negb (ED_CmdLastId c =? ED_ExecId) then
      set_CmdMults c 1 0 0 (ED_CmdMultDigit c) (ED_CmdMultIn c)
    else c in
  set_Cmd st c.

Section Dispatch.

(** [ED_FirstBindP]: the binding list, in [strcmp] order. *)
Variable ED_FirstBindP : list ED_FBindRecord.
(** Xlib's [XKeysymToString]; [None] is its NULL. *)
Variable XKeysymToString : Z -> option (list Z).
(** The call [( *ED_CmdBindP->FRegP->FuncP)(FrameP->CurPaneP)]. *)
Variable call : Z -> ED_State -> ED_State.

(** [sprintf ("%s")]; glibc prints a NULL string as "(null)". *)
Definition fmt_s (s : option (list Z)) : list Z :=
  match s with
  | Some s => s
  | None => bytes_of "(null)"%string
  end.

(** [ED_KeyStrPrintExtKey]: the text written to [DestP]. *)
Definition ED_KeyStrPrintExtKey (Key : Z) : list Z :=
  let KS := Z.lor 0xff00 (Uns8 Key) in
  match XKeysymToString KS with
  | None => [60] ++ fmt_x KS ++ [62]
  | Some XStrP =>
      if bytes_eqb XStrP (bytes_of "(null)"%string)
      then [60] ++ fmt_x KS ++ [62]
      else [60] ++ XStrP ++ [62]
  end.

(** [ED_KeyStrPrint]: the text written to [DestP]; its length is the value
    returned.  The string ends at its first NUL or at the end of the list.
    (After [ED_EXTCOMMANDCODE] the source takes the next byte as the key
    without testing it; when that byte is the terminator the source goes on
    reading behind it, the model stops.) *)
Fixpoint ED_KeyStrPrint (KeyStrP : list Z) : list Z :=
  match KeyStrP with
  | [] => []
  | K :: KP =>
      if Int8 K =? 0 then []
      else if Int8 K =? ED_CTLCOMMANDCODE then [67; 45] ++ ED_KeyStrPrint KP
      else if Int8 K =? ED_ALTCOMMANDCODE then [77; 45] ++ ED_KeyStrPrint KP
      else if Int8 K =? ED_SUPCOMMANDCODE then [83; 45] ++ ED_KeyStrPrint KP
      else if Int8 K =? ED_HYPCOMMANDCODE then [72; 45] ++ ED_KeyStrPrint KP
      else if Int8 K =? ED_EXTCOMMANDCODE then
        match KP with
        | [] => ED_KeyStrPrintExtKey 0 ++ [32]
        | K' :: KP' => ED_KeyStrPrintExtKey K' ++ [32] ++ ED_KeyStrPrint KP'
        end
      else if Int8 K =? 32 then
        [60] ++ fmt_s (XKeysymToString (Int8 K)) ++ [62; 32] ++ ED_KeyStrPrint KP
      else [Uns8 K; 32] ++ ED_KeyStrPrint KP
  end.

(** [ED_FrameCommandEcho]: the dispatcher's globals and the echo line.
    [ED_KeyStrPrint] writes into [ED_FrameEchoS]; [ED_FrameEchoMode] is not
    assigned. *)
Definition ED_FrameCommandEcho (c : ED_CmdRecord) (e : ED_EchoRecord)
  (Waited : bool) : ED_CmdRecord * ED_EchoRecord :=
  let write (c : ED_CmdRecord) :=
    let text := ED_KeyStrPrint (ED_CmdStr c) in
    (c, mkEcho text (Z.of_nat (length text)) (ED_FrameEchoMode e)) in
  if ED_CmdLen c =? 0 then (c, e)
  else if Waited then
    if ED_CmdEchoDelay c =? 0 then (c, e)
    else
      let c := set_CmdEchoDelay c (ED_CmdEchoDelay c - 1) in
      if negb (ED_CmdEchoDelay c =? 0) then (c, e) else write c
  else if negb (ED_CmdEchoDelay c =? 0) then (c, e)
  else write c.

(** [ED_FrameCommandBadEcho]: the echo line it leaves. *)
Definition ED_FrameCommandBadEcho (c : ED_CmdRecord) (SymChar Error : Z)
  : ED_EchoRecord :=
  let CommandStr := ED_KeyStrPrint (ED_CmdStr c) in
  let text :=
    if Error =? 0 then CommandStr ++ bytes_of "is undefined!"%string
    else if Error =? 1 then
      CommandStr ++ fmt_s (XKeysymToString (Z.land 0x0000FFFF SymChar))
                 ++ bytes_of " is not a command!"%string
    else if Error =? 2 then CommandStr ++ bytes_of "is too much!"%string
    else CommandStr ++ bytes_of " is not a command!"%string in
  ED_FrameSPrintEchoS ED_ECHOMSGMODE text.

(** [ED_FrameCommandMatch]: the state it leaves and how the call ended. *)
Definition ED_FrameCommandMatch (st : ED_State) (SymChar Mods : Z)
  : ED_State * CmdOutcome :=
  let c := Cmd st in
  let e := Echo st in
  let '(c, e) :=
    if ED_CmdLen c =? 0 then
      (mkCmd 0 ED_FirstBindP [] 2 (ED_CmdShift c) 1 0 0 0 0 0
             (ED_CmdThisId c) (ED_CmdLastId c),
       Echo_clear e)
    else (c, e) in
  let NewI := ED_CmdLen c in
  let '(bytes, C) := key_bytes SymChar Mods in
  let c := set_CmdStr c (firstn (Z.to_nat NewI) (ED_CmdStr c) ++ bytes) in
  let Str0 := Int8 (nth 0 (ED_CmdStr c) 0) in
  let Str1 := Int8 (nth 1 (ED_CmdStr c) 0) in
  (* Entering CommandMult? *)
  let c :=
    if NewI =? 0 then
      if (Str0 =? ED_CTLCOMMANDCODE) && (Str1 =? 117) then
        set_CmdMults c 0 (ED_CmdMultNeg c) 1 (ED_CmdMultDigit c) 1
      else if Str0 =? ED_ALTCOMMANDCODE then
        if Str1 =? 45 then set_CmdMults c 0 1 1 (ED_CmdMultDigit c) 1
        else if (48 <=? Str1) && (Str1 <=? 57) then
          set_CmdMults c (Str1 - 48) (ED_CmdMultNeg c) 1 1 1
        else c
      else c
    else c in
  let StrNewI := Int8 (nth (Z.to_nat NewI) (ED_CmdStr c) 0) in
  (* [ED_FrameCommandEcho (FrameP, 0); ED_CmdLen = 0; return 1;] *)
  let insert (c : ED_CmdRecord) : ED_CmdRecord * ED_EchoRecord * option CmdOutcome :=
    let '(c, e) := ED_FrameCommandEcho c e false in
    (set_CmdLen c 0, e, Some InsertChar) in
  (* Already in CommandMult! *)
  let step : ED_CmdRecord * ED_EchoRecord * option CmdOutcome :=
    if negb (ED_CmdMultIn c =? 0) && (NewI >? 0) then
      if StrNewI =? 45 then
        if (ED_CmdMultDigit c =? 0) && (ED_CmdMultNeg c =? 0) then
          (set_CmdMults c (ED_CmdMult c) 1 (ED_CmdMultCmd c)
                        (ED_CmdMultDigit c) (ED_CmdMultIn c), e, None)
        else insert c
      else if (48 <=? C) && (C <=? 57) then
        let c := set_CmdStr c (firstn (Z.to_nat NewI) (ED_CmdStr c) ++ [Uns8 C]) in
        let c := set_CmdMults c (ED_CmdMult c * 10 + (C - 48))
                              (ED_CmdMultNeg c) (ED_CmdMultCmd c)
                              (ED_CmdMultDigit c + 1) (ED_CmdMultIn c) in
        if ED_CmdMultDigit c >? 5 then
          (set_CmdLen c 0, ED_FrameCommandBadEcho c 0 2, Some (BadEcho 2))
        else (c, e, None)
      else
        let Mult :=
          if ED_CmdMultDigit c =? 0 then
            if negb (ED_CmdMultNeg c =? 0) then 1 else 4
          else ED_CmdMult c in
        let c := set_CmdMults c Mult (ED_CmdMultNeg c) (ED_CmdMultCmd c)
                              (ED_CmdMultDigit c) 0 in
        if (ED_HYPCOMMANDCODE <? StrNewI) || (StrNewI <? ED_EXTCOMMANDCODE)
        then insert c
        else (c, e, None)
    else (c, e, None) in
  let leave (c : ED_CmdRecord) (e : ED_EchoRecord) (o : CmdOutcome) :=
    (set_Echo (set_Cmd st c) e, o) in
  match step with
  | (c, e, Some o) => leave c e o
  | (c, e, None) =>
      if negb (ED_CmdMultIn c =? 0) then
        let '(c, e) := ED_FrameCommandEcho c e false in
        leave (set_CmdMultLen c (ED_CmdLen c)) e Pending
      else
        let '(BindP, Res) :=
          ED_FRegFindBinding (ED_CmdBindP c)
            (cstr (skipn (Z.to_nat (ED_CmdMultLen c)) (ED_CmdStr c))) in
        let c := set_CmdBindP c BindP in
        if Res =? 1 then
          let '(c, e) := ED_FrameCommandEcho c e false in
          leave c e Pending
        else if Res <? 0 then
          leave (set_CmdLen c 0) (ED_FrameCommandBadEcho c 0 0) (BadEcho 0)
        else
          let FuncP := match BindP with B :: _ => snd B | [] => 0 end in
          let '(c, e) := ED_FrameCommandEcho c e false in
          let c := set_CmdLen c 0 in
          let c := set_CmdIds c (Z.land Mods (Z.lor ShiftMask LockMask))
                              FuncP (ED_CmdLastId c) in
          let o := Invoked FuncP (ED_CmdMult c) (ED_CmdMultNeg c)
                           (ED_CmdMultCmd c) in
          (FrameCommandMatch_after_call (call FuncP (set_Echo (set_Cmd st c) e)),
           o)
  end.

(** Feeding a sequence of key presses [(SymChar, Mods)], collecting how
    each call ended. *)
Fixpoint feed_keys (st : ED_State) (keys : list (Z * Z))
  : ED_State * list CmdOutcome :=
  match keys with
  | [] => (st, [])
  | (SymChar, Mods) :: keys' =>
      let '(st1, o) := ED_FrameCommandMatch st SymChar Mods in
      let '(st2, os) := feed_keys st1 keys' in
      (st2, o :: os)
  end.

End Dispatch.

(** ** Commands under the dispatcher *)

(** [strcmp]: the sign of the first difference, bytes compared unsigned. *)
Fixpoint strcmp (a b : list Z) : Z :=
  match a, b with
  | [], [] => 0
  | [], _ :: _ => -1
  | _ :: _, [] => 1
  | x :: a', y :: b' =>
      if Uns8 x <? Uns8 y then -1
      else if Uns8 x >? Uns8 y then 1
      else strcmp a' b'
  end.

(** [ED_FRegNewBinding]: the new binding list.  A key string bound before
    keeps its record, which now points to the new function.  (A key string
    of [ED_FBINDKEYSTRLEN] bytes or more raises an exception first; none of
    [ED_EditorInit] is that long.) *)
Fixpoint ED_FRegNewBinding (FirstBindP : list ED_FBindRecord) (FuncP : Z)
  (KeyStrP : list Z) : list ED_FBindRecord :=
  match FirstBindP with
  | [] => [(KeyStrP, FuncP)]
  | B :: rest =>
      let Res := strcmp KeyStrP (fst B) in
      if Res =? 0 then (fst B, FuncP) :: rest
      else if Res <? 0 then (KeyStrP, FuncP) :: B :: rest
      else B :: ED_FRegNewBinding rest FuncP KeyStrP
  end.

(** The function pointers [FRegP->FuncP] of the commands [ED_EditorInit]
    binds, as the values [ED_CmdThisId] receives: one number for each
    function, different from every [ED_CmdId]. *)
Definition FP_DelNextWord : Z := 1001.
Definition FP_DelPrevChar : Z := 1002.
Definition FP_DelPrevWord : Z := 1003.
Definition FP_Undo : Z := 1004.
Definition FP_DelNextChar : Z := 1005.
Definition FP_QueryReplace : Z := 1006.
Definition FP_SplitPane : Z := 1007.
Definition FP_KillPane : Z := 1008.
Definition FP_KillOtherPanes : Z := 1009.
Definition FP_GoNextPane : Z := 1010.
Definition FP_Exit : Z := 1011.
Definition FP_Help : Z := 1012.
Definition FP_QuitAction : Z := 1013.
Definition FP_SetMark : Z := 1014.
Definition FP_GetCursorInfo : Z := 1015.
Definition FP_GoNextChar : Z := 1016.
Definition FP_GoNextWord : Z := 1017.
Definition FP_GoPrevChar : Z := 1018.
Definition FP_GoPrevWord : Z := 1019.
Definition FP_GoNextPage : Z := 1020.
Definition FP_GoPrevPage : Z := 1021.
Definition FP_GoLineEnd : Z := 1022.
Definition FP_GoLineStart : Z := 1023.
Definition FP_GoNextRow : Z := 1024.
Definition FP_GoPrevRow : Z := 1025.
Definition FP_GoBufEnd : Z := 1026.
Definition FP_GoBufStart : Z := 1027.
Definition FP_RecenterPage : Z := 1028.
Definition FP_SelectAll : Z := 1029.
Definition FP_ExchMark : Z := 1030.
Definition FP_InsertTab : Z := 1031.
Definition FP_DelHSpace : Z := 1032.
Definition FP_JoinLines : Z := 1033.
Definition FP_DowncaseWord : Z := 1034.
Definition FP_UpcaseWord : Z := 1035.
Definition FP_CapitalizeWord : Z := 1036.
Definition FP_GotoLine : Z := 1037.
Definition FP_GotoChar : Z := 1038.
Definition FP_Yank : Z := 1039.
Definition FP_YankPop : Z := 1040.
Definition FP_KillLine : Z := 1041.
Definition FP_KillRegion : Z := 1042.
Definition FP_CopyRegion : Z := 1043.
Definition FP_ModBuffer : Z := 1044.
Definition FP_PopUpMarkList : Z := 1045.
Definition FP_PopUpKillList : Z := 1046.
Definition FP_PopUpCmdList : Z := 1047.
Definition FP_WriteFile : Z := 1048.
Definition FP_SaveFile : Z := 1049.
Definition FP_SaveSomeFiles : Z := 1050.
Definition FP_FindFile : Z := 1051.
Definition FP_InsertFile : Z := 1052.
Definition FP_PopUpBufferList : Z := 1053.
Definition FP_SwitchBuffer : Z := 1054.
Definition FP_KillBuffer : Z := 1055.
Definition FP_ExecNamedCmd : Z := 1056.
Definition FP_NewFrame : Z := 1057.
Definition FP_OtherFrame : Z := 1058.
Definition FP_DeleteFrame : Z := 1059.
Definition FP_DeleteOtherFrames : Z := 1060.
Definition FP_ISearch : Z := 1061.
Definition FP_ISearchBack : Z := 1062.

(** The calls of [ED_FRegNewBinding] in [ED_EditorInit], in the order of
    the source: the function and the key string. *)
Definition ED_EditorInit_bindings : list (Z * list Z) :=
  [ (FP_SplitPane, [0x16; 0x78; 0x32]);
    (FP_KillPane, [0x16; 0x78; 0x30]);
    (FP_KillOtherPanes, [0x16; 0x78; 0x31]);
    (FP_GoNextPane, [0x16; 0x78; 0x6f]);
    (FP_Exit, [0x16; 0x78; 0x16; 0x63]);
    (FP_Help, [0x16; 0x68]);
    (FP_QuitAction, [0x16; 0x67]);
    (FP_SetMark, [0x16; 0x20]);
    (FP_SetMark, [0x16; 0x40]);
    (FP_GetCursorInfo, [0x16; 0x78; 0x3d]);
    (FP_GoNextChar, [0x16; 0x66]);
    (FP_GoNextChar, [0x15; 0x53]);
    (FP_GoNextWord, [0x17; 0x66]);
    (FP_GoPrevChar, [0x16; 0x62]);
    (FP_GoPrevChar, [0x15; 0x51]);
    (FP_GoPrevWord, [0x17; 0x62]);
    (FP_GoNextPage, [0x16; 0x76]);
    (FP_GoNextPage, [0x15; 0x56]);
    (FP_GoPrevPage, [0x17; 0x76]);
    (FP_GoPrevPage, [0x15; 0x55]);
    (FP_GoLineEnd, [0x16; 0x65]);
    (FP_GoLineEnd, [0x15; 0x57]);
    (FP_GoLineStart, [0x16; 0x61]);
    (FP_GoLineStart, [0x15; 0x50]);
    (FP_GoNextRow, [0x16; 0x6e]);
    (FP_GoNextRow, [0x15; 0x54]);
    (FP_GoPrevRow, [0x16; 0x70]);
    (FP_GoPrevRow, [0x15; 0x52]);
    (FP_GoBufEnd, [0x17; 0x3e]);
    (FP_GoBufEnd, [0x16; 0x15; 0x57]);
    (FP_GoBufStart, [0x17; 0x3c]);
    (FP_GoBufStart, [0x16; 0x15; 0x50]);
    (FP_RecenterPage, [0x16; 0x6c]);
    (FP_SelectAll, [0x16; 0x78; 0x68]);
    (FP_ExchMark, [0x16; 0x78; 0x16; 0x78]);
    (FP_InsertTab, [0x15; 0x09]);
    (FP_DelNextChar, [0x16; 0x64]);
    (FP_DelNextChar, [0x15; 0xff]);
    (FP_DelNextWord, [0x17; 0x64]);
    (FP_DelNextWord, [0x16; 0x15; 0xff]);
    (FP_DelPrevChar, [0x15; 0x08]);
    (FP_DelPrevWord, [0x17; 0x15; 0xff]);
    (FP_DelPrevWord, [0x17; 0x15; 0x08]);
    (FP_DelPrevWord, [0x16; 0x15; 0x08]);
    (FP_DelHSpace, [0x17; 0x5c]);
    (FP_JoinLines, [0x17; 0x5e]);
    (FP_DowncaseWord, [0x17; 0x6c]);
    (FP_UpcaseWord, [0x17; 0x75]);
    (FP_CapitalizeWord, [0x17; 0x63]);
    (FP_GotoLine, [0x17; 0x67; 0x67]);
    (FP_GotoLine, [0x17; 0x67; 0x6c]);
    (FP_GotoLine, [0x17; 0x67; 0x17; 0x67]);
    (FP_GotoChar, [0x17; 0x67; 0x63]);
    (FP_Yank, [0x16; 0x79]);
    (FP_YankPop, [0x17; 0x79]);
    (FP_KillLine, [0x16; 0x6b]);
    (FP_KillRegion, [0x16; 0x77]);
    (FP_CopyRegion, [0x17; 0x77]);
    (FP_ModBuffer, [0x17; 0x7e]);
    (FP_PopUpMarkList, [0x16; 0x17; 0x20]);
    (FP_PopUpKillList, [0x16; 0x17; 0x79]);
    (FP_PopUpCmdList, [0x16; 0x17; 0x78]);
    (FP_WriteFile, [0x16; 0x78; 0x16; 0x77]);
    (FP_SaveFile, [0x16; 0x78; 0x16; 0x73]);
    (FP_SaveSomeFiles, [0x16; 0x78; 0x73]);
    (FP_FindFile, [0x16; 0x78; 0x16; 0x66]);
    (FP_InsertFile, [0x16; 0x78; 0x69]);
    (FP_PopUpBufferList, [0x16; 0x17; 0x62]);
    (FP_PopUpBufferList, [0x16; 0x78; 0x16; 0x62]);
    (FP_SwitchBuffer, [0x16; 0x78; 0x62]);
    (FP_KillBuffer, [0x16; 0x78; 0x6b]);
    (FP_ExecNamedCmd, [0x17; 0x78]);
    (FP_NewFrame, [0x16; 0x78; 0x35; 0x32]);
    (FP_OtherFrame, [0x16; 0x78; 0x35; 0x6f]);
    (FP_DeleteFrame, [0x16; 0x78; 0x35; 0x30]);
    (FP_DeleteOtherFrames, [0x16; 0x78; 0x35; 0x31]);
    (FP_ISearch, [0x16; 0x73]);
    (FP_ISearchBack, [0x16; 0x72]);
    (FP_QueryReplace, [0x17; 0x25]);
    (FP_Undo, [0x16; 0x2f]);
    (FP_Undo, [0x16; 0x5f]);
    (FP_Undo, [0x16; 0x78; 0x75]) ].

(** [ED_FirstBindP] as [ED_EditorInit] leaves it. *)
Definition ED_FirstBindP_init : list ED_FBindRecord :=
  fold_left (fun l b => ED_FRegNewBinding l (fst b) (snd b))
            ED_EditorInit_bindings [].

Section Commands.

(** Xlib's [XKeysymToString]. *)
Variable XKeysymToString : Z -> option (list Z).
(** The bound functions that are outside this model, by function pointer:
    what each does to the state.  ([ED_CmdQueryReplace] under the
    dispatcher opens the mini-query for its two strings and is one of
    them.) *)
Variable ED_CmdOther : Z -> ED_State -> ED_State.

(** Calling a bound function: it sees the dispatcher's globals and the rest
    of the state. *)
Definition call_cmd (FuncP : Z) (c : ED_CmdRecord) (st : ED_State)
  : ED_CmdRecord * ED_State :=
  let st := set_Cmd st c in
  let st :=
    if FuncP =? FP_DelNextWord then ED_CmdDelNextWord st
    else if FuncP =? FP_DelPrevChar then ED_CmdDelPrevChar st
    else if FuncP =? FP_DelPrevWord then ED_CmdDelPrevWord st
    else if FuncP =? FP_Undo then ED_CmdUndo st
    else if FuncP =? FP_DelNextChar then ED_CmdDelNextChar st
    else if FuncP =? FP_GoNextChar then ED_CmdGoNextChar st
    else if FuncP =? FP_GoPrevChar then ED_CmdGoPrevChar st
    else ED_CmdOther FuncP st in
  (Cmd st, st).

(** One call of [ED_FrameCommandMatch] in the editing pane, as
    [ED_FrameHandleKey] makes it for a key with a command modifier, a
    function key, or any key while a command is being typed. *)
Definition press (st : ED_State) (SymChar Mods : Z) : ED_State * CmdOutcome :=
  ED_FrameCommandMatch ED_FirstBindP_init XKeysymToString
    (fun FuncP st => snd (call_cmd FuncP (Cmd st) st)) st SymChar Mods.

Fixpoint presses (st : ED_State) (keys : list (Z * Z)) : ED_State :=
  match keys with
  | [] => st
  | (SymChar, Mods) :: keys' => presses (fst (press st SymChar Mods)) keys'
  end.

End Commands.

(** ** Vocabulary of the further statements *)

(** Every byte of the text is an ASCII byte. *)
Definition ascii_text (BufP : ED_BufferRecord) : Prop :=
  forall i, 0 <= i < LastPos BufP -> 0 <= byte_at BufP i < 128.

(** Two byte strings agree on a prefix and then the first has the smaller
    byte. *)
Definition differs_below (E K : list Z) : Prop :=
  exists p x y E' K', E = p ++ x :: E' /\ K = p ++ y :: K' /\ x < y.

(** [E] is a proper prefix of [K]. *)
Definition proper_prefix (E K : list Z) : Prop :=
  exists y K', K = E ++ y :: K'.

(** The index of the entry [j] steps behind the top of the kill ring. *)
Definition ring_index (kr : ED_KRRecord) (j : nat) : Z :=
  Z.land (TopI kr - Z.of_nat j) ED_KILLRINGMASK.

(** The number of bytes the [j] entries behind the top hold together. *)
Fixpoint rest_end (kr : ED_KRRecord) (j : nat) : Z :=
  match j with
  | O => 0
  | S j' => rest_end kr j' + KELen (Elt kr (ring_index kr (S j')))
  end.

(** The layout of the kill ring: the top entry lies in [TopP]; the 15
    entries behind it lie in [RestP] one after the other, the newest first,
    and fill its first [RestDataLen] bytes. *)
Definition kr_ring_wf (kr : ED_KRRecord) : Prop :=
  kr_wf kr /\ length (EltArr kr) = Z.to_nat ED_KILLRINGCOUNT /\
  RestLen kr = Z.of_nat (length (RestP kr)) /\
  RestDataLen kr <= RestLen kr /\
  RestDataLen kr = rest_end kr 15 /\
  forall j, (1 <= j <= 15)%nat ->
    0 <= KELen (Elt kr (ring_index kr j)) /\
    (KELen (Elt kr (ring_index kr j)) <> 0 ->
     KEPos (Elt kr (ring_index kr j)) = rest_end kr (j - 1)).

(** The kills the ring holds, the newest first. *)
Definition kr_history (kr : ED_KRRecord) : list (list Z) :=
  map (fun j => kill_entry kr (ring_index kr j))
      (seq 0 (Z.to_nat ED_KILLRINGCOUNT)).

(** The bytes of a key string as [ED_FRegBindCompare] reads them. *)
Definition ukey (K : list Z) : list Z := map Uns8 K.

(** The number a digit string stands for, after the digits that gave
    [acc]. *)
Definition decimal (acc : Z) (ds : list Z) : Z :=
  fold_left (fun a d => a * 10 + d) ds acc.

(** Matching a pattern against a text, byte by byte, with the test of
    [ED_ISCheckMatch]: the text must hold a matching byte for every byte of
    the pattern. *)
Fixpoint text_matches (CaseSen : Z) (text pat : list Z) {struct pat} : bool :=
  match pat, text with
  | [], _ => true
  | M :: pat', C :: text' =>
      negb (IS_mismatch CaseSen C M) && text_matches CaseSen text' pat'
  | _ :: _, [] => false
  end.

(** The mark ring is an array of [ED_MARKRINGCOUNT] positions and
    [MarkRingIndex] lies inside it. *)
Definition marks_wf (BufP : ED_BufferRecord) : Prop :=
  length (MarkRingArr BufP) = Z.to_nat ED_MARKRINGCOUNT /\
  0 <= MarkRingIndex BufP < ED_MARKRINGCOUNT.

(** The mark on top of the ring. *)
Definition top_mark (BufP : ED_BufferRecord) : Z :=
  nth (Z.to_nat (MarkRingIndex BufP)) (MarkRingArr BufP) 0.

(** The first [k] bytes of two strings are the same [char]s. *)
Definition common_prefix (k : nat) (A B : list Z) : Prop :=
  (k <= length A)%nat /\ (k <= length B)%nat /\
  map Int8 (firstn k A) = map Int8 (firstn k B).

(** The slots that [n] passes of the loop of [ED_BufferGetDiffMark] read,
    entered with [I] and with [MarkRingIndex] at [Idx]. *)
Fixpoint GetDiffMark_slots (n : nat) (I Idx : Z) : list Z :=
  match n with
  | O => []
  | S n' =>
      let Idx := Z.land (Idx - I) ED_MARKRINGMASK in
      Idx :: GetDiffMark_slots n' (I + 1) Idx
  end.

(** Two buffers with the same storage, text length and marks: they differ
    at most in their undo log and in the flag [ED_BUFCLEANUNDOFLAG]. *)
Definition same_store (b b' : ED_BufferRecord) : Prop :=
  Mem b' = Mem b /\ BufEndP b' = BufEndP b /\ GapStartP b' = GapStartP b /\
  GapEndP b' = GapEndP b /\ LastPos b' = LastPos b /\
  PaneRefCount b' = PaneRefCount b /\
  MarkRingIndex b' = MarkRingIndex b /\ MarkRingArr b' = MarkRingArr b /\
  forall X, Z.land X ED_BUFCLEANUNDOFLAG = 0 ->
            has (Flags b') X = has (Flags b) X.

(** Two records of the same pane: same address, buffer and geometry. *)
Definition same_pane (P P' : ED_PaneRecord) : Prop :=
  PaneAddr P' = PaneAddr P /\ PaneBufP P' = PaneBufP P /\
  RowChars P' = RowChars P /\ RowCount P' = RowCount P.

(** What [ED_PaneUpdateOtherPanes] does to one pane [F] after the pane
    [PaneP] has inserted ([N > 0]) or deleted ([N < 0]) bytes at [p]: a
    pane on the same buffer has its cursor moved with the text behind [p],
    but not to a place before [p]; the editing pane itself and the panes on
    other buffers are left alone. *)
Definition pane_follows_edit (PaneP : ED_PaneRecord) (p N : Z)
  (F F' : ED_PaneRecord) : Prop :=
  same_pane F F' /\
  if negb (PaneAddr F =? PaneAddr PaneP) && (PaneBufP F =? PaneBufP PaneP)
     && negb (N =? 0)
  then CursorPos F'
       = (if CursorPos F >? p then Z.max p (CursorPos F + N) else CursorPos F)
  else F' = F.

(** ** Tactics *)

Ltac bool_lia :=
  repeat match goal with
  | H : (_ <? _) = true |- _ => apply Z.ltb_lt in H
  | H : (_ <? _) = false |- _ => apply Z.ltb_ge in H
  | H : (_ <=? _) = true |- _ => apply Z.leb_le in H
  | H : (_ <=? _) = false |- _ => apply Z.leb_gt in H
  | H : (_ >? _) = true |- _ => rewrite Z.gtb_ltb in H
  | H : (_ >? _) = false |- _ => rewrite Z.gtb_ltb in H
  | H : (_ >=? _) = true |- _ => rewrite Z.geb_leb in H
  | H : (_ >=? _) = false |- _ => rewrite Z.geb_leb in H
  | H : (_ =? _) = true |- _ => apply Z.eqb_eq in H
  | H : (_ =? _) = false |- _ => apply Z.eqb_neq in H
  | H : negb _ = true |- _ => apply negb_true_iff in H
  | H : negb _ = false |- _ => apply negb_false_iff in H
  | H : (_ && _) = true |- _ => apply andb_prop in H; destruct H
  end.

Ltac case_if :=
  match goal with
  | |- context [if ?c then _ else _] =>
      let E := fresh "E" in destruct c eqn:E
  end.

Ltac fcm_open :=
  cbv beta iota zeta delta
    [ED_FrameCommandMatch set_CmdStr set_CmdMults set_CmdLen set_CmdMultLen
     set_CmdBindP set_CmdIds ED_CmdLen ED_CmdStr ED_CmdMultIn ED_CmdMultLen
     ED_CmdMultDigit ED_CmdMultNeg ED_CmdMult ED_CmdMultCmd ED_CmdBindP
     ED_CmdEchoDelay ED_CmdShift ED_CmdThisId ED_CmdLastId prefix_value
     Cmd Echo].

Ltac cmd_fields :=
  cbn [ED_CmdLen ED_CmdStr ED_CmdMultIn ED_CmdMultLen ED_CmdMultDigit
       ED_CmdMultNeg ED_CmdMult ED_CmdMultCmd ED_CmdBindP ED_CmdEchoDelay
       ED_CmdShift ED_CmdThisId ED_CmdLastId] in *.


(** * Proofs *)

(** ** Bytes and raw memory *)

(** Raw memory, pointwise. *)

Lemma rd_nth (m : list Z) (p : Z) : 0 <= p -> rd m p = nth (Z.to_nat p) m 0.
Proof. intros H. unfold rd. destruct (p <? 0) eqn:E; [lia | reflexivity]. Qed.

Lemma rd_out (m : list Z) (p : Z) : Z.of_nat (length m) <= p -> rd m p = 0.
Proof.
  intros H. unfold rd. destruct (p <? 0); [reflexivity|].
  apply nth_overflow. lia.
Qed.

Lemma length_sub (m : list Z) (p n : Z) :
  0 <= p -> 0 <= n -> p + n <= Z.of_nat (length m) ->
  Z.of_nat (length (sub m p n)) = n.
Proof.
  intros Hp Hn H. unfold sub. rewrite length_firstn, length_skipn. lia.
Qed.

Lemma rd_sub (m : list Z) (p n k : Z) :
  0 <= p -> 0 <= k < n -> rd (sub m p n) k = rd m (p + k).
Proof.
  intros Hp Hk. rewrite !rd_nth by lia. unfold sub.
  rewrite nth_firstn.
  destruct (Z.to_nat k <? Z.to_nat n)%nat eqn:E.
  - rewrite nth_skipn. f_equal. lia.
  - apply Nat.ltb_ge in E. lia.
Qed.

Lemma length_wr (m : list Z) (p : Z) (d : list Z) :
  0 <= p -> p + Z.of_nat (length d) <= Z.of_nat (length m) ->
  length (wr m p d) = length m.
Proof.
  intros Hp H. unfold wr. rewrite !length_app, length_firstn, length_skipn. lia.
Qed.

Lemma rd_wr (m : list Z) (p : Z) (d : list Z) (j : Z) :
  0 <= p -> p + Z.of_nat (length d) <= Z.of_nat (length m) ->
  rd (wr m p d) j =
  if (p <=? j) && (j <? p + Z.of_nat (length d)) then rd d (j - p) else rd m j.
Proof.
  intros Hp H.
  destruct (j <? 0) eqn:Ej.
  - apply Z.ltb_lt in Ej.
    replace (p <=? j) with false by (symmetry; apply Z.leb_gt; lia).
    simpl. unfold rd. replace (j <? 0) with true by (symmetry; apply Z.ltb_lt; lia).
    reflexivity.
  - apply Z.ltb_ge in Ej. rewrite (rd_nth (wr m p d)) by lia. unfold wr.
    destruct (p <=? j) eqn:E1; simpl.
    + apply Z.leb_le in E1.
      rewrite app_nth2 by (rewrite length_firstn; lia).
      rewrite length_firstn.
      replace (Nat.min (Z.to_nat p) (length m)) with (Z.to_nat p) by lia.
      destruct (j <? p + Z.of_nat (length d)) eqn:E2.
      * apply Z.ltb_lt in E2. rewrite app_nth1 by lia.
        rewrite rd_nth by lia. f_equal. lia.
      * apply Z.ltb_ge in E2. rewrite app_nth2 by lia.
        rewrite nth_skipn. rewrite rd_nth by lia. f_equal. lia.
    + apply Z.leb_gt in E1. rewrite app_nth1 by (rewrite length_firstn; lia).
      rewrite nth_firstn.
      replace (Z.to_nat j <? Z.to_nat p)%nat with true
        by (symmetry; apply Nat.ltb_lt; lia).
      rewrite rd_nth by lia. reflexivity.
Qed.

Lemma length_realloc (m : list Z) (n : Z) :
  Z.of_nat (length m) <= n -> Z.of_nat (length (realloc m n)) = n.
Proof.
  intros H. unfold realloc. rewrite length_firstn, length_app, repeat_length. lia.
Qed.

Lemma rd_realloc (m : list Z) (n j : Z) :
  Z.of_nat (length m) <= n -> j < Z.of_nat (length m) -> rd (realloc m n) j = rd m j.
Proof.
  intros H Hj. unfold rd. destruct (j <? 0) eqn:E; [reflexivity|].
  apply Z.ltb_ge in E. unfold realloc.
  rewrite nth_firstn.
  replace (Z.to_nat j <? Z.to_nat n)%nat with true
    by (symmetry; apply Nat.ltb_lt; lia).
  rewrite app_nth1 by lia. reflexivity.
Qed.

Lemma length_memmove (m : list Z) (dst src n : Z) :
  0 <= dst -> 0 <= src -> 0 <= n ->
  dst + n <= Z.of_nat (length m) -> src + n <= Z.of_nat (length m) ->
  length (memmove m dst src n) = length m.
Proof.
  intros. unfold memmove. apply length_wr; [lia|].
  rewrite length_sub by lia. lia.
Qed.

Lemma rd_memmove (m : list Z) (dst src n j : Z) :
  0 <= dst -> 0 <= src -> 0 <= n ->
  dst + n <= Z.of_nat (length m) -> src + n <= Z.of_nat (length m) ->
  rd (memmove m dst src n) j =
  if (dst <=? j) && (j <? dst + n) then rd m (src + (j - dst)) else rd m j.
Proof.
  intros. unfold memmove. rewrite rd_wr; [|lia|rewrite length_sub by lia; lia].
  rewrite length_sub by lia.
  destruct ((dst <=? j) && (j <? dst + n)) eqn:E; [|reflexivity].
  apply andb_prop in E. destruct E as [E1 E2].
  apply Z.leb_le in E1. apply Z.ltb_lt in E2.
  apply rd_sub; lia.
Qed.

(** The text of a well-formed buffer, pointwise. *)

Lemma length_buf_text (b : ED_BufferRecord) :
  buf_wf b -> Z.of_nat (length (buf_text b)) = LastPos b.
Proof.
  intros (H0 & H1 & H2 & H3 & H4). unfold buf_text.
  rewrite length_app, Nat2Z.inj_add, !length_sub by lia.
  rewrite H4. unfold text_length, capacity, gap_size. lia.
Qed.

Lemma rd_app (a c : list Z) (j : Z) :
  rd (a ++ c) j =
  if j <? Z.of_nat (length a) then rd a j else rd c (j - Z.of_nat (length a)).
Proof.
  unfold rd. destruct (j <? 0) eqn:E.
  - apply Z.ltb_lt in E.
    replace (j <? Z.of_nat (length a)) with true by (symmetry; apply Z.ltb_lt; lia).
    reflexivity.
  - apply Z.ltb_ge in E.
    destruct (j <? Z.of_nat (length a)) eqn:E1.
    + apply Z.ltb_lt in E1. apply app_nth1. lia.
    + apply Z.ltb_ge in E1.
      replace (j - Z.of_nat (length a) <? 0) with false
        by (symmetry; apply Z.ltb_ge; lia).
      rewrite app_nth2 by lia. f_equal. lia.
Qed.

Lemma rd_buf_text (b : ED_BufferRecord) (i : Z) :
  buf_wf b -> 0 <= i < LastPos b -> rd (buf_text b) i = byte_at b i.
Proof.
  intros (H0 & H1 & H2 & H3 & H4) Hi. unfold buf_text, byte_at, ED_BufferPosToPtr.
  unfold text_length, capacity, gap_size in H4.
  rewrite rd_app, length_sub by lia.
  destruct (0 + i >=? GapStartP b) eqn:E.
  - replace (i <? GapStartP b) with false by (symmetry; apply Z.ltb_ge; lia).
    rewrite rd_sub by lia. f_equal. lia.
  - replace (i <? GapStartP b) with true by (symmetry; apply Z.ltb_lt; lia).
    rewrite rd_sub by lia. f_equal.
Qed.

Lemma list_eq_rd (l1 l2 : list Z) :
  length l1 = length l2 ->
  (forall i, 0 <= i < Z.of_nat (length l1) -> rd l1 i = rd l2 i) ->
  l1 = l2.
Proof.
  intros HL H. apply (nth_ext l1 l2 0 0 HL). intros n Hn.
  specialize (H (Z.of_nat n)). rewrite !rd_nth, Nat2Z.id in H by lia.
  apply H. lia.
Qed.

Lemma buf_text_ext (b1 b2 : ED_BufferRecord) :
  buf_wf b1 -> buf_wf b2 -> LastPos b1 = LastPos b2 ->
  (forall i, 0 <= i < LastPos b1 -> byte_at b1 i = byte_at b2 i) ->
  buf_text b1 = buf_text b2.
Proof.
  intros W1 W2 HL H. apply list_eq_rd.
  - apply Nat2Z.inj. rewrite !length_buf_text by assumption. exact HL.
  - intros i Hi. rewrite length_buf_text in Hi by assumption.
    rewrite !rd_buf_text by (assumption || lia). apply H. exact Hi.
Qed.

(** ** The gap buffer *)

Lemma PlaceGap_keep (BufP : ED_BufferRecord) (Offset Len : Z) :
  buf_wf BufP -> 0 <= Offset <= LastPos BufP -> Len <= gap_size BufP ->
  let b' := ED_BufferPlaceGap BufP Offset Len in
  buf_wf b' /\ GapStartP b' = Offset /\ gap_size b' = gap_size BufP /\
  LastPos b' = LastPos BufP /\
  (forall i, 0 <= i < LastPos BufP -> byte_at b' i = byte_at BufP i).
Proof.
  intros (H0 & H1 & H2 & H3 & H4) HO HL.
  unfold text_length, capacity, gap_size in *.
  unfold ED_BufferPlaceGap.
  replace (GapEndP BufP - GapStartP BufP <? (if Len <? 0 then 0 else Len))
    with false by (symmetry; apply Z.ltb_ge; destruct (Len <? 0); lia).
  cbv zeta.
  destruct (negb (0 + Offset =? GapStartP BufP)) eqn:EN; bool_lia.
  2:{ unfold buf_wf, text_length, capacity, gap_size. repeat split; try lia. }
  destruct (0 + Offset - GapStartP BufP <? 0) eqn:EM; bool_lia;
    unfold ED_SLIDEDOWN, buf_wf, byte_at, ED_BufferPosToPtr,
           text_length, capacity, gap_size;
    cbn [set_store BufEndP GapStartP GapEndP Mem LastPos];
    (repeat split; try lia;
     [ rewrite length_memmove by lia; lia
     | intros i Hi; rewrite rd_memmove by lia;
       repeat (case_if; bool_lia); try lia; f_equal; lia ]).
Qed.

Lemma PlaceGap_grow (BufP : ED_BufferRecord) (Offset Len : Z) :
  buf_wf BufP -> 0 <= Offset <= LastPos BufP -> gap_size BufP < Len ->
  let b' := ED_BufferPlaceGap BufP Offset Len in
  buf_wf b' /\ GapStartP b' = Offset /\ gap_size b' = Len + ED_GAPEXTRAEXPAND /\
  LastPos b' = LastPos BufP /\
  (forall i, 0 <= i < LastPos BufP -> byte_at b' i = byte_at BufP i).
Proof.
  intros (H0 & H1 & H2 & H3 & H4) HO HL.
  unfold text_length, capacity, gap_size in *.
  unfold ED_BufferPlaceGap, ED_GAPEXTRAEXPAND.
  replace (if Len <? 0 then 0 else Len) with Len by (destruct (Len <? 0) eqn:E; bool_lia; lia).
  replace (GapEndP BufP - GapStartP BufP <? Len) with true
    by (symmetry; apply Z.ltb_lt; lia).
  cbv zeta.
  set (NM := realloc (Mem BufP) (BufEndP BufP - 0 + (Len + 512 - (GapEndP BufP - GapStartP BufP)))).
  assert (HN : Z.of_nat (length NM) = BufEndP BufP + (Len + 512 - (GapEndP BufP - GapStartP BufP))).
  { unfold NM. rewrite length_realloc by lia. lia. }
  assert (HR : forall j, j < BufEndP BufP -> rd NM j = rd (Mem BufP) j).
  { intros j Hj. unfold NM. apply rd_realloc; lia. }
  clearbody NM.
  unfold ED_SLIDEDOWN, buf_wf, byte_at, ED_BufferPosToPtr,
           text_length, capacity, gap_size.
  destruct (0 + Offset - GapStartP BufP =? 0) eqn:E0; bool_lia;
    [| destruct (0 + Offset - GapStartP BufP <? 0) eqn:E1; bool_lia ];
    cbn [set_store BufEndP GapStartP GapEndP Mem LastPos].
  - repeat split; try lia.
    + rewrite length_memmove by lia. lia.
    + intros i Hi. rewrite rd_memmove by lia.
      repeat (case_if; bool_lia); try lia; rewrite HR by lia; f_equal; lia.
  - repeat split; try lia.
    + rewrite !length_memmove; rewrite ?length_memmove; lia.
    + intros i Hi. rewrite rd_memmove; rewrite ?length_memmove; try lia.
      rewrite !rd_memmove by lia.
      repeat (case_if; bool_lia); try lia; rewrite HR by lia; f_equal; lia.
  - repeat split; try lia.
    + rewrite !length_memmove; rewrite ?length_memmove; lia.
    + intros i Hi. rewrite rd_memmove; rewrite ?length_memmove; try lia.
      rewrite !rd_memmove by lia.
      repeat (case_if; bool_lia); try lia; rewrite HR by lia; f_equal; lia.
Qed.

(** Placing the gap keeps the text, whether the block grows or not, and
    leaves room for at least [Len] bytes at [Offset]. *)
Lemma PlaceGap_text (BufP : ED_BufferRecord) (Offset Len : Z) :
  buf_wf BufP -> 0 <= Offset <= LastPos BufP ->
  buf_wf (ED_BufferPlaceGap BufP Offset Len) /\
  GapStartP (ED_BufferPlaceGap BufP Offset Len) = Offset /\
  Len <= gap_size (ED_BufferPlaceGap BufP Offset Len) /\
  LastPos (ED_BufferPlaceGap BufP Offset Len) = LastPos BufP /\
  buf_text (ED_BufferPlaceGap BufP Offset Len) = buf_text BufP.
Proof.
  intros Hwf HO.
  destruct (Z_lt_le_dec (gap_size BufP) Len) as [HL|HL].
  - pose proof (PlaceGap_grow BufP Offset Len Hwf HO HL) as H.
    cbv zeta in H. destruct H as (W & G & S & L & B).
    split; [exact W|]. split; [exact G|].
    split; [rewrite S; unfold ED_GAPEXTRAEXPAND; lia|].
    split; [exact L|].
    apply buf_text_ext; try assumption.
    intros i Hi. apply B. rewrite <- L. exact Hi.
  - pose proof (PlaceGap_keep BufP Offset Len Hwf HO HL) as H.
    cbv zeta in H. destruct H as (W & G & S & L & B).
    split; [exact W|]. split; [exact G|].
    split; [rewrite S; exact HL|].
    split; [exact L|].
    apply buf_text_ext; try assumption.
    intros i Hi. apply B. rewrite <- L. exact Hi.
Qed.

(** C3: the expansion policy of [ED_BufferPlaceGap].  When the requested
    free space [Len] exceeds the gap, the block is reallocated so that the
    capacity is the text length plus [Len] plus the extra 512 (the new gap
    is [Len + 512], not [max (Len, 512)]); otherwise the capacity is
    unchanged; in no case does the capacity decrease. *)
Theorem C3_place_gap_capacity (BufP : ED_BufferRecord) (Offset Len : Z) :
  GapStartP BufP <= GapEndP BufP ->
  (gap_size BufP < Len ->
     capacity (ED_BufferPlaceGap BufP Offset Len)
       = text_length BufP + Len + ED_GAPEXTRAEXPAND /\
     gap_size (ED_BufferPlaceGap BufP Offset Len) = Len + ED_GAPEXTRAEXPAND) /\
  (Len <= gap_size BufP ->
     capacity (ED_BufferPlaceGap BufP Offset Len) = capacity BufP) /\
  capacity BufP <= capacity (ED_BufferPlaceGap BufP Offset Len).
Proof.
  intros Hwf.
  unfold text_length, gap_size, capacity, ED_BufferPlaceGap, ED_GAPEXTRAEXPAND.
  destruct (Len <? 0) eqn:EL;
    [apply Z.ltb_lt in EL | apply Z.ltb_ge in EL];
    match goal with
    | |- context [if ?c then set_store _ _ _ _ _ else _] => destruct c eqn:EG
    end;
    [apply Z.ltb_lt in EG | apply Z.ltb_ge in EG
    |apply Z.ltb_lt in EG | apply Z.ltb_ge in EG];
    try destruct (negb (0 + Offset =? GapStartP BufP));
    cbn [set_store BufEndP GapStartP GapEndP]; lia.
Qed.

Lemma C3_witness :
  capacity (ED_BufferPlaceGap (Buf (editor_with (bytes_of "abc"%string))) 3 600)
  = 3 + 600 + 512.
Proof.
  apply (C3_place_gap_capacity (Buf (editor_with (bytes_of "abc"%string))) 3 600).
  - vm_compute. discriminate.
  - vm_compute. reflexivity.
Defined.

(** C3, counterexample: a buffer holding "abc" with a gap of 512 bytes is
    asked for 600 free bytes; the new capacity is 1115 = 3 + 600 + 512, not
    3 + max (600, 512) = 603. *)
Lemma C3_counterexample :
  let BufP := Buf (editor_with (bytes_of "abc"%string)) in
  text_length BufP = 3 /\ gap_size BufP = 512 /\ gap_size BufP < 600 /\
  capacity (ED_BufferPlaceGap BufP 3 600) = 1115 /\
  capacity (ED_BufferPlaceGap BufP 3 600)
  <> text_length BufP + Z.max 600 ED_GAPEXTRAEXPAND.
Proof. vm_compute. repeat split; discriminate. Qed.

(** ** UTF-8 lengths and the scans over the text *)

Lemma Uns8_range (C : Z) : 0 <= Uns8 C < 256.
Proof. unfold Uns8. apply Z.mod_pos_bound. lia. Qed.

Lemma UTF8Len_range (C : Z) : 1 <= ED_BufferGetUTF8Len C <= 4.
Proof.
  unfold ED_BufferGetUTF8Len.
  repeat match goal with |- context [if ?b then _ else _] => destruct b end; lia.
Qed.

Lemma LineEndPos_loop_terminates (BufP : ED_BufferRecord) :
  forall (fuel : nat) (CurPos : Z),
    (0 < fuel)%nat -> LastPos BufP - CurPos < Z.of_nat fuel ->
    exists r, LineEndPos_loop fuel BufP CurPos = Some r /\ CurPos <= r.
Proof.
  induction fuel as [|f IH]; intros CurPos Hpos Hf; [lia|].
  simpl. destruct (CurPos <? LastPos BufP) eqn:E; [apply Z.ltb_lt in E|].
  - destruct (byte_at BufP CurPos =? 10).
    + exists CurPos; split; [reflexivity | lia].
    + pose proof (UTF8Len_range (byte_at BufP CurPos)) as HL.
      destruct (IH (CurPos + ED_BufferGetUTF8Len (byte_at BufP CurPos)))
        as [r [Hr Hle]]; [lia|lia|].
      exists r; split; [exact Hr | lia].
  - exists CurPos; split; [reflexivity | lia].
Qed.

Lemma LineLen_loop_terminates (BufP : ED_BufferRecord) :
  forall (fuel : nat) (CurPos Count : Z),
    (0 < fuel)%nat -> LastPos BufP - CurPos < Z.of_nat fuel ->
    exists r, LineLen_loop fuel BufP CurPos Count = Some r /\ Count <= r.
Proof.
  induction fuel as [|f IH]; intros CurPos Count Hpos Hf; [lia|].
  simpl. destruct (CurPos <? LastPos BufP) eqn:E; [apply Z.ltb_lt in E|].
  - destruct (byte_at BufP CurPos =? 10).
    + exists Count; split; [reflexivity | lia].
    + pose proof (UTF8Len_range (byte_at BufP CurPos)) as HL.
      destruct (IH (CurPos + ED_BufferGetUTF8Len (byte_at BufP CurPos))
                   (Count + 1)) as [r [Hr Hle]]; [lia|lia|].
      exists r; split; [exact Hr | lia].
  - exists Count; split; [reflexivity | lia].
Qed.

(** C10: [ED_BufferGetUTF8Len] is total with values in 1..4; it is 1 on
    the continuation bytes 0x80..0xBF and on the invalid lead bytes
    0xF8..0xFF; so a step over a character moves the position forward by
    at least one byte, and the forward scans of [ED_BufferGetLineEndPos]
    and [ED_BufferGetLineLen] return once they have as many units of fuel as
    there are bytes up to the end of the text, plus one. *)
Theorem C10_utf8_len_total :
  (forall C, 1 <= ED_BufferGetUTF8Len C <= 4) /\
  (forall C, 0x80 <= Uns8 C <= 0xBF -> ED_BufferGetUTF8Len C = 1) /\
  (forall C, 0xF8 <= Uns8 C <= 0xFF -> ED_BufferGetUTF8Len C = 1) /\
  (forall BufP Pos, Pos + 1 <= Pos + ED_BufferGetUTF8Len (byte_at BufP Pos)) /\
  (forall BufP OldPos,
      exists r,
        ED_BufferGetLineEndPos (Z.to_nat (LastPos BufP - OldPos) + 1) BufP OldPos
        = Some r) /\
  (forall BufP Pos,
      exists r,
        LineLen_loop (Z.to_nat (LastPos BufP - Pos) + 1) BufP Pos 0 = Some r).
Proof.
  split; [exact UTF8Len_range|].
  split.
  { intros C H. unfold ED_BufferGetUTF8Len.
    repeat match goal with
           | |- context [if ?b then _ else _] => destruct b eqn:?
           end; bool_lia; lia. }
  split.
  { intros C H. unfold ED_BufferGetUTF8Len.
    repeat match goal with
           | |- context [if ?b then _ else _] => destruct b eqn:?
           end; bool_lia; lia. }
  split.
  { intros BufP Pos. pose proof (UTF8Len_range (byte_at BufP Pos)). lia. }
  split.
  { intros BufP OldPos. unfold ED_BufferGetLineEndPos.
    destruct (OldPos =? LastPos BufP); [eexists; reflexivity|].
    destruct (LineEndPos_loop_terminates BufP
                (Z.to_nat (LastPos BufP - OldPos) + 1) OldPos)
      as [r [Hr _]]; [lia|lia|].
    exists r; exact Hr. }
  { intros BufP Pos.
    destruct (LineLen_loop_terminates BufP
                (Z.to_nat (LastPos BufP - Pos) + 1) Pos 0)
      as [r [Hr _]]; [lia|lia|].
    exists r; exact Hr. }
Qed.

Lemma C10_witness :
  ED_BufferGetUTF8Len 0x80 = 1 /\ ED_BufferGetUTF8Len 0xFF = 1.
Proof.
  split.
  - apply (proj1 (proj2 C10_utf8_len_total) 0x80). vm_compute.
    split; discriminate.
  - apply (proj1 (proj2 (proj2 C10_utf8_len_total)) 0xFF). vm_compute.
    split; discriminate.
Defined.

(** Moving the gap never changes the text: for a well-formed buffer and a
    position inside the text, [ED_BufferPlaceGap] leaves a well-formed
    buffer with the same text and length, whose gap starts at the position
    and has room for the requested bytes. *)
Theorem place_gap_keeps_text (BufP : ED_BufferRecord) (Offset Len : Z) :
  buf_wf BufP -> 0 <= Offset <= LastPos BufP ->
  buf_wf (ED_BufferPlaceGap BufP Offset Len) /\
  GapStartP (ED_BufferPlaceGap BufP Offset Len) = Offset /\
  Len <= gap_size (ED_BufferPlaceGap BufP Offset Len) /\
  LastPos (ED_BufferPlaceGap BufP Offset Len) = LastPos BufP /\
  buf_text (ED_BufferPlaceGap BufP Offset Len) = buf_text BufP.
Proof. exact (PlaceGap_text BufP Offset Len). Qed.

Lemma place_gap_keeps_text_witness :
  buf_text (ED_BufferPlaceGap (Buf (editor_with (bytes_of "hello"%string))) 2 700)
  = bytes_of "hello"%string.
Proof.
  destruct (place_gap_keeps_text
              (Buf (editor_with (bytes_of "hello"%string))) 2 700)
    as (_ & _ & _ & _ & H).
  - vm_compute. repeat split; congruence.
  - vm_compute. split; discriminate.
  - rewrite H. reflexivity.
Defined.

(** ** Incremental search *)

(** A match needs as many bytes as the pattern has: the scan of
    [ED_ISCheckMatch] stops at the end of the text. *)
Lemma ISCheck_loop_length (BufP : ED_BufferRecord) (CaseSen : Z) :
  forall (MatchP : list Z) (CurP EndP : Z) (LoopBack : bool),
    ISCheck_loop BufP CaseSen MatchP CurP EndP LoopBack = true ->
    Z.of_nat (length MatchP)
    <= Z.max 0 (EndP - CurP)
       + (if LoopBack then Z.max 0 (BufEndP BufP - GapEndP BufP) else 0).
Proof.
  induction MatchP as [|M MatchP IH]; intros CurP EndP LoopBack H.
  - simpl. destruct LoopBack; lia.
  - cbn [ISCheck_loop] in H. cbn [length]. rewrite Nat2Z.inj_succ.
    destruct (CurP <? EndP) eqn:E1.
    + cbn [negb] in H.
      destruct (IS_mismatch CaseSen (rd (Mem BufP) CurP) M); [discriminate|].
      apply IH in H. bool_lia. destruct LoopBack; lia.
    + destruct LoopBack.
      * destruct (GapEndP BufP <? BufEndP BufP) eqn:E2; cbn [negb] in H;
          [|discriminate].
        destruct (IS_mismatch CaseSen (rd (Mem BufP) (GapEndP BufP)) M);
          [discriminate|].
        apply IH in H. bool_lia. lia.
      * cbn [negb] in H. discriminate.
Qed.

Lemma ISCheckMatch_fits (s : ED_ISRecord) (BufP : ED_BufferRecord) (Pos : Z) :
  buf_wf BufP -> 0 <= Pos -> ED_ISCheckMatch s BufP Pos = true ->
  0 < ED_ISStrLen s /\ Pos + ED_ISStrLen s <= LastPos BufP.
Proof.
  intros (H0 & H1 & H2 & H3 & H4) HP H.
  unfold text_length, capacity, gap_size in H4.
  unfold ED_ISCheckMatch in H.
  destruct (ED_ISStrLen s =? 0) eqn:E0; [discriminate|]. bool_lia.
  assert (0 <= ED_ISStrLen s) by (unfold ED_ISStrLen; lia).
  split; [lia|].
  destruct (0 + Pos >=? GapStartP BufP) eqn:E1;
    apply ISCheck_loop_length in H; bool_lia; fold (ED_ISStrLen s) in H; lia.
Qed.

Lemma ISCheckMatch_DoWrap (s : ED_ISRecord) (v : Z) (BufP : ED_BufferRecord)
  (Pos : Z) :
  ED_ISCheckMatch (set_ISDoWrap s v) BufP Pos = ED_ISCheckMatch s BufP Pos.
Proof. reflexivity. Qed.

(** The backward scan tests the positions [n], [n - 1], ..., 1 only. *)
Lemma ISBackward_loop_none (s : ED_ISRecord) (BufP : ED_BufferRecord) :
  forall n : nat,
    (forall p, 0 < p <= Z.of_nat n -> ED_ISCheckMatch s BufP p = false) ->
    ISBackward_loop n s BufP = -1.
Proof.
  induction n as [|n IH]; intros H; [reflexivity|].
  cbn [ISBackward_loop]. rewrite H by lia. apply IH.
  intros p Hp. apply H. lia.
Qed.

Lemma ISBackward_loop_not_0 (s : ED_ISRecord) (BufP : ED_BufferRecord) :
  forall n : nat, ISBackward_loop n s BufP <> 0.
Proof.
  induction n as [|n IH]; [discriminate|].
  cbn [ISBackward_loop].
  destruct (ED_ISCheckMatch s BufP (Z.of_nat (S n))); [lia | exact IH].
Qed.

Lemma ISForward_loop_first (s : ED_ISRecord) (BufP : ED_BufferRecord)
  (n : nat) (CurPos : Z) :
  (0 < n)%nat -> ED_ISCheckMatch s BufP CurPos = true ->
  ISForward_loop n s BufP CurPos = CurPos.
Proof.
  intros Hn H. destruct n; [lia|]. cbn [ISForward_loop]. rewrite H. reflexivity.
Qed.

(** C9: the backward scan of incremental search never tests position 0.
    When the pattern occurs at position 0 and at no other position of the
    buffer, a backward search from any start position reports failure (-1),
    while a forward search from 0 returns 0; and no backward scan ever
    returns 0.  A match at 0 implies that the pattern is not empty. *)
Theorem C9_backward_search_never_tests_0 (s : ED_ISRecord)
  (BufP : ED_BufferRecord) (StartPos : Z) :
  buf_wf BufP ->
  ED_ISCheckMatch s BufP 0 = true ->
  (forall p, 0 < p <= LastPos BufP -> ED_ISCheckMatch s BufP p = false) ->
  ED_ISStr s <> [] /\
  (exists s', ED_ISMatchBackward s BufP StartPos = Some (s', -1)) /\
  snd (ED_ISMatchForward s BufP 0) = 0 /\
  (forall n, ISBackward_loop n s BufP <> 0).
Proof.
  intros Hwf H0 Hnone.
  destruct (ISCheckMatch_fits s BufP 0 Hwf (Z.le_refl 0) H0) as [HL HF].
  split.
  { intros E. unfold ED_ISStrLen in HL. rewrite E in HL. simpl in HL. lia. }
  split.
  { unfold ED_ISMatchBackward.
    destruct (negb (ED_ISDoWrap s =? 0)) eqn:EW.
    - replace (LastPos BufP - ED_ISStrLen s <? 0) with false
        by (symmetry; apply Z.ltb_ge; lia).
      eexists. f_equal. f_equal. apply ISBackward_loop_none.
      intros p Hp. rewrite ISCheckMatch_DoWrap. apply Hnone. lia.
    - destruct (StartPos - 1 <? 0) eqn:E1.
      + replace (LastPos BufP - ED_ISStrLen s <? 0) with false
          by (symmetry; apply Z.ltb_ge; lia).
        eexists. f_equal. f_equal. apply ISBackward_loop_none.
        intros p Hp. apply Hnone. lia.
      + destruct (StartPos - 1 >? LastPos BufP - ED_ISStrLen s) eqn:E2;
          [eexists; reflexivity|].
        bool_lia.
        eexists. f_equal. f_equal. apply ISBackward_loop_none.
        intros p Hp. apply Hnone. lia. }
  split.
  { unfold ED_ISMatchForward.
    destruct (negb (ED_ISDoWrap s =? 0)); cbn [snd].
    - apply ISForward_loop_first; [lia|]. rewrite ISCheckMatch_DoWrap. exact H0.
    - replace ((0 <=? 0) && (0 >=? LastPos BufP)) with false.
      + cbn [snd]. apply ISForward_loop_first; [simpl; lia | exact H0].
      + symmetry. apply andb_false_iff. right. rewrite Z.geb_leb.
        apply Z.leb_gt. lia. }
  apply ISBackward_loop_not_0.
Qed.

Lemma C9_witness :
  let s := set_ISStr IS_init (bytes_of "ab"%string) in
  let BufP := fst (ED_BufferReadFile (bytes_of "ab c"%string) 1) in
  (exists s', ED_ISMatchBackward s BufP (LastPos BufP) = Some (s', -1)) /\
  snd (ED_ISMatchForward s BufP 0) = 0.
Proof.
  intros s BufP.
  assert (Hwf : buf_wf BufP) by (vm_compute; repeat split; congruence).
  assert (H0 : ED_ISCheckMatch s BufP 0 = true) by reflexivity.
  assert (Hn : forall p, 0 < p <= LastPos BufP -> ED_ISCheckMatch s BufP p = false).
  { intros p Hp. change (LastPos BufP) with 4 in Hp.
    assert (E : p = 1 \/ p = 2 \/ p = 3 \/ p = 4) by lia.
    destruct E as [E|[E|[E|E]]]; subst p; reflexivity. }
  destruct (C9_backward_search_never_tests_0 s BufP (LastPos BufP) Hwf H0 Hn)
    as (_ & HB & HF & _).
  split; [exact HB | exact HF].
Defined.

(** ** Case sensitivity of a search *)

(** The flag [ED_QREPStart] computes is set exactly when the from-string
    has a byte in 'A'..'Y'. *)
Lemma QREPStart_CaseSen_spec (Str : list Z) :
  QREPStart_CaseSen Str =
  if existsb (fun C => (65 <=? Int8 C) && (Int8 C <? 90)) Str then 1 else 0.
Proof.
  induction Str as [|C Str IH]; [reflexivity|].
  cbn [QREPStart_CaseSen existsb].
  destruct ((65 <=? Int8 C) && (Int8 C <? 90)); [reflexivity | exact IH].
Qed.

(** C4: the case-sensitivity flag and uppercase letters.  Typing an
    uppercase letter 'A'..'Z' into an incremental search sets the flag, but
    [ED_QREPStart] tests [< 'Z']: for the from-string "Z" (which contains an
    uppercase letter) the flag stays off, and with the from-string "Za" the
    case-insensitive matcher accepts the text "ZA", which query-replace
    then replaces. *)
Theorem C4_case_flag_misses_Z :
  has_upper (bytes_of "Z"%string) = true /\
  ED_ISCaseSen (ISHandleChars_CaseSen IS_init 90) = 1 /\
  QREPStart_CaseSen (bytes_of "Z"%string) = 0 /\
  QREPStart_CaseSen (bytes_of "Y"%string) = 1 /\
  has_upper (bytes_of "Za"%string) = true /\
  QREPStart_CaseSen (bytes_of "Za"%string) = 0 /\
  ED_ISCheckMatch (set_ISStr IS_init (bytes_of "Za"%string))
                  (Buf (editor_with (bytes_of "ZA"%string))) 0 = true /\
  ED_ISCheckMatch (set_ISCaseSen (set_ISStr IS_init (bytes_of "Za"%string)) 1)
                  (Buf (editor_with (bytes_of "ZA"%string))) 0 = false /\
  buf_text (Buf qrep_Za) = bytes_of "x"%string /\
  ED_QREPCount (QREP qrep_Za) = 1.
Proof. vm_compute. repeat split; reflexivity. Qed.

(** ** The command line *)

(** Every path [main] opens while [OpenInitCount > 1] goes to a new frame. *)
Lemma main_loop_new_frames (readable : list Z -> bool) :
  forall (args : list (list Z)) (OpenInitCount : Z),
    1 < OpenInitCount ->
    main_loop readable OpenInitCount args
    = map InNewFrame (filter (fun CP => is_path CP && readable CP) args).
Proof.
  induction args as [|CP args IH]; intros n Hn; [reflexivity|].
  cbn [main_loop filter]. rewrite IH by lia.
  destruct CP as [|C CP]; [reflexivity|].
  cbn [is_path]. destruct (negb (C =? 45)); [|reflexivity].
  unfold ED_EditorOpenFile. cbn [andb].
  destruct (readable (C :: CP)); [|reflexivity].
  replace (n >? 1) with true by (symmetry; rewrite Z.gtb_ltb; apply Z.ltb_lt; lia).
  reflexivity.
Qed.

(** C2: the frame a path is shown in depends on the index of the argument,
    not on how many paths were opened before it.  Arguments that are empty
    or start with '-' are ignored; a readable path in [ArgV[1]] is shown in
    the initial frame and every readable path after [ArgV[1]] in a new
    frame.  So with an ignored argument (or a path that cannot be opened)
    in [ArgV[1]], the first path that is opened is shown in a new frame and
    none in the initial frame. *)
Theorem C2_first_path_after_option_gets_new_frame :
  (forall readable prog A1 rest,
      main readable (prog :: A1 :: rest)
      = (if is_path A1 && readable A1 then [InInitialFrame A1] else [])
        ++ map InNewFrame (filter (fun CP => is_path CP && readable CP) rest)) /\
  main (fun _ => true)
       [bytes_of "sc"%string; bytes_of "-x"%string; bytes_of "f"%string]
  = [InNewFrame (bytes_of "f"%string)] /\
  main (fun P => match P with 109 :: _ => false | _ => true end)
       [bytes_of "sc"%string; bytes_of "missing"%string; bytes_of "f"%string]
  = [InNewFrame (bytes_of "f"%string)] /\
  main (fun _ => true)
       [bytes_of "sc"%string; bytes_of "f"%string; bytes_of ""%string;
        bytes_of "-x"%string; bytes_of "g"%string]
  = [InInitialFrame (bytes_of "f"%string); InNewFrame (bytes_of "g"%string)].
Proof.
  split.
  { intros readable prog A1 rest. unfold main. cbn [tl main_loop].
    rewrite main_loop_new_frames by lia. f_equal.
    destruct A1 as [|C A1]; [reflexivity|].
    cbn [is_path]. destruct (negb (C =? 45)); [|reflexivity].
    unfold ED_EditorOpenFile. cbn [andb].
    destruct (readable (C :: A1)); reflexivity. }
  vm_compute. repeat split; reflexivity.
Qed.

(** ** The numeric argument of a command *)

Lemma nth_after (S bytes : list Z) :
  nth (length S) (S ++ bytes) 0 = nth 0 bytes 0.
Proof. rewrite app_nth2 by lia. rewrite Nat.sub_diag. reflexivity. Qed.

Lemma firstn_after (S bytes : list Z) : firstn (length S) (S ++ bytes) = S.
Proof.
  rewrite firstn_app, Nat.sub_diag, firstn_all. cbn [firstn].
  apply app_nil_r.
Qed.

Lemma skipn_after (S bytes : list Z) : skipn (length S) (S ++ bytes) = bytes.
Proof.
  rewrite skipn_app, Nat.sub_diag, skipn_all. reflexivity.
Qed.

(** The bytes of a key depend on three modifier bits only. *)
Lemma key_bytes_mods (SymChar Mods Mods' : Z) :
  has Mods ControlMask = has Mods' ControlMask ->
  has Mods Mod1Mask = has Mods' Mod1Mask ->
  has Mods Mod4Mask = has Mods' Mod4Mask ->
  key_bytes SymChar Mods = key_bytes SymChar Mods'.
Proof. intros H1 H2 H3. unfold key_bytes. rewrite H1, H2, H3. reflexivity. Qed.

(** A key always gives at least one byte; the last one is [C]. *)
Lemma key_bytes_cons (SymChar Mods : Z) :
  exists b0 bs, fst (key_bytes SymChar Mods) = b0 :: bs.
Proof.
  unfold key_bytes.
  destruct (has Mods ControlMask), (has Mods Mod1Mask), (has Mods Mod4Mask),
    (SymChar =? 0xff0d), (has SymChar 0xff00); cbn; eauto.
Qed.

(** The first byte of a key whose [C] is a digit is no minus sign. *)
Lemma key_bytes_digit (SymChar Mods : Z) (b0 : Z) (bs : list Z) :
  fst (key_bytes SymChar Mods) = b0 :: bs ->
  48 <= snd (key_bytes SymChar Mods) <= 57 ->
  Int8 b0 <> 45.
Proof.
  unfold key_bytes.
  destruct (has Mods ControlMask), (has Mods Mod1Mask), (has Mods Mod4Mask);
    cbn [app];
    try (intros H _; destruct (SymChar =? 0xff0d);
         [|destruct (has SymChar 0xff00)];
         cbn in H; injection H as <- _; discriminate).
  destruct (SymChar =? 0xff0d); [cbn; lia|].
  destruct (has SymChar 0xff00); cbn [fst snd app].
  - intros H _. injection H as <- _. discriminate.
  - match goal with
    | |- _ -> 48 <= ?x <= 57 -> _ => generalize x
    end.
    intros C H HC. injection H as <- _. unfold Int8, Uns8.
    rewrite (Z.mod_small C 256) by lia.
    rewrite (Z.mod_small C 256) by lia.
    destruct (C <? 128) eqn:E; bool_lia; lia.
Qed.

Section Prefix.

Variable binds : list ED_FBindRecord.
Variable XKeysymToString : Z -> option (list Z).
Variable call : Z -> ED_State -> ED_State.

Lemma FCE_typed (c : ED_CmdRecord) (e : ED_EchoRecord) :
  ED_FrameCommandEcho XKeysymToString c e false
  = (c, snd (ED_FrameCommandEcho XKeysymToString c e false)).
Proof.
  unfold ED_FrameCommandEcho.
  destruct (ED_CmdLen c =? 0); [reflexivity|].
  destruct (negb (ED_CmdEchoDelay c =? 0)); reflexivity.
Qed.

(** The three keys that start a numeric argument. *)
Lemma FCM_start_C_u (st : ED_State) (SymChar Mods : Z) :
  ED_CmdLen (Cmd st) = 0 ->
  fst (key_bytes SymChar Mods) = [ED_CTLCOMMANDCODE; 117] ->
  ED_FrameCommandMatch binds XKeysymToString call st SymChar Mods =
  (set_Echo
     (set_Cmd st (mkCmd 2 binds [0x16; 117] 2 (ED_CmdShift (Cmd st)) 0 0 1 0
                        1 2 (ED_CmdThisId (Cmd st)) (ED_CmdLastId (Cmd st))))
     (Echo_clear (Echo st)), Pending).
Proof.
  intros H HK. unfold ED_FrameCommandMatch. rewrite H.
  destruct (key_bytes SymChar Mods) as [bytes C]. cbn [fst] in HK. subst bytes.
  reflexivity.
Qed.

Lemma FCM_start_M_minus (st : ED_State) (SymChar Mods : Z) :
  ED_CmdLen (Cmd st) = 0 ->
  fst (key_bytes SymChar Mods) = [ED_ALTCOMMANDCODE; 45] ->
  ED_FrameCommandMatch binds XKeysymToString call st SymChar Mods =
  (set_Echo
     (set_Cmd st (mkCmd 2 binds [0x17; 45] 2 (ED_CmdShift (Cmd st)) 0 1 1 0
                        1 2 (ED_CmdThisId (Cmd st)) (ED_CmdLastId (Cmd st))))
     (Echo_clear (Echo st)), Pending).
Proof.
  intros H HK. unfold ED_FrameCommandMatch. rewrite H.
  destruct (key_bytes SymChar Mods) as [bytes C]. cbn [fst] in HK. subst bytes.
  reflexivity.
Qed.

Lemma FCM_start_M_digit (st : ED_State) (SymChar Mods d : Z) :
  ED_CmdLen (Cmd st) = 0 -> 0 <= d <= 9 ->
  fst (key_bytes SymChar Mods) = [ED_ALTCOMMANDCODE; 48 + d] ->
  ED_FrameCommandMatch binds XKeysymToString call st SymChar Mods =
  (set_Echo
     (set_Cmd st (mkCmd 2 binds [0x17; 48 + d] 2 (ED_CmdShift (Cmd st)) d 0 1
                        1 1 2 (ED_CmdThisId (Cmd st)) (ED_CmdLastId (Cmd st))))
     (Echo_clear (Echo st)), Pending).
Proof.
  intros H Hd HK. unfold ED_FrameCommandMatch. rewrite H.
  destruct (key_bytes SymChar Mods) as [bytes C]. cbn [fst] in HK. subst bytes.
  assert (Hc : d = 0 \/ d = 1 \/ d = 2 \/ d = 3 \/ d = 4 \/ d = 5 \/ d = 6 \/
               d = 7 \/ d = 8 \/ d = 9) by lia.
  destruct Hc as [E|[E|[E|[E|[E|[E|[E|[E|[E|E]]]]]]]]]; subst d; reflexivity.
Qed.


Lemma FCE_MultLen (c : ED_CmdRecord) (e : ED_EchoRecord) (v : Z) :
  snd (ED_FrameCommandEcho XKeysymToString (set_CmdMultLen c v) e false)
  = snd (ED_FrameCommandEcho XKeysymToString c e false).
Proof.
  unfold ED_FrameCommandEcho.
  change (ED_CmdLen (set_CmdMultLen c v)) with (ED_CmdLen c).
  change (ED_CmdEchoDelay (set_CmdMultLen c v)) with (ED_CmdEchoDelay c).
  destruct (ED_CmdLen c =? 0); [reflexivity|].
  destruct (negb (ED_CmdEchoDelay c =? 0)); reflexivity.
Qed.

(** A minus sign inside a numeric argument. *)
Lemma FCM_prefix_minus (st : ED_State) (SymChar Mods b0 : Z) (bs : list Z) :
  in_prefix (Cmd st) ->
  fst (key_bytes SymChar Mods) = b0 :: bs -> Int8 b0 = 45 ->
  let c := Cmd st in
  let L := ED_CmdLen c + Z.of_nat (length (b0 :: bs)) in
  ED_FrameCommandMatch binds XKeysymToString call st SymChar Mods =
  if (ED_CmdMultDigit c =? 0) && (ED_CmdMultNeg c =? 0) then
    let c' := mkCmd L (ED_CmdBindP c) (ED_CmdStr c ++ b0 :: bs)
                    (ED_CmdEchoDelay c) (ED_CmdShift c) (ED_CmdMult c) 1
                    (ED_CmdMultCmd c) (ED_CmdMultDigit c) (ED_CmdMultIn c)
                    L (ED_CmdThisId c) (ED_CmdLastId c) in
    (set_Echo (set_Cmd st c')
              (snd (ED_FrameCommandEcho XKeysymToString c' (Echo st) false)),
     Pending)
  else
    let c' := mkCmd L (ED_CmdBindP c) (ED_CmdStr c ++ b0 :: bs)
                    (ED_CmdEchoDelay c) (ED_CmdShift c) (ED_CmdMult c)
                    (ED_CmdMultNeg c) (ED_CmdMultCmd c) (ED_CmdMultDigit c)
                    (ED_CmdMultIn c) (ED_CmdMultLen c) (ED_CmdThisId c)
                    (ED_CmdLastId c) in
    (set_Echo (set_Cmd st (set_CmdLen c' 0))
              (snd (ED_FrameCommandEcho XKeysymToString c' (Echo st) false)),
     InsertChar).
Proof.
  intros (Hin & Hlen & Hstr & Hml) HK Hb.
  destruct st as [P B O K c I Q Se U e QP QL H].
  destruct c as [L Bd S D Sh Mu N MC MD MI ML T La].
  cbn [Cmd Echo] in *. cmd_fields. subst L ML.
  assert (E0 : (Z.of_nat (length S) =? 0) = false) by (apply Z.eqb_neq; lia).
  assert (E1 : (Z.of_nat (length S) >? 0) = true)
    by (rewrite Z.gtb_ltb; apply Z.ltb_lt; lia).
  assert (E2 : (MI =? 0) = false) by (apply Z.eqb_neq; lia).
  assert (E3 : (Int8 b0 =? 45) = true) by (apply Z.eqb_eq; exact Hb).
  fcm_open.
  destruct (key_bytes SymChar Mods) as [bytes C]. cbn [fst] in HK. subst bytes.
  fcm_open.
  repeat (rewrite E0; fcm_open).
  rewrite !Nat2Z.id, !firstn_all.
  rewrite !E1, !E2, !nth_after.
  cbn [negb andb nth]. rewrite !E3.
  rewrite length_app, Nat2Z.inj_add.
  destruct ((MD =? 0) && (N =? 0)).
  - fcm_open. rewrite E2. cbn [negb]. rewrite FCE_typed. fcm_open.
    do 2 f_equal.
    match goal with
    | |- snd (ED_FrameCommandEcho _ ?c0 _ _) = snd (ED_FrameCommandEcho _ ?c1 _ _) =>
        exact (eq_sym (FCE_MultLen c0 e (ED_CmdMultLen c1)))
    end.
  - rewrite FCE_typed. fcm_open. reflexivity.
Qed.


(** A digit inside a numeric argument. *)
Lemma FCM_prefix_digit (st : ED_State) (SymChar Mods b0 : Z) (bs : list Z)
  (C : Z) :
  in_prefix (Cmd st) ->
  key_bytes SymChar Mods = (b0 :: bs, C) -> Int8 b0 <> 45 -> 48 <= C <= 57 ->
  let c := Cmd st in
  ED_FrameCommandMatch binds XKeysymToString call st SymChar Mods =
  if ED_CmdMultDigit c + 1 >? 5 then
    (set_Echo
       (set_Cmd st
          (mkCmd 0 (ED_CmdBindP c) (ED_CmdStr c ++ [C])
                 (ED_CmdEchoDelay c) (ED_CmdShift c)
                 (ED_CmdMult c * 10 + (C - 48))
                 (ED_CmdMultNeg c) (ED_CmdMultCmd c) (ED_CmdMultDigit c + 1)
                 (ED_CmdMultIn c) (ED_CmdMultLen c) (ED_CmdThisId c)
                 (ED_CmdLastId c)))
       (ED_FrameSPrintEchoS ED_ECHOMSGMODE
          (ED_KeyStrPrint XKeysymToString (ED_CmdStr c ++ [C])
           ++ bytes_of "is too much!"%string)),
     BadEcho 2)
  else
    let c' := mkCmd (ED_CmdLen c + 1) (ED_CmdBindP c) (ED_CmdStr c ++ [C])
                    (ED_CmdEchoDelay c) (ED_CmdShift c)
                    (ED_CmdMult c * 10 + (C - 48))
                    (ED_CmdMultNeg c) (ED_CmdMultCmd c)
                    (ED_CmdMultDigit c + 1) (ED_CmdMultIn c)
                    (ED_CmdLen c + 1) (ED_CmdThisId c) (ED_CmdLastId c) in
    (set_Echo (set_Cmd st c')
              (snd (ED_FrameCommandEcho XKeysymToString c' (Echo st) false)),
     Pending).
Proof.
  intros (Hin & Hlen & Hstr & Hml) HK Hb HC.
  destruct st as [P B O K c I Q Se U e QP QL H].
  destruct c as [L Bd S D Sh Mu N MC MD MI ML T La].
  cbn [Cmd Echo] in *. cmd_fields. subst L ML.
  assert (E0 : (Z.of_nat (length S) =? 0) = false) by (apply Z.eqb_neq; lia).
  assert (E1 : (Z.of_nat (length S) >? 0) = true)
    by (rewrite Z.gtb_ltb; apply Z.ltb_lt; lia).
  assert (E2 : (MI =? 0) = false) by (apply Z.eqb_neq; lia).
  assert (E3 : (Int8 b0 =? 45) = false) by (apply Z.eqb_neq; exact Hb).
  assert (E4 : ((48 <=? C) && (C <=? 57)) = true).
  { apply andb_true_iff. split; apply Z.leb_le; lia. }
  assert (E5 : Uns8 C = C) by (unfold Uns8; apply Z.mod_small; lia).
  fcm_open. rewrite HK. fcm_open.
  repeat (rewrite E0; fcm_open).
  rewrite !Nat2Z.id, !firstn_all.
  rewrite !E1, !E2, !nth_after.
  cbn [negb andb nth]. rewrite !E3, !E4, !E5, !firstn_after.
  rewrite length_app, Nat2Z.inj_add. cbn [length Z.of_nat Pos.of_succ_nat].
  destruct (MD + 1 >? 5).
  - reflexivity.
  - fcm_open. rewrite E2. cbn [negb]. rewrite FCE_typed. fcm_open.
    do 2 f_equal.
    match goal with
    | |- snd (ED_FrameCommandEcho _ ?c0 _ _) = snd (ED_FrameCommandEcho _ ?c1 _ _) =>
        exact (eq_sym (FCE_MultLen c0 e (ED_CmdMultLen c1)))
    end.
Qed.

(** Any other key inside a numeric argument ends it. *)
Lemma FCM_prefix_end (st : ED_State) (SymChar Mods : Z)
  (b0 : Z) (bs : list Z) (C : Z) :
  in_prefix (Cmd st) ->
  key_bytes SymChar Mods = (b0 :: bs, C) ->
  Int8 b0 <> 45 -> ~ (48 <= C <= 57) ->
  let c := Cmd st in
  let c1 := mkCmd (ED_CmdLen c + Z.of_nat (length (b0 :: bs))) (ED_CmdBindP c)
                  (ED_CmdStr c ++ b0 :: bs)
                  (ED_CmdEchoDelay c) (ED_CmdShift c) (prefix_value c)
                  (ED_CmdMultNeg c) (ED_CmdMultCmd c) (ED_CmdMultDigit c) 0
                  (ED_CmdMultLen c) (ED_CmdThisId c) (ED_CmdLastId c) in
  let echo c := snd (ED_FrameCommandEcho XKeysymToString c (Echo st) false) in
  ED_FrameCommandMatch binds XKeysymToString call st SymChar Mods =
  if (ED_HYPCOMMANDCODE <? Int8 b0) || (Int8 b0 <? ED_EXTCOMMANDCODE) then
    (set_Echo (set_Cmd st (set_CmdLen c1 0)) (echo c1), InsertChar)
  else
    let '(BindP, Res) :=
      ED_FRegFindBinding (ED_CmdBindP c) (cstr (b0 :: bs)) in
    let c2 := set_CmdBindP c1 BindP in
    if Res =? 1 then (set_Echo (set_Cmd st c2) (echo c2), Pending)
    else if Res <? 0 then
      (set_Echo (set_Cmd st (set_CmdLen c2 0))
                (ED_FrameCommandBadEcho XKeysymToString c2 0 0), BadEcho 0)
    else
      let FuncP := match BindP with B :: _ => snd B | [] => 0 end in
      (FrameCommandMatch_after_call
         (call FuncP
            (set_Echo
               (set_Cmd st
                  (set_CmdIds (set_CmdLen c2 0)
                              (Z.land Mods (Z.lor ShiftMask LockMask))
                              FuncP (ED_CmdLastId c)))
               (echo c2))),
       Invoked FuncP (prefix_value c) (ED_CmdMultNeg c) (ED_CmdMultCmd c)).
Proof.
  intros (Hin & Hlen & Hstr & Hml) HK Hb HC.
  destruct st as [P B O K c I Q Se U e QP QL H].
  destruct c as [L Bd S D Sh Mu N MC MD MI ML T La].
  cbn [Cmd Echo] in *. cmd_fields. subst L ML.
  assert (E0 : (Z.of_nat (length S) =? 0) = false) by (apply Z.eqb_neq; lia).
  assert (E1 : (Z.of_nat (length S) >? 0) = true)
    by (rewrite Z.gtb_ltb; apply Z.ltb_lt; lia).
  assert (E2 : (MI =? 0) = false) by (apply Z.eqb_neq; lia).
  assert (E3 : (Int8 b0 =? 45) = false) by (apply Z.eqb_neq; exact Hb).
  assert (E4 : ((48 <=? C) && (C <=? 57)) = false).
  { apply andb_false_iff.
    destruct (48 <=? C) eqn:Ea; [right | left; reflexivity].
    bool_lia. apply Z.leb_gt. lia. }
  fcm_open. rewrite HK. fcm_open.
  repeat (rewrite E0; fcm_open).
  rewrite !Nat2Z.id, !firstn_all.
  rewrite !E1, !E2, !nth_after.
  cbn [negb andb nth]. rewrite !E3, !E4.
  rewrite length_app, Nat2Z.inj_add.
  destruct ((ED_HYPCOMMANDCODE <? Int8 b0) || (Int8 b0 <? ED_EXTCOMMANDCODE)).
  - rewrite FCE_typed. fcm_open. reflexivity.
  - fcm_open. replace (0 =? 0) with true by reflexivity. cbn [negb].
    rewrite ?Nat2Z.id, skipn_after.
    destruct (ED_FRegFindBinding Bd (cstr (b0 :: bs))) as [BindP Res].
    destruct (Res =? 1).
    + rewrite FCE_typed. fcm_open. reflexivity.
    + destruct (Res <? 0); [reflexivity|].
      rewrite FCE_typed. fcm_open. reflexivity.
Qed.

End Prefix.

(** C5: the numeric argument, one key at a time.  A key is told by the
    bytes [key_bytes] gives for it, which depend on the Control, Meta and
    Super bits of its modifiers only.  [C-u], [M--] and [M-digit] start an
    argument (standing for 4, for -1 and for the digit) and clear the echo
    line; inside an argument a digit, whatever its modifiers, accumulates
    decimally, and the sixth digit ends the command with error 2, the
    message "... is too much!" and no call; a minus sign is taken into the
    argument only when no digit was typed and the sign is still positive
    (it sets the sign to negative), any other minus sign ends the argument
    and is handed back for insertion with the sign unchanged; any other key
    ends the argument: a key whose first byte is no command code is handed
    back for insertion without looking at the bindings, a key with a
    command code is looked up, and the function bound to it is called on a
    state whose multiplier is the argument's value.  No other path calls a
    function: the state is the old one but for the dispatcher's globals
    and the echo line. *)
Theorem C5_numeric_argument_steps (binds : list ED_FBindRecord)
  (XKeysymToString : Z -> option (list Z))
  (call : Z -> ED_State -> ED_State) :
  let FCM := ED_FrameCommandMatch binds XKeysymToString call in
  let echo c e := snd (ED_FrameCommandEcho XKeysymToString c e false) in
  (forall S M M',
     has M ControlMask = has M' ControlMask ->
     has M Mod1Mask = has M' Mod1Mask ->
     has M Mod4Mask = has M' Mod4Mask ->
     key_bytes S M = key_bytes S M') /\
  (forall st S M, ED_CmdLen (Cmd st) = 0 ->
     fst (key_bytes S M) = [ED_CTLCOMMANDCODE; 117] ->
     exists c',
       FCM st S M
       = (set_Echo (set_Cmd st c') (Echo_clear (Echo st)), Pending) /\
       in_prefix c' /\
       ED_CmdMultNeg c' = 0 /\ ED_CmdMultDigit c' = 0 /\
       ED_CmdMultCmd c' = 1 /\ prefix_value c' = 4) /\
  (forall st S M, ED_CmdLen (Cmd st) = 0 ->
     fst (key_bytes S M) = [ED_ALTCOMMANDCODE; 45] ->
     exists c',
       FCM st S M
       = (set_Echo (set_Cmd st c') (Echo_clear (Echo st)), Pending) /\
       in_prefix c' /\
       ED_CmdMultNeg c' = 1 /\ ED_CmdMultDigit c' = 0 /\
       ED_CmdMultCmd c' = 1 /\ prefix_value c' = 1) /\
  (forall st S M d, ED_CmdLen (Cmd st) = 0 -> 0 <= d <= 9 ->
     fst (key_bytes S M) = [ED_ALTCOMMANDCODE; 48 + d] ->
     exists c',
       FCM st S M
       = (set_Echo (set_Cmd st c') (Echo_clear (Echo st)), Pending) /\
       in_prefix c' /\
       ED_CmdMultNeg c' = 0 /\ ED_CmdMultDigit c' = 1 /\
       ED_CmdMultCmd c' = 1 /\ prefix_value c' = d) /\
  (forall st S M, in_prefix (Cmd st) ->
     48 <= snd (key_bytes S M) <= 57 -> ED_CmdMultDigit (Cmd st) < 5 ->
     exists c',
       FCM st S M = (set_Echo (set_Cmd st c') (echo c' (Echo st)), Pending) /\
       in_prefix c' /\
       ED_CmdMult c'
       = ED_CmdMult (Cmd st) * 10 + (snd (key_bytes S M) - 48) /\
       ED_CmdMultDigit c' = ED_CmdMultDigit (Cmd st) + 1 /\
       ED_CmdMultNeg c' = ED_CmdMultNeg (Cmd st) /\
       ED_CmdMultCmd c' = ED_CmdMultCmd (Cmd st)) /\
  (forall st S M, in_prefix (Cmd st) ->
     48 <= snd (key_bytes S M) <= 57 -> 5 <= ED_CmdMultDigit (Cmd st) ->
     exists c',
       FCM st S M
       = (set_Echo (set_Cmd st c')
            (ED_FrameSPrintEchoS ED_ECHOMSGMODE
               (ED_KeyStrPrint XKeysymToString
                  (ED_CmdStr (Cmd st) ++ [snd (key_bytes S M)])
                ++ bytes_of "is too much!"%string)),
          BadEcho 2) /\
       ED_CmdLen c' = 0) /\
  (forall st S M b0 bs, in_prefix (Cmd st) ->
     fst (key_bytes S M) = b0 :: bs -> Int8 b0 = 45 ->
     ED_CmdMultDigit (Cmd st) = 0 -> ED_CmdMultNeg (Cmd st) = 0 ->
     exists c',
       FCM st S M = (set_Echo (set_Cmd st c') (echo c' (Echo st)), Pending) /\
       in_prefix c' /\
       ED_CmdMultNeg c' = 1 /\ ED_CmdMult c' = ED_CmdMult (Cmd st) /\
       ED_CmdMultDigit c' = 0) /\
  (forall st S M b0 bs, in_prefix (Cmd st) ->
     fst (key_bytes S M) = b0 :: bs -> Int8 b0 = 45 ->
     ED_CmdMultDigit (Cmd st) <> 0 \/ ED_CmdMultNeg (Cmd st) <> 0 ->
     exists c',
       FCM st S M
       = (set_Echo (set_Cmd st (set_CmdLen c' 0)) (echo c' (Echo st)),
          InsertChar) /\
       ED_CmdMultNeg c' = ED_CmdMultNeg (Cmd st) /\
       ED_CmdMult c' = ED_CmdMult (Cmd st)) /\
  (forall st S M b0 bs C,
     in_prefix (Cmd st) -> key_bytes S M = (b0 :: bs, C) ->
     Int8 b0 <> 45 -> ~ (48 <= C <= 57) ->
     ED_HYPCOMMANDCODE < Int8 b0 \/ Int8 b0 < ED_EXTCOMMANDCODE ->
     exists c',
       FCM st S M
       = (set_Echo (set_Cmd st (set_CmdLen c' 0)) (echo c' (Echo st)),
          InsertChar) /\
       ED_CmdMult c' = prefix_value (Cmd st) /\
       ED_CmdMultNeg c' = ED_CmdMultNeg (Cmd st) /\
       ED_CmdMultIn c' = 0) /\
  (forall st S M b0 bs C BindP Res,
     in_prefix (Cmd st) -> key_bytes S M = (b0 :: bs, C) ->
     Int8 b0 <> 45 -> ~ (48 <= C <= 57) ->
     ED_EXTCOMMANDCODE <= Int8 b0 <= ED_HYPCOMMANDCODE ->
     ED_FRegFindBinding (ED_CmdBindP (Cmd st)) (cstr (b0 :: bs))
     = (BindP, Res) ->
     exists c',
       ED_CmdMult c' = prefix_value (Cmd st) /\
       ED_CmdMultNeg c' = ED_CmdMultNeg (Cmd st) /\
       ED_CmdMultCmd c' = ED_CmdMultCmd (Cmd st) /\
       ED_CmdMultIn c' = 0 /\ ED_CmdBindP c' = BindP /\
       (Res = 1 ->
        FCM st S M
        = (set_Echo (set_Cmd st c') (echo c' (Echo st)), Pending)) /\
       (Res < 0 ->
        FCM st S M
        = (set_Echo (set_Cmd st (set_CmdLen c' 0))
                    (ED_FrameCommandBadEcho XKeysymToString c' 0 0),
           BadEcho 0)) /\
       (Res <> 1 -> 0 <= Res ->
        let FuncP := match BindP with B :: _ => snd B | [] => 0 end in
        exists cc,
          ED_CmdMult cc = prefix_value (Cmd st) /\
          ED_CmdMultNeg cc = ED_CmdMultNeg (Cmd st) /\
          ED_CmdMultCmd cc = ED_CmdMultCmd (Cmd st) /\
          ED_CmdThisId cc = FuncP /\
          ED_CmdLastId cc = ED_CmdLastId (Cmd st) /\
          ED_CmdShift cc = Z.land M (Z.lor ShiftMask LockMask) /\
          ED_CmdLen cc = 0 /\
          FCM st S M
          = (FrameCommandMatch_after_call
               (call FuncP (set_Echo (set_Cmd st cc) (echo c' (Echo st)))),
             Invoked FuncP (prefix_value (Cmd st)) (ED_CmdMultNeg (Cmd st))
                     (ED_CmdMultCmd (Cmd st))))).
Proof.
  intros FCM echo. subst FCM echo.
  split; [exact key_bytes_mods|].
  split.
  { intros st S M H HK. eexists.
    split; [apply FCM_start_C_u; assumption|].
    unfold in_prefix. cbn. repeat split; (reflexivity || discriminate). }
  split.
  { intros st S M H HK. eexists.
    split; [apply FCM_start_M_minus; assumption|].
    unfold in_prefix. cbn. repeat split; (reflexivity || discriminate). }
  split.
  { intros st S M d H Hd HK. eexists.
    split; [apply FCM_start_M_digit; eassumption|].
    unfold in_prefix. cbn. repeat split; (reflexivity || discriminate). }
  split.
  { intros st S M Hp HC HD.
    destruct (key_bytes_cons S M) as (b0 & bs & HK).
    pose proof (key_bytes_digit S M b0 bs HK HC) as Hb.
    destruct (key_bytes S M) as [bytes C] eqn:EK.
    cbn [fst snd] in *. subst bytes.
    rewrite (FCM_prefix_digit binds XKeysymToString call st S M b0 bs C Hp EK
               Hb HC).
    cbv zeta.
    replace (ED_CmdMultDigit (Cmd st) + 1 >? 5) with false
      by (symmetry; rewrite Z.gtb_ltb; apply Z.ltb_ge; lia).
    eexists. split; [reflexivity|].
    destruct Hp as (Hin & Hlen & Hstr & Hml).
    unfold in_prefix. cmd_fields.
    rewrite length_app, Nat2Z.inj_add. cbn [length].
    repeat split; (assumption || reflexivity || lia). }
  split.
  { intros st S M Hp HC HD.
    destruct (key_bytes_cons S M) as (b0 & bs & HK).
    pose proof (key_bytes_digit S M b0 bs HK HC) as Hb.
    destruct (key_bytes S M) as [bytes C] eqn:EK.
    cbn [fst snd] in *. subst bytes.
    rewrite (FCM_prefix_digit binds XKeysymToString call st S M b0 bs C Hp EK
               Hb HC).
    cbv zeta.
    replace (ED_CmdMultDigit (Cmd st) + 1 >? 5) with true
      by (symmetry; rewrite Z.gtb_ltb; apply Z.ltb_lt; lia).
    eexists. split; reflexivity. }
  split.
  { intros st S M b0 bs Hp HK Hb HD HN.
    rewrite (FCM_prefix_minus binds XKeysymToString call st S M b0 bs Hp HK Hb).
    cbv zeta. rewrite HD, HN. cbn [Z.eqb andb].
    eexists. split; [reflexivity|].
    destruct Hp as (Hin & Hlen & Hstr & Hml).
    unfold in_prefix. cmd_fields.
    rewrite length_app, Nat2Z.inj_add.
    repeat split; (assumption || reflexivity || lia). }
  split.
  { intros st S M b0 bs Hp HK Hb HDN.
    rewrite (FCM_prefix_minus binds XKeysymToString call st S M b0 bs Hp HK Hb).
    cbv zeta.
    replace ((ED_CmdMultDigit (Cmd st) =? 0) && (ED_CmdMultNeg (Cmd st) =? 0))
      with false.
    - eexists. repeat split; reflexivity.
    - symmetry. apply andb_false_iff.
      destruct HDN as [H|H]; [left | right]; apply Z.eqb_neq; exact H. }
  split.
  { intros st S M b0 bs C Hp HK Hb HC Hout.
    rewrite (FCM_prefix_end binds XKeysymToString call st S M b0 bs C Hp HK Hb
               HC).
    cbv zeta.
    replace ((ED_HYPCOMMANDCODE <? Int8 b0) || (Int8 b0 <? ED_EXTCOMMANDCODE))
      with true.
    - eexists. repeat split; reflexivity.
    - symmetry. apply orb_true_iff.
      destruct Hout as [Ho|Ho]; [left | right]; apply Z.ltb_lt; exact Ho. }
  { intros st S M b0 bs C BindP Res Hp HK Hb HC Hin HF.
    rewrite (FCM_prefix_end binds XKeysymToString call st S M b0 bs C Hp HK Hb
               HC).
    cbv zeta.
    replace ((ED_HYPCOMMANDCODE <? Int8 b0) || (Int8 b0 <? ED_EXTCOMMANDCODE))
      with false
      by (symmetry; apply orb_false_iff; split; apply Z.ltb_ge; lia).
    rewrite HF.
    eexists.
    split; [|split; [|split; [|split; [|split; [|split; [|split]]]]]].
    6: { intros HR. rewrite HR. cbn [Z.eqb Pos.eqb]. reflexivity. }
    6: { intros HR.
         replace (Res =? 1) with false by (symmetry; apply Z.eqb_neq; lia).
         replace (Res <? 0) with true by (symmetry; apply Z.ltb_lt; lia).
         reflexivity. }
    6: { intros HR1 HR0.
         replace (Res =? 1) with false by (symmetry; apply Z.eqb_neq; lia).
         replace (Res <? 0) with false by (symmetry; apply Z.ltb_ge; lia).
         eexists.
         split; [|split; [|split; [|split; [|split; [|split; [|split]]]]]].
         8: reflexivity.
         all: reflexivity. }
    all: reflexivity. }
Qed.

Lemma C5_witness :
  let st := set_Cmd (editor_with [])
              (mkCmd 2 [] [0x16; 117] 2 0 0 0 1 0 1 2 0 ED_StartId) in
  exists c',
    ED_FrameCommandMatch [] no_names no_other st 45 (LockMask + 16)
    = (set_Echo (set_Cmd st c')
         (snd (ED_FrameCommandEcho no_names c' (Echo st) false)), Pending) /\
    ED_CmdMultNeg c' = 1.
Proof.
  intros st.
  destruct (C5_numeric_argument_steps [] no_names no_other)
    as (_ & _ & _ & _ & _ & _ & H & _).
  destruct (H st 45 (LockMask + 16) 45 [])
    as (c' & E & _ & HN & _).
  - unfold in_prefix. cbn. repeat split; (reflexivity || discriminate).
  - reflexivity.
  - reflexivity.
  - reflexivity.
  - reflexivity.
  - exists c'. split; [exact E | exact HN].
Defined.

(** C5, counterexample: after [M--] (no digit typed, sign negative) the key
    "-" does not flip the sign back and is not kept in the argument: it is
    handed back for insertion.  And after [C-u] the key "a", although a
    command is bound to it, is not matched as a command: it is handed back
    for insertion and nothing is called. *)
Lemma C5_counterexample :
  let FCM := ED_FrameCommandMatch bind_a no_names mark_call in
  let s0 := editor_with [] in
  let '(s1, o1) := FCM s0 45 Mod1Mask in
  let '(s2, o2) := FCM s1 45 0 in
  let '(s3, o3) := FCM s0 117 ControlMask in
  let '(s4, o4) := FCM s3 97 0 in
  (o1 = Pending /\ ED_CmdMultDigit (Cmd s1) = 0 /\ ED_CmdMultNeg (Cmd s1) = 1) /\
  (o2 = InsertChar /\ o2 <> Pending /\ ED_CmdMultNeg (Cmd s2) = 1 /\
   ED_CmdLen (Cmd s2) = 0) /\
  ED_FRegFindBinding bind_a [97] = (bind_a, 99) /\
  (snd (FCM s0 97 0) = Invoked 7 1 0 0 /\
   echo_shown (Echo (fst (FCM s0 97 0))) = bytes_of "called"%string) /\
  (o3 = Pending /\ o4 = InsertChar /\
   echo_shown (Echo s4) <> bytes_of "called"%string /\
   forall m n k, o4 <> Invoked 7 m n k).
Proof.
  vm_compute. repeat split; try reflexivity; discriminate.
Qed.

(** ** The kill ring *)

Lemma upd_length {A : Type} (l : list A) (i : nat) (v : A) :
  length (upd l i v) = length l.
Proof.
  revert i. induction l as [|x l IH]; intros [|i]; cbn; try reflexivity.
  f_equal. apply IH.
Qed.

Lemma nth_upd_same {A : Type} (l : list A) (i : nat) (v d : A) :
  (i < length l)%nat -> nth i (upd l i v) d = v.
Proof.
  revert i. induction l as [|x l IH]; intros [|i] H; cbn in *; try lia.
  - reflexivity.
  - apply IH. lia.
Qed.

Lemma nth_upd_other {A : Type} (l : list A) (i j : nat) (v d : A) :
  i <> j -> nth j (upd l i v) d = nth j l d.
Proof.
  revert i j. induction l as [|x l IH]; intros [|i] [|j] H; cbn; try reflexivity.
  - lia.
  - apply IH. lia.
Qed.

Lemma kill_top_eq (kr : ED_KRRecord) :
  kill_top kr =
  sub (TopP kr) (KEPos (Elt kr (TopI kr))) (KELen (Elt kr (TopI kr))).
Proof. unfold kill_top, kill_entry. rewrite Z.eqb_refl. reflexivity. Qed.

Lemma kill_top_set (kr : ED_KRRecord) (m : list Z) (len : Z) (e : ED_KERecord) :
  0 <= TopI kr < Z.of_nat (length (EltArr kr)) ->
  kill_top (set_Elt (set_Top kr m len) (TopI kr) e) = sub m (KEPos e) (KELen e).
Proof.
  intros H. rewrite kill_top_eq. unfold Elt, set_Elt, set_Top.
  cbn [TopI EltArr TopP]. rewrite nth_upd_same by lia. reflexivity.
Qed.

Lemma same_entries_set (kr : ED_KRRecord) (m : list Z) (len : Z)
  (e : ED_KERecord) :
  0 <= TopI kr ->
  same_entries kr (set_Elt (set_Top kr m len) (TopI kr) e).
Proof.
  intros HT. unfold same_entries, set_Elt, set_Top, Elt.
  cbn [TopI YankI RestP RestDataLen EltArr].
  repeat split; try reflexivity.
  - apply upd_length.
  - intros i Hi Hne. apply nth_upd_other. lia.
Qed.

Lemma sub_append (m : list Z) (p n : Z) (d : list Z) (m' : list Z) (p' : Z) :
  0 <= p -> 0 <= n -> p + n <= Z.of_nat (length m) ->
  0 <= p' -> p' + n + Z.of_nat (length d) <= Z.of_nat (length m') ->
  (forall k, 0 <= k < n -> rd m' (p' + k) = rd m (p + k)) ->
  (forall k, 0 <= k < Z.of_nat (length d) -> rd m' (p' + n + k) = rd d k) ->
  sub m' p' (n + Z.of_nat (length d)) = sub m p n ++ d.
Proof.
  intros Hp Hn Hm Hp' Hm' H1 H2. apply list_eq_rd.
  - apply Nat2Z.inj. rewrite length_app, Nat2Z.inj_add, !length_sub by lia.
    reflexivity.
  - intros i Hi. rewrite length_sub in Hi by lia.
    rewrite rd_app, length_sub, rd_sub by lia.
    destruct (i <? n) eqn:E; bool_lia.
    + rewrite rd_sub by lia. apply H1. lia.
    + replace (p' + i) with (p' + n + (i - n)) by lia. apply H2. lia.
Qed.

Lemma sub_prepend (m : list Z) (p n : Z) (d : list Z) (m' : list Z) (p' : Z) :
  0 <= p -> 0 <= n -> p + n <= Z.of_nat (length m) ->
  0 <= p' -> p' + Z.of_nat (length d) + n <= Z.of_nat (length m') ->
  (forall k, 0 <= k < Z.of_nat (length d) -> rd m' (p' + k) = rd d k) ->
  (forall k, 0 <= k < n -> rd m' (p' + Z.of_nat (length d) + k) = rd m (p + k)) ->
  sub m' p' (n + Z.of_nat (length d)) = d ++ sub m p n.
Proof.
  intros Hp Hn Hm Hp' Hm' H1 H2. apply list_eq_rd.
  - apply Nat2Z.inj. rewrite length_app, Nat2Z.inj_add, !length_sub by lia.
    lia.
  - intros i Hi. rewrite length_sub in Hi by lia.
    rewrite rd_app, rd_sub by lia.
    destruct (i <? Z.of_nat (length d)) eqn:E; bool_lia.
    + apply H1. lia.
    + rewrite rd_sub by lia.
      replace (p' + i) with (p' + Z.of_nat (length d) + (i - Z.of_nat (length d)))
        by lia.
      apply H2. lia.
Qed.

Lemma AppendTop_spec (kr : ED_KRRecord) (DataP : list Z) :
  kr_wf kr ->
  kill_top (ED_KillRingAppendTop kr DataP) = kill_top kr ++ DataP /\
  same_entries kr (ED_KillRingAppendTop kr DataP) /\
  kr_wf (ED_KillRingAppendTop kr DataP).
Proof.
  intros (H0 & H1 & H2 & H3 & H4).
  rewrite (kill_top_eq kr).
  unfold ED_KillRingAppendTop, ED_KRTOPEXTRA.
  set (e := Elt kr (TopI kr)) in *.
  set (DL := Z.of_nat (length DataP)).
  assert (HDL : 0 <= DL) by (unfold DL; lia).
  destruct ((KEPos e + KELen e + DL >? TopLen kr) && negb (KEPos e =? 0)) eqn:E1.
  - bool_lia.
    assert (LM : Z.of_nat (length (memmove (TopP kr) 0 (KEPos e) (KELen e)))
                 = TopLen kr) by (rewrite length_memmove by lia; lia).
    destruct (0 + KELen e + DL >? TopLen kr) eqn:E2; bool_lia.
    + split; [|split].
      * rewrite kill_top_set by assumption. cbn [KEPos KELen].
        apply sub_append; try lia.
        { rewrite length_wr; rewrite ?length_realloc; fold DL; lia. }
        { intros k Hk. rewrite rd_wr; rewrite ?length_realloc; fold DL; try lia.
          case_if; bool_lia; [lia|].
          rewrite rd_realloc by lia. rewrite rd_memmove by lia.
          case_if; bool_lia; [f_equal; lia | lia]. }
        { intros k Hk. rewrite rd_wr; rewrite ?length_realloc; fold DL; try lia.
          case_if; bool_lia; [f_equal; lia | lia]. }
      * apply same_entries_set. lia.
      * unfold kr_wf, Elt, set_Elt, set_Top. cbn [TopI EltArr TopP TopLen].
        rewrite nth_upd_same, upd_length by lia. cbn [KEPos KELen].
        rewrite length_wr; rewrite ?length_realloc; fold DL; try lia;
          repeat split; lia.
    + split; [|split].
      * rewrite kill_top_set by assumption. cbn [KEPos KELen].
        apply sub_append; try lia.
        { rewrite length_wr; fold DL; lia. }
        { intros k Hk. rewrite rd_wr; fold DL; try lia.
          case_if; bool_lia; [lia|].
          rewrite rd_memmove by lia.
          case_if; bool_lia; [f_equal; lia | lia]. }
        { intros k Hk. rewrite rd_wr; fold DL; try lia.
          case_if; bool_lia; [f_equal; lia | lia]. }
      * apply same_entries_set. lia.
      * unfold kr_wf, Elt, set_Elt, set_Top. cbn [TopI EltArr TopP TopLen].
        rewrite nth_upd_same, upd_length by lia. cbn [KEPos KELen].
        rewrite length_wr; fold DL; try lia;
          repeat split; lia.
  - assert (E1' : KEPos e + KELen e + DL <= TopLen kr \/ KEPos e = 0).
    { apply andb_false_iff in E1. destruct E1 as [E|E]; bool_lia; lia. }
    clear E1.
    destruct (KEPos e + KELen e + DL >? TopLen kr) eqn:E2; bool_lia.
    + split; [|split].
      * rewrite kill_top_set by assumption. cbn [KEPos KELen].
        apply sub_append; try lia.
        { rewrite length_wr; rewrite ?length_realloc; fold DL; lia. }
        { intros k Hk. rewrite rd_wr; rewrite ?length_realloc; fold DL; try lia.
          case_if; bool_lia; [lia|].
          rewrite rd_realloc by lia. reflexivity. }
        { intros k Hk. rewrite rd_wr; rewrite ?length_realloc; fold DL; try lia.
          case_if; bool_lia; [f_equal; lia | lia]. }
      * apply same_entries_set. lia.
      * unfold kr_wf, Elt, set_Elt, set_Top. cbn [TopI EltArr TopP TopLen].
        rewrite nth_upd_same, upd_length by lia. cbn [KEPos KELen].
        rewrite length_wr; rewrite ?length_realloc; fold DL; try lia;
          repeat split; lia.
    + split; [|split].
      * rewrite kill_top_set by assumption. cbn [KEPos KELen].
        apply sub_append; try lia.
        { rewrite length_wr; fold DL; lia. }
        { intros k Hk. rewrite rd_wr; fold DL; try lia.
          case_if; bool_lia; [lia | reflexivity]. }
        { intros k Hk. rewrite rd_wr; fold DL; try lia.
          case_if; bool_lia; [f_equal; lia | lia]. }
      * apply same_entries_set. lia.
      * unfold kr_wf, Elt, set_Elt, set_Top. cbn [TopI EltArr TopP TopLen].
        rewrite nth_upd_same, upd_length by lia. cbn [KEPos KELen].
        rewrite length_wr; fold DL; try lia;
          repeat split; lia.
Qed.

Lemma PrependTop_spec (kr : ED_KRRecord) (DataP : list Z) :
  kr_wf kr ->
  kill_top (ED_KillRingPrependTop kr DataP) = DataP ++ kill_top kr /\
  same_entries kr (ED_KillRingPrependTop kr DataP) /\
  kr_wf (ED_KillRingPrependTop kr DataP).
Proof.
  intros (H0 & H1 & H2 & H3 & H4).
  rewrite (kill_top_eq kr).
  unfold ED_KillRingPrependTop, ED_KRTOPEXTRA.
  set (e := Elt kr (TopI kr)) in *.
  set (DL := Z.of_nat (length DataP)).
  assert (HDL : 0 <= DL) by (unfold DL; lia).
  destruct (KEPos e <? DL) eqn:E1; bool_lia.
  - destruct (DL + KELen e >? TopLen kr) eqn:E2; bool_lia.
    + assert (LR : Z.of_nat (length (realloc (TopP kr) (DL + KELen e + 128)))
                   = DL + KELen e + 128) by (rewrite length_realloc by lia; lia).
      assert (LM : Z.of_nat (length (memmove (realloc (TopP kr) (DL + KELen e + 128))
                                        (DL + KELen e + 128 - KELen e) (KEPos e) (KELen e)))
                   = DL + KELen e + 128)
        by (rewrite length_memmove by lia; lia).
      split; [|split].
      * rewrite kill_top_set by assumption. cbn [KEPos KELen].
        apply sub_prepend; try lia.
        { rewrite length_wr; fold DL; lia. }
        { intros k Hk. rewrite rd_wr; fold DL; try lia.
          case_if; bool_lia; [f_equal; lia | lia]. }
        { intros k Hk. rewrite rd_wr; fold DL; try lia.
          case_if; bool_lia; [lia|].
          rewrite rd_memmove by lia.
          case_if; bool_lia; [|lia].
          rewrite rd_realloc by lia. f_equal. lia. }
      * apply same_entries_set. lia.
      * unfold kr_wf, Elt, set_Elt, set_Top. cbn [TopI EltArr TopP TopLen].
        rewrite nth_upd_same, upd_length by lia. cbn [KEPos KELen].
        rewrite length_wr; fold DL; try lia;
          repeat split; lia.
    + assert (LM : Z.of_nat (length (memmove (TopP kr) (TopLen kr - KELen e)
                                        (KEPos e) (KELen e)))
                   = TopLen kr)
        by (rewrite length_memmove by lia; lia).
      split; [|split].
      * rewrite kill_top_set by assumption. cbn [KEPos KELen].
        apply sub_prepend; try lia.
        { rewrite length_wr; fold DL; lia. }
        { intros k Hk. rewrite rd_wr; fold DL; try lia.
          case_if; bool_lia; [f_equal; lia | lia]. }
        { intros k Hk. rewrite rd_wr; fold DL; try lia.
          case_if; bool_lia; [lia|].
          rewrite rd_memmove by lia.
          case_if; bool_lia; [f_equal; lia | lia]. }
      * apply same_entries_set. lia.
      * unfold kr_wf, Elt, set_Elt, set_Top. cbn [TopI EltArr TopP TopLen].
        rewrite nth_upd_same, upd_length by lia. cbn [KEPos KELen].
        rewrite length_wr; fold DL; try lia;
          repeat split; lia.
  - split; [|split].
    * rewrite kill_top_set by assumption. cbn [KEPos KELen].
      apply sub_prepend; try lia.
      { rewrite length_wr; fold DL; lia. }
      { intros k Hk. rewrite rd_wr; fold DL; try lia.
        case_if; bool_lia; [f_equal; lia | lia]. }
      { intros k Hk. rewrite rd_wr; fold DL; try lia.
        case_if; bool_lia; [lia | f_equal; lia]. }
    * apply same_entries_set. lia.
    * unfold kr_wf, Elt, set_Elt, set_Top. cbn [TopI EltArr TopP TopLen].
      rewrite nth_upd_same, upd_length by lia. cbn [KEPos KELen].
      rewrite length_wr; fold DL; try lia;
        repeat split; lia.
Qed.

(** C6: consecutive kills coalesce in the top entry of the kill ring.
    When the previous command was a kill ([ED_CmdLastId] is [ED_KillId]),
    [ED_KillRingAdd] appends the killed bytes to the top entry for a
    forward deletion and prepends them for a backward deletion; the index
    of the top entry, the older entries and their storage are unchanged.
    The commands: on "one two three" with the cursor at 0, one
    delete-word-forward leaves "one" in the top entry and three of them
    leave "one two three" in that same entry and an empty buffer; with the
    cursor at the end, three delete-word-backward do the same by
    prepending. *)
Theorem C6_consecutive_kills_coalesce
  (XKeysymToString : Z -> option (list Z))
  (ED_CmdOther : Z -> ED_State -> ED_State)
  (QRPaneP : option Z) (QRLastCmd : Z)
  (kr : ED_KRRecord) (DataP : list Z) :
  let presses := presses XKeysymToString ED_CmdOther in
  kr_wf kr ->
  (kill_top (ED_KillRingAdd QRPaneP QRLastCmd ED_KillId kr DataP true)
   = kill_top kr ++ DataP /\
   same_entries kr (ED_KillRingAdd QRPaneP QRLastCmd ED_KillId kr DataP true) /\
   kr_wf (ED_KillRingAdd QRPaneP QRLastCmd ED_KillId kr DataP true)) /\
  (kill_top (ED_KillRingAdd QRPaneP QRLastCmd ED_KillId kr DataP false)
   = DataP ++ kill_top kr /\
   same_entries kr (ED_KillRingAdd QRPaneP QRLastCmd ED_KillId kr DataP false) /\
   kr_wf (ED_KillRingAdd QRPaneP QRLastCmd ED_KillId kr DataP false)) /\
  (let s0 := editor_with (bytes_of "one two three"%string) in
   let s1 := presses s0 [key_M_d] in
   let s3 := presses s0 [key_M_d; key_M_d; key_M_d] in
   kill_top (KR s1) = bytes_of "one"%string /\
   ED_CmdLastId (Cmd s1) = ED_KillId /\
   kill_top (KR s3) = bytes_of "one two three"%string /\
   TopI (KR s3) = TopI (KR s1) /\
   RestDataLen (KR s3) = 0 /\
   buf_text (Buf s3) = []) /\
  (let s0 := editor_at (bytes_of "one two three"%string) 13 in
   let s1 := presses s0 [key_M_Backspace] in
   let s3 := presses s0 [key_M_Backspace; key_M_Backspace; key_M_Backspace] in
   kill_top (KR s1) = bytes_of "three"%string /\
   kill_top (KR s3) = bytes_of "one two three"%string /\
   TopI (KR s3) = TopI (KR s1) /\
   RestDataLen (KR s3) = 0 /\
   buf_text (Buf s3) = []).
Proof.
  intros presses' Hwf. subst presses'.
  assert (E : forall b,
             ED_KillRingAdd QRPaneP QRLastCmd ED_KillId kr DataP b
             = if b then ED_KillRingAppendTop kr DataP
               else ED_KillRingPrependTop kr DataP).
  { intros b. unfold ED_KillRingAdd. rewrite Z.eqb_refl, orb_true_r.
    reflexivity. }
  rewrite !E.
  split; [exact (AppendTop_spec kr DataP Hwf)|].
  split; [exact (PrependTop_spec kr DataP Hwf)|].
  split; vm_compute; repeat split; reflexivity.
Qed.

Lemma C6_witness :
  kill_top (ED_KillRingAdd None 0 ED_KillId
              (ED_KillRingWriteTop ED_KillRingInit (bytes_of "two"%string))
              (bytes_of " three"%string) true)
  = bytes_of "two three"%string /\
  kill_top (ED_KillRingAdd None 0 ED_KillId
              (ED_KillRingWriteTop ED_KillRingInit (bytes_of "two"%string))
              (bytes_of "one "%string) false)
  = bytes_of "one two"%string.
Proof.
  assert (Hwf : kr_wf (ED_KillRingWriteTop ED_KillRingInit (bytes_of "two"%string))).
  { vm_compute. repeat split; congruence. }
  destruct (C6_consecutive_kills_coalesce no_names no_other None 0 _
              (bytes_of " three"%string) Hwf)
    as ((HA & _) & _).
  destruct (C6_consecutive_kills_coalesce no_names no_other None 0 _
              (bytes_of "one "%string) Hwf)
    as (_ & (HP & _) & _).
  split; [rewrite HA | rewrite HP]; reflexivity.
Defined.

(** ** Other panes on an edited buffer *)

Lemma UpdateStartPos_CursorPos (PaneP : ED_PaneRecord) (BufP : ED_BufferRecord)
  (OldRowChars : Z) :
  CursorPos (ED_PaneUpdateStartPos PaneP BufP OldRowChars) = CursorPos PaneP /\
  RowCount (ED_PaneUpdateStartPos PaneP BufP OldRowChars) = RowCount PaneP.
Proof.
  unfold ED_PaneUpdateStartPos.
  repeat (case_if; try (split; reflexivity));
    match goal with |- context [StartPos_back ?f ?b ?o ?c ?p ?n] =>
      destruct (StartPos_back f b o c p n) as [[x y] z] end;
    split; reflexivity.
Qed.


Lemma MoveForCursor_CursorPos (PaneP : ED_PaneRecord) (BufP : ED_BufferRecord)
  (sel : ED_SelRecord) (S R : Z) :
  CursorPos (fst (ED_PaneMoveForCursor PaneP BufP sel S R)) = CursorPos PaneP.
Proof.
  unfold ED_PaneMoveForCursor. cbv zeta.
  match goal with |- context [ED_BufferGetPosMinusRows ?b ?p ?r ?m] =>
    destruct (ED_BufferGetPosMinusRows b p r m) as [x y] end.
  reflexivity.
Qed.

Lemma MoveAfterCursorMove_CursorPos (PaneP : ED_PaneRecord)
  (BufP : ED_BufferRecord) (sel : ED_SelRecord) (S D : Z) :
  CursorPos (fst (ED_PaneMoveAfterCursorMove PaneP BufP sel S D))
  = CursorPos PaneP.
Proof.
  unfold ED_PaneMoveAfterCursorMove.
  repeat case_if; try reflexivity; apply MoveForCursor_CursorPos.
Qed.


Lemma OtherPane_PanePos_CursorPos (BufP : ED_BufferRecord) (p N : Z)
  (P2 : ED_PaneRecord) :
  CursorPos (OtherPane_PanePos BufP p N P2) = CursorPos P2 /\
  RowCount (OtherPane_PanePos BufP p N P2) = RowCount P2.
Proof.
  unfold OtherPane_PanePos. case_if; [|split; reflexivity].
  cbv zeta.
  match goal with |- context [ED_PaneFindLoc ?a ?b ?c ?d ?e] =>
    destruct (ED_PaneFindLoc a b c d e) as [[x y] z] end.
  cbn [set_StartRowCount CursorPos RowCount].
  match goal with |- context [ED_PaneUpdateStartPos ?a ?b ?c] =>
    destruct (UpdateStartPos_CursorPos a b c) as [H1 H2]; rewrite H1, H2 end.
  split; reflexivity.
Qed.










(** ** Deleting the character before the cursor *)

(** [ED_BufferPlaceGap] touches the storage only. *)
Lemma PlaceGap_frame (BufP : ED_BufferRecord) (Offset Len : Z) :
  Flags (ED_BufferPlaceGap BufP Offset Len) = Flags BufP /\
  USlabs (ED_BufferPlaceGap BufP Offset Len) = USlabs BufP /\
  USCount (ED_BufferPlaceGap BufP Offset Len) = USCount BufP /\
  USTotalSize (ED_BufferPlaceGap BufP Offset Len) = USTotalSize BufP /\
  PaneRefCount (ED_BufferPlaceGap BufP Offset Len) = PaneRefCount BufP /\
  MarkRingIndex (ED_BufferPlaceGap BufP Offset Len) = MarkRingIndex BufP /\
  MarkRingArr (ED_BufferPlaceGap BufP Offset Len) = MarkRingArr BufP.
Proof.
  unfold ED_BufferPlaceGap. cbv zeta.
  repeat case_if; repeat split; reflexivity.
Qed.

Lemma DelPrevChar_at_0 (st : ED_State) :
  CursorPos (Pane st) = 0 ->
  has (Flags (Buf st)) ED_BUFREADONLYFLAG = false ->
  sel_is (Sel st) (Pane st) = false ->
  ED_CmdMultNeg (Cmd st) = 0 ->
  ED_CmdDelPrevChar st =
  let st1 := set_Mult (st_PlaceGap st 0 0) (ED_CmdMult (Cmd st) - 1) in
  if 0 <? ED_CmdMult (Cmd st) then st_SetEchoS st1 ED_STR_EchoBegBuf else st1.
Proof.
  intros HC HR HS HN.
  unfold ED_CmdDelPrevChar, DelChar_guard, ED_BufferReadOnly.
  rewrite HR. unfold ED_PaneDelSelRange. rewrite HS. cbn [negb orb].
  replace (0 =? 0) with true by reflexivity. cbn [negb].
  rewrite HN. replace (0 =? 0) with true by reflexivity. cbn [negb].
  unfold DelPrevChar_main. rewrite HC.
  replace (ED_CmdMult (Cmd (st_PlaceGap st 0 0))) with (ED_CmdMult (Cmd st))
    by reflexivity.
  destruct (0 <? ED_CmdMult (Cmd st)) eqn:E; bool_lia.
  - destruct (Z.to_nat (ED_CmdMult (Cmd st))) eqn:En; [lia|].
    cbn [DelPrevChar_loop].
    replace (CursorPos (Pane (set_Mult (st_PlaceGap st 0 0)
               (ED_CmdMult (Cmd (st_PlaceGap st 0 0)) - 1))))
      with (CursorPos (Pane st)) by reflexivity.
    rewrite HC. reflexivity.
  - replace (Z.to_nat (ED_CmdMult (Cmd st))) with O by lia.
    reflexivity.
Qed.

(** C8: delete-previous-char with the cursor at 0, no selection, a
    writable buffer, and no negative argument ([ED_CmdMultNeg] is 0: no
    [M--] before the command).  The text, its length, the pane with its cursor,
    the mark ring, the kill ring, the undo log, the flags of the buffer and
    the other panes are unchanged; the gap is moved to position 0.  The
    message "Beginning of buffer" is put in the echo line when the
    multiplier is positive; with a multiplier of 0 the echo line is left as
    it was. *)
Theorem C8_del_prev_char_at_0 (st : ED_State) :
  buf_wf (Buf st) ->
  CursorPos (Pane st) = 0 ->
  has (Flags (Buf st)) ED_BUFREADONLYFLAG = false ->
  sel_is (Sel st) (Pane st) = false ->
  ED_CmdMultNeg (Cmd st) = 0 ->
  buf_text (Buf (ED_CmdDelPrevChar st)) = buf_text (Buf st) /\
  LastPos (Buf (ED_CmdDelPrevChar st)) = LastPos (Buf st) /\
  Pane (ED_CmdDelPrevChar st) = Pane st /\
  MarkRingArr (Buf (ED_CmdDelPrevChar st)) = MarkRingArr (Buf st) /\
  MarkRingIndex (Buf (ED_CmdDelPrevChar st)) = MarkRingIndex (Buf st) /\
  KR (ED_CmdDelPrevChar st) = KR st /\
  USlabs (Buf (ED_CmdDelPrevChar st)) = USlabs (Buf st) /\
  UHead (ED_CmdDelPrevChar st) = UHead st /\
  Flags (Buf (ED_CmdDelPrevChar st)) = Flags (Buf st) /\
  Others (ED_CmdDelPrevChar st) = Others st /\
  GapStartP (Buf (ED_CmdDelPrevChar st)) = 0 /\
  (0 < ED_CmdMult (Cmd st) ->
   echo_shown (Echo (ED_CmdDelPrevChar st)) = ED_STR_EchoBegBuf) /\
  (ED_CmdMult (Cmd st) = 0 -> Echo (ED_CmdDelPrevChar st) = Echo st).
Proof.
  intros Hwf HC HR HS HN.
  rewrite (DelPrevChar_at_0 st HC HR HS HN). cbv zeta.
  assert (HL : 0 <= 0 <= LastPos (Buf st)).
  { destruct Hwf as (H0 & H1 & H2 & H3 & H4).
    unfold text_length, capacity, gap_size in H4. lia. }
  destruct (PlaceGap_text (Buf st) 0 0 Hwf HL) as (_ & HG & _ & HLP & HT).
  destruct (PlaceGap_frame (Buf st) 0 0) as (F1 & F2 & _ & _ & _ & F6 & F7).
  destruct (0 <? ED_CmdMult (Cmd st)) eqn:E; bool_lia;
    cbn [st_SetEchoS set_Echo set_Mult set_Cmd st_PlaceGap set_Buf
         Buf Pane KR UHead Others Echo];
    (split; [exact HT|]); (split; [exact HLP|]); (split; [reflexivity|]);
    (split; [exact F7|]); (split; [exact F6|]); (split; [reflexivity|]);
    (split; [exact F2|]); (split; [reflexivity|]); (split; [exact F1|]);
    (split; [reflexivity|]); (split; [exact HG|]).
  - split; [intros _; reflexivity | intros H; lia].
  - split; [intros H; lia | intros _; reflexivity].
Qed.

Lemma C8_witness :
  let st := editor_with (bytes_of "abc"%string) in
  buf_text (Buf (ED_CmdDelPrevChar st)) = bytes_of "abc"%string /\
  echo_shown (Echo (ED_CmdDelPrevChar st))
  = bytes_of "Beginning of buffer"%string.
Proof.
  intros st.
  destruct (C8_del_prev_char_at_0 st)
    as (HT & _ & _ & _ & _ & _ & _ & _ & _ & _ & _ & HE & _).
  - vm_compute. repeat split; congruence.
  - reflexivity.
  - reflexivity.
  - reflexivity.
  - reflexivity.
  - split; [rewrite HT; reflexivity|].
    rewrite HE; [reflexivity|]. reflexivity.
Defined.

(** Backspace after [M--] and after [C-u 0] on "abc" with the cursor at
    0, whatever Xlib names the keys and whatever the commands outside the
    model do: none of them is reached. *)
Lemma C8_prefix_then_backspace (XKeysymToString : Z -> option (list Z))
  (ED_CmdOther : Z -> ED_State -> ED_State) :
  let press := press XKeysymToString ED_CmdOther in
  let presses := presses XKeysymToString ED_CmdOther in
  let s0 := editor_with (bytes_of "abc"%string) in
  let s1 := presses s0 [key_M_minus] in
  let s2 := presses s0 [key_M_minus; key_Backspace] in
  let s3 := presses s0 [key_C_u; key_digit 0] in
  let s4 := presses s0 [key_C_u; key_digit 0; key_Backspace] in
  (CursorPos (Pane s1) = 0 /\ sel_is (Sel s1) (Pane s1) = false /\
   has (Flags (Buf s1)) ED_BUFREADONLYFLAG = false /\
   snd (press s1 0xff08 0) = Invoked FP_DelPrevChar 1 1 1 /\
   buf_text (Buf s2) = bytes_of "bc"%string /\
   buf_text (Buf s2) <> buf_text (Buf s0) /\
   echo_shown (Echo s2) <> ED_STR_EchoBegBuf) /\
  (CursorPos (Pane s3) = 0 /\
   snd (press s3 0xff08 0) = Invoked FP_DelPrevChar 0 0 1 /\
   buf_text (Buf s4) = bytes_of "abc"%string /\
   echo_shown (Echo s4) <> ED_STR_EchoBegBuf).
Proof. vm_compute. repeat split; (reflexivity || discriminate). Qed.

(** C8, counterexample: the buffer holds "abc", the cursor is at 0, there
    is no selection and the buffer is writable.  Backspace after [M--]
    invokes delete-previous-char, which deletes the "a" after the cursor
    and shows no message; Backspace after [C-u 0] invokes it too: nothing
    is deleted and no message is shown either. *)
Lemma C8_counterexample :
  let press := press no_names no_other in
  let presses := presses no_names no_other in
  let s0 := editor_with (bytes_of "abc"%string) in
  let s1 := presses s0 [key_M_minus] in
  let s2 := presses s0 [key_M_minus; key_Backspace] in
  let s3 := presses s0 [key_C_u; key_digit 0] in
  let s4 := presses s0 [key_C_u; key_digit 0; key_Backspace] in
  (CursorPos (Pane s1) = 0 /\ sel_is (Sel s1) (Pane s1) = false /\
   has (Flags (Buf s1)) ED_BUFREADONLYFLAG = false /\
   snd (press s1 0xff08 0) = Invoked FP_DelPrevChar 1 1 1 /\
   buf_text (Buf s2) = bytes_of "bc"%string /\
   buf_text (Buf s2) <> buf_text (Buf s0) /\
   echo_shown (Echo s2) <> ED_STR_EchoBegBuf) /\
  (CursorPos (Pane s3) = 0 /\
   snd (press s3 0xff08 0) = Invoked FP_DelPrevChar 0 0 1 /\
   buf_text (Buf s4) = bytes_of "abc"%string /\
   echo_shown (Echo s4) <> ED_STR_EchoBegBuf).
Proof. exact (C8_prefix_then_backspace no_names no_other). Qed.

(** ** Query-replace and undo *)

(** C1: query-replace of "a" by "bb" in "aaa", answered with '!', leaves
    "bbbbbb" and reports 3 replacements.  The undo log then holds six
    records in three chains: each replacement wrote a Del record that is
    not chained and an Add record chained to it.  One undo command takes
    back one chain, that is the last replacement only, leaving "bbbba"; a
    second leaves "bbaa"; the third restores "aaa". *)
Theorem C1_query_replace_undo_per_replacement
  (XKeysymToString : Z -> option (list Z))
  (ED_CmdOther : Z -> ED_State -> ED_State) :
  let press := press XKeysymToString ED_CmdOther in
  let presses := presses XKeysymToString ED_CmdOther in
  buf_text (Buf qrep_aaa) = bytes_of "bbbbbb"%string /\
  ED_QREPCount (QREP qrep_aaa) = 3 /\
  map (fun s => map (fun ob => (DataPos (snd ob), DataLen (snd ob),
                                has (UBFlags (snd ob)) ED_UB_DEL,
                                has (UBFlags (snd ob)) ED_UB_ADD,
                                has (UBFlags (snd ob)) ED_UB_CHAIN))
                    (UBlocks s))
      (USlabs (Buf qrep_aaa))
  = [[(0, 1, true, false, false); (0, 2, false, true, true);
      (2, 1, true, false, false); (2, 2, false, true, true);
      (4, 1, true, false, false); (4, 2, false, true, true)]] /\
  snd (press qrep_aaa 47 ControlMask) = Invoked FP_Undo 1 0 0 /\
  buf_text (Buf (presses qrep_aaa [key_C_slash])) = bytes_of "bbbba"%string /\
  buf_text (Buf (presses qrep_aaa [key_C_slash; key_C_slash]))
  = bytes_of "bbaa"%string /\
  buf_text (Buf (presses qrep_aaa [key_C_slash; key_C_slash; key_C_slash]))
  = bytes_of "aaa"%string.
Proof. vm_compute. repeat split; reflexivity. Qed.

(** C1, counterexample: a single undo after the query-replace does not
    restore "aaa".  (The key [C-/] reaches neither Xlib nor a command
    outside the model; they are taken as [no_names] and [no_other].) *)
Lemma C1_counterexample :
  let presses := presses no_names no_other in
  buf_text (Buf (editor_with (bytes_of "aaa"%string))) = bytes_of "aaa"%string /\
  CursorPos (Pane (editor_with (bytes_of "aaa"%string))) = 0 /\
  buf_text (Buf qrep_aaa) = bytes_of "bbbbbb"%string /\
  buf_text (Buf (ED_CmdUndo qrep_aaa)) = bytes_of "bbbba"%string /\
  buf_text (Buf (presses qrep_aaa [key_C_slash])) <> bytes_of "aaa"%string.
Proof. vm_compute. repeat split; (reflexivity || discriminate). Qed.

(** * Further properties *)

(** ** Positions and pointers *)

(** A position of the text is never mapped into the gap: the pointer
    [ED_BufferPosToPtr] gives lies inside the block and outside the gap,
    later positions get later pointers, and the byte read there is the
    byte of the text at that position. *)
Theorem pos_to_ptr_outside_gap (BufP : ED_BufferRecord) (Pos : Z) :
  buf_wf BufP -> 0 <= Pos < LastPos BufP ->
  0 <= ED_BufferPosToPtr BufP Pos < BufEndP BufP /\
  ~ (GapStartP BufP <= ED_BufferPosToPtr BufP Pos < GapEndP BufP) /\
  (forall Pos', Pos < Pos' ->
     ED_BufferPosToPtr BufP Pos < ED_BufferPosToPtr BufP Pos') /\
  byte_at BufP Pos = nth (Z.to_nat Pos) (buf_text BufP) 0.
Proof.
  intros Hwf HP. pose proof Hwf as (H0 & H1 & H2 & H3 & H4).
  unfold text_length, capacity, gap_size in H4.
  split; [|split; [|split]].
  - unfold ED_BufferPosToPtr. case_if; bool_lia; lia.
  - unfold ED_BufferPosToPtr. case_if; bool_lia; lia.
  - intros Pos' HP'. unfold ED_BufferPosToPtr. repeat case_if; bool_lia; lia.
  - rewrite <- rd_buf_text by assumption. apply rd_nth. lia.
Qed.

Lemma pos_to_ptr_outside_gap_witness :
  let BufP := ED_BufferPlaceGap (Buf (editor_with (bytes_of "hello"%string))) 2 0 in
  ED_BufferPosToPtr BufP 3 = 515 /\ byte_at BufP 3 = 108.
Proof.
  intros BufP.
  destruct (pos_to_ptr_outside_gap BufP 3) as (_ & _ & _ & H).
  - vm_compute. repeat split; congruence.
  - vm_compute. split; [discriminate | reflexivity].
  - split; [reflexivity|]. rewrite H. reflexivity.
Defined.

(** ** Searching the text *)

Lemma skipn_cons_nth {A : Type} (l : list A) (n : nat) (d : A) :
  (n < length l)%nat -> skipn n l = nth n l d :: skipn (S n) l.
Proof.
  revert n. induction l as [|x l IH]; intros [|n] H; cbn in *; try lia.
  - reflexivity.
  - apply IH. lia.
Qed.

Lemma skipn_buf_text_cons (BufP : ED_BufferRecord) (Pos : Z) :
  buf_wf BufP -> 0 <= Pos < LastPos BufP ->
  skipn (Z.to_nat Pos) (buf_text BufP)
  = byte_at BufP Pos :: skipn (Z.to_nat (Pos + 1)) (buf_text BufP).
Proof.
  intros Hwf HP.
  rewrite (skipn_cons_nth (buf_text BufP) (Z.to_nat Pos) 0).
  - rewrite <- rd_buf_text by assumption. rewrite rd_nth by lia.
    f_equal. f_equal. lia.
  - pose proof (length_buf_text BufP Hwf). lia.
Qed.

Lemma skipn_buf_text_end (BufP : ED_BufferRecord) (Pos : Z) :
  buf_wf BufP -> LastPos BufP <= Pos ->
  skipn (Z.to_nat Pos) (buf_text BufP) = [].
Proof.
  intros Hwf HP. apply skipn_all2.
  pose proof (length_buf_text BufP Hwf). lia.
Qed.

(** The scan of [ED_ISCheckMatch], in either of its two phases, compares
    the pattern with the text from the position its pointer stands for. *)
Lemma ISCheck_loop_text (BufP : ED_BufferRecord) (CaseSen : Z) :
  buf_wf BufP ->
  forall (MatchP : list Z) (Pos CurP EndP : Z) (LoopBack : bool),
    0 <= Pos ->
    (LoopBack = true /\ EndP = GapStartP BufP /\ CurP = Pos /\
     Pos <= GapStartP BufP) \/
    (LoopBack = false /\ EndP = BufEndP BufP /\
     CurP = Pos + (GapEndP BufP - GapStartP BufP) /\ GapStartP BufP <= Pos) ->
    ISCheck_loop BufP CaseSen MatchP CurP EndP LoopBack
    = text_matches CaseSen (skipn (Z.to_nat Pos) (buf_text BufP)) MatchP.
Proof.
  intros Hwf. pose proof Hwf as (H0 & H1 & H2 & H3 & H4).
  unfold text_length, capacity, gap_size in H4.
  induction MatchP as [|M MatchP IH]; intros Pos CurP EndP LoopBack HP HR;
    [reflexivity|].
  cbn [ISCheck_loop text_matches].
  destruct HR as [(-> & -> & -> & HG) | (-> & -> & -> & HG)].
  - destruct (Pos <? GapStartP BufP) eqn:E; bool_lia.
    + cbn [negb]. rewrite skipn_buf_text_cons by (assumption || lia).
      replace (byte_at BufP Pos) with (rd (Mem BufP) Pos).
      2:{ unfold byte_at, ED_BufferPosToPtr.
          replace (0 + Pos >=? GapStartP BufP) with false
            by (symmetry; rewrite Z.geb_leb; apply Z.leb_gt; lia).
          f_equal. }
      destruct (IS_mismatch CaseSen (rd (Mem BufP) Pos) M); [reflexivity|].
      cbn [negb andb]. apply IH; [lia|]. left. repeat split; lia.
    + assert (Pos = GapStartP BufP) by lia. subst Pos.
      destruct (GapEndP BufP <? BufEndP BufP) eqn:E2; bool_lia; cbn [negb].
      * rewrite skipn_buf_text_cons by (assumption || lia).
        replace (byte_at BufP (GapStartP BufP)) with (rd (Mem BufP) (GapEndP BufP)).
        2:{ unfold byte_at, ED_BufferPosToPtr.
            replace (0 + GapStartP BufP >=? GapStartP BufP) with true
              by (symmetry; rewrite Z.geb_leb; apply Z.leb_le; lia).
            f_equal. lia. }
        destruct (IS_mismatch CaseSen (rd (Mem BufP) (GapEndP BufP)) M);
          [reflexivity|].
        cbn [negb andb]. apply IH; [lia|]. right. repeat split; lia.
      * rewrite skipn_buf_text_end by (assumption || lia). reflexivity.
  - destruct (Pos + (GapEndP BufP - GapStartP BufP) <? BufEndP BufP) eqn:E;
      bool_lia; cbn [negb].
    + rewrite skipn_buf_text_cons by (assumption || lia).
      replace (byte_at BufP Pos)
        with (rd (Mem BufP) (Pos + (GapEndP BufP - GapStartP BufP))).
      2:{ unfold byte_at, ED_BufferPosToPtr.
          replace (0 + Pos >=? GapStartP BufP) with true
            by (symmetry; rewrite Z.geb_leb; apply Z.leb_le; lia).
          f_equal. }
      destruct (IS_mismatch CaseSen
                  (rd (Mem BufP) (Pos + (GapEndP BufP - GapStartP BufP))) M);
        [reflexivity|].
      cbn [negb andb]. apply IH; [lia|]. right. repeat split; lia.
    + rewrite skipn_buf_text_end by (assumption || lia). reflexivity.
Qed.

Lemma ISCheckMatch_text (s : ED_ISRecord) (BufP : ED_BufferRecord) (Pos : Z) :
  buf_wf BufP -> 0 <= Pos ->
  ED_ISCheckMatch s BufP Pos
  = negb (ED_ISStrLen s =? 0)
    && text_matches (ED_ISCaseSen s) (skipn (Z.to_nat Pos) (buf_text BufP))
                    (ED_ISStr s).
Proof.
  intros Hwf HP. unfold ED_ISCheckMatch.
  destruct (ED_ISStrLen s =? 0); [reflexivity|]. cbn [negb andb].
  destruct (0 + Pos >=? GapStartP BufP) eqn:E; bool_lia.
  - apply ISCheck_loop_text; [assumption | assumption |].
    right. repeat split; lia.
  - apply ISCheck_loop_text; [assumption | assumption |].
    left. repeat split; lia.
Qed.

(** [ED_ISCheckMatch] looks at the text only: its answer at a position is
    the byte-by-byte comparison of the pattern with the text from that
    position (an empty pattern never matches), so it does not change when
    [ED_BufferPlaceGap] moves or grows the gap. *)
Theorem check_match_reads_the_text (s : ED_ISRecord) (BufP : ED_BufferRecord)
  (Pos Offset Len : Z) :
  buf_wf BufP -> 0 <= Pos -> 0 <= Offset <= LastPos BufP ->
  ED_ISCheckMatch s BufP Pos
  = negb (ED_ISStrLen s =? 0)
    && text_matches (ED_ISCaseSen s) (skipn (Z.to_nat Pos) (buf_text BufP))
                    (ED_ISStr s) /\
  ED_ISCheckMatch s (ED_BufferPlaceGap BufP Offset Len) Pos
  = ED_ISCheckMatch s BufP Pos.
Proof.
  intros Hwf HP HO. split; [apply ISCheckMatch_text; assumption|].
  destruct (PlaceGap_text BufP Offset Len Hwf HO) as (W & _ & _ & _ & T).
  rewrite !ISCheckMatch_text by assumption. rewrite T. reflexivity.
Qed.

Lemma check_match_reads_the_text_witness :
  let s := set_ISStr IS_init (bytes_of "lo"%string) in
  let BufP := Buf (editor_with (bytes_of "hello"%string)) in
  ED_ISCheckMatch s (ED_BufferPlaceGap BufP 4 0) 3 = true.
Proof.
  intros s BufP.
  destruct (check_match_reads_the_text s BufP 3 4 0) as (_ & H).
  - vm_compute. repeat split; congruence.
  - lia.
  - vm_compute. split; discriminate.
  - rewrite H. reflexivity.
Defined.

Lemma IS_mismatch_sensitive (CaseSen C M : Z) :
  CaseSen <> 0 -> IS_mismatch CaseSen C M = negb (Int8 C =? Int8 M).
Proof.
  intros H. unfold IS_mismatch.
  replace (CaseSen =? 0) with false by (symmetry; apply Z.eqb_neq; exact H).
  destruct (Int8 C =? Int8 M); reflexivity.
Qed.

Lemma IS_mismatch_fold (C M : Z) :
  IS_mismatch 0 C M = false <->
  Int8 C = Int8 M \/ (65 <= Int8 C <= 90 /\ Int8 C + 32 = Int8 M).
Proof.
  unfold IS_mismatch. cbn [Z.eqb negb].
  destruct (Int8 C =? Int8 M) eqn:E; bool_lia; cbn [negb].
  - split; [intros _; left; exact E | reflexivity].
  - rewrite !orb_false_iff, negb_false_iff, Z.eqb_eq, !Z.ltb_ge. lia.
Qed.

Lemma text_matches_Forall2 (CaseSen : Z) :
  forall (pat text : list Z),
    text_matches CaseSen text pat = true <->
    (length pat <= length text)%nat /\
    Forall2 (fun C M => IS_mismatch CaseSen C M = false)
            (firstn (length pat) text) pat.
Proof.
  induction pat as [|M pat IH]; intros text.
  - cbn. split; [intros _; split; [lia | constructor] | reflexivity].
  - destruct text as [|C text]; cbn [text_matches length firstn].
    + split; [discriminate | intros [H _]; lia].
    + rewrite andb_true_iff, negb_true_iff, IH. split.
      * intros (H1 & H2 & H3). split; [lia|]. constructor; assumption.
      * intros (H1 & H2). inversion H2; subst. repeat split; (assumption || lia).
Qed.

Lemma Forall2_map_eq (l1 l2 : list Z) :
  Forall2 (fun C M => Int8 C = Int8 M) l1 l2 <-> map Int8 l1 = map Int8 l2.
Proof.
  split.
  - induction 1; cbn; [reflexivity | congruence].
  - revert l2. induction l1 as [|x l1 IH]; intros [|y l2] H; cbn in H;
      try discriminate; constructor; inversion H; auto.
Qed.

Lemma Forall2_impl2 {A B : Type} (P Q : A -> B -> Prop) (l1 : list A)
  (l2 : list B) :
  (forall a b, P a b -> Q a b) -> Forall2 P l1 l2 -> Forall2 Q l1 l2.
Proof. intros H. induction 1; constructor; auto. Qed.

(** With the case flag on, [ED_ISCheckMatch] holds at a position exactly
    when the pattern is not empty and occurs in the text at that position
    (bytes compared as [char]s). *)
Theorem check_match_case_sensitive (s : ED_ISRecord) (BufP : ED_BufferRecord)
  (Pos : Z) :
  buf_wf BufP -> 0 <= Pos -> ED_ISCaseSen s <> 0 ->
  (ED_ISCheckMatch s BufP Pos = true <->
   ED_ISStr s <> [] /\ Pos + ED_ISStrLen s <= LastPos BufP /\
   map Int8 (sub (buf_text BufP) Pos (ED_ISStrLen s)) = map Int8 (ED_ISStr s)).
Proof.
  intros Hwf HP HC. rewrite ISCheckMatch_text by assumption.
  rewrite andb_true_iff, negb_true_iff, Z.eqb_neq, text_matches_Forall2.
  pose proof (length_buf_text BufP Hwf) as HL.
  unfold sub, ED_ISStrLen. rewrite Nat2Z.id, length_skipn.
  rewrite <- Forall2_map_eq.
  assert (HI : forall l1 l2,
             Forall2 (fun C M => IS_mismatch (ED_ISCaseSen s) C M = false) l1 l2
             <-> Forall2 (fun C M => Int8 C = Int8 M) l1 l2).
  { intros l1 l2. split; apply Forall2_impl2; intros a b;
      rewrite IS_mismatch_sensitive by exact HC;
      rewrite negb_false_iff, Z.eqb_eq; auto. }
  rewrite HI. split.
  - intros (H1 & H2 & H3). split; [|split; [lia | exact H3]].
    intros E. rewrite E in H1. cbn in H1. lia.
  - intros (H1 & H2 & H3). split; [|split; [lia | exact H3]].
    destruct (ED_ISStr s); [congruence | cbn; lia].
Qed.

Lemma check_match_case_sensitive_witness :
  ED_ISCheckMatch (set_ISCaseSen (set_ISStr IS_init (bytes_of "Hel"%string)) 1)
                  (Buf (editor_with (bytes_of "Hello"%string))) 0 = true.
Proof.
  apply check_match_case_sensitive.
  - vm_compute. repeat split; congruence.
  - lia.
  - vm_compute. discriminate.
  - vm_compute. repeat split; discriminate.
Defined.

(** With the case flag off, [ED_ISCheckMatch] holds at a position exactly
    when the pattern is not empty, fits in the text from that position, and
    every byte of the text there is the byte of the pattern or an uppercase
    letter 'A'..'Z' whose lowercase is the byte of the pattern.  (A
    lowercase letter of the text does not match an uppercase letter of the
    pattern.) *)
Theorem check_match_case_folded (s : ED_ISRecord) (BufP : ED_BufferRecord)
  (Pos : Z) :
  buf_wf BufP -> 0 <= Pos -> ED_ISCaseSen s = 0 ->
  (ED_ISCheckMatch s BufP Pos = true <->
   ED_ISStr s <> [] /\ Pos + ED_ISStrLen s <= LastPos BufP /\
   Forall2 (fun C M => Int8 C = Int8 M \/
                       (65 <= Int8 C <= 90 /\ Int8 C + 32 = Int8 M))
           (sub (buf_text BufP) Pos (ED_ISStrLen s)) (ED_ISStr s)).
Proof.
  intros Hwf HP HC. rewrite ISCheckMatch_text by assumption.
  rewrite andb_true_iff, negb_true_iff, Z.eqb_neq, text_matches_Forall2.
  pose proof (length_buf_text BufP Hwf) as HL.
  unfold sub, ED_ISStrLen. rewrite Nat2Z.id, length_skipn. rewrite HC.
  assert (HI : forall l1 l2,
             Forall2 (fun C M => IS_mismatch 0 C M = false) l1 l2
             <-> Forall2 (fun C M => Int8 C = Int8 M \/
                            (65 <= Int8 C <= 90 /\ Int8 C + 32 = Int8 M)) l1 l2).
  { intros l1 l2. split; apply Forall2_impl2; intros a b;
      apply IS_mismatch_fold. }
  rewrite HI. split.
  - intros (H1 & H2 & H3). split; [|split; [lia | exact H3]].
    intros E. rewrite E in H1. cbn in H1. lia.
  - intros (H1 & H2 & H3). split; [|split; [lia | exact H3]].
    destruct (ED_ISStr s); [congruence | cbn; lia].
Qed.

Lemma check_match_case_folded_witness :
  let s := set_ISStr IS_init (bytes_of "hel"%string) in
  let BufP := Buf (editor_with (bytes_of "HeLlo"%string)) in
  ED_ISStr s <> [] /\ 0 + ED_ISStrLen s <= LastPos BufP /\
  Forall2 (fun C M => Int8 C = Int8 M \/
                      (65 <= Int8 C <= 90 /\ Int8 C + 32 = Int8 M))
          (sub (buf_text BufP) 0 (ED_ISStrLen s)) (ED_ISStr s).
Proof.
  intros s BufP. apply (check_match_case_folded s BufP 0).
  - vm_compute. repeat split; congruence.
  - lia.
  - reflexivity.
  - reflexivity.
Defined.

(** The forward scan returns the first position, from where it starts,
    at which the test holds. *)
Lemma ISForward_loop_spec (s : ED_ISRecord) (BufP : ED_BufferRecord) :
  forall (n : nat) (CurPos : Z),
    0 <= CurPos ->
    (ISForward_loop n s BufP CurPos = -1 /\
     forall p, CurPos <= p < CurPos + Z.of_nat n ->
               ED_ISCheckMatch s BufP p = false) \/
    (CurPos <= ISForward_loop n s BufP CurPos < CurPos + Z.of_nat n /\
     ED_ISCheckMatch s BufP (ISForward_loop n s BufP CurPos) = true /\
     forall p, CurPos <= p < ISForward_loop n s BufP CurPos ->
               ED_ISCheckMatch s BufP p = false).
Proof.
  induction n as [|n IH]; intros CurPos HC.
  - left. split; [reflexivity | intros p Hp; lia].
  - cbn [ISForward_loop].
    destruct (ED_ISCheckMatch s BufP CurPos) eqn:E.
    + right. split; [lia|]. split; [exact E | intros p Hp; lia].
    + destruct (IH (CurPos + 1)) as [[H1 H2] | (H1 & H2 & H3)]; [lia| |].
      * left. split; [exact H1|]. intros p Hp.
        destruct (Z.eq_dec p CurPos) as [->|Hne]; [exact E | apply H2; lia].
      * right. split; [lia|]. split; [exact H2|]. intros p Hp.
        destruct (Z.eq_dec p CurPos) as [->|Hne]; [exact E | apply H3; lia].
Qed.

(** [ED_ISMatchForward] returns the first match at or after the position
    it starts from (0 when wrapping or for a negative start), or -1 when
    there is none before the end of the text; it leaves [ED_ISDoWrap]
    cleared. *)
Theorem match_forward_finds_first (s : ED_ISRecord) (BufP : ED_BufferRecord)
  (StartPos : Z) :
  0 <= LastPos BufP ->
  let from := if negb (ED_ISDoWrap s =? 0) then 0 else Z.max 0 StartPos in
  let r := snd (ED_ISMatchForward s BufP StartPos) in
  ED_ISDoWrap (fst (ED_ISMatchForward s BufP StartPos)) = 0 /\
  ((r = -1 /\
    forall p, from <= p < LastPos BufP -> ED_ISCheckMatch s BufP p = false) \/
   (from <= r < LastPos BufP /\ ED_ISCheckMatch s BufP r = true /\
    forall p, from <= p < r -> ED_ISCheckMatch s BufP p = false)).
Proof.
  intros HL from r. subst from r. unfold ED_ISMatchForward.
  destruct (negb (ED_ISDoWrap s =? 0)) eqn:EW; cbn [fst snd].
  - split; [reflexivity|].
    pose proof (ISForward_loop_spec (set_ISDoWrap s 0) BufP
                  (Z.to_nat (LastPos BufP - 0)) 0 (Z.le_refl 0)) as H.
    replace (0 + Z.of_nat (Z.to_nat (LastPos BufP - 0))) with (LastPos BufP)
      in H by lia.
    exact H.
  - bool_lia.
    destruct ((0 <=? StartPos) && (StartPos >=? LastPos BufP)) eqn:E1;
      cbn [fst snd].
    + bool_lia. split; [exact EW|]. left. split; [reflexivity|].
      intros p Hp. lia.
    + split; [exact EW|].
      assert (HS : (if StartPos <? 0 then 0 else StartPos) = Z.max 0 StartPos)
        by (destruct (StartPos <? 0) eqn:E2; bool_lia; lia).
      rewrite HS.
      assert (HM : Z.max 0 StartPos <= LastPos BufP).
      { apply andb_false_iff in E1. destruct E1 as [E1|E1]; bool_lia; lia. }
      pose proof (ISForward_loop_spec s BufP
                    (Z.to_nat (LastPos BufP - Z.max 0 StartPos))
                    (Z.max 0 StartPos) (Z.le_max_l 0 StartPos)) as H.
      replace (Z.max 0 StartPos
               + Z.of_nat (Z.to_nat (LastPos BufP - Z.max 0 StartPos)))
        with (LastPos BufP) in H by lia.
      exact H.
Qed.

Lemma match_forward_finds_first_witness :
  snd (ED_ISMatchForward (set_ISStr IS_init (bytes_of "ab"%string))
         (Buf (editor_with (bytes_of "xxabyab"%string))) 1) = 2.
Proof.
  destruct (match_forward_finds_first
              (set_ISStr IS_init (bytes_of "ab"%string))
              (Buf (editor_with (bytes_of "xxabyab"%string))) 1)
    as (_ & [[H _] | (_ & _ & _)]).
  - vm_compute. discriminate.
  - vm_compute in H. discriminate.
  - reflexivity.
Defined.

(** The backward scan returns the last position in [1 .. n] at which the
    test holds. *)
Lemma ISBackward_loop_spec (s : ED_ISRecord) (BufP : ED_BufferRecord) :
  forall n : nat,
    (ISBackward_loop n s BufP = -1 /\
     forall p, 1 <= p <= Z.of_nat n -> ED_ISCheckMatch s BufP p = false) \/
    (1 <= ISBackward_loop n s BufP <= Z.of_nat n /\
     ED_ISCheckMatch s BufP (ISBackward_loop n s BufP) = true /\
     forall p, ISBackward_loop n s BufP < p <= Z.of_nat n ->
               ED_ISCheckMatch s BufP p = false).
Proof.
  induction n as [|n IH].
  - left. split; [reflexivity | intros p Hp; lia].
  - cbn [ISBackward_loop].
    destruct (ED_ISCheckMatch s BufP (Z.of_nat (S n))) eqn:E.
    + right. split; [lia|]. split; [exact E | intros p Hp; lia].
    + destruct IH as [[H1 H2] | (H1 & H2 & H3)].
      * left. split; [exact H1|]. intros p Hp.
        destruct (Z.eq_dec p (Z.of_nat (S n))) as [->|Hne];
          [exact E | apply H2; lia].
      * right. split; [lia|]. split; [exact H2|]. intros p Hp.
        destruct (Z.eq_dec p (Z.of_nat (S n))) as [->|Hne];
          [exact E | apply H3; lia].
Qed.

(** [ED_ISMatchBackward] from a start position [StartPos > 0], not
    wrapping: when the pattern would not fit in the text from
    [StartPos - 1] it reports -1 without scanning; otherwise it returns the
    last match in [1 .. StartPos - 1], or -1 when there is none there. *)
Theorem match_backward_finds_last (s : ED_ISRecord) (BufP : ED_BufferRecord)
  (StartPos : Z) :
  ED_ISDoWrap s = 0 -> 0 < StartPos ->
  exists r,
    ED_ISMatchBackward s BufP StartPos = Some (s, r) /\
    (LastPos BufP - ED_ISStrLen s < StartPos - 1 -> r = -1) /\
    (StartPos - 1 <= LastPos BufP - ED_ISStrLen s ->
     (r = -1 /\
      forall p, 1 <= p < StartPos -> ED_ISCheckMatch s BufP p = false) \/
     (1 <= r < StartPos /\ ED_ISCheckMatch s BufP r = true /\
      forall p, r < p < StartPos -> ED_ISCheckMatch s BufP p = false)).
Proof.
  intros HW HS. unfold ED_ISMatchBackward. rewrite HW. cbn [Z.eqb negb].
  replace (StartPos - 1 <? 0) with false by (symmetry; apply Z.ltb_ge; lia).
  destruct (StartPos - 1 >? LastPos BufP - ED_ISStrLen s) eqn:E; bool_lia.
  - eexists. split; [reflexivity|]. split; [reflexivity | intros H; lia].
  - eexists. split; [reflexivity|]. split; [intros H; lia|]. intros _.
    pose proof (ISBackward_loop_spec s BufP (Z.to_nat (StartPos - 1))) as H.
    replace (Z.of_nat (Z.to_nat (StartPos - 1))) with (StartPos - 1) in H by lia.
    destruct H as [[H1 H2] | (H1 & H2 & H3)].
    + left. split; [exact H1 | intros p Hp; apply H2; lia].
    + right. split; [lia|]. split; [exact H2 | intros p Hp; apply H3; lia].
Qed.

Lemma match_backward_finds_last_witness :
  exists r,
    ED_ISMatchBackward (set_ISStr IS_init (bytes_of "ab"%string))
      (Buf (editor_with (bytes_of "xabyabz"%string))) 6
    = Some (set_ISStr IS_init (bytes_of "ab"%string), r).
Proof.
  destruct (match_backward_finds_last
              (set_ISStr IS_init (bytes_of "ab"%string))
              (Buf (editor_with (bytes_of "xabyabz"%string))) 6)
    as (r & E & _ & _).
  - reflexivity.
  - lia.
  - exists r. exact E.
Defined.

(** ** Key bindings *)

Lemma differs_below_nil_l (K : list Z) : ~ differs_below [] K.
Proof. intros (p & x & y & E' & K' & H & _). destruct p; discriminate. Qed.

Lemma differs_below_nil_r (E : list Z) : ~ differs_below E [].
Proof. intros (p & x & y & E' & K' & _ & H & _). destruct p; discriminate. Qed.

Lemma differs_below_cons (x y : Z) (E K : list Z) :
  differs_below (x :: E) (y :: K) <-> x < y \/ (x = y /\ differs_below E K).
Proof.
  split.
  - intros (p & a & b & E' & K' & H1 & H2 & H3). destruct p as [|c p].
    + cbn in H1, H2. inversion H1; inversion H2; subst. left. exact H3.
    + cbn in H1, H2. inversion H1; inversion H2; subst. right.
      split; [reflexivity|]. exists p, a, b, E', K'. repeat split. exact H3.
  - intros [H | (-> & (p & a & b & E' & K' & -> & -> & H))].
    + exists [], x, y, E, K. repeat split. exact H.
    + exists (y :: p), a, b, E', K'. repeat split. exact H.
Qed.

Lemma proper_prefix_nil_l (K : list Z) : proper_prefix [] K <-> K <> [].
Proof.
  split.
  - intros (y & K' & ->). discriminate.
  - intros H. destruct K as [|y K']; [congruence|]. exists y, K'. reflexivity.
Qed.

Lemma proper_prefix_nil_r (E : list Z) : ~ proper_prefix E [].
Proof. intros (y & K' & H). destruct E; discriminate. Qed.

Lemma proper_prefix_cons (x y : Z) (E K : list Z) :
  proper_prefix (x :: E) (y :: K) <-> x = y /\ proper_prefix E K.
Proof.
  split.
  - intros (b & K' & H). cbn in H. inversion H; subst. split; [reflexivity|].
    exists b, K'. reflexivity.
  - intros (-> & (b & K' & ->)). exists b, K'. reflexivity.
Qed.

Lemma BindCompare_cases (EntryP KeyStrP : list Z) :
  (ED_FRegBindCompare EntryP KeyStrP = 99 <-> ukey EntryP = ukey KeyStrP) /\
  (ED_FRegBindCompare EntryP KeyStrP = 1
   <-> proper_prefix (ukey EntryP) (ukey KeyStrP)) /\
  (ED_FRegBindCompare EntryP KeyStrP = 0
   <-> differs_below (ukey KeyStrP) (ukey EntryP)) /\
  (ED_FRegBindCompare EntryP KeyStrP = -1
   <-> differs_below (ukey EntryP) (ukey KeyStrP)
       \/ proper_prefix (ukey KeyStrP) (ukey EntryP)).
Proof.
  revert KeyStrP. unfold ukey.
  induction EntryP as [|x E IH]; intros [|y K]; cbn [ED_FRegBindCompare map].
  - repeat split; try discriminate; try reflexivity.
    + intros H. exfalso. exact (proper_prefix_nil_r _ H).
    + intros H. exfalso. exact (differs_below_nil_l _ H).
    + intros [H|H]; exfalso;
        [exact (differs_below_nil_l _ H) | exact (proper_prefix_nil_r _ H)].
  - repeat split; try discriminate; try reflexivity.
    + intros _. apply proper_prefix_nil_l. discriminate.
    + intros H. exfalso. exact (differs_below_nil_r _ H).
    + intros [H|H]; exfalso;
        [exact (differs_below_nil_l _ H) | exact (proper_prefix_nil_r _ H)].
  - repeat split; try discriminate; try reflexivity.
    + intros H. exfalso. exact (proper_prefix_nil_r _ H).
    + intros H. exfalso. exact (differs_below_nil_l _ H).
    + intros _. right. apply proper_prefix_nil_l. discriminate.
  - rewrite !differs_below_cons, !proper_prefix_cons.
    destruct (IH K) as (I1 & I2 & I3 & I4).
    destruct (Uns8 x <? Uns8 y) eqn:E1; bool_lia.
    + repeat split; try discriminate; try lia.
      intros H. inversion H. lia.
    + destruct (Uns8 x >? Uns8 y) eqn:E2; bool_lia.
      * repeat split; try discriminate; try lia.
        intros H. inversion H. lia.
      * assert (EQ : Uns8 x = Uns8 y) by lia. rewrite EQ.
        split; [|split; [|split]].
        -- rewrite I1. split; intros H;
             [f_equal; exact H | inversion H; reflexivity].
        -- rewrite I2. split;
             [intros H; split; [reflexivity | exact H]
             | intros [_ H]; exact H].
        -- rewrite I3. split;
             [intros H; right; split; [reflexivity | exact H]
             | intros [H|[_ H]]; [lia | exact H]].
        -- rewrite I4. split;
             [intros [H|H];
              [left; right; split; [reflexivity | exact H]
              | right; split; [reflexivity | exact H]]
             | intros [[H|[_ H]]|[_ H]];
               [lia | left; exact H | right; exact H]].
Qed.
(** What [ED_FRegBindCompare] answers for a typed key string [EntryP] and
    the key string [KeyStrP] of a binding: 99 exactly when the two are
    equal; 1 exactly when the typed string is a proper prefix of the
    binding's; 0 (look at the next binding) exactly when the binding's
    string is smaller at their first difference; -1 (give up) exactly when
    the typed string is smaller at the first difference or the binding's
    string is a proper prefix of it.  Bytes are compared unsigned. *)
Theorem bind_compare_meaning (EntryP KeyStrP : list Z) :
  (ED_FRegBindCompare EntryP KeyStrP = 99 <-> ukey EntryP = ukey KeyStrP) /\
  (ED_FRegBindCompare EntryP KeyStrP = 1
   <-> proper_prefix (ukey EntryP) (ukey KeyStrP)) /\
  (ED_FRegBindCompare EntryP KeyStrP = 0
   <-> differs_below (ukey KeyStrP) (ukey EntryP)) /\
  (ED_FRegBindCompare EntryP KeyStrP = -1
   <-> differs_below (ukey EntryP) (ukey KeyStrP)
       \/ proper_prefix (ukey KeyStrP) (ukey EntryP)).
Proof. exact (BindCompare_cases EntryP KeyStrP). Qed.

Lemma FindBinding_suffix :
  forall (l : list ED_FBindRecord) (K : list Z) (l' : list ED_FBindRecord)
         (Res : Z),
    ED_FRegFindBinding l K = (l', Res) ->
    exists pre,
      l = pre ++ l' /\
      Forall (fun B => ED_FRegBindCompare K (fst B) = 0) pre /\
      ((l' = [] /\ Res = -1) \/
       (exists B rest, l' = B :: rest /\ Res = ED_FRegBindCompare K (fst B) /\
                       Res <> 0)).
Proof.
  induction l as [|B l IH]; intros K l' Res H; cbn [ED_FRegFindBinding] in H.
  - inversion H; subst. exists []. split; [reflexivity|].
    split; [constructor|]. left. split; reflexivity.
  - destruct (negb (ED_FRegBindCompare K (fst B) =? 0)) eqn:E; bool_lia.
    + inversion H; subst. exists []. split; [reflexivity|].
      split; [constructor|]. right. exists B, l. repeat split. exact E.
    + destruct (IH K l' Res H) as (pre & -> & HF & HR).
      exists (B :: pre). split; [reflexivity|].
      split; [constructor; assumption | exact HR].
Qed.

(** [ED_FRegFindBinding] walks the sorted bindings and answers 99 for a
    typed key string exactly when it reaches a binding with that key
    string after passing only bindings that are smaller at their first
    difference from it; [*StartBPP] is then left on that binding.  (A
    binding whose key string is a proper prefix of the typed one, met on
    the way, ends the search with -1.)  It never answers 0, and answers -1
    on an empty list. *)
Theorem find_binding_exact_match (l l' : list ED_FBindRecord) (K : list Z) :
  (ED_FRegFindBinding l K = (l', 99) <->
   exists pre B rest,
     l = pre ++ B :: rest /\ l' = B :: rest /\ ukey (fst B) = ukey K /\
     Forall (fun B' => differs_below (ukey (fst B')) (ukey K)) pre) /\
  snd (ED_FRegFindBinding l K) <> 0 /\
  ED_FRegFindBinding [] K = ([], -1).
Proof.
  split; [|split; [|reflexivity]].
  - split.
    + intros H. destruct (FindBinding_suffix l K l' 99 H)
        as (pre & -> & HF & [[_ HR] | (B & rest & -> & HR & _)]);
        [discriminate|].
      exists pre, B, rest. split; [reflexivity|]. split; [reflexivity|].
      split.
      * symmetry. apply (BindCompare_cases K (fst B)). symmetry. exact HR.
      * revert HF. apply Forall_impl. intros B' HB.
        apply (BindCompare_cases K (fst B')). exact HB.
    + intros (pre & B & rest & -> & -> & HK & HF).
      induction pre as [|B' pre IH]; cbn [app ED_FRegFindBinding].
      * replace (ED_FRegBindCompare K (fst B)) with 99
          by (symmetry; apply (BindCompare_cases K (fst B)); symmetry;
              exact HK).
        reflexivity.
      * inversion HF; subst.
        replace (ED_FRegBindCompare K (fst B')) with 0
          by (symmetry; apply (BindCompare_cases K (fst B')); assumption).
        cbn [Z.eqb negb]. apply IH. assumption.
  - destruct (ED_FRegFindBinding l K) as [l1 Res] eqn:E.
    destruct (FindBinding_suffix l K l1 Res E)
      as (pre & _ & _ & [[_ ->] | (B & rest & _ & _ & HR)]); cbn [snd];
      [discriminate | exact HR].
Qed.

(** ** Strings *)

(** [ED_UtilIntersectStr] cuts [MainSP] down to its longest common prefix
    with [NewSP]: what is left is a prefix of [MainSP], its bytes are the
    bytes of [NewSP] at the same places, and no longer prefix is common to
    the two strings. *)
Theorem intersect_str_longest_common_prefix (MainSP NewSP : list Z) :
  let R := ED_UtilIntersectStr MainSP NewSP in
  R = firstn (length R) MainSP /\
  common_prefix (length R) MainSP NewSP /\
  forall k, common_prefix k MainSP NewSP -> (k <= length R)%nat.
Proof.
  revert NewSP. unfold common_prefix.
  induction MainSP as [|C M IH]; intros [|D N]; cbn [ED_UtilIntersectStr].
  - cbn; repeat split; try lia; intros k (H & H' & _); cbn in *; lia.
  - cbn; repeat split; try lia; intros k (H & H' & _); cbn in *; lia.
  - cbn; repeat split; try lia; intros k (H & H' & _); cbn in *; lia.
  - destruct (Int8 C =? Int8 D) eqn:E; bool_lia; cbn [negb].
    + destruct (IH N) as (I1 & (I2 & I3 & I4) & I5).
      cbn [length firstn map]. split; [f_equal; exact I1|].
      split; [split; [lia|split; [lia|]]; f_equal; [exact E | exact I4]|].
      intros [|k] (K1 & K2 & K3); [lia|].
      cbn [length firstn map] in K1, K2, K3. inversion K3.
      assert (k <= length (ED_UtilIntersectStr M N))%nat; [|lia].
      apply I5. split; [lia|split; [lia|assumption]].
    + cbn [length firstn map]. split; [reflexivity|].
      split; [split; [lia|split; [lia|reflexivity]]|].
      intros [|k] (K1 & K2 & K3); [lia|].
      cbn [length firstn map] in K3. inversion K3. congruence.
Qed.

Lemma LastStrSlash_loop_spec :
  forall (Str : list Z) (P LastP : Z),
    let r := LastStrSlash_loop Str P LastP in
    (Forall (fun C => Int8 C <> 47) Str /\ r = LastP) \/
    (P <= r < P + Z.of_nat (length Str) /\
     Int8 (nth (Z.to_nat (r - P)) Str 0) = 47 /\
     forall j, r - P < j < Z.of_nat (length Str) ->
               Int8 (nth (Z.to_nat j) Str 0) <> 47).
Proof.
  induction Str as [|C Str IH]; intros P LastP; cbn [LastStrSlash_loop].
  - left. split; [constructor | reflexivity].
  - cbv zeta.
    destruct (IH (P + 1) (if Int8 C =? 47 then P else LastP))
      as [[HF ->] | (R1 & R2 & R3)].
    + destruct (Int8 C =? 47) eqn:E; bool_lia.
      * right. cbn [length]. split; [lia|].
        replace (P - P) with 0 by lia. split; [exact E|].
        intros j Hj. destruct (Z.to_nat j) as [|n] eqn:En; [lia|].
        cbn [nth]. rewrite Forall_forall in HF. apply HF. apply nth_In.
        lia.
      * left. split; [constructor; assumption | reflexivity].
    + right. set (r := LastStrSlash_loop Str (P + 1) _) in *.
      cbn [length]. split; [lia|].
      replace (Z.to_nat (r - P)) with (S (Z.to_nat (r - (P + 1)))) by lia.
      split; [exact R2|].
      intros j Hj. replace (Z.to_nat j) with (S (Z.to_nat (j - 1))) by lia.
      cbn [nth]. apply R3. lia.
Qed.

(** [ED_UtilGetLastStrSlash] answers the offset of the last slash of the
    string; for a string without a slash it answers offset 0, the start of
    the string, which is also its answer when the only slash is the first
    byte. *)
Theorem last_str_slash_offset (Str : list Z) :
  let r := ED_UtilGetLastStrSlash Str in
  (Forall (fun C => Int8 C <> 47) Str -> r = 0) /\
  (Exists (fun C => Int8 C = 47) Str ->
   0 <= r < Z.of_nat (length Str) /\
   Int8 (nth (Z.to_nat r) Str 0) = 47 /\
   forall j, r < j < Z.of_nat (length Str) ->
             Int8 (nth (Z.to_nat j) Str 0) <> 47).
Proof.
  cbv zeta. unfold ED_UtilGetLastStrSlash.
  pose proof (LastStrSlash_loop_spec Str 0 0) as H. cbv zeta in H.
  rewrite Z.sub_0_r in H. split.
  - intros HF. destruct H as [[_ H] | (H1 & H2 & _)]; [exact H|].
    exfalso. rewrite Forall_forall in HF. refine (HF _ _ H2).
    apply nth_In. lia.
  - intros HE. destruct H as [[HF _] | (H1 & H2 & H3)].
    + exfalso. apply Exists_exists in HE. destruct HE as (C & HC & HC').
      rewrite Forall_forall in HF. exact (HF C HC HC').
    + split; [lia|]. split; [exact H2|]. intros j Hj. apply H3. lia.
Qed.

(** ** The mark ring *)

Lemma mark_mask_mod (x : Z) : Z.land x ED_MARKRINGMASK = x mod 16.
Proof.
  change ED_MARKRINGMASK with (Z.ones 4). rewrite Z.land_ones by lia.
  reflexivity.
Qed.

Lemma upd_upd_nth (l : list Z) (i : nat) (v : Z) :
  upd (upd l i v) i (nth i l 0) = l.
Proof.
  revert i. induction l as [|x l IH]; intros [|i]; cbn; try reflexivity.
  f_equal. apply IH.
Qed.

(** Pushing a mark and popping it again: [ED_BufferPushMark] puts [Pos] on
    top of the ring, overwriting only the slot after the old top and
    nothing at all when [Pos] is the top mark already; [ED_BufferGetMark]
    with [DoPop] then answers [Pos], and when the push did add a mark the
    ring is back on the old top mark. *)
Theorem mark_push_then_pop (BufP : ED_BufferRecord) (Pos : Z)
  (echo : ED_EchoRecord) :
  marks_wf BufP ->
  let B1 := fst (ED_BufferPushMark BufP Pos) in
  let MarkPos := fst (fst (ED_BufferGetMark B1 true echo)) in
  let B2 := snd (fst (ED_BufferGetMark B1 true echo)) in
  marks_wf B1 /\ top_mark B1 = Pos /\
  (forall i, (i < 16)%nat ->
             Z.of_nat i <> (MarkRingIndex BufP + 1) mod 16 ->
             nth i (MarkRingArr B1) 0 = nth i (MarkRingArr BufP) 0) /\
  (top_mark BufP = Pos -> B1 = BufP) /\
  MarkPos = Pos /\ marks_wf B2 /\
  (top_mark BufP <> Pos ->
   MarkRingIndex B2 = MarkRingIndex BufP /\ top_mark B2 = top_mark BufP).
Proof.
  intros [WL WI]. unfold ED_MARKRINGCOUNT in WL, WI.
  unfold ED_BufferPushMark, ED_BufferGetMark, top_mark, marks_wf.
  cbv zeta. cbn [fst snd]. fold (top_mark BufP).
  destruct (top_mark BufP =? Pos) eqn:E; bool_lia; cbn [negb].
  - unfold set_marks. cbn [MarkRingIndex MarkRingArr].
    rewrite mark_mask_mod. unfold ED_MARKRINGCOUNT.
    repeat split; try assumption; try lia; try reflexivity;
      try (apply Z.mod_pos_bound; lia).
  - unfold set_marks. cbn [MarkRingIndex MarkRingArr].
    rewrite !mark_mask_mod. unfold ED_MARKRINGCOUNT.
    assert (R : 0 <= (MarkRingIndex BufP + 1) mod 16 < 16)
      by (apply Z.mod_pos_bound; lia).
    assert (R' : ((MarkRingIndex BufP + 1) mod 16 - 1) mod 16
                 = MarkRingIndex BufP).
    { destruct (Z.eq_dec (MarkRingIndex BufP) 15) as [->|N]; [reflexivity|].
      rewrite (Z.mod_small (MarkRingIndex BufP + 1)) by lia.
      rewrite Z.mod_small by lia. lia. }
    rewrite R', upd_length.
    split; [split; [exact WL | exact R]|].
    split; [apply nth_upd_same; lia|].
    split; [intros i Hi Hne; apply nth_upd_other; lia|].
    split; [intros H; congruence|].
    split; [apply nth_upd_same; lia|].
    split; [split; [exact WL | lia]|].
    intros _. split; [reflexivity|].
    apply nth_upd_other.
    destruct (Z.eq_dec (MarkRingIndex BufP) 15) as [EQ|N];
      [rewrite EQ; cbn; lia|].
    rewrite Z.mod_small by lia. lia.
Qed.

Lemma mark_push_then_pop_witness :
  marks_wf (set_marks (fst (ED_BufferReadFile [97] 0)) 15 (repeat 0 16)) /\
  fst (fst (ED_BufferGetMark
              (fst (ED_BufferPushMark
                      (set_marks (fst (ED_BufferReadFile [97] 0)) 15
                                 (repeat 0 16)) 1))
              true Echo_init)) = 1.
Proof.
  assert (W : marks_wf (set_marks (fst (ED_BufferReadFile [97] 0)) 15
                                  (repeat 0 16)))
    by (split; [reflexivity | unfold ED_MARKRINGCOUNT; cbn; lia]).
  split; [exact W|].
  apply (mark_push_then_pop _ 1 Echo_init W).
Defined.

Lemma SwapMark_other (BufP : ED_BufferRecord) (NewPos : Z) :
  top_mark BufP <> NewPos ->
  ED_BufferSwapMark BufP NewPos
  = (top_mark BufP,
     set_marks BufP (MarkRingIndex BufP)
       (upd (MarkRingArr BufP) (Z.to_nat (MarkRingIndex BufP)) NewPos)).
Proof.
  intros N. unfold ED_BufferSwapMark. fold (top_mark BufP).
  destruct (top_mark BufP =? NewPos) eqn:E; bool_lia; [congruence|].
  reflexivity.
Qed.

(** [ED_BufferSwapMark] puts [NewPos] in place of the top mark and answers
    the mark it replaced; swapping the answer back in restores the buffer,
    so exchanging the cursor and the mark twice changes nothing.  (When
    [NewPos] is the top mark the ring is popped first; that case is left
    out here.) *)
Theorem swap_mark_twice (BufP : ED_BufferRecord) (NewPos : Z) :
  marks_wf BufP -> top_mark BufP <> NewPos ->
  let m1 := fst (ED_BufferSwapMark BufP NewPos) in
  let B1 := snd (ED_BufferSwapMark BufP NewPos) in
  m1 = top_mark BufP /\ top_mark B1 = NewPos /\
  fst (ED_BufferSwapMark B1 m1) = NewPos /\
  snd (ED_BufferSwapMark B1 m1) = BufP.
Proof.
  intros [WL WI] N. unfold ED_MARKRINGCOUNT in WL, WI. cbv zeta.
  rewrite (SwapMark_other BufP NewPos N). cbn [fst snd].
  assert (T : top_mark
                (set_marks BufP (MarkRingIndex BufP)
                   (upd (MarkRingArr BufP) (Z.to_nat (MarkRingIndex BufP))
                        NewPos)) = NewPos).
  { unfold top_mark. cbn [set_marks MarkRingIndex MarkRingArr].
    apply nth_upd_same. lia. }
  rewrite SwapMark_other by (rewrite T; congruence).
  rewrite T. cbn [fst snd set_marks MarkRingIndex MarkRingArr Flags Mem
                  BufEndP GapStartP GapEndP USlabs USCount USTotalSize LastPos
                  PaneRefCount].
  unfold top_mark. rewrite upd_upd_nth.
  repeat split. destruct BufP; reflexivity.
Qed.

Lemma swap_mark_twice_witness :
  snd (ED_BufferSwapMark
         (snd (ED_BufferSwapMark (fst (ED_BufferReadFile [97; 98] 0)) 2))
         (fst (ED_BufferSwapMark (fst (ED_BufferReadFile [97; 98] 0)) 2)))
  = fst (ED_BufferReadFile [97; 98] 0).
Proof.
  apply (swap_mark_twice (fst (ED_BufferReadFile [97; 98] 0)) 2).
  - split; [reflexivity | unfold ED_MARKRINGCOUNT; cbn; lia].
  - vm_compute. discriminate.
Defined.

Lemma UpdateMark_nth (Pos Delta : Z) (l : list Z) (i : nat) :
  (i < length l)%nat ->
  nth i (map (fun RAP =>
                if RAP >=? Pos then
                  let RAP := RAP + Delta in
                  if RAP <? Pos then Pos else RAP
                else RAP) l) 0
  = if nth i l 0 <? Pos then nth i l 0 else Z.max Pos (nth i l 0 + Delta).
Proof.
  revert i. induction l as [|x l IH]; intros [|i] H; cbn [length] in H;
    try lia; cbn [map nth].
  - cbv zeta. repeat (case_if; bool_lia); lia.
  - apply IH. lia.
Qed.

(** [ED_BufferUpdateMark] after an insertion or a deletion at [Pos]: the
    marks before [Pos] stay, the marks from [Pos] on move by [Delta] but
    never to a place before [Pos].  So marks that lay inside a text of [L]
    bytes lie inside the text of [L + Delta] bytes that the change leaves,
    and two marks never change their order. *)
Theorem update_mark_keeps_marks_in_text (BufP : ED_BufferRecord)
  (Pos Delta L : Z) :
  0 <= Pos <= L -> Pos <= L + Delta ->
  Forall (fun m => 0 <= m <= L) (MarkRingArr BufP) ->
  let B' := ED_BufferUpdateMark BufP Pos Delta in
  Forall (fun m => 0 <= m <= L + Delta) (MarkRingArr B') /\
  MarkRingIndex B' = MarkRingIndex BufP /\
  length (MarkRingArr B') = length (MarkRingArr BufP) /\
  (forall i, (i < length (MarkRingArr BufP))%nat ->
     nth i (MarkRingArr B') 0
     = if nth i (MarkRingArr BufP) 0 <? Pos then nth i (MarkRingArr BufP) 0
       else Z.max Pos (nth i (MarkRingArr BufP) 0 + Delta)) /\
  (forall i j, (i < length (MarkRingArr BufP))%nat ->
     (j < length (MarkRingArr BufP))%nat ->
     nth i (MarkRingArr BufP) 0 <= nth j (MarkRingArr BufP) 0 ->
     nth i (MarkRingArr B') 0 <= nth j (MarkRingArr B') 0).
Proof.
  intros HP HD HF. cbv zeta. unfold ED_BufferUpdateMark.
  cbn [set_marks MarkRingIndex MarkRingArr].
  split; [|split; [reflexivity|split; [apply length_map|split]]].
  - rewrite Forall_forall in *. intros m' Hm'. apply in_map_iff in Hm'.
    destruct Hm' as (m & <- & Hm). specialize (HF m Hm). cbv zeta.
    repeat (case_if; bool_lia); lia.
  - intros i Hi. apply UpdateMark_nth. exact Hi.
  - intros i j Hi Hj Hij. rewrite !UpdateMark_nth by assumption.
    repeat (case_if; bool_lia); lia.
Qed.

Lemma update_mark_keeps_marks_in_text_witness :
  Forall (fun m => 0 <= m <= 7)
         (MarkRingArr (ED_BufferUpdateMark
                         (set_marks (fst (ED_BufferReadFile [97] 0)) 0
                                    [0; 4; 5; 10])
                         3 (-3))).
Proof.
  apply (update_mark_keeps_marks_in_text
           (set_marks (fst (ED_BufferReadFile [97] 0)) 0 [0; 4; 5; 10])
           3 (-3) 10); [lia | lia |].
  cbn. repeat constructor; lia.
Defined.

Lemma GetDiffMark_loop_spec (NotPos : Z) :
  forall (n : nat) (I : Z) (BufP : ED_BufferRecord) (MarkPos : Z),
    let r := GetDiffMark_loop n I BufP NotPos MarkPos in
    MarkRingArr (snd r) = MarkRingArr BufP /\
    (n <> O -> top_mark (snd r) = fst r /\
               0 <= MarkRingIndex (snd r) < ED_MARKRINGCOUNT) /\
    (n <> O ->
     (fst r = NotPos <->
      Forall (fun i => nth (Z.to_nat i) (MarkRingArr BufP) 0 = NotPos)
             (GetDiffMark_slots n I (MarkRingIndex BufP)))).
Proof.
  induction n as [|n IH]; intros I BufP MarkPos;
    cbn [GetDiffMark_loop GetDiffMark_slots].
  - cbn. repeat split; congruence.
  - cbv zeta. cbn [set_marks MarkRingIndex MarkRingArr].
    set (Idx := Z.land (MarkRingIndex BufP - I) ED_MARKRINGMASK).
    assert (RI : 0 <= Idx < ED_MARKRINGCOUNT).
    { unfold Idx. rewrite mark_mask_mod. apply Z.mod_pos_bound.
      reflexivity. }
    destruct (nth (Z.to_nat Idx) (MarkRingArr BufP) 0 =? NotPos) eqn:E;
      bool_lia; cbn [negb].
    + specialize (IH (I + 1) (set_marks BufP Idx (MarkRingArr BufP))
                     (nth (Z.to_nat Idx) (MarkRingArr BufP) 0)).
      cbv zeta in IH. cbn [set_marks MarkRingIndex MarkRingArr] in IH.
      destruct IH as (I1 & I2 & I3).
      split; [exact I1|]. destruct n as [|n].
      * cbn [GetDiffMark_loop GetDiffMark_slots fst snd].
        split; [intros _; split; [reflexivity | exact RI]|].
        intros _. split; [intros _; constructor; [exact E | constructor]
                         | intros _; exact E].
      * split; [intros _; apply I2; discriminate|].
        intros _. rewrite (I3 ltac:(discriminate)).
        split; [intros H; constructor; [exact E | exact H]
               | intros H; inversion H; assumption].
    + cbn [fst snd set_marks MarkRingIndex MarkRingArr top_mark].
      split; [reflexivity|].
      split; [intros _; split; [reflexivity | exact RI]|].
      intros _. split; [intros H; congruence|].
      intros H. inversion H. congruence.
Qed.

Lemma GetDiffMark_slots_all (A : list Z) (Idx NotPos : Z) :
  length A = 16%nat -> 0 <= Idx < 16 ->
  (Forall (fun i => nth (Z.to_nat i) A 0 = NotPos)
          (GetDiffMark_slots 16 0 Idx)
   <-> Forall (fun m => m = NotPos) A).
Proof.
  intros WL WI.
  do 16 (destruct A as [|? A]; [discriminate WL|]).
  destruct A; [|discriminate WL]. clear WL.
  assert (HI : Idx = 0 \/ Idx = 1 \/ Idx = 2 \/ Idx = 3 \/ Idx = 4 \/
               Idx = 5 \/ Idx = 6 \/ Idx = 7 \/ Idx = 8 \/ Idx = 9 \/
               Idx = 10 \/ Idx = 11 \/ Idx = 12 \/ Idx = 13 \/ Idx = 14 \/
               Idx = 15) by lia.
  clear WI.
  repeat (destruct HI as [HI | HI]); subst Idx;
    (split; intros H;
     repeat (let h := fresh in
             pose proof (Forall_inv H) as h; apply Forall_inv_tail in H);
     repeat constructor; assumption).
Qed.

(** [ED_BufferGetDiffMark] looks for a mark other than [NotPos].  Its
    passes step back by 0, 1, 2, ... 15 slots, which brings it to every one
    of the 16 slots once: it answers [NotPos] only when every mark of the
    ring is [NotPos].  The mark it answers is the top mark it leaves; the
    marks themselves are not changed. *)
Theorem get_diff_mark_tries_every_mark (BufP : ED_BufferRecord) (NotPos : Z) :
  marks_wf BufP ->
  let MarkPos := fst (ED_BufferGetDiffMark BufP NotPos) in
  let B' := snd (ED_BufferGetDiffMark BufP NotPos) in
  MarkRingArr B' = MarkRingArr BufP /\ marks_wf B' /\
  top_mark B' = MarkPos /\
  (MarkPos = NotPos <-> Forall (fun m => m = NotPos) (MarkRingArr BufP)).
Proof.
  intros [WL WI]. cbv zeta. unfold ED_BufferGetDiffMark.
  pose proof (GetDiffMark_loop_spec NotPos (Z.to_nat ED_MARKRINGCOUNT) 0
                BufP 0) as H.
  cbv zeta in H. destruct H as (H1 & H2 & H3).
  destruct (H2 ltac:(discriminate)) as [H2a H2b].
  split; [exact H1|].
  split; [split; [rewrite H1; exact WL | exact H2b]|].
  split; [exact H2a|].
  rewrite (H3 ltac:(discriminate)).
  apply GetDiffMark_slots_all; assumption.
Qed.

Lemma get_diff_mark_tries_every_mark_witness :
  fst (ED_BufferGetDiffMark
         (set_marks (fst (ED_BufferReadFile [97] 0)) 0
                    [5; 5; 5; 5; 5; 5; 5; 5; 7; 5; 5; 5; 5; 5; 5; 5]) 5) <> 5.
Proof.
  intros H.
  apply (get_diff_mark_tries_every_mark
           (set_marks (fst (ED_BufferReadFile [97] 0)) 0
                      [5; 5; 5; 5; 5; 5; 5; 5; 7; 5; 5; 5; 5; 5; 5; 5]) 5
           ltac:(split; [reflexivity | unfold ED_MARKRINGCOUNT; cbn; lia]))
    in H.
  do 8 (apply Forall_inv_tail in H). apply Forall_inv in H. discriminate H.
Defined.

(** ** The undo log and the text *)

Lemma same_store_refl (b : ED_BufferRecord) : same_store b b.
Proof. repeat split. Qed.

Lemma same_store_trans (b1 b2 b3 : ED_BufferRecord) :
  same_store b1 b2 -> same_store b2 b3 -> same_store b1 b3.
Proof.
  intros (A1 & A2 & A3 & A4 & A5 & A6 & A7 & A8 & A9)
         (B1 & B2 & B3 & B4 & B5 & B6 & B7 & B8 & B9).
  repeat split; try congruence.
  intros X HX. rewrite (B9 X HX). apply A9. exact HX.
Qed.

Lemma has_clrf_other (F C X : Z) :
  Z.land X C = 0 -> has (clrf F C) X = has F X.
Proof.
  intros H. unfold has, clrf. f_equal. f_equal.
  apply Z.bits_inj'. intros n Hn.
  rewrite !Z.land_spec, Z.ldiff_spec.
  assert (T : Z.testbit (Z.land X C) n = false)
    by (rewrite H; apply Z.bits_0).
  rewrite Z.land_spec in T.
  destruct (Z.testbit F n), (Z.testbit C n), (Z.testbit X n);
    try reflexivity; discriminate T.
Qed.

Lemma has_setf_other (F C X : Z) :
  Z.land X C = 0 -> has (setf F C) X = has F X.
Proof.
  intros H. unfold has, setf. f_equal. f_equal.
  apply Z.bits_inj'. intros n Hn.
  rewrite !Z.land_spec, Z.lor_spec.
  assert (T : Z.testbit (Z.land X C) n = false)
    by (rewrite H; apply Z.bits_0).
  rewrite Z.land_spec in T.
  destruct (Z.testbit F n), (Z.testbit C n), (Z.testbit X n);
    try reflexivity; discriminate T.
Qed.

Lemma same_store_set_undo (b : ED_BufferRecord) (s : list ED_USlabRecord)
  (c t : Z) : same_store b (set_undo b s c t).
Proof. repeat split. Qed.

Lemma same_store_clr_clean (b : ED_BufferRecord) :
  same_store b (set_Flags b (clrf (Flags b) ED_BUFCLEANUNDOFLAG)).
Proof.
  repeat split. cbn [set_Flags Flags]. apply has_clrf_other; assumption.
Qed.

Lemma same_store_set_clean (b : ED_BufferRecord) :
  same_store b (set_Flags b (setf (Flags b) ED_BUFCLEANUNDOFLAG)).
Proof.
  repeat split. cbn [set_Flags Flags]. apply has_setf_other; assumption.
Qed.

Lemma same_store_set_last_block (b : ED_BufferRecord) (u : ED_UBlockRecord) :
  same_store b (set_last_block b u).
Proof. unfold set_last_block. destruct (LastUSP b); repeat split. Qed.

Lemma same_store_AddNewUndoSlab (b : ED_BufferRecord) (heap Payload : Z) :
  same_store b (fst (ED_BufferAddNewUndoSlab b heap Payload)).
Proof. repeat split. Qed.

Lemma same_store_GCUndoSlabs0 (b : ED_BufferRecord) (h : ED_UndoHead) :
  same_store b (fst (ED_BufferGCUndoSlabs0 b h)).
Proof.
  unfold ED_BufferGCUndoSlabs0, ED_BufferKillUndoSlabs.
  destruct (USCount b >? ED_UNDOGCSLABCOUNT); [|apply same_store_refl].
  destruct (KillUndoSlabs_loop _ _ _ _ _) as [[[s c] t] h'].
  repeat split.
Qed.

Lemma same_store_AllocUndoBlock (b : ED_BufferRecord) (heap Wanted : Z) :
  same_store b (fst (fst (ED_BufferAllocUndoBlock b heap Wanted))).
Proof.
  unfold ED_BufferAllocUndoBlock.
  destruct (LastUSP b) as [USP|]; [|apply same_store_refl].
  destruct (AllocUndoBlock_on USP Wanted) as [[USP' M]|]; [repeat split|].
  destruct (ED_BufferAddNewUndoSlab b heap Wanted) as [b1 heap1] eqn:E1.
  assert (S1 : same_store b b1)
    by (pose proof (same_store_AddNewUndoSlab b heap Wanted) as H;
        rewrite E1 in H; exact H).
  destruct (LastUSP b1) as [USP1|]; [|exact S1].
  destruct (AllocUndoBlock_on USP1 Wanted) as [[USP' M]|]; [|exact S1].
  cbn [fst]. eapply same_store_trans; [exact S1 | repeat split].
Qed.

Lemma same_store_AddUndo_del_loop :
  forall (fuel : nat) (b : ED_BufferRecord) (heap Pos Mode : Z)
         (DataP : list Z) (LenLeft PrevOffset Count : Z) (FirstMod : bool),
    same_store b
      (fst (AddUndo_del_loop fuel b heap Pos Mode DataP LenLeft PrevOffset
                             Count FirstMod)).
Proof.
  induction fuel as [|f IH]; intros; cbn [AddUndo_del_loop];
    [apply same_store_refl|].
  pose proof (same_store_AllocUndoBlock b heap LenLeft) as S1.
  destruct (ED_BufferAllocUndoBlock b heap LenLeft) as [[b1 heap1] MaxLen].
  cbn [fst] in S1.
  destruct (MaxLen <? 0); [exact S1|].
  destruct (if MaxLen >=? LenLeft then (LenLeft, 0)
            else (MaxLen, LenLeft - MaxLen)) as [Len LenLeft'].
  cbv zeta.
  match goal with
  | |- context [set_last_block b1 ?u] =>
      pose proof (same_store_set_last_block b1 u) as S2;
      set (b2 := set_last_block b1 u) in *
  end.
  destruct (negb (LenLeft' =? 0)).
  - eapply same_store_trans; [exact S1|].
    eapply same_store_trans; [exact S2 | apply IH].
  - eapply same_store_trans; [exact S1 | exact S2].
Qed.

Lemma same_store_AddUndoBlock (BufP : ED_BufferRecord) (h : ED_UndoHead)
  (heap Pos Len Mode : Z) (DataP : list Z) :
  same_store BufP
    (fst (fst (ED_BufferAddUndoBlock BufP h heap Pos Len Mode DataP))).
Proof.
  unfold ED_BufferAddUndoBlock.
  destruct (LastUSP BufP) as [USP0|]; [|apply same_store_refl].
  pose proof (same_store_GCUndoSlabs0 BufP h) as S1.
  destruct (ED_BufferGCUndoSlabs0 BufP h) as [b1 h1]. cbn [fst] in S1.
  cbv zeta.
  set (FirstMod := has (Flags b1) ED_BUFCLEANUNDOFLAG).
  set (b2 := if FirstMod then set_Flags b1 (clrf (Flags b1) ED_BUFCLEANUNDOFLAG)
             else b1).
  assert (S2 : same_store BufP b2).
  { unfold b2. destruct FirstMod; [|exact S1].
    eapply same_store_trans; [exact S1 | apply same_store_clr_clean]. }
  match goal with
  | |- context [match ?m with Some _ => _ | None => _ end] =>
      destruct m as [u|]
  end.
  - cbn [fst]. eapply same_store_trans;
      [exact S2 | apply same_store_set_last_block].
  - destruct (has Mode ED_UB_SAVE).
    + pose proof (same_store_AllocUndoBlock b2 heap 0) as S3.
      destruct (ED_BufferAllocUndoBlock b2 heap 0) as [[b3 heap3] MaxLen].
      cbn [fst] in S3.
      destruct (MaxLen <? 0); cbn [fst];
        [eapply same_store_trans; [exact S2 | exact S3]|].
      eapply same_store_trans; [exact S2|].
      eapply same_store_trans; [exact S3|].
      destruct FirstMod.
      * eapply same_store_trans;
          [apply same_store_set_last_block | apply same_store_set_clean].
      * apply same_store_set_last_block.
    + destruct (has Mode ED_UB_DEL).
      * pose proof (same_store_AddUndo_del_loop 3 b2 heap Pos Mode DataP Len
                      (LastUBlock USP0) 0 FirstMod) as S3.
        destruct (AddUndo_del_loop 3 b2 heap Pos Mode DataP Len
                    (LastUBlock USP0) 0 FirstMod) as [b3 heap3].
        cbn [fst] in *. eapply same_store_trans; [exact S2 | exact S3].
      * pose proof (same_store_AllocUndoBlock b2 heap 0) as S3.
        destruct (ED_BufferAllocUndoBlock b2 heap 0) as [[b3 heap3] MaxLen].
        cbn [fst] in S3.
        destruct (MaxLen <? 0); cbn [fst];
          [eapply same_store_trans; [exact S2 | exact S3]|].
        eapply same_store_trans; [exact S2|].
        eapply same_store_trans;
          [exact S3 | apply same_store_set_last_block].
Qed.

Lemma same_store_text (b b' : ED_BufferRecord) :
  same_store b b' -> buf_text b' = buf_text b.
Proof.
  intros (H1 & H2 & H3 & H4 & _). unfold buf_text.
  rewrite H1, H2, H3, H4. reflexivity.
Qed.

Lemma same_store_wf (b b' : ED_BufferRecord) :
  same_store b b' -> buf_wf b -> buf_wf b'.
Proof.
  intros (H1 & H2 & H3 & H4 & H5 & _).
  unfold buf_wf, text_length, capacity, gap_size.
  rewrite H1, H2, H3, H4, H5. exact (fun H => H).
Qed.

(** Recording a change in the undo log, whatever the log holds and whatever
    is recorded, leaves the text, the gap, the text length and the mark
    ring of the buffer as they are: [ED_BufferAddUndoBlock] writes to the
    undo slabs only, and to no flag but [ED_BUFCLEANUNDOFLAG]. *)
Theorem add_undo_block_keeps_text (BufP : ED_BufferRecord) (h : ED_UndoHead)
  (heap Pos Len Mode : Z) (DataP : list Z) :
  let B' := fst (fst (ED_BufferAddUndoBlock BufP h heap Pos Len Mode DataP)) in
  same_store BufP B' /\ buf_text B' = buf_text BufP.
Proof.
  cbv zeta. split; [apply same_store_AddUndoBlock|].
  apply same_store_text. apply same_store_AddUndoBlock.
Qed.

(** ** Deleting characters *)

Lemma buf_text_cut (b b' : ED_BufferRecord) (k : Z) :
  buf_wf b -> 0 <= k <= BufEndP b - GapEndP b ->
  Mem b' = Mem b -> BufEndP b' = BufEndP b ->
  GapStartP b' = GapStartP b -> GapEndP b' = GapEndP b + k ->
  buf_text b' = firstn (Z.to_nat (GapStartP b)) (buf_text b)
                ++ skipn (Z.to_nat (GapStartP b + k)) (buf_text b).
Proof.
  intros (W0 & W1 & W2 & W3 & W4) Hk HM HE HS HG. unfold buf_text.
  rewrite HM, HE, HS, HG.
  assert (LA : length (sub (Mem b) 0 (GapStartP b)) = Z.to_nat (GapStartP b)).
  { apply Nat2Z.inj. rewrite length_sub by lia. lia. }
  rewrite firstn_app, skipn_app, LA.
  rewrite firstn_all2 by lia.
  rewrite (skipn_all2 (n := Z.to_nat (GapStartP b + k))) by lia.
  replace (Z.to_nat (GapStartP b) - Z.to_nat (GapStartP b))%nat with O by lia.
  replace (Z.to_nat (GapStartP b + k) - Z.to_nat (GapStartP b))%nat
    with (Z.to_nat k) by lia.
  cbn [firstn app]. rewrite app_nil_r. f_equal.
  unfold sub. rewrite skipn_firstn_comm, skipn_skipn.
  f_equal; [lia | f_equal; lia].
Qed.

Lemma buf_text_cut_back (b b' : ED_BufferRecord) (k : Z) :
  buf_wf b -> 0 <= k <= GapStartP b ->
  Mem b' = Mem b -> BufEndP b' = BufEndP b ->
  GapStartP b' = GapStartP b - k -> GapEndP b' = GapEndP b ->
  buf_text b' = firstn (Z.to_nat (GapStartP b - k)) (buf_text b)
                ++ skipn (Z.to_nat (GapStartP b)) (buf_text b).
Proof.
  intros (W0 & W1 & W2 & W3 & W4) Hk HM HE HS HG. unfold buf_text.
  rewrite HM, HE, HS, HG.
  assert (LA : length (sub (Mem b) 0 (GapStartP b)) = Z.to_nat (GapStartP b)).
  { apply Nat2Z.inj. rewrite length_sub by lia. lia. }
  rewrite firstn_app, skipn_app, LA.
  rewrite (skipn_all2 (n := Z.to_nat (GapStartP b))) by lia.
  replace (Z.to_nat (GapStartP b - k) - Z.to_nat (GapStartP b))%nat with O
    by lia.
  rewrite Nat.sub_diag.
  cbn [firstn skipn app]. rewrite app_nil_r. f_equal.
  unfold sub. rewrite firstn_firstn. f_equal. lia.
Qed.

Lemma UTF8Len_ascii (C : Z) : 0 <= C < 128 -> ED_BufferGetUTF8Len C = 1.
Proof.
  intros H. unfold ED_BufferGetUTF8Len, Uns8. rewrite Z.mod_small by lia.
  destruct (C <=? 127) eqn:E; bool_lia; [reflexivity | lia].
Qed.

Lemma has_setf (F X : Z) : 0 < X -> has (setf F X) X = true.
Proof.
  intros HX. unfold has, setf.
  replace (Z.land (Z.lor F X) X) with X; [|symmetry].
  - destruct (X =? 0) eqn:E; bool_lia; [lia | reflexivity].
  - apply Z.bits_inj'. intros n Hn. rewrite Z.land_spec, Z.lor_spec.
    destruct (Z.testbit F n), (Z.testbit X n); reflexivity.
Qed.

Lemma st_AddUndoBlock_frame (st : ED_State) (Pos Len Mode : Z)
  (DataP : list Z) :
  same_store (Buf st) (Buf (st_AddUndoBlock st Pos Len Mode DataP)) /\
  Pane (st_AddUndoBlock st Pos Len Mode DataP) = Pane st /\
  KR (st_AddUndoBlock st Pos Len Mode DataP) = KR st /\
  Echo (st_AddUndoBlock st Pos Len Mode DataP) = Echo st /\
  Others (st_AddUndoBlock st Pos Len Mode DataP) = Others st /\
  Sel (st_AddUndoBlock st Pos Len Mode DataP) = Sel st /\
  Cmd (st_AddUndoBlock st Pos Len Mode DataP) = Cmd st.
Proof.
  unfold st_AddUndoBlock.
  pose proof (same_store_AddUndoBlock (Buf st) (UHead st) (Heap st) Pos Len
                Mode DataP) as H.
  destruct (ED_BufferAddUndoBlock (Buf st) (UHead st) (Heap st) Pos Len Mode
              DataP) as [[b h] heap].
  cbn [fst] in H. repeat split; try reflexivity; apply H.
Qed.

Lemma st_SetBufRowCount_frame (st : ED_State) :
  Buf (st_SetBufRowCount st) = Buf st /\
  CursorPos (Pane (st_SetBufRowCount st)) = CursorPos (Pane st) /\
  KR (st_SetBufRowCount st) = KR st /\
  Echo (st_SetBufRowCount st) = Echo st.
Proof.
  unfold st_SetBufRowCount.
  destruct (ED_PaneFindLoc _ _ _ _ _) as [[a r] c]. repeat split.
Qed.

Lemma st_UpdateOtherPanes_frame (st : ED_State) (InsertPos InsertCount : Z) :
  Buf (st_UpdateOtherPanes st InsertPos InsertCount) = Buf st /\
  Pane (st_UpdateOtherPanes st InsertPos InsertCount) = Pane st /\
  KR (st_UpdateOtherPanes st InsertPos InsertCount) = KR st /\
  Echo (st_UpdateOtherPanes st InsertPos InsertCount) = Echo st.
Proof.
  unfold st_UpdateOtherPanes.
  destruct (ED_PaneUpdateOtherPanes _ _ _ _ _ _) as [panes sel].
  repeat split.
Qed.

Lemma DelNextChar_loop_ascii :
  forall (n : nat) (st : ED_State) (Total : Z),
    buf_wf (Buf st) -> GapStartP (Buf st) = CursorPos (Pane st) ->
    (forall j, GapEndP (Buf st) <= j < BufEndP (Buf st) ->
               0 <= rd (Mem (Buf st)) j < 128) ->
    let k := Z.min (Z.of_nat n) (LastPos (Buf st) - CursorPos (Pane st)) in
    let r := DelNextChar_loop n st Total in
    snd r = Total + k /\
    Mem (Buf (fst r)) = Mem (Buf st) /\
    BufEndP (Buf (fst r)) = BufEndP (Buf st) /\
    GapStartP (Buf (fst r)) = GapStartP (Buf st) /\
    GapEndP (Buf (fst r)) = GapEndP (Buf st) + k /\
    LastPos (Buf (fst r)) = LastPos (Buf st) - k /\
    Flags (Buf (fst r)) = Flags (Buf st) /\
    Pane (fst r) = Pane st /\ KR (fst r) = KR st /\
    (LastPos (Buf st) - CursorPos (Pane st) < Z.of_nat n ->
     Echo (fst r) = ED_FrameSetEchoS ED_ECHOMSGMODE ED_STR_EchoEndBuf).
Proof.
  induction n as [|n IH]; intros st Total W HG HA; cbv zeta.
  - destruct W as (W0 & W1 & W2 & W3 & W4).
    unfold text_length, capacity, gap_size in W4.
    cbn [DelNextChar_loop fst snd].
    replace (Z.min (Z.of_nat 0) (LastPos (Buf st) - CursorPos (Pane st)))
      with 0 by lia.
    repeat split; try reflexivity; try lia.
    cbn. lia. cbn. lia.
  - cbn [DelNextChar_loop]. cbv zeta.
    replace (CursorPos (Pane (set_Mult st (ED_CmdMult (Cmd st) - 1))))
      with (CursorPos (Pane st)) by reflexivity.
    replace (Buf (set_Mult st (ED_CmdMult (Cmd st) - 1)))
      with (Buf st) by reflexivity.
    pose proof W as (W0 & W1 & W2 & W3 & W4).
    unfold text_length, capacity, gap_size in W4.
    destruct (CursorPos (Pane st) =? LastPos (Buf st)) eqn:E; bool_lia.
    + cbn [fst snd].
      replace (Z.min (Z.of_nat (S n)) (LastPos (Buf st) - CursorPos (Pane st)))
        with 0 by lia.
      repeat split; try reflexivity; try lia; cbn; lia.
    + rewrite (UTF8Len_ascii (rd (Mem (Buf st)) (GapEndP (Buf st))))
        by (apply HA; lia).
      match goal with
      | |- context [DelNextChar_loop n ?s ?t] =>
          specialize (IH s t); set (st2 := s) in *
      end.
      assert (B2 : Buf st2 = set_LastPos (set_GapEndP (Buf st)
                                            (GapEndP (Buf st) + 1))
                                         (LastPos (Buf st) - 1))
        by reflexivity.
      assert (P2 : Pane st2 = Pane st) by reflexivity.
      assert (K2 : KR st2 = KR st) by reflexivity.
      rewrite B2, P2, K2 in IH.
      cbn [set_LastPos set_GapEndP set_store Mem BufEndP GapStartP GapEndP
           LastPos Flags] in IH.
      cbv zeta in IH.
      destruct IH as (I1 & I2 & I3 & I4 & I5 & I6 & I7 & I8 & I9 & I10).
      * unfold buf_wf, text_length, capacity, gap_size.
        cbn [set_LastPos set_GapEndP set_store Mem BufEndP GapStartP GapEndP
             LastPos].
        lia.
      * exact HG.
      * intros j Hj. apply HA. lia.
      * rewrite I1, I2, I3, I4, I5, I6, I7, I8, I9.
        repeat split; try reflexivity; try lia.
        intros H. apply I10. lia.
Qed.

Lemma DelChar_guard_passes (st : ED_State) (k : ED_State -> ED_State) :
  has (Flags (Buf st)) ED_BUFREADONLYFLAG = false ->
  sel_is (Sel st) (Pane st) = false ->
  DelChar_guard st k = k st.
Proof.
  intros HR HS. unfold DelChar_guard, ED_BufferReadOnly. rewrite HR.
  unfold ED_PaneDelSelRange. rewrite HS. reflexivity.
Qed.

Lemma ascii_after_gap (b : ED_BufferRecord) :
  buf_wf b -> ascii_text b ->
  forall j, GapEndP b <= j < BufEndP b -> 0 <= rd (Mem b) j < 128.
Proof.
  intros (W0 & W1 & W2 & W3 & W4) HA j Hj.
  unfold text_length, capacity, gap_size in W4.
  specialize (HA (j - (GapEndP b - GapStartP b)) ltac:(lia)).
  unfold byte_at, ED_BufferPosToPtr in HA. cbv zeta in HA.
  destruct (0 + (j - (GapEndP b - GapStartP b)) >=? GapStartP b) eqn:E;
    bool_lia; [|lia].
  replace (0 + (j - (GapEndP b - GapStartP b)) + (GapEndP b - GapStartP b))
    with j in HA by lia.
  exact HA.
Qed.

Lemma ascii_text_PlaceGap (b : ED_BufferRecord) (Offset : Z) :
  buf_wf b -> ascii_text b -> 0 <= Offset <= LastPos b ->
  ascii_text (ED_BufferPlaceGap b Offset 0).
Proof.
  intros W HA HO.
  assert (HG : 0 <= gap_size b) by (unfold gap_size; destruct W; lia).
  pose proof (PlaceGap_keep b Offset 0 W HO HG) as H. cbv zeta in H.
  destruct H as (_ & _ & _ & HL & HB).
  intros i Hi. rewrite HL in Hi. rewrite HB by exact Hi. apply HA. exact Hi.
Qed.

Lemma DelNextChar_main_ascii (st : ED_State) :
  buf_wf (Buf st) -> ascii_text (Buf st) ->
  0 <= CursorPos (Pane st) <= LastPos (Buf st) ->
  0 <= ED_CmdMult (Cmd st) ->
  let p := CursorPos (Pane st) in
  let k := Z.min (ED_CmdMult (Cmd st)) (LastPos (Buf st) - p) in
  let st' := DelNextChar_main st in
  buf_text (Buf st')
  = firstn (Z.to_nat p) (buf_text (Buf st))
    ++ skipn (Z.to_nat (p + k)) (buf_text (Buf st)) /\
  LastPos (Buf st') = LastPos (Buf st) - k /\
  buf_wf (Buf st') /\
  CursorPos (Pane st') = p /\
  KR st' = KR st /\
  (0 < k -> has (Flags (Buf st')) ED_BUFMODFLAG = true) /\
  (LastPos (Buf st) - p < ED_CmdMult (Cmd st) ->
   echo_shown (Echo st') = ED_STR_EchoEndBuf).
Proof.
  intros W HA HP HM. cbv zeta.
  assert (HG : 0 <= gap_size (Buf st))
    by (unfold gap_size; destruct W; lia).
  pose proof (PlaceGap_text (Buf st) (CursorPos (Pane st)) 0 W HP)
    as (W1 & G1 & _ & L1 & T1).
  pose proof (ascii_text_PlaceGap (Buf st) (CursorPos (Pane st)) W HA HP)
    as A1.
  unfold DelNextChar_main.
  set (b1 := ED_BufferPlaceGap (Buf st) (CursorPos (Pane st)) 0) in *.
  set (st1 := st_PlaceGap st (CursorPos (Pane st)) 0).
  assert (B1 : Buf st1 = b1) by reflexivity.
  assert (P1 : Pane st1 = Pane st) by reflexivity.
  assert (C1 : Cmd st1 = Cmd st) by reflexivity.
  assert (K1 : KR st1 = KR st) by reflexivity.
  pose proof (DelNextChar_loop_ascii (Z.to_nat (ED_CmdMult (Cmd st1))) st1 0)
    as HLoop.
  rewrite B1, P1, C1, K1 in HLoop. rewrite C1.
  specialize (HLoop W1 G1 (ascii_after_gap _ W1 A1)). cbv zeta in HLoop.
  rewrite Z2Nat.id, L1 in HLoop by exact HM.
  set (k := Z.min (ED_CmdMult (Cmd st))
                  (LastPos (Buf st) - CursorPos (Pane st))) in *.
  destruct (DelNextChar_loop (Z.to_nat (ED_CmdMult (Cmd st))) st1 0)
    as [st2 Total].
  cbn [fst snd] in HLoop.
  destruct HLoop as (I1 & I2 & I3 & I4 & I5 & I6 & I7 & I8 & I9 & I10).
  assert (Hk : 0 <= k <= BufEndP b1 - GapEndP b1).
  { destruct W1 as (V0 & V1 & V2 & V3 & V4).
    unfold text_length, capacity, gap_size in V4. unfold k. lia. }
  assert (TXT : forall b',
             Mem b' = Mem (Buf st2) -> BufEndP b' = BufEndP (Buf st2) ->
             GapStartP b' = GapStartP (Buf st2) ->
             GapEndP b' = GapEndP (Buf st2) ->
             LastPos b' = LastPos (Buf st2) ->
             buf_text b'
             = firstn (Z.to_nat (CursorPos (Pane st))) (buf_text (Buf st))
               ++ skipn (Z.to_nat (CursorPos (Pane st) + k))
                        (buf_text (Buf st)) /\
             LastPos b' = LastPos (Buf st) - k /\ buf_wf b').
  { intros b' Q1 Q2 Q3 Q4 Q5.
    pose proof (buf_text_cut b1 b' k W1 Hk ltac:(congruence)
                  ltac:(congruence) ltac:(congruence) ltac:(congruence))
      as X.
    rewrite G1, T1 in X.
    split; [exact X|].
    split; [congruence|].
    destruct W1 as (V0 & V1 & V2 & V3 & V4).
    unfold buf_wf, text_length, capacity, gap_size in *.
    rewrite Q1, Q2, Q3, Q4, Q5, I2, I3, I4, I5, I6. lia. }
  destruct (negb (Total =? 0)) eqn:ET; bool_lia.
  - match goal with
    | |- context [st_AddUndoBlock st2 ?a ?b ?c ?d] =>
        pose proof (st_AddUndoBlock_frame st2 a b c d)
          as (F1 & F2 & F3 & F4 & _);
        set (st3 := st_AddUndoBlock st2 a b c d) in *
    end.
    set (st4 := st_SetModFlag st3).
    pose proof (st_SetBufRowCount_frame st4) as (R1 & R2 & R3 & R4).
    set (st5 := st_SetBufRowCount st4) in *.
    match goal with
    | |- context [st_UpdateOtherPanes ?s ?a ?b] =>
        pose proof (st_UpdateOtherPanes_frame s a b) as (U1 & U2 & U3 & U4);
        set (st7 := st_UpdateOtherPanes s a b) in *
    end.
    rewrite U1, U2, U3, U4.
    cbn [set_Buf Buf Pane KR Echo].
    rewrite R1, R2, R3, R4.
    destruct F1 as (S1 & S2 & S3 & S4 & S5 & _).
    destruct (TXT (ED_BufferUpdateMark (set_Flags (Buf st3)
                     (setf (Flags (Buf st3)) ED_BUFMODFLAG))
                     (CursorPos (Pane st3)) (- Total)))
      as (T2 & T3 & T4); try assumption.
    split; [exact T2|]. split; [exact T3|]. split; [exact T4|].
    split; [cbn; rewrite F2, I8; reflexivity|].
    split; [cbn; rewrite F3; exact I9|].
    split; [intros _; apply has_setf; reflexivity|].
    intros H. change (Echo st4) with (Echo st3). rewrite F4, I10 by lia.
    reflexivity.
  - destruct (TXT (Buf st2)) as (T2 & T3 & T4); try reflexivity.
    split; [exact T2|]. split; [exact T3|]. split; [exact T4|].
    split; [rewrite I8; reflexivity|].
    split; [exact I9|].
    split; [intros H; lia|].
    intros H. rewrite I10 by lia. reflexivity.
Qed.

(** Delete-next-char on a writable buffer of ASCII text, with no selection
    and no negative argument: with the cursor at [p] and a multiplier [n]
    it removes the [n] bytes after the cursor, or all the bytes up to the
    end of the text when fewer are left, and keeps every other byte.  The
    cursor stays, nothing is added to the kill ring, the buffer is marked
    modified when a byte was removed, and "End of buffer" is shown when the
    text ran out before [n] bytes were removed. *)
Theorem del_next_char_removes_chars (st : ED_State) :
  buf_wf (Buf st) -> ascii_text (Buf st) ->
  0 <= CursorPos (Pane st) <= LastPos (Buf st) ->
  has (Flags (Buf st)) ED_BUFREADONLYFLAG = false ->
  sel_is (Sel st) (Pane st) = false ->
  ED_CmdMultNeg (Cmd st) = 0 -> 0 <= ED_CmdMult (Cmd st) ->
  let p := CursorPos (Pane st) in
  let k := Z.min (ED_CmdMult (Cmd st)) (LastPos (Buf st) - p) in
  let st' := ED_CmdDelNextChar st in
  buf_text (Buf st')
  = firstn (Z.to_nat p) (buf_text (Buf st))
    ++ skipn (Z.to_nat (p + k)) (buf_text (Buf st)) /\
  LastPos (Buf st') = LastPos (Buf st) - k /\
  buf_wf (Buf st') /\
  CursorPos (Pane st') = p /\
  KR st' = KR st /\
  (0 < k -> has (Flags (Buf st')) ED_BUFMODFLAG = true) /\
  (LastPos (Buf st) - p < ED_CmdMult (Cmd st) ->
   echo_shown (Echo st') = ED_STR_EchoEndBuf).
Proof.
  intros W HA HP HR HS HN HM.
  unfold ED_CmdDelNextChar. rewrite (DelChar_guard_passes st _ HR HS).
  rewrite HN. replace (negb (0 =? 0)) with false by reflexivity.
  apply DelNextChar_main_ascii; assumption.
Qed.

Lemma del_next_char_removes_chars_witness :
  buf_text (Buf (ED_CmdDelNextChar (editor_at (bytes_of "abc"%string) 1)))
  = bytes_of "ac"%string /\
  buf_text (Buf (ED_CmdDelNextChar
                   (set_Mult (editor_at (bytes_of "abc"%string) 1) 5)))
  = bytes_of "a"%string.
Proof.
  assert (A : forall m, ascii_text
                          (Buf (set_Mult (editor_at (bytes_of "abc"%string) 1)
                                         m))).
  { intros m i Hi. change (0 <= i < 3) in Hi.
    assert (Hc : i = 0 \/ i = 1 \/ i = 2) by lia.
    destruct Hc as [-> | [-> | ->]]; vm_compute; split; congruence. }
  split.
  - destruct (del_next_char_removes_chars
                (editor_at (bytes_of "abc"%string) 1)) as (HT & _).
    + vm_compute. repeat split; congruence.
    + exact (A 1).
    + vm_compute. split; congruence.
    + reflexivity.
    + reflexivity.
    + reflexivity.
    + vm_compute. congruence.
    + rewrite HT. reflexivity.
  - destruct (del_next_char_removes_chars
                (set_Mult (editor_at (bytes_of "abc"%string) 1) 5))
      as (HT & _).
    + vm_compute. repeat split; congruence.
    + exact (A 5).
    + vm_compute. split; congruence.
    + reflexivity.
    + reflexivity.
    + reflexivity.
    + vm_compute. congruence.
    + rewrite HT. reflexivity.
Defined.

Lemma ISMIDUTF8_ascii (C : Z) : 0 <= C < 128 -> ED_BUFFERISMIDUTF8 C = false.
Proof.
  intros H. unfold ED_BUFFERISMIDUTF8, Uns8. rewrite Z.mod_small by lia.
  destruct (Z.land C 192 =? 128) eqn:E; bool_lia; [|reflexivity].
  exfalso.
  assert (T : Z.testbit (Z.land C 192) 7 = Z.testbit 128 7) by (rewrite E; reflexivity).
  rewrite Z.land_spec in T.
  destruct (Z.eq_dec C 0) as [->|N]; [discriminate T|].
  rewrite (Z.bits_above_log2 C 7) in T; [discriminate T | lia |].
  apply Z.log2_lt_pow2; [lia|]. change (2 ^ 7) with 128. lia.
Qed.

Lemma skip_mid_ascii (b : ED_BufferRecord) (CurP Pos : Z) :
  0 <= rd (Mem b) CurP < 128 -> skip_mid b CurP Pos = (CurP, Pos).
Proof.
  intros H. unfold skip_mid.
  replace (Z.to_nat CurP + 1)%nat with (S (Z.to_nat CurP)) by lia.
  cbn [skip_mid_back]. rewrite (ISMIDUTF8_ascii _ H). reflexivity.
Qed.

Lemma ascii_before_gap (b : ED_BufferRecord) :
  buf_wf b -> ascii_text b ->
  forall j, 0 <= j < GapStartP b -> 0 <= rd (Mem b) j < 128.
Proof.
  intros (W0 & W1 & W2 & W3 & W4) HA j Hj.
  unfold text_length, capacity, gap_size in W4.
  specialize (HA j ltac:(lia)).
  unfold byte_at, ED_BufferPosToPtr in HA. cbv zeta in HA.
  destruct (0 + j >=? GapStartP b) eqn:E; bool_lia; [lia|].
  exact HA.
Qed.

Lemma st_RelocateAfterBackDel_frame (st : ED_State) :
  Buf (st_RelocateAfterBackDel st) = Buf st /\
  CursorPos (Pane (st_RelocateAfterBackDel st)) = CursorPos (Pane st) /\
  KR (st_RelocateAfterBackDel st) = KR st /\
  Echo (st_RelocateAfterBackDel st) = Echo st.
Proof.
  unfold st_RelocateAfterBackDel. cbv zeta.
  destruct (ED_PaneFindLoc _ _ _ _ _) as [[a r] c].
  case_if; repeat split.
Qed.

Lemma DelPrevChar_loop_ascii :
  forall (n : nat) (st : ED_State) (Total : Z),
    buf_wf (Buf st) -> GapStartP (Buf st) = CursorPos (Pane st) ->
    (forall j, 0 <= j < GapStartP (Buf st) ->
               0 <= rd (Mem (Buf st)) j < 128) ->
    let k := Z.min (Z.of_nat n) (CursorPos (Pane st)) in
    let r := DelPrevChar_loop n st Total in
    snd r = Total + k /\
    Mem (Buf (fst r)) = Mem (Buf st) /\
    BufEndP (Buf (fst r)) = BufEndP (Buf st) /\
    GapStartP (Buf (fst r)) = GapStartP (Buf st) - k /\
    GapEndP (Buf (fst r)) = GapEndP (Buf st) /\
    LastPos (Buf (fst r)) = LastPos (Buf st) - k /\
    Flags (Buf (fst r)) = Flags (Buf st) /\
    CursorPos (Pane (fst r)) = CursorPos (Pane st) - k /\
    KR (fst r) = KR st /\
    (CursorPos (Pane st) < Z.of_nat n ->
     Echo (fst r) = ED_FrameSetEchoS ED_ECHOMSGMODE ED_STR_EchoBegBuf).
Proof.
  induction n as [|n IH]; intros st Total W HG HA; cbv zeta.
  - destruct W as (W0 & W1 & W2 & W3 & W4).
    cbn [DelPrevChar_loop fst snd].
    replace (Z.min (Z.of_nat 0) (CursorPos (Pane st))) with 0 by lia.
    repeat split; try reflexivity; try lia; cbn; lia.
  - cbn [DelPrevChar_loop]. cbv zeta.
    replace (CursorPos (Pane (set_Mult st (ED_CmdMult (Cmd st) - 1))))
      with (CursorPos (Pane st)) by reflexivity.
    replace (Buf (set_Mult st (ED_CmdMult (Cmd st) - 1)))
      with (Buf st) by reflexivity.
    pose proof W as (W0 & W1 & W2 & W3 & W4).
    unfold text_length, capacity, gap_size in W4.
    destruct (CursorPos (Pane st) =? 0) eqn:E; bool_lia.
    + cbn [fst snd].
      replace (Z.min (Z.of_nat (S n)) (CursorPos (Pane st))) with 0 by lia.
      repeat split; try reflexivity; try lia; cbn; lia.
    + rewrite (skip_mid_ascii (Buf st) (GapStartP (Buf st) - 1) 0)
        by (apply HA; lia).
      replace (1 + (GapStartP (Buf st) - 1 - (GapStartP (Buf st) - 1)))
        with 1 by lia.
      match goal with
      | |- context [DelPrevChar_loop n ?s ?t] =>
          specialize (IH s t); set (st2 := s) in *
      end.
      assert (B2 : Buf st2 = set_LastPos (set_GapStartP (Buf st)
                                            (GapStartP (Buf st) - 1))
                                         (LastPos (Buf st) - 1))
        by reflexivity.
      assert (P2 : CursorPos (Pane st2) = CursorPos (Pane st) - 1)
        by reflexivity.
      assert (K2 : KR st2 = KR st) by reflexivity.
      rewrite B2, P2, K2 in IH.
      cbn [set_LastPos set_GapStartP set_store Mem BufEndP GapStartP GapEndP
           LastPos Flags] in IH.
      cbv zeta in IH.
      destruct IH as (I1 & I2 & I3 & I4 & I5 & I6 & I7 & I8 & I9 & I10).
      * unfold buf_wf, text_length, capacity, gap_size.
        cbn [set_LastPos set_GapStartP set_store Mem BufEndP GapStartP GapEndP
             LastPos].
        lia.
      * lia.
      * intros j Hj. apply HA. lia.
      * rewrite I1, I2, I3, I4, I5, I6, I7, I8, I9.
        repeat split; try reflexivity; try lia.
        intros H. apply I10. lia.
Qed.

Lemma DelPrevChar_main_ascii (st : ED_State) :
  buf_wf (Buf st) -> ascii_text (Buf st) ->
  0 <= CursorPos (Pane st) <= LastPos (Buf st) ->
  0 <= ED_CmdMult (Cmd st) ->
  let p := CursorPos (Pane st) in
  let k := Z.min (ED_CmdMult (Cmd st)) p in
  let st' := DelPrevChar_main st in
  buf_text (Buf st')
  = firstn (Z.to_nat (p - k)) (buf_text (Buf st))
    ++ skipn (Z.to_nat p) (buf_text (Buf st)) /\
  LastPos (Buf st') = LastPos (Buf st) - k /\
  buf_wf (Buf st') /\
  CursorPos (Pane st') = p - k /\
  KR st' = KR st /\
  (0 < k -> has (Flags (Buf st')) ED_BUFMODFLAG = true) /\
  (p < ED_CmdMult (Cmd st) ->
   echo_shown (Echo st') = ED_STR_EchoBegBuf).
Proof.
  intros W HA HP HM. cbv zeta.
  assert (HG : 0 <= gap_size (Buf st))
    by (unfold gap_size; destruct W; lia).
  pose proof (PlaceGap_text (Buf st) (CursorPos (Pane st)) 0 W HP)
    as (W1 & G1 & _ & L1 & T1).
  pose proof (ascii_text_PlaceGap (Buf st) (CursorPos (Pane st)) W HA HP)
    as A1.
  unfold DelPrevChar_main.
  set (b1 := ED_BufferPlaceGap (Buf st) (CursorPos (Pane st)) 0) in *.
  set (st1 := st_PlaceGap st (CursorPos (Pane st)) 0).
  assert (B1 : Buf st1 = b1) by reflexivity.
  assert (P1 : Pane st1 = Pane st) by reflexivity.
  assert (C1 : Cmd st1 = Cmd st) by reflexivity.
  assert (K1 : KR st1 = KR st) by reflexivity.
  pose proof (DelPrevChar_loop_ascii (Z.to_nat (ED_CmdMult (Cmd st1))) st1 0)
    as HLoop.
  rewrite B1, P1, C1, K1 in HLoop. rewrite C1.
  specialize (HLoop W1 G1 (ascii_before_gap _ W1 A1)). cbv zeta in HLoop.
  rewrite Z2Nat.id in HLoop by exact HM.
  set (k := Z.min (ED_CmdMult (Cmd st)) (CursorPos (Pane st))) in *.
  destruct (DelPrevChar_loop (Z.to_nat (ED_CmdMult (Cmd st))) st1 0)
    as [st2 Total].
  cbn [fst snd] in HLoop.
  destruct HLoop as (I1 & I2 & I3 & I4 & I5 & I6 & I7 & I8 & I9 & I10).
  assert (Hk : 0 <= k <= GapStartP b1) by (unfold k; lia).
  assert (TXT : forall b',
             Mem b' = Mem (Buf st2) -> BufEndP b' = BufEndP (Buf st2) ->
             GapStartP b' = GapStartP (Buf st2) ->
             GapEndP b' = GapEndP (Buf st2) ->
             LastPos b' = LastPos (Buf st2) ->
             buf_text b'
             = firstn (Z.to_nat (CursorPos (Pane st) - k)) (buf_text (Buf st))
               ++ skipn (Z.to_nat (CursorPos (Pane st)))
                        (buf_text (Buf st)) /\
             LastPos b' = LastPos (Buf st) - k /\ buf_wf b').
  { intros b' Q1 Q2 Q3 Q4 Q5.
    pose proof (buf_text_cut_back b1 b' k W1 Hk ltac:(congruence)
                  ltac:(congruence) ltac:(congruence) ltac:(congruence))
      as X.
    rewrite G1, T1 in X.
    split; [exact X|].
    split; [congruence|].
    destruct W1 as (V0 & V1 & V2 & V3 & V4).
    unfold buf_wf, text_length, capacity, gap_size in *.
    rewrite Q1, Q2, Q3, Q4, Q5, I2, I3, I4, I5, I6. lia. }
  destruct (negb (Total =? 0)) eqn:ET; bool_lia.
  - match goal with
    | |- context [st_AddUndoBlock st2 ?a ?b ?c ?d] =>
        pose proof (st_AddUndoBlock_frame st2 a b c d)
          as (F1 & F2 & F3 & F4 & _);
        set (st3 := st_AddUndoBlock st2 a b c d) in *
    end.
    set (st4 := st_SetModFlag st3).
    pose proof (st_RelocateAfterBackDel_frame st4) as (D1 & D2 & D3 & D4).
    set (st4' := st_RelocateAfterBackDel st4) in *.
    pose proof (st_SetBufRowCount_frame st4') as (R1 & R2 & R3 & R4).
    set (st5 := st_SetBufRowCount st4') in *.
    match goal with
    | |- context [st_UpdateOtherPanes ?s ?a ?b] =>
        pose proof (st_UpdateOtherPanes_frame s a b) as (U1 & U2 & U3 & U4);
        set (st7 := st_UpdateOtherPanes s a b) in *
    end.
    rewrite U1, U2, U3, U4.
    cbn [set_Buf Buf Pane KR Echo].
    rewrite R1, R2, R3, R4, D1, D2, D3, D4.
    destruct F1 as (S1 & S2 & S3 & S4 & S5 & _).
    destruct (TXT (ED_BufferUpdateMark (set_Flags (Buf st3)
                     (setf (Flags (Buf st3)) ED_BUFMODFLAG))
                     (CursorPos (Pane st3)) (- Total)))
      as (T2 & T3 & T4); try assumption.
    split; [exact T2|]. split; [exact T3|]. split; [exact T4|].
    split; [change (CursorPos (Pane st4)) with (CursorPos (Pane st3));
            rewrite F2, I8; reflexivity|].
    split; [change (KR st4) with (KR st3); rewrite F3; exact I9|].
    split; [intros _; apply has_setf; reflexivity|].
    intros H. change (Echo st4) with (Echo st3). rewrite F4, I10 by lia.
    reflexivity.
  - destruct (TXT (Buf st2)) as (T2 & T3 & T4); try reflexivity.
    split; [exact T2|]. split; [exact T3|]. split; [exact T4|].
    split; [rewrite I8; reflexivity|].
    split; [exact I9|].
    split; [intros H; lia|].
    intros H. rewrite I10 by lia. reflexivity.
Qed.

(** Delete-previous-char on a writable buffer of ASCII text, with no
    selection and no negative argument: with the cursor at [p] and a
    multiplier [n] it removes the [n] bytes before the cursor, or all the
    bytes from the start of the text when fewer are there, keeps every
    other byte and leaves the cursor at the place of the first byte it
    removed.  Nothing is added to the kill ring, the buffer is marked
    modified when a byte was removed, and "Beginning of buffer" is shown
    when the start of the text was reached before [n] bytes were
    removed. *)
Theorem del_prev_char_removes_chars (st : ED_State) :
  buf_wf (Buf st) -> ascii_text (Buf st) ->
  0 <= CursorPos (Pane st) <= LastPos (Buf st) ->
  has (Flags (Buf st)) ED_BUFREADONLYFLAG = false ->
  sel_is (Sel st) (Pane st) = false ->
  ED_CmdMultNeg (Cmd st) = 0 -> 0 <= ED_CmdMult (Cmd st) ->
  let p := CursorPos (Pane st) in
  let k := Z.min (ED_CmdMult (Cmd st)) p in
  let st' := ED_CmdDelPrevChar st in
  buf_text (Buf st')
  = firstn (Z.to_nat (p - k)) (buf_text (Buf st))
    ++ skipn (Z.to_nat p) (buf_text (Buf st)) /\
  LastPos (Buf st') = LastPos (Buf st) - k /\
  buf_wf (Buf st') /\
  CursorPos (Pane st') = p - k /\
  KR st' = KR st /\
  (0 < k -> has (Flags (Buf st')) ED_BUFMODFLAG = true) /\
  (p < ED_CmdMult (Cmd st) -> echo_shown (Echo st') = ED_STR_EchoBegBuf).
Proof.
  intros W HA HP HR HS HN HM.
  unfold ED_CmdDelPrevChar. rewrite (DelChar_guard_passes st _ HR HS).
  rewrite HN. replace (negb (0 =? 0)) with false by reflexivity.
  apply DelPrevChar_main_ascii; assumption.
Qed.

Lemma del_prev_char_removes_chars_witness :
  buf_text (Buf (ED_CmdDelPrevChar (editor_at (bytes_of "abc"%string) 2)))
  = bytes_of "ac"%string /\
  CursorPos (Pane (ED_CmdDelPrevChar (editor_at (bytes_of "abc"%string) 2)))
  = 1.
Proof.
  destruct (del_prev_char_removes_chars
              (editor_at (bytes_of "abc"%string) 2))
    as (HT & _ & _ & HC & _).
  - vm_compute. repeat split; congruence.
  - intros i Hi. change (0 <= i < 3) in Hi.
    assert (Hc : i = 0 \/ i = 1 \/ i = 2) by lia.
    destruct Hc as [-> | [-> | ->]]; vm_compute; split; congruence.
  - vm_compute. split; congruence.
  - reflexivity.
  - reflexivity.
  - reflexivity.
  - vm_compute. congruence.
  - split; [rewrite HT; reflexivity | rewrite HC; reflexivity].
Defined.

(** A negative argument turns delete-next-char round: with
    [ED_CmdMultNeg] set (and the other conditions as before) it removes the
    [n] bytes before the cursor, or all of them when fewer are there, and
    moves the cursor back to the place of the first byte it removed. *)
Theorem del_next_char_negative_argument (st : ED_State) :
  buf_wf (Buf st) -> ascii_text (Buf st) ->
  0 <= CursorPos (Pane st) <= LastPos (Buf st) ->
  has (Flags (Buf st)) ED_BUFREADONLYFLAG = false ->
  sel_is (Sel st) (Pane st) = false ->
  ED_CmdMultNeg (Cmd st) <> 0 -> 0 <= ED_CmdMult (Cmd st) ->
  let p := CursorPos (Pane st) in
  let k := Z.min (ED_CmdMult (Cmd st)) p in
  let st' := ED_CmdDelNextChar st in
  buf_text (Buf st')
  = firstn (Z.to_nat (p - k)) (buf_text (Buf st))
    ++ skipn (Z.to_nat p) (buf_text (Buf st)) /\
  LastPos (Buf st') = LastPos (Buf st) - k /\
  CursorPos (Pane st') = p - k /\
  (p < ED_CmdMult (Cmd st) -> echo_shown (Echo st') = ED_STR_EchoBegBuf).
Proof.
  intros W HA HP HR HS HN HM.
  assert (HR' : has (Flags (Buf (set_MultNeg st 0))) ED_BUFREADONLYFLAG
                = false) by exact HR.
  assert (HS' : sel_is (Sel (set_MultNeg st 0)) (Pane (set_MultNeg st 0))
                = false) by exact HS.
  unfold ED_CmdDelNextChar. rewrite (DelChar_guard_passes st _ HR HS).
  destruct (ED_CmdMultNeg (Cmd st) =? 0) eqn:E; bool_lia; [contradiction|].
  cbn [negb].
  rewrite (DelChar_guard_passes (set_MultNeg st 0) _ HR' HS').
  pose proof (DelPrevChar_main_ascii (set_MultNeg st 0) W HA HP HM) as H.
  cbv zeta in H. destruct H as (H1 & H2 & _ & H4 & _ & _ & H7).
  cbv zeta. split; [exact H1|]. split; [exact H2|]. split; [exact H4|].
  exact H7.
Qed.

Lemma del_next_char_negative_argument_witness :
  buf_text (Buf (ED_CmdDelNextChar
                   (set_MultNeg (editor_at (bytes_of "abc"%string) 2) 1)))
  = bytes_of "ac"%string.
Proof.
  destruct (del_next_char_negative_argument
              (set_MultNeg (editor_at (bytes_of "abc"%string) 2) 1))
    as (HT & _).
  - vm_compute. repeat split; congruence.
  - intros i Hi. change (0 <= i < 3) in Hi.
    assert (Hc : i = 0 \/ i = 1 \/ i = 2) by lia.
    destruct Hc as [-> | [-> | ->]]; vm_compute; split; congruence.
  - vm_compute. split; congruence.
  - reflexivity.
  - reflexivity.
  - vm_compute. congruence.
  - vm_compute. congruence.
  - rewrite HT. reflexivity.
Defined.

(** ** Read-only buffers *)

Lemma DelChar_guard_read_only (st : ED_State) (k : ED_State -> ED_State) :
  has (Flags (Buf st)) ED_BUFREADONLYFLAG = true ->
  DelChar_guard st k = st_SetEchoS st ED_STR_EchoReadOnly.
Proof.
  intros H. unfold DelChar_guard, ED_BufferReadOnly. rewrite H. reflexivity.
Qed.

Lemma DelWord_guard_read_only (st : ED_State) (k : ED_State -> ED_State) :
  has (Flags (Buf st)) ED_BUFREADONLYFLAG = true ->
  DelWord_guard st k = st_SetEchoS st ED_STR_EchoReadOnly.
Proof.
  intros H. unfold DelWord_guard, ED_BufferReadOnly. rewrite H. reflexivity.
Qed.

(** The editing commands do not change a read-only buffer: with
    [ED_BUFREADONLYFLAG] set, each of the four deletions and undo, called
    through the dispatcher, leaves the buffer (text, gap, flags, undo log
    and marks), the pane, the other panes, the kill ring, the undo head and
    the selection as they are and puts "Buffer is read only!" in the echo
    line.  Query-replace answers the same way and starts no replacement
    session. *)
Theorem read_only_buffer_is_not_edited
  (ED_CmdOther : Z -> ED_State -> ED_State) (st : ED_State) (FuncP : Z)
  (c : ED_CmdRecord) (From To : list Z) :
  let call_cmd := call_cmd ED_CmdOther in
  has (Flags (Buf st)) ED_BUFREADONLYFLAG = true ->
  In FuncP [FP_DelNextChar; FP_DelPrevChar; FP_DelNextWord; FP_DelPrevWord;
            FP_Undo] ->
  snd (call_cmd FuncP c st) = st_SetEchoS (set_Cmd st c) ED_STR_EchoReadOnly /\
  Buf (snd (call_cmd FuncP c st)) = Buf st /\
  KR (snd (call_cmd FuncP c st)) = KR st /\
  echo_shown (Echo (snd (call_cmd FuncP c st))) = ED_STR_EchoReadOnly /\
  ED_CmdQueryReplace st From To = st_SetEchoS st ED_STR_EchoReadOnly.
Proof.
  intros call_cmd' H HF. subst call_cmd'.
  assert (H' : has (Flags (Buf (set_Cmd st c))) ED_BUFREADONLYFLAG = true)
    by exact H.
  assert (U : ED_CmdUndo (set_Cmd st c)
              = st_SetEchoS (set_Cmd st c) ED_STR_EchoReadOnly).
  { unfold ED_CmdUndo, ED_BufferReadOnly. rewrite H'. reflexivity. }
  assert (Q : ED_CmdQueryReplace st From To
              = st_SetEchoS st ED_STR_EchoReadOnly).
  { unfold ED_CmdQueryReplace, ED_BufferReadOnly. rewrite H. reflexivity. }
  assert (E : snd (call_cmd ED_CmdOther FuncP c st)
              = st_SetEchoS (set_Cmd st c) ED_STR_EchoReadOnly).
  { unfold call_cmd. cbv zeta. cbn [snd].
    unfold ED_CmdDelNextWord, ED_CmdDelPrevWord, ED_CmdDelNextChar,
      ED_CmdDelPrevChar.
    rewrite !(DelChar_guard_read_only _ _ H'),
      !(DelWord_guard_read_only _ _ H'), U.
    destruct HF as [<- | [<- | [<- | [<- | [<- | []]]]]]; reflexivity. }
  rewrite E. repeat split. exact Q.
Qed.

Lemma read_only_buffer_is_not_edited_witness :
  Buf (snd (call_cmd no_other FP_DelNextChar Cmd_init
              (set_Buf (editor_with [97])
                 (set_Flags (Buf (editor_with [97])) ED_BUFREADONLYFLAG))))
  = set_Flags (Buf (editor_with [97])) ED_BUFREADONLYFLAG.
Proof.
  apply (read_only_buffer_is_not_edited no_other
           (set_Buf (editor_with [97])
              (set_Flags (Buf (editor_with [97])) ED_BUFREADONLYFLAG))
           FP_DelNextChar Cmd_init [] []).
  - reflexivity.
  - left. reflexivity.
Defined.

(** ** The kill ring as a stack *)

Lemma kill_mask_mod (x : Z) : Z.land x ED_KILLRINGMASK = x mod 16.
Proof.
  change ED_KILLRINGMASK with (Z.ones 4). rewrite Z.land_ones by lia.
  reflexivity.
Qed.

Lemma mod16_succ_ne (T : Z) : 0 <= T < 16 -> (T + 1) mod 16 <> T.
Proof.
  intros H. destruct (Z.eq_dec T 15) as [E|N].
  - subst T. vm_compute. discriminate.
  - rewrite Z.mod_small by lia. lia.
Qed.

Lemma rest_end_S (kr : ED_KRRecord) (j : nat) :
  rest_end kr (S j)
  = rest_end kr j + KELen (Elt kr (ring_index kr (S j))).
Proof. reflexivity. Qed.

Lemma shift_elts_length (l : list ED_KERecord) (i OldTopI Delta : Z) :
  length (shift_elts l i OldTopI Delta) = length l.
Proof.
  revert i. induction l as [|e l IH]; intros i; cbn; [reflexivity|].
  f_equal. apply IH.
Qed.

Lemma shift_elts_nth (l : list ED_KERecord) (s OldTopI Delta : Z) (i : nat) :
  (i < length l)%nat ->
  nth i (shift_elts l s OldTopI Delta) KE0
  = if negb (KELen (nth i l KE0) =? 0) && negb (s + Z.of_nat i =? OldTopI)
    then mkKE (KEFlags (nth i l KE0)) (KEPos (nth i l KE0) + Delta)
              (KELen (nth i l KE0))
    else nth i l KE0.
Proof.
  revert s i. induction l as [|e l IH]; intros s [|i] H; cbn [length] in H;
    try lia; cbn [shift_elts nth].
  - replace (s + Z.of_nat 0) with s by lia. reflexivity.
  - rewrite IH by lia.
    replace (s + 1 + Z.of_nat i) with (s + Z.of_nat (S i)) by lia.
    reflexivity.
Qed.

Lemma sub_ext (m m' : list Z) (p p' n : Z) :
  0 <= p -> 0 <= p' -> 0 <= n ->
  p + n <= Z.of_nat (length m) -> p' + n <= Z.of_nat (length m') ->
  (forall k, 0 <= k < n -> rd m' (p' + k) = rd m (p + k)) ->
  sub m' p' n = sub m p n.
Proof.
  intros Hp Hp' Hn Hm Hm' H. apply list_eq_rd.
  - apply Nat2Z.inj. rewrite !length_sub by lia. reflexivity.
  - intros i Hi. rewrite length_sub in Hi by lia.
    rewrite !rd_sub by lia. apply H. exact Hi.
Qed.

Lemma sub_wr_same (m d : list Z) :
  Z.of_nat (length d) <= Z.of_nat (length m) ->
  sub (wr m 0 d) 0 (Z.of_nat (length d)) = d.
Proof.
  intros H. apply list_eq_rd.
  - apply Nat2Z.inj. rewrite length_sub; try lia.
    rewrite length_wr by lia. lia.
  - intros i Hi. rewrite length_sub in Hi by (rewrite ?length_wr; lia).
    rewrite rd_sub, rd_wr by lia.
    replace ((0 <=? 0 + i) && (0 + i <? 0 + Z.of_nat (length d))) with true
      by (symmetry; apply andb_true_intro; split;
          [apply Z.leb_le | apply Z.ltb_lt]; lia).
    f_equal. lia.
Qed.

Lemma WriteTop_spec (kr : ED_KRRecord) (DataP : list Z) :
  0 <= TopI kr < Z.of_nat (length (EltArr kr)) ->
  TopLen kr = Z.of_nat (length (TopP kr)) ->
  let kr' := ED_KillRingWriteTop kr DataP in
  TopI kr' = TopI kr /\ YankI kr' = TopI kr /\
  RestP kr' = RestP kr /\ RestLen kr' = RestLen kr /\
  RestDataLen kr' = RestDataLen kr /\
  length (EltArr kr') = length (EltArr kr) /\
  Elt kr' (TopI kr)
  = mkKE (KEFlags (Elt kr (TopI kr))) 0 (Z.of_nat (length DataP)) /\
  (forall i, 0 <= i -> i <> TopI kr -> Elt kr' i = Elt kr i) /\
  TopLen kr' = Z.of_nat (length (TopP kr')) /\
  Z.of_nat (length DataP) <= TopLen kr' /\
  sub (TopP kr') 0 (Z.of_nat (length DataP)) = DataP.
Proof.
  intros HT HL. cbv zeta. unfold ED_KillRingWriteTop. cbv zeta.
  replace (TopLen (set_YankI kr (TopI kr))) with (TopLen kr) by reflexivity.
  replace (TopP (set_YankI kr (TopI kr))) with (TopP kr) by reflexivity.
  replace (TopI (set_YankI kr (TopI kr))) with (TopI kr) by reflexivity.
  destruct (TopLen kr <? Z.of_nat (length DataP)) eqn:E; bool_lia;
    unfold set_Elt, set_Top, set_YankI, Elt;
    cbn [TopI YankI RestP RestLen RestDataLen EltArr TopP TopLen].
  - assert (LR : Z.of_nat (length (realloc (TopP kr)
                                     (Z.of_nat (length DataP) + ED_KRTOPEXTRA)))
                 = Z.of_nat (length DataP) + ED_KRTOPEXTRA)
      by (apply length_realloc; unfold ED_KRTOPEXTRA; lia).
    assert (LW : length (wr (realloc (TopP kr)
                               (Z.of_nat (length DataP) + ED_KRTOPEXTRA))
                            0 DataP)
                 = length (realloc (TopP kr)
                             (Z.of_nat (length DataP) + ED_KRTOPEXTRA)))
      by (apply length_wr; unfold ED_KRTOPEXTRA in *; lia).
    repeat split; try reflexivity.
    + apply upd_length.
    + apply nth_upd_same. lia.
    + intros i Hi Hne. apply nth_upd_other. lia.
    + rewrite LW, LR. reflexivity.
    + unfold ED_KRTOPEXTRA. lia.
    + apply sub_wr_same. rewrite LR. unfold ED_KRTOPEXTRA. lia.
  - assert (LW : length (wr (TopP kr) 0 DataP) = length (TopP kr))
      by (apply length_wr; lia).
    repeat split; try reflexivity.
    + apply upd_length.
    + apply nth_upd_same. lia.
    + intros i Hi Hne. apply nth_upd_other. lia.
    + rewrite LW. exact HL.
    + lia.
    + apply sub_wr_same. lia.
Qed.

Lemma AdvanceTop_empty (kr : ED_KRRecord) :
  KELen (Elt kr (TopI kr)) = 0 ->
  ED_KillRingAdvanceTop kr = set_YankI kr (TopI kr).
Proof.
  intros H. unfold ED_KillRingAdvanceTop. cbv zeta. rewrite H. reflexivity.
Qed.

Lemma AdvanceTop_spec (kr : ED_KRRecord) :
  kr_ring_wf kr -> KELen (Elt kr (TopI kr)) <> 0 ->
  let kr' := ED_KillRingAdvanceTop kr in
  let T := TopI kr in
  let L := Z.land (T + 1) ED_KILLRINGMASK in
  let len := KELen (Elt kr T) in
  let keep := RestDataLen kr - KELen (Elt kr L) in
  TopI kr' = L /\ TopP kr' = TopP kr /\ TopLen kr' = TopLen kr /\
  length (EltArr kr') = length (EltArr kr) /\
  Elt kr' L = mkKE ED_KETOPFLAG 0 0 /\
  KEPos (Elt kr' T) = 0 /\ KELen (Elt kr' T) = len /\
  (forall i, 0 <= i < 16 -> i <> T -> i <> L ->
     KELen (Elt kr' i) = KELen (Elt kr i) /\
     KEPos (Elt kr' i)
     = if KELen (Elt kr i) =? 0 then KEPos (Elt kr i)
       else KEPos (Elt kr i) + len) /\
  RestLen kr' = Z.of_nat (length (RestP kr')) /\
  RestDataLen kr' = keep + len /\ RestDataLen kr' <= RestLen kr' /\
  (forall k, 0 <= k < len ->
     rd (RestP kr') k = rd (TopP kr) (KEPos (Elt kr T) + k)) /\
  (forall k, 0 <= k < keep -> rd (RestP kr') (len + k) = rd (RestP kr) k).
Proof.
  intros ((P0 & P1 & P2 & P3 & P4) & WL & R1 & R2 & R3 & R4) HN.
  change (Z.to_nat ED_KILLRINGCOUNT) with 16%nat in WL.
  cbv zeta.
  set (T := TopI kr) in *.
  set (L := Z.land (T + 1) ED_KILLRINGMASK).
  set (len := KELen (Elt kr T)) in *.
  assert (HLr : 0 <= L < 16)
    by (unfold L; rewrite kill_mask_mod; apply Z.mod_pos_bound; lia).
  assert (HLT : L <> T).
  { unfold L. rewrite kill_mask_mod. apply mod16_succ_ne. lia. }
  assert (HLi : L = ring_index kr 15).
  { unfold L, ring_index. fold T. rewrite !kill_mask_mod.
    replace (T - Z.of_nat 15) with (T + 1 + (-1) * 16) by lia.
    rewrite Z.mod_add by lia. reflexivity. }
  assert (HLl : 0 <= KELen (Elt kr L) <= RestDataLen kr).
  { destruct (R4 15%nat ltac:(lia)) as [R5 _]. rewrite <- HLi in R5.
    split; [exact R5|]. rewrite R3.
    rewrite (rest_end_S kr 14).
    rewrite <- HLi.
    assert (M : forall j, (j <= 14)%nat -> 0 <= rest_end kr j).
    { induction j as [|j IHj]; intros Hj; cbn [rest_end]; [lia|].
      destruct (R4 (S j) ltac:(lia)) as [R6 _]. specialize (IHj ltac:(lia)).
      lia. }
    specialize (M 14%nat ltac:(lia)). lia. }
  set (keep := RestDataLen kr - KELen (Elt kr L)) in *.
  set (MR := if RestLen kr <? keep + len
             then (realloc (RestP kr) (keep + len + ED_KRRESTEXTRA),
                   keep + len + ED_KRRESTEXTRA)
             else (RestP kr, RestLen kr)).
  set (kr1 := mkKR (TopP kr)
                   (wr (memmove (fst MR) len 0 keep) 0
                       (sub (TopP kr) (KEPos (Elt kr T)) len))
                   (TopLen kr) (snd MR) (keep + len) L T
                   (shift_elts
                      (upd (upd (EltArr kr) (Z.to_nat T)
                              (mkKE (clrf (KEFlags (Elt kr T)) ED_KETOPFLAG)
                                    0 len))
                           (Z.to_nat L) (mkKE ED_KETOPFLAG 0 0))
                      0 T len)).
  assert (EQ : ED_KillRingAdvanceTop kr = kr1).
  { unfold kr1, ED_KillRingAdvanceTop. cbv zeta. fold T. fold len.
    replace (len =? 0) with false by (symmetry; apply Z.eqb_neq; exact HN).
    change (Elt (set_YankI kr T) (Z.land (T + 1) ED_KILLRINGMASK))
      with (Elt kr L).
    cbn [set_YankI RestLen RestDataLen RestP TopP TopLen EltArr YankI TopI
         KELen].
    fold L.
    destruct (KELen (Elt kr L) =? 0) eqn:EL; bool_lia; cbn [negb].
    - assert (EK : keep = RestDataLen kr) by (unfold keep; lia).
      clearbody keep. subst keep. unfold MR.
      destruct (RestLen kr <? RestDataLen kr + len); reflexivity.
    - unfold MR, keep.
      destruct (RestLen kr <? RestDataLen kr - KELen (Elt kr L) + len);
        reflexivity. }
  rewrite EQ. clear EQ.
  assert (HMR : Z.of_nat (length (fst MR)) = snd MR /\ keep + len <= snd MR /\
                forall k, 0 <= k < keep -> rd (fst MR) k = rd (RestP kr) k).
  { unfold MR. destruct (RestLen kr <? keep + len) eqn:ER; bool_lia;
      cbn [fst snd].
    - split; [apply length_realloc; unfold ED_KRRESTEXTRA; lia|].
      split; [unfold ED_KRRESTEXTRA; lia|].
      intros k Hk. apply rd_realloc; unfold ED_KRRESTEXTRA; lia.
    - split; [lia|]. split; [lia|]. reflexivity. }
  destruct HMR as (M1 & M2 & M3).
  assert (LS : Z.of_nat (length (sub (TopP kr) (KEPos (Elt kr T)) len)) = len)
    by (apply length_sub; unfold len; lia).
  assert (LM : length (memmove (fst MR) len 0 keep) = length (fst MR))
    by (apply length_memmove; lia).
  assert (LW : length (RestP kr1) = length (fst MR))
    by (unfold kr1; cbn [RestP];
        rewrite length_wr; [exact LM | lia | rewrite LM; lia]).
  assert (N1 : forall i, 0 <= i < 16 ->
            nth (Z.to_nat i)
                (upd (upd (EltArr kr) (Z.to_nat T)
                          (mkKE (clrf (KEFlags (Elt kr T)) ED_KETOPFLAG) 0 len))
                     (Z.to_nat L) (mkKE ED_KETOPFLAG 0 0)) KE0
            = if i =? L then mkKE ED_KETOPFLAG 0 0
              else if i =? T
                   then mkKE (clrf (KEFlags (Elt kr T)) ED_KETOPFLAG) 0 len
                   else Elt kr i).
  { intros i Hi. destruct (i =? L) eqn:E1; bool_lia.
    - subst i. apply nth_upd_same. rewrite upd_length. lia.
    - rewrite nth_upd_other by lia.
      destruct (i =? T) eqn:E2; bool_lia.
      + subst i. apply nth_upd_same. lia.
      + rewrite nth_upd_other by lia. reflexivity. }
  assert (N2 : forall i, 0 <= i < 16 ->
            Elt kr1 i
            = if i =? L then mkKE ED_KETOPFLAG 0 0
              else if i =? T
                   then mkKE (clrf (KEFlags (Elt kr T)) ED_KETOPFLAG) 0 len
                   else if KELen (Elt kr i) =? 0 then Elt kr i
                        else mkKE (KEFlags (Elt kr i)) (KEPos (Elt kr i) + len)
                                  (KELen (Elt kr i))).
  { intros i Hi. unfold Elt at 1. unfold kr1. cbn [EltArr].
    rewrite shift_elts_nth by (rewrite !upd_length; lia).
    rewrite (N1 i Hi). rewrite Z2Nat.id by lia. rewrite Z.add_0_l.
    destruct (i =? L) eqn:E1; bool_lia; [reflexivity|].
    destruct (i =? T) eqn:E2; bool_lia.
    - cbn [KELen negb]. rewrite andb_false_r. reflexivity.
    - rewrite andb_true_r. destruct (KELen (Elt kr i) =? 0); reflexivity. }
  assert (ET : (T =? L) = false) by (apply Z.eqb_neq; lia).
  split; [reflexivity|]. split; [reflexivity|]. split; [reflexivity|].
  split; [unfold kr1; cbn [EltArr];
          rewrite shift_elts_length, !upd_length; reflexivity|].
  split; [rewrite (N2 L HLr), Z.eqb_refl; reflexivity|].
  split; [rewrite (N2 T ltac:(lia)), ET, Z.eqb_refl; reflexivity|].
  split; [rewrite (N2 T ltac:(lia)), ET, Z.eqb_refl; reflexivity|].
  split.
  { intros i Hi HiT HiL. rewrite (N2 i Hi).
    replace (i =? L) with false by (symmetry; apply Z.eqb_neq; lia).
    replace (i =? T) with false by (symmetry; apply Z.eqb_neq; lia).
    case_if; split; reflexivity. }
  split; [rewrite LW; exact (eq_sym M1)|].
  split; [reflexivity|].
  split; [exact M2|].
  unfold kr1. cbn [RestP].
  split.
  - intros k Hk. rewrite rd_wr by (rewrite ?LM; lia).
    replace ((0 <=? k) && (k <? 0 + Z.of_nat (length
               (sub (TopP kr) (KEPos (Elt kr T)) len)))) with true
      by (symmetry; apply andb_true_intro; split;
          [apply Z.leb_le | apply Z.ltb_lt]; lia).
    rewrite rd_sub by lia. f_equal. lia.
  - intros k Hk. rewrite rd_wr by (rewrite ?LM; lia).
    replace ((0 <=? len + k) && (len + k <? 0 + Z.of_nat (length
               (sub (TopP kr) (KEPos (Elt kr T)) len)))) with false
      by (symmetry; apply andb_false_intro2; apply Z.ltb_ge; lia).
    rewrite rd_memmove by lia.
    replace ((len <=? len + k) && (len + k <? len + keep)) with true
      by (symmetry; apply andb_true_intro; split;
          [apply Z.leb_le | apply Z.ltb_lt]; lia).
    replace (0 + (len + k - len)) with k by lia. apply M3. exact Hk.
Qed.

Lemma ring_index_range (kr : ED_KRRecord) (j : nat) :
  0 <= ring_index kr j < 16.
Proof.
  unfold ring_index. rewrite kill_mask_mod. apply Z.mod_pos_bound. lia.
Qed.

Lemma ring_index_0 (kr : ED_KRRecord) :
  0 <= TopI kr < 16 -> ring_index kr 0 = TopI kr.
Proof.
  intros H. unfold ring_index. rewrite kill_mask_mod.
  replace (TopI kr - Z.of_nat 0) with (TopI kr) by lia.
  apply Z.mod_small. exact H.
Qed.

Lemma ring_index_cases (kr : ED_KRRecord) (j : nat) :
  0 <= TopI kr < 16 -> (1 <= j <= 15)%nat ->
  ring_index kr j <> TopI kr /\
  (ring_index kr j = Z.land (TopI kr + 1) ED_KILLRINGMASK <-> j = 15%nat).
Proof.
  intros HT Hj. unfold ring_index. rewrite !kill_mask_mod.
  Z.to_euclidean_division_equations. lia.
Qed.

Lemma ring_index_push (kr kr' : ED_KRRecord) (j : nat) :
  TopI kr' = Z.land (TopI kr + 1) ED_KILLRINGMASK ->
  ring_index kr' (S j) = ring_index kr j.
Proof.
  intros H. unfold ring_index. rewrite H, !kill_mask_mod.
  rewrite Zminus_mod_idemp_l. f_equal. lia.
Qed.

Lemma ring_index_same (kr kr' : ED_KRRecord) (j : nat) :
  TopI kr' = TopI kr -> ring_index kr' j = ring_index kr j.
Proof. intros H. unfold ring_index. rewrite H. reflexivity. Qed.

Lemma rest_end_mono (kr : ED_KRRecord) :
  kr_ring_wf kr ->
  forall j j', (j <= j' <= 15)%nat -> 0 <= rest_end kr j <= rest_end kr j'.
Proof.
  intros (_ & _ & _ & _ & _ & R4).
  assert (P : forall j, (j <= 15)%nat -> 0 <= rest_end kr j).
  { induction j as [|j IH]; intros Hj; [cbn; lia|].
    rewrite rest_end_S. destruct (R4 (S j) ltac:(lia)) as [H _].
    specialize (IH ltac:(lia)). lia. }
  intros j j' [H1 H2]. split; [apply P; lia|].
  induction j' as [|j' IH].
  - replace j with O by lia. lia.
  - destruct (Nat.eq_dec j (S j')) as [->|N]; [lia|].
    rewrite rest_end_S. destruct (R4 (S j') ltac:(lia)) as [H _].
    specialize (IH ltac:(lia) ltac:(lia)). lia.
Qed.

Lemma length_kill_top (kr : ED_KRRecord) :
  kr_wf kr ->
  Z.of_nat (length (kill_top kr)) = KELen (Elt kr (TopI kr)).
Proof.
  intros (H0 & H1 & H2 & H3 & H4). rewrite kill_top_eq.
  apply length_sub; lia.
Qed.

Lemma sub_0 (m : list Z) (p : Z) : sub m p 0 = [].
Proof. reflexivity. Qed.

Lemma history_cons (kr : ED_KRRecord) :
  kr_history kr
  = kill_entry kr (ring_index kr 0)
    :: map (fun j => kill_entry kr (ring_index kr (S j))) (seq 0 15).
Proof.
  unfold kr_history. change (Z.to_nat ED_KILLRINGCOUNT) with 16%nat.
  cbn [seq map]. reflexivity.
Qed.

Lemma history_firstn (kr : ED_KRRecord) :
  firstn 15 (kr_history kr)
  = map (fun j => kill_entry kr (ring_index kr j)) (seq 0 15).
Proof.
  unfold kr_history. change (Z.to_nat ED_KILLRINGCOUNT) with 16%nat.
  rewrite firstn_map. reflexivity.
Qed.

Lemma history_tl (kr : ED_KRRecord) :
  tl (kr_history kr)
  = map (fun j => kill_entry kr (ring_index kr (S j))) (seq 0 15).
Proof. rewrite history_cons. reflexivity. Qed.

(** A kill that starts a new entry, the top entry holding data. *)
Lemma Push_ring (kr : ED_KRRecord) (DataP : list Z) :
  kr_ring_wf kr -> KELen (Elt kr (TopI kr)) <> 0 ->
  let kr' := ED_KillRingWriteTop (ED_KillRingAdvanceTop kr) DataP in
  kr_ring_wf kr' /\ YankI kr' = TopI kr' /\
  kr_history kr' = DataP :: firstn 15 (kr_history kr).
Proof.
  intros W HN. cbv zeta.
  pose proof (AdvanceTop_spec kr W HN) as A. cbv zeta in A.
  pose proof (rest_end_mono kr W) as MONO.
  destruct W as ((P0 & P1 & P2 & P3 & P4) & WL & R1 & R2 & R3 & R4).
  change (Z.to_nat ED_KILLRINGCOUNT) with 16%nat in WL.
  set (kr1 := ED_KillRingAdvanceTop kr) in *.
  set (T := TopI kr) in *.
  set (L := Z.land (T + 1) ED_KILLRINGMASK) in *.
  set (len := KELen (Elt kr T)) in *.
  set (keep := RestDataLen kr - KELen (Elt kr L)) in *.
  destruct A as (A1 & A2 & A3 & A4 & A5 & A6 & A7 & A8 & A9 & A10 & A11 & A12
                 & A13).
  assert (HT : 0 <= T < 16) by lia.
  assert (HLr : 0 <= L < 16)
    by (unfold L; rewrite kill_mask_mod; apply Z.mod_pos_bound; lia).
  assert (HLT : L <> T).
  { unfold L. rewrite kill_mask_mod. apply mod16_succ_ne. lia. }
  pose proof (WriteTop_spec kr1 DataP) as B. cbv zeta in B.
  assert (BT : 0 <= TopI kr1 < Z.of_nat (length (EltArr kr1)))
    by (rewrite A1, A4, WL; lia).
  assert (BL : TopLen kr1 = Z.of_nat (length (TopP kr1)))
    by (rewrite A3, A2; exact P3).
  specialize (B BT BL).
  set (kr' := ED_KillRingWriteTop kr1 DataP) in *.
  destruct B as (B1 & B2 & B3 & B4 & B5 & B6 & B7 & B8 & B9 & B10 & B11).
  rewrite A1 in B1, B2, B7, B8.
  rewrite A5 in B7. cbn [KEFlags] in B7.
  assert (TI : TopI kr' = Z.land (TopI kr + 1) ED_KILLRINGMASK) by exact B1.
  assert (ELT : Elt kr' T = Elt kr1 T) by (apply B8; lia).
  assert (IDX : forall j, ring_index kr' (S j) = ring_index kr j)
    by (intros j; apply (ring_index_push kr kr' j TI)).
  assert (IDX0 : ring_index kr' 0 = L)
    by (rewrite (ring_index_0 kr'); [exact B1 | rewrite B1; exact HLr]).
  assert (I0 : ring_index kr 0 = T) by (apply ring_index_0; exact HT).
  assert (OLD : forall j, (1 <= j <= 14)%nat ->
            0 <= ring_index kr j < 16 /\ ring_index kr j <> T /\
            ring_index kr j <> L).
  { intros j Hj. split; [apply ring_index_range|].
    destruct (ring_index_cases kr j HT ltac:(lia)) as [C1 C2].
    split; [exact C1|]. intros C. apply C2 in C. lia. }
  assert (L15 : ring_index kr 15 = L).
  { apply (ring_index_cases kr 15 HT ltac:(lia)). reflexivity. }
  assert (KEEP : keep = rest_end kr 14).
  { unfold keep. rewrite R3, (rest_end_S kr 14), L15. lia. }
  assert (KL : 0 <= KELen (Elt kr L))
    by (rewrite <- L15; apply (R4 15%nat); lia).
  assert (K0 : 0 <= keep)
    by (rewrite KEEP; apply (MONO 0%nat 14%nat); lia).
  assert (LENS : forall j, (1 <= j <= 14)%nat ->
            KELen (Elt kr' (ring_index kr j)) = KELen (Elt kr (ring_index kr j))
            /\ KEPos (Elt kr' (ring_index kr j))
               = if KELen (Elt kr (ring_index kr j)) =? 0
                 then KEPos (Elt kr (ring_index kr j))
                 else KEPos (Elt kr (ring_index kr j)) + len).
  { intros j Hj. destruct (OLD j Hj) as (O1 & O2 & O3).
    rewrite (B8 (ring_index kr j)) by lia.
    apply A8; assumption. }
  assert (REND : forall j, (j <= 14)%nat ->
            rest_end kr' (S j) = len + rest_end kr j).
  { induction j as [|j IH]; intros Hj.
    - rewrite rest_end_S, IDX, I0, ELT, A7. cbn [rest_end]. lia.
    - rewrite rest_end_S, IDX, (IH ltac:(lia)), (rest_end_S kr j).
      destruct (LENS (S j) ltac:(lia)) as [-> _]. lia. }
  split; [|split; [rewrite B2, B1; reflexivity|]].
  - (* the layout is kept *)
    split.
    { unfold kr_wf. rewrite B1, B7. cbn [KEPos KELen]. rewrite B6, A4, WL.
      lia. }
    split; [rewrite B6, A4; exact WL|].
    split; [rewrite B4, B3; exact A9|].
    split; [rewrite B5, B4; exact A11|].
    split; [rewrite B5, A10, (REND 14%nat ltac:(lia)), KEEP; lia|].
    intros [|[|j]] Hj; [lia | |].
    + rewrite IDX, I0, ELT, A6, A7. cbn [rest_end Nat.sub]. lia.
    + rewrite IDX. destruct (LENS (S j) ltac:(lia)) as [-> ->].
      destruct (R4 (S j) ltac:(lia)) as [R5 R6].
      split; [exact R5|]. intros HL.
      destruct (KELen (Elt kr (ring_index kr (S j))) =? 0) eqn:EZ; bool_lia;
        [contradiction|].
      rewrite (R6 HL).
      replace (S (S j) - 1)%nat with (S j) by lia.
      replace (S j - 1)%nat with j by lia.
      rewrite (REND j ltac:(lia)). lia.
  - (* the history *)
    rewrite history_cons, history_firstn. f_equal.
    + rewrite IDX0. unfold kill_entry. rewrite B1, Z.eqb_refl, B7.
      cbn [KEPos KELen]. exact B11.
    + apply map_ext_in. intros j Hj. apply in_seq in Hj. rewrite IDX.
      destruct j as [|j].
      * rewrite I0. unfold kill_entry. rewrite B1.
        replace (T =? L) with false by (symmetry; apply Z.eqb_neq; lia).
        rewrite Z.eqb_refl, ELT, A6, A7, B3.
        apply sub_ext; try lia.
        intros k Hk. rewrite Z.add_0_l. apply A12. exact Hk.
      * destruct (OLD (S j) ltac:(lia)) as (O1 & O2 & O3).
        destruct (LENS (S j) ltac:(lia)) as [E1 E2].
        destruct (R4 (S j) ltac:(lia)) as [R5 R6].
        unfold kill_entry. rewrite B1. fold T.
        replace (ring_index kr (S j) =? L) with false
          by (symmetry; apply Z.eqb_neq; lia).
        replace (ring_index kr (S j) =? T) with false
          by (symmetry; apply Z.eqb_neq; lia).
        rewrite E1, E2, B3.
        destruct (KELen (Elt kr (ring_index kr (S j))) =? 0) eqn:EZ; bool_lia.
        -- rewrite EZ. reflexivity.
        -- specialize (R6 EZ).
           replace (S j - 1)%nat with j in R6 by lia.
           pose proof (MONO j (S j) ltac:(lia)) as M1.
           pose proof (MONO (S j) 14%nat ltac:(lia)) as M2.
           rewrite (rest_end_S kr j) in M1, M2.
           apply sub_ext; try lia.
           intros k Hk.
           replace (KEPos (Elt kr (ring_index kr (S j))) + len + k)
             with (len + (KEPos (Elt kr (ring_index kr (S j))) + k)) by lia.
           apply A13. lia.
Qed.

(** A write to the top entry alone. *)
Lemma TopWrite_ring (kr kr' : ED_KRRecord) :
  kr_ring_wf kr -> kr_wf kr' ->
  TopI kr' = TopI kr -> RestP kr' = RestP kr -> RestLen kr' = RestLen kr ->
  RestDataLen kr' = RestDataLen kr ->
  length (EltArr kr') = length (EltArr kr) ->
  (forall i, 0 <= i -> i <> TopI kr -> Elt kr' i = Elt kr i) ->
  kr_ring_wf kr' /\ kr_history kr' = kill_top kr' :: tl (kr_history kr).
Proof.
  intros ((P0 & P1 & P2 & P3 & P4) & WL & R1 & R2 & R3 & R4) W' HT HP HL HD
    HN HE.
  change (Z.to_nat ED_KILLRINGCOUNT) with 16%nat in WL.
  assert (T16 : 0 <= TopI kr < 16) by lia.
  assert (IDX : forall j, ring_index kr' j = ring_index kr j)
    by (intros j; apply ring_index_same; exact HT).
  assert (ELT : forall j, (1 <= j <= 15)%nat ->
            Elt kr' (ring_index kr j) = Elt kr (ring_index kr j)).
  { intros j Hj. pose proof (ring_index_range kr j) as Hr.
    destruct (ring_index_cases kr j T16 Hj) as [C _].
    apply HE; lia. }
  assert (REND : forall j, (j <= 15)%nat -> rest_end kr' j = rest_end kr j).
  { induction j as [|j IH]; intros Hj; [reflexivity|].
    rewrite !rest_end_S, IDX, (ELT (S j)) by lia. rewrite IH by lia.
    reflexivity. }
  split.
  - split; [exact W'|]. split; [rewrite HN; exact WL|].
    split; [rewrite HL, HP; exact R1|].
    split; [rewrite HD, HL; exact R2|].
    split; [rewrite HD, (REND 15%nat) by lia; exact R3|].
    intros j Hj. rewrite IDX, (ELT j Hj), (REND (j - 1)%nat) by lia.
    apply R4. exact Hj.
  - rewrite history_cons, history_tl. f_equal.
    + rewrite IDX, (ring_index_0 kr T16). unfold kill_top. rewrite HT.
      reflexivity.
    + apply map_ext_in. intros j Hj. apply in_seq in Hj.
      rewrite IDX. unfold kill_entry.
      destruct (ring_index_cases kr (S j) T16 ltac:(lia)) as [C _].
      rewrite HT.
      replace (ring_index kr (S j) =? TopI kr) with false
        by (symmetry; apply Z.eqb_neq; exact C).
      rewrite (ELT (S j)) by lia. rewrite HP. reflexivity.
Qed.

Lemma AppendTop_rest (kr : ED_KRRecord) (DataP : list Z) :
  RestLen (ED_KillRingAppendTop kr DataP) = RestLen kr.
Proof.
  unfold ED_KillRingAppendTop. cbv zeta. repeat case_if; reflexivity.
Qed.

Lemma PrependTop_rest (kr : ED_KRRecord) (DataP : list Z) :
  RestLen (ED_KillRingPrependTop kr DataP) = RestLen kr.
Proof.
  unfold ED_KillRingPrependTop. cbv zeta. repeat case_if; reflexivity.
Qed.

Lemma kr_ring_wf_Init : kr_ring_wf ED_KillRingInit.
Proof.
  split; [vm_compute; repeat split; congruence|].
  split; [reflexivity|]. split; [reflexivity|].
  split; [vm_compute; congruence|]. split; [reflexivity|].
  intros j Hj.
  do 16 (destruct j as [|j]; [try lia; vm_compute; split; congruence|]).
  lia.
Qed.

Lemma KillRingAdd_ring (QRPaneP : option Z) (QRLastCmd CmdLastId : Z)
  (kr : ED_KRRecord) (DataP : list Z) (OpForward : bool) :
  kr_ring_wf kr ->
  let kr' := ED_KillRingAdd QRPaneP QRLastCmd CmdLastId kr DataP OpForward in
  let joins :=
    (match QRPaneP with
     | Some _ => QRLastCmd =? ED_QRKillCmd
     | None => false
     end) || (CmdLastId =? ED_KillId) in
  kr_ring_wf kr' /\
  kr_history kr'
  = (if joins then
       (if OpForward then kill_top kr ++ DataP else DataP ++ kill_top kr)
       :: tl (kr_history kr)
     else
       match kill_top kr with
       | [] => DataP :: tl (kr_history kr)
       | _ :: _ => DataP :: firstn 15 (kr_history kr)
       end) /\
  (joins = false -> YankI kr' = TopI kr') /\
  kr_ring_wf ED_KillRingInit /\
  kr_history ED_KillRingInit = repeat [] 16.
Proof.
  intros W. cbv zeta.
  split; [|split; [|split; [|split; [exact kr_ring_wf_Init | reflexivity]]]];
    unfold ED_KillRingAdd;
    destruct ((match QRPaneP with
               | Some _ => QRLastCmd =? ED_QRKillCmd
               | None => false
               end) || (CmdLastId =? ED_KillId)) eqn:EJ.
  - pose proof W as (Wk & _). destruct OpForward.
    + destruct (AppendTop_spec kr DataP Wk) as (A1 & (S1 & S2 & S3 & S4 & S5 & S6) & A3).
      apply (TopWrite_ring kr _ W A3 S1 S3 (AppendTop_rest kr DataP) S4 S5 S6).
    + destruct (PrependTop_spec kr DataP Wk) as (A1 & (S1 & S2 & S3 & S4 & S5 & S6) & A3).
      apply (TopWrite_ring kr _ W A3 S1 S3 (PrependTop_rest kr DataP) S4 S5 S6).
  - destruct (Z.eq_dec (KELen (Elt kr (TopI kr))) 0) as [EZ|NZ].
    + rewrite (AdvanceTop_empty kr EZ).
      pose proof W as ((P0 & P1 & P2 & P3 & P4) & _).
      pose proof (WriteTop_spec (set_YankI kr (TopI kr)) DataP P4 P3) as B.
      cbv zeta in B.
      destruct B as (B1 & B2 & B3 & B4 & B5 & B6 & B7 & B8 & B9 & B10 & B11).
      refine (proj1 (TopWrite_ring kr _ W _ B1 B3 B4 B5 B6 B8)).
      unfold kr_wf. rewrite B1, B7. cbn [KEPos KELen].
      change (TopI (set_YankI kr (TopI kr))) with (TopI kr).
      rewrite B6. change (EltArr (set_YankI kr (TopI kr))) with (EltArr kr).
      lia.
    + apply (Push_ring kr DataP W NZ).
  - pose proof W as (Wk & _). destruct OpForward.
    + destruct (AppendTop_spec kr DataP Wk) as (A1 & (S1 & S2 & S3 & S4 & S5 & S6) & A3).
      rewrite <- A1.
      apply (TopWrite_ring kr _ W A3 S1 S3 (AppendTop_rest kr DataP) S4 S5 S6).
    + destruct (PrependTop_spec kr DataP Wk) as (A1 & (S1 & S2 & S3 & S4 & S5 & S6) & A3).
      rewrite <- A1.
      apply (TopWrite_ring kr _ W A3 S1 S3 (PrependTop_rest kr DataP) S4 S5 S6).
  - pose proof W as (Wk & _).
    pose proof (length_kill_top kr Wk) as LK.
    destruct (Z.eq_dec (KELen (Elt kr (TopI kr))) 0) as [EZ|NZ].
    + destruct (kill_top kr) as [|c t] eqn:EK; [|cbn [length] in LK; lia].
      rewrite (AdvanceTop_empty kr EZ).
      pose proof W as ((P0 & P1 & P2 & P3 & P4) & _).
      pose proof (WriteTop_spec (set_YankI kr (TopI kr)) DataP P4 P3) as B.
      cbv zeta in B.
      destruct B as (B1 & B2 & B3 & B4 & B5 & B6 & B7 & B8 & B9 & B10 & B11).
      assert (W' : kr_wf (ED_KillRingWriteTop (set_YankI kr (TopI kr)) DataP)).
      { unfold kr_wf. rewrite B1, B7. cbn [KEPos KELen].
        change (TopI (set_YankI kr (TopI kr))) with (TopI kr).
        rewrite B6. change (EltArr (set_YankI kr (TopI kr))) with (EltArr kr).
        lia. }
      rewrite (proj2 (TopWrite_ring kr _ W W' B1 B3 B4 B5 B6 B8)).
      f_equal. rewrite kill_top_eq, B1, B7. cbn [KEPos KELen]. exact B11.
    + destruct (kill_top kr) as [|c t] eqn:EK; [cbn [length] in LK; lia|].
      apply (Push_ring kr DataP W NZ).
  - discriminate.
  - intros _.
    destruct (Z.eq_dec (KELen (Elt kr (TopI kr))) 0) as [EZ|NZ].
    + rewrite (AdvanceTop_empty kr EZ).
      pose proof W as ((P0 & P1 & P2 & P3 & P4) & _).
      pose proof (WriteTop_spec (set_YankI kr (TopI kr)) DataP P4 P3) as B.
      cbv zeta in B. destruct B as (B1 & B2 & _). rewrite B1, B2.
      reflexivity.
    + apply (Push_ring kr DataP W NZ).
Qed.

(** The kill ring is a stack of the 16 latest kills.  Its entries, read
    from the top backwards, are laid out as [kr_ring_wf] says, and
    [ED_KillRingAdd] keeps that layout.  A kill that follows a kill (or a
    kill of query-replace) is joined to the top entry, after it when the
    deletion went forward and before it otherwise, and the older entries
    stay.  Any other kill becomes a new top entry: it replaces an empty
    top, and else every entry moves one place back, the oldest of the 16
    is dropped, and the next yank starts at the new top. *)
Theorem kill_ring_is_a_stack (QRPaneP : option Z) (QRLastCmd CmdLastId : Z)
  (kr : ED_KRRecord) (DataP : list Z) (OpForward : bool) :
  kr_ring_wf kr ->
  let kr' := ED_KillRingAdd QRPaneP QRLastCmd CmdLastId kr DataP OpForward in
  let joins :=
    (match QRPaneP with
     | Some _ => QRLastCmd =? ED_QRKillCmd
     | None => false
     end) || (CmdLastId =? ED_KillId) in
  kr_ring_wf kr' /\
  kr_history kr'
  = (if joins then
       (if OpForward then kill_top kr ++ DataP else DataP ++ kill_top kr)
       :: tl (kr_history kr)
     else
       match kill_top kr with
       | [] => DataP :: tl (kr_history kr)
       | _ :: _ => DataP :: firstn 15 (kr_history kr)
       end) /\
  (joins = false -> YankI kr' = TopI kr') /\
  kr_ring_wf ED_KillRingInit /\
  kr_history ED_KillRingInit = repeat [] 16.
Proof.
  exact (KillRingAdd_ring QRPaneP QRLastCmd CmdLastId kr DataP OpForward).
Qed.

Lemma kill_ring_is_a_stack_witness :
  kr_history (ED_KillRingAdd None 0 ED_StartId
                (ED_KillRingAdd None 0 ED_StartId ED_KillRingInit [97]
                                true)
                [98] true)
  = [98] :: [97] :: repeat [] 14.
Proof.
  destruct (kill_ring_is_a_stack None 0 ED_StartId ED_KillRingInit [97] true
              kr_ring_wf_Init) as (W1 & H1 & _).
  destruct (kill_ring_is_a_stack None 0 ED_StartId _ [98] true W1)
    as (_ & H2 & _).
  rewrite H2, H1. reflexivity.
Defined.

Lemma length_kill_entry (kr : ED_KRRecord) (j : nat) :
  kr_ring_wf kr -> (j <= 15)%nat ->
  Z.of_nat (length (kill_entry kr (ring_index kr j)))
  = KELen (Elt kr (ring_index kr j)).
Proof.
  intros W Hj. pose proof (rest_end_mono kr W) as MONO.
  pose proof W as ((P0 & P1 & P2 & P3 & P4) & WL & R1 & R2 & R3 & R4).
  change (Z.to_nat ED_KILLRINGCOUNT) with 16%nat in WL.
  assert (T16 : 0 <= TopI kr < 16) by lia.
  destruct j as [|j].
  - rewrite (ring_index_0 kr T16). apply (length_kill_top kr). apply W.
  - destruct (ring_index_cases kr (S j) T16 ltac:(lia)) as [C _].
    unfold kill_entry.
    replace (ring_index kr (S j) =? TopI kr) with false
      by (symmetry; apply Z.eqb_neq; exact C).
    destruct (R4 (S j) ltac:(lia)) as [R5 R6].
    destruct (Z.eq_dec (KELen (Elt kr (ring_index kr (S j)))) 0) as [EZ|NZ].
    + rewrite EZ. reflexivity.
    + specialize (R6 NZ). replace (S j - 1)%nat with j in R6 by lia.
      pose proof (MONO j (S j) ltac:(lia)) as M1.
      pose proof (MONO (S j) 15%nat ltac:(lia)) as M2.
      rewrite (rest_end_S kr j) in M1, M2.
      apply length_sub; lia.
Qed.

Lemma ring_index_onto (kr : ED_KRRecord) (x : Z) :
  0 <= TopI kr < 16 -> 0 <= x < 16 ->
  exists j, (j <= 15)%nat /\ ring_index kr j = x.
Proof.
  intros HT Hx. exists (Z.to_nat ((TopI kr - x) mod 16)).
  unfold ring_index. rewrite kill_mask_mod.
  pose proof (Z.mod_pos_bound (TopI kr - x) 16 ltac:(lia)) as B.
  split; [lia|]. rewrite Z2Nat.id by lia.
  Z.to_euclidean_division_equations. lia.
Qed.

Lemma history_all_empty (kr : ED_KRRecord) :
  kr_ring_wf kr ->
  (Forall (fun k => k = []) (kr_history kr)
   <-> forall x, 0 <= x < 16 -> KELen (Elt kr x) = 0).
Proof.
  intros W.
  assert (T16 : 0 <= TopI kr < 16).
  { destruct W as ((_ & _ & _ & _ & P4) & WL & _).
    change (Z.to_nat ED_KILLRINGCOUNT) with 16%nat in WL. lia. }
  rewrite Forall_forall. unfold kr_history.
  change (Z.to_nat ED_KILLRINGCOUNT) with 16%nat.
  split.
  - intros H x Hx. destruct (ring_index_onto kr x T16 Hx) as (j & Hj & <-).
    rewrite <- (length_kill_entry kr j W Hj).
    rewrite (H (kill_entry kr (ring_index kr j))); [reflexivity|].
    apply in_map_iff. exists j. split; [reflexivity|]. apply in_seq. lia.
  - intros H k Hk. apply in_map_iff in Hk. destruct Hk as (j & <- & Hj).
    apply in_seq in Hj.
    pose proof (length_kill_entry kr j W ltac:(lia)) as LK.
    rewrite (H _ (ring_index_range kr j)) in LK.
    destruct (kill_entry kr (ring_index kr j)); [reflexivity|].
    cbn [length] in LK. lia.
Qed.

Lemma nth_map_seq {A : Type} (f : nat -> A) (k n : nat) (d : A) :
  (n < k)%nat -> nth n (map f (seq 0 k)) d = f n.
Proof.
  intros H.
  rewrite (nth_indep _ d (f O)) by (rewrite length_map, length_seq; exact H).
  rewrite map_nth, seq_nth by exact H. reflexivity.
Qed.

Lemma set_YankI_same (kr : ED_KRRecord) : set_YankI kr (YankI kr) = kr.
Proof. destruct kr; reflexivity. Qed.

Lemma KillRingYank_loop_spec (Inc : Z) :
  forall (fuel : nat) (kr : ED_KRRecord) (Count : Z),
    0 <= YankI kr < 16 ->
    exists m,
      0 <= m <= Z.min (Z.of_nat fuel) (Z.max 0 (ED_KILLRINGCOUNT - Count)) /\
      KillRingYank_loop fuel kr Inc Count
      = set_YankI kr (Z.land (YankI kr - Inc * m) ED_KILLRINGMASK) /\
      (forall i, 0 <= i < m ->
         KELen (Elt kr (Z.land (YankI kr - Inc * i) ED_KILLRINGMASK)) = 0) /\
      (m = Z.min (Z.of_nat fuel) (Z.max 0 (ED_KILLRINGCOUNT - Count)) \/
       KELen (Elt kr (Z.land (YankI kr - Inc * m) ED_KILLRINGMASK)) <> 0).
Proof.
  assert (Z0 : forall kr, 0 <= YankI kr < 16 ->
            Z.land (YankI kr - Inc * 0) ED_KILLRINGMASK = YankI kr).
  { intros kr H. rewrite kill_mask_mod, Z.mul_0_r, Z.sub_0_r.
    apply Z.mod_small. exact H. }
  induction fuel as [|f IH]; intros kr Count HY; cbn [KillRingYank_loop].
  - exists 0. rewrite (Z0 kr HY). split; [lia|].
    split; [symmetry; apply set_YankI_same|].
    split; [intros i Hi; lia|]. left. lia.
  - destruct (Count <? ED_KILLRINGCOUNT) eqn:EC; bool_lia; cbn [andb].
    + destruct (KELen (Elt kr (YankI kr)) =? 0) eqn:EL; bool_lia.
      * assert (HY2 : 0 <= Z.land (YankI kr - Inc) ED_KILLRINGMASK < 16)
          by (rewrite kill_mask_mod; apply Z.mod_pos_bound; lia).
        destruct (IH (set_YankI kr (Z.land (YankI kr - Inc) ED_KILLRINGMASK))
                     (Count + 1) HY2) as (m & M1 & M2 & M3 & M4).
        change (YankI (set_YankI kr (Z.land (YankI kr - Inc) ED_KILLRINGMASK)))
          with (Z.land (YankI kr - Inc) ED_KILLRINGMASK) in *.
        change (Elt (set_YankI kr (Z.land (YankI kr - Inc) ED_KILLRINGMASK)))
          with (Elt kr) in *.
        assert (STEP : forall i,
                  Z.land (Z.land (YankI kr - Inc) ED_KILLRINGMASK - Inc * i)
                         ED_KILLRINGMASK
                  = Z.land (YankI kr - Inc * (i + 1)) ED_KILLRINGMASK).
        { intros i. rewrite !kill_mask_mod, Zminus_mod_idemp_l.
          f_equal. lia. }
        exists (m + 1). split; [unfold ED_KILLRINGCOUNT in *; lia|].
        split; [rewrite M2, STEP; reflexivity|].
        split.
        { intros i Hi. destruct (Z.eq_dec i 0) as [->|Ni].
          - rewrite (Z0 kr HY). exact EL.
          - replace i with (i - 1 + 1) by lia. rewrite <- STEP.
            apply M3. lia. }
        destruct M4 as [M4 | M4].
        -- left. unfold ED_KILLRINGCOUNT in *. lia.
        -- right. rewrite <- STEP. exact M4.
      * exists 0. rewrite (Z0 kr HY).
        split; [unfold ED_KILLRINGCOUNT in *; lia|].
        split; [symmetry; apply set_YankI_same|].
        split; [intros i Hi; lia|]. right. exact EL.
    + exists 0. rewrite (Z0 kr HY).
      split; [unfold ED_KILLRINGCOUNT in *; lia|].
      split; [symmetry; apply set_YankI_same|].
      split; [intros i Hi; lia|]. left. unfold ED_KILLRINGCOUNT in *. lia.
Qed.

Lemma yank_slots_onto (Y Inc x : Z) :
  0 <= Y < 16 -> 0 <= x < 16 -> Inc = 1 \/ Inc = -1 ->
  exists i, 0 <= i <= 15 /\ Z.land (Y - Inc * i) ED_KILLRINGMASK = x.
Proof.
  intros HY Hx [-> | ->].
  - exists ((Y - x) mod 16). rewrite kill_mask_mod.
    Z.to_euclidean_division_equations. lia.
  - exists ((x - Y) mod 16). rewrite kill_mask_mod.
    Z.to_euclidean_division_equations. lia.
Qed.

(** Yanking.  Without [LoopForData], [ED_KillRingYank] steps [PopCount]
    entries back from [YankI] (from the top, after a kill) and hands out
    the entry there: the kill that many places down the stack.  With
    [LoopForData] it goes on past empty entries, in the direction of
    [PopCount]; it hands out the same entry when that one holds data, and
    hands out nothing only when the whole ring is empty. *)
Theorem yank_reads_the_stack (kr : ED_KRRecord) (PopCount : Z) :
  kr_ring_wf kr ->
  (YankI kr = TopI kr ->
   snd (ED_KillRingYank kr PopCount false)
   = nth (Z.to_nat (PopCount mod 16)) (kr_history kr) []) /\
  (KELen (Elt kr (Z.land (YankI kr - PopCount) ED_KILLRINGMASK)) <> 0 ->
   ED_KillRingYank kr PopCount true = ED_KillRingYank kr PopCount false) /\
  (snd (ED_KillRingYank kr PopCount true) = []
   <-> Forall (fun k => k = []) (kr_history kr)).
Proof.
  intros W.
  assert (T16 : 0 <= TopI kr < 16).
  { destruct W as ((_ & _ & _ & _ & P4) & WL & _).
    change (Z.to_nat ED_KILLRINGCOUNT) with 16%nat in WL. lia. }
  set (Y0 := Z.land (YankI kr - PopCount) ED_KILLRINGMASK).
  assert (HY0 : 0 <= Y0 < 16)
    by (unfold Y0; rewrite kill_mask_mod; apply Z.mod_pos_bound; lia).
  set (Inc := if PopCount <? 0 then -1 else 1).
  assert (HInc : Inc = 1 \/ Inc = -1)
    by (unfold Inc; destruct (PopCount <? 0); [right | left]; reflexivity).
  destruct (KillRingYank_loop_spec Inc (Z.to_nat ED_KILLRINGCOUNT)
              (set_YankI kr Y0) 1 HY0) as (m & M1 & M2 & M3 & M4).
  change (YankI (set_YankI kr Y0)) with Y0 in *.
  change (Elt (set_YankI kr Y0)) with (Elt kr) in *.
  change (Z.of_nat (Z.to_nat ED_KILLRINGCOUNT)) with 16 in M1, M4.
  change ED_KILLRINGCOUNT with 16 in M1, M4.
  assert (LOOP : ED_KillRingYank kr PopCount true
                 = (set_YankI kr (Z.land (Y0 - Inc * m) ED_KILLRINGMASK),
                    kill_entry kr (Z.land (Y0 - Inc * m) ED_KILLRINGMASK))).
  { unfold ED_KillRingYank. cbv zeta. fold Y0. fold Inc. rewrite M2.
    reflexivity. }
  assert (PLAIN : ED_KillRingYank kr PopCount false
                  = (set_YankI kr Y0, kill_entry kr Y0))
    by reflexivity.
  split; [|split].
  - intros HY. rewrite PLAIN. cbn [snd]. unfold kr_history.
    change (Z.to_nat ED_KILLRINGCOUNT) with 16%nat.
    pose proof (Z.mod_pos_bound PopCount 16 ltac:(lia)) as B.
    rewrite nth_map_seq by lia. f_equal.
    unfold Y0, ring_index. rewrite HY, !kill_mask_mod, Z2Nat.id by lia.
    rewrite Zminus_mod_idemp_r. reflexivity.
  - intros HL. rewrite LOOP, PLAIN.
    assert (m = 0).
    { destruct (Z.eq_dec m 0) as [E|N]; [exact E|].
      exfalso. apply HL. fold Y0.
      pose proof (M3 0 ltac:(lia)) as H0.
      rewrite kill_mask_mod, Z.mul_0_r, Z.sub_0_r, Z.mod_small in H0
        by exact HY0.
      exact H0. }
    subst m. rewrite kill_mask_mod, Z.mul_0_r, Z.sub_0_r, Z.mod_small
      by exact HY0.
    reflexivity.
  - rewrite LOOP. cbn [snd]. rewrite (history_all_empty kr W).
    set (Ym := Z.land (Y0 - Inc * m) ED_KILLRINGMASK) in *.
    assert (HYm : 0 <= Ym < 16)
      by (unfold Ym; rewrite kill_mask_mod; apply Z.mod_pos_bound; lia).
    destruct (ring_index_onto kr Ym T16 HYm) as (j & Hj & Ej).
    pose proof (length_kill_entry kr j W Hj) as LK. rewrite Ej in LK.
    split.
    + intros HE. rewrite HE in LK. cbn [length] in LK.
      destruct M4 as [M4 | M4]; [|lia].
      intros x Hx. destruct (yank_slots_onto Y0 Inc x HY0 Hx HInc)
        as (i & Hi & <-).
      destruct (Z.eq_dec i m) as [->|Ni]; [fold Ym; lia|].
      apply M3. lia.
    + intros H. rewrite (H Ym HYm) in LK.
      destruct (kill_entry kr Ym); [reflexivity | cbn [length] in LK; lia].
Qed.

Lemma yank_reads_the_stack_witness :
  snd (ED_KillRingYank
         (ED_KillRingAdd None 0 ED_StartId
            (ED_KillRingAdd None 0 ED_StartId ED_KillRingInit [97] true)
            [98] true) 1 false) = [97].
Proof.
  destruct (KillRingAdd_ring None 0 ED_StartId ED_KillRingInit [97] true
              kr_ring_wf_Init) as (W1 & _).
  destruct (KillRingAdd_ring None 0 ED_StartId _ [98] true W1)
    as (W2 & _).
  destruct (yank_reads_the_stack _ 1 W2) as (H & _).
  rewrite H; reflexivity.
Defined.

(** ** The value of a numeric argument *)

Section PrefixValue.

Variable binds : list ED_FBindRecord.
Variable XKeysymToString : Z -> option (list Z).
Variable call : Z -> ED_State -> ED_State.

Lemma feed_keys_app (k1 k2 : list (Z * Z)) :
  forall (st : ED_State),
    feed_keys binds XKeysymToString call st (k1 ++ k2)
    = let '(st1, o1) := feed_keys binds XKeysymToString call st k1 in
      let '(st2, o2) := feed_keys binds XKeysymToString call st1 k2 in
      (st2, o1 ++ o2).
Proof.
  induction k1 as [|[s m] k1 IH]; intros st; cbn [app feed_keys].
  - destruct (feed_keys binds XKeysymToString call st k2) as [st2 o2].
    reflexivity.
  - destruct (ED_FrameCommandMatch binds XKeysymToString call st s m)
      as [st1 o].
    rewrite IH.
    destruct (feed_keys binds XKeysymToString call st1 k1) as [st2 o1].
    destruct (feed_keys binds XKeysymToString call st2 k2) as [st3 o2].
    reflexivity.
Qed.

Lemma feed_digits :
  forall (dks : list (Z * Z)) (ds : list Z) (st : ED_State),
    in_prefix (Cmd st) ->
    Forall2 (fun k d => 0 <= d <= 9 /\
                        snd (key_bytes (fst k) (snd k)) = 48 + d) dks ds ->
    ED_CmdMultDigit (Cmd st) + Z.of_nat (length ds) <= 5 ->
    exists c' e',
      feed_keys binds XKeysymToString call st dks
      = (set_Echo (set_Cmd st c') e', repeat Pending (length ds)) /\
      in_prefix c' /\
      ED_CmdMult c' = decimal (ED_CmdMult (Cmd st)) ds /\
      ED_CmdMultDigit c'
      = ED_CmdMultDigit (Cmd st) + Z.of_nat (length ds) /\
      ED_CmdMultNeg c' = ED_CmdMultNeg (Cmd st) /\
      ED_CmdMultCmd c' = ED_CmdMultCmd (Cmd st) /\
      ED_CmdBindP c' = ED_CmdBindP (Cmd st) /\
      ED_CmdLastId c' = ED_CmdLastId (Cmd st).
Proof.
  intros dks ds st Hp HF. revert st Hp.
  induction HF as [|[S M] d dks ds (Hd & HC) HF IH]; intros st Hp HD.
  - exists (Cmd st), (Echo st). cbn [feed_keys length repeat].
    split; [destruct st; reflexivity|].
    cbn [length] in HD. unfold decimal. cbn [fold_left].
    repeat split; try lia; apply Hp.
  - cbn [fst snd length] in *.
    destruct (key_bytes_cons S M) as (b0 & bs & HK).
    assert (HC' : 48 <= snd (key_bytes S M) <= 57) by lia.
    pose proof (key_bytes_digit S M b0 bs HK HC') as Hb.
    destruct (key_bytes S M) as [bytes C] eqn:EK.
    cbn [fst snd] in *. subst bytes.
    cbn [feed_keys].
    rewrite (FCM_prefix_digit binds XKeysymToString call st S M b0 bs C Hp EK
               Hb HC').
    cbv zeta.
    replace (ED_CmdMultDigit (Cmd st) + 1 >? 5) with false
      by (symmetry; rewrite Z.gtb_ltb; apply Z.ltb_ge; lia).
    match goal with
    | |- context [feed_keys _ _ _ ?s1 dks] =>
        destruct (IH s1) as (c' & e' & E & I1 & I2 & I3 & I4 & I5 & I6 & I7)
    end.
    + destruct Hp as (Hin & Hlen & Hstr & Hml).
      unfold in_prefix. cbn [Cmd set_Echo set_Cmd]. cmd_fields.
      rewrite length_app, Nat2Z.inj_add. cbn [length].
      repeat split; (assumption || reflexivity || lia).
    + cbn [Cmd set_Echo set_Cmd]. cmd_fields. lia.
    + rewrite E. exists c', e'.
      cbn [Cmd set_Echo set_Cmd] in *. cmd_fields.
      split; [reflexivity|]. split; [exact I1|].
      split; [rewrite I2; unfold decimal; cbn [fold_left];
              replace (C - 48) with d by lia; reflexivity|].
      repeat split; (assumption || lia).
Qed.

(** The digits of an argument and then the key of a command: what
    [called keys v neg] says of the whole key sequence. *)
Lemma prefix_then_command (st : ED_State) (dks : list (Z * Z)) (ds : list Z)
  (kc : Z * Z) (b0 : Z) (bs : list Z) (C : Z) (B : ED_FBindRecord)
  (rest : list ED_FBindRecord) :
  in_prefix (Cmd st) -> ED_CmdBindP (Cmd st) = binds ->
  0 < ED_CmdMultDigit (Cmd st) + Z.of_nat (length ds) <= 5 ->
  Forall2 (fun k d => 0 <= d <= 9 /\
                      snd (key_bytes (fst k) (snd k)) = 48 + d) dks ds ->
  key_bytes (fst kc) (snd kc) = (b0 :: bs, C) ->
  ED_EXTCOMMANDCODE <= Int8 b0 <= ED_HYPCOMMANDCODE -> ~ (48 <= C <= 57) ->
  ED_FRegFindBinding binds (cstr (b0 :: bs)) = (B :: rest, 99) ->
  exists cc e,
    feed_keys binds XKeysymToString call st (dks ++ [kc])
    = (FrameCommandMatch_after_call
         (call (snd B) (set_Echo (set_Cmd st cc) e)),
       repeat Pending (length ds)
       ++ [Invoked (snd B) (decimal (ED_CmdMult (Cmd st)) ds)
                   (ED_CmdMultNeg (Cmd st)) (ED_CmdMultCmd (Cmd st))]) /\
    ED_CmdMult cc = decimal (ED_CmdMult (Cmd st)) ds /\
    ED_CmdMultNeg cc = ED_CmdMultNeg (Cmd st) /\
    ED_CmdMultCmd cc = ED_CmdMultCmd (Cmd st) /\
    ED_CmdThisId cc = snd B /\
    ED_CmdLastId cc = ED_CmdLastId (Cmd st).
Proof.
  intros Hp HB HD0 Hd HK Hb HC HF.
  rewrite feed_keys_app.
  destruct (feed_digits dks ds st Hp Hd ltac:(lia))
    as (c' & e' & E & I1 & I2 & I3 & I4 & I5 & I6 & I7).
  rewrite E. destruct kc as [S M]. cbn [fst snd] in HK. cbn [feed_keys].
  set (st1 := set_Echo (set_Cmd st c') e').
  assert (P1 : in_prefix (Cmd st1)) by exact I1.
  rewrite (FCM_prefix_end binds XKeysymToString call st1 S M b0 bs C P1 HK
             ltac:(unfold ED_EXTCOMMANDCODE, ED_HYPCOMMANDCODE in Hb; lia) HC).
  cbv zeta.
  replace ((ED_HYPCOMMANDCODE <? Int8 b0) || (Int8 b0 <? ED_EXTCOMMANDCODE))
    with false
    by (symmetry; apply orb_false_iff; split; apply Z.ltb_ge; lia).
  change (Cmd st1) with c'. rewrite I6, HB, HF.
  replace (99 =? 1) with false by reflexivity.
  replace (99 <? 0) with false by reflexivity.
  assert (PV : prefix_value c' = decimal (ED_CmdMult (Cmd st)) ds).
  { unfold prefix_value. rewrite I3.
    replace (ED_CmdMultDigit (Cmd st) + Z.of_nat (length ds) =? 0) with false
      by (symmetry; apply Z.eqb_neq; lia).
    exact I2. }
  eexists. eexists.
  split; [|split; [|split; [|split; [|split]]]].
  - unfold st1 at 1. cbn [snd].
    rewrite PV, I4, I5. reflexivity.
  - reflexivity.
  - reflexivity.
  - reflexivity.
  - reflexivity.
  - cbn [set_CmdIds set_CmdLen set_CmdBindP]. cmd_fields. exact I7.
Qed.


(** A numeric argument typed as [C-u] and one to five digits, or [C-u],
    a minus sign and the digits, and then the key of a bound command:
    every key but the last leaves the dispatcher waiting, and the function
    bound to the last key is called on a state whose multiplier is the
    decimal value of the digits and whose sign flag is set exactly when the
    minus sign was typed.  After [M-d] the digits go on from [d].  The
    keys are told by their bytes: the digits may come with any modifiers,
    and the other keys with any of Shift, Lock and NumLock. *)
Theorem numeric_argument_is_decimal (st : ED_State) (ku km kc : Z * Z)
  (dks : list (Z * Z)) (ds : list Z) (b0 : Z) (bs : list Z) (C : Z)
  (B : ED_FBindRecord) (rest : list ED_FBindRecord) :
  ED_CmdLen (Cmd st) = 0 ->
  fst (key_bytes (fst ku) (snd ku)) = [ED_CTLCOMMANDCODE; 117] ->
  fst (key_bytes (fst km) (snd km)) = [45] ->
  Forall2 (fun k d => 0 <= d <= 9 /\
                      snd (key_bytes (fst k) (snd k)) = 48 + d) dks ds ->
  ds <> [] -> (length ds <= 5)%nat ->
  key_bytes (fst kc) (snd kc) = (b0 :: bs, C) ->
  ED_EXTCOMMANDCODE <= Int8 b0 <= ED_HYPCOMMANDCODE -> ~ (48 <= C <= 57) ->
  ED_FRegFindBinding binds (cstr (b0 :: bs)) = (B :: rest, 99) ->
  let called (keys : list (Z * Z)) (v neg : Z) :=
    exists cc e,
      feed_keys binds XKeysymToString call st keys
      = (FrameCommandMatch_after_call
           (call (snd B) (set_Echo (set_Cmd st cc) e)),
         repeat Pending (length keys - 1) ++ [Invoked (snd B) v neg 1]) /\
      ED_CmdMult cc = v /\ ED_CmdMultNeg cc = neg /\ ED_CmdMultCmd cc = 1 /\
      ED_CmdThisId cc = snd B /\ ED_CmdLastId cc = ED_CmdLastId (Cmd st) in
  called (ku :: dks ++ [kc]) (decimal 0 ds) 0 /\
  called (ku :: km :: dks ++ [kc]) (decimal 0 ds) 1 /\
  (forall kd d, 0 <= d <= 9 ->
     fst (key_bytes (fst kd) (snd kd)) = [ED_ALTCOMMANDCODE; 48 + d] ->
     (length ds <= 4)%nat ->
     called (kd :: dks ++ [kc]) (decimal d ds) 0).
Proof.
  intros HL Hu Hm Hd Hne Hlen HK Hb HC HF called. subst called.
  assert (LD : length dks = length ds) by (eapply Forall2_length; exact Hd).
  assert (LP : 0 < Z.of_nat (length ds))
    by (destruct ds; [contradiction | cbn [length]; lia]).
  destruct ku as [Su Mu]. destruct km as [Sm Mm]. cbn [fst snd] in Hu, Hm.
  split; [|split].
  - cbn [feed_keys].
    rewrite (FCM_start_C_u binds XKeysymToString call st Su Mu HL Hu).
    match goal with
    | |- context [feed_keys _ _ _ ?s1 _] => set (st1 := s1)
    end.
    destruct (prefix_then_command st1 dks ds kc b0 bs C B rest)
      as (cc & e & E & F1 & F2 & F3 & F4 & F5); try assumption.
    + unfold in_prefix. cbn. repeat split; (reflexivity || discriminate).
    + reflexivity.
    + change (ED_CmdMultDigit (Cmd st1)) with 0. lia.
    + rewrite E. exists cc, e.
      split; [|repeat split; assumption].
      cbn [length]. rewrite length_app, LD. cbn [length].
      replace (S (length ds + 1) - 1)%nat with (S (length ds)) by lia.
      reflexivity.
  - cbn [feed_keys].
    rewrite (FCM_start_C_u binds XKeysymToString call st Su Mu HL Hu).
    match goal with
    | |- context [ED_FrameCommandMatch _ _ _ ?s1 Sm Mm] => set (st1 := s1)
    end.
    rewrite (FCM_prefix_minus binds XKeysymToString call st1 Sm Mm 45 []
               ltac:(unfold in_prefix; cbn; repeat split;
                     (reflexivity || discriminate))
               Hm eq_refl).
    cbv zeta. change (ED_CmdMultDigit (Cmd st1)) with 0.
    change (ED_CmdMultNeg (Cmd st1)) with 0. cbn [Z.eqb andb].
    match goal with
    | |- context [feed_keys _ _ _ ?s1 _] => set (st2 := s1)
    end.
    destruct (prefix_then_command st2 dks ds kc b0 bs C B rest)
      as (cc & e & E & F1 & F2 & F3 & F4 & F5); try assumption.
    + unfold in_prefix. cbn. repeat split; (reflexivity || discriminate).
    + reflexivity.
    + change (ED_CmdMultDigit (Cmd st2)) with 0. lia.
    + rewrite E. exists cc, e.
      split; [|repeat split; assumption].
      cbn [length]. rewrite length_app, LD. cbn [length].
      replace (S (S (length ds + 1)) - 1)%nat with (S (S (length ds)))
        by lia.
      reflexivity.
  - intros [Sd Md] d Hd0 Hkd Hlen4. cbn [fst snd] in Hkd. cbn [feed_keys].
    rewrite (FCM_start_M_digit binds XKeysymToString call st Sd Md d HL Hd0
               Hkd).
    match goal with
    | |- context [feed_keys _ _ _ ?s1 _] => set (st1 := s1)
    end.
    destruct (prefix_then_command st1 dks ds kc b0 bs C B rest)
      as (cc & e & E & F1 & F2 & F3 & F4 & F5); try assumption.
    + unfold in_prefix. cbn. repeat split; (reflexivity || discriminate).
    + reflexivity.
    + change (ED_CmdMultDigit (Cmd st1)) with 1. lia.
    + rewrite E. exists cc, e.
      split; [|repeat split; assumption].
      cbn [length]. rewrite length_app, LD. cbn [length].
      replace (S (length ds + 1) - 1)%nat with (S (length ds)) by lia.
      reflexivity.
Qed.

End PrefixValue.

Lemma numeric_argument_is_decimal_witness :
  let call FuncP st := snd (call_cmd no_other FuncP (Cmd st) st) in
  let st := editor_at (bytes_of "abcde"%string) 5 in
  exists cc e,
    feed_keys ED_FirstBindP_init no_names call st
      ((117, ControlMask + LockMask)
       :: ([(49, 16); (50, Mod1Mask)] ++ [key_Backspace]))
    = (FrameCommandMatch_after_call
         (call FP_DelPrevChar (set_Echo (set_Cmd st cc) e)),
       [Pending; Pending; Pending; Invoked FP_DelPrevChar 12 0 1]) /\
    ED_CmdMult cc = 12 /\ ED_CmdMultNeg cc = 0 /\ ED_CmdMultCmd cc = 1.
Proof.
  intros call st.
  destruct (numeric_argument_is_decimal ED_FirstBindP_init no_names call st
              (117, ControlMask + LockMask) key_minus key_Backspace
              [(49, 16); (50, Mod1Mask)] [1; 2] 0x15 [0x08] 8
              (0x15 :: 0x08 :: nil, FP_DelPrevChar)
              (tl ED_FirstBindP_init))
    as ((cc & e & E & F1 & F2 & F3 & _) & _).
  - reflexivity.
  - reflexivity.
  - reflexivity.
  - repeat constructor; lia.
  - discriminate.
  - cbn. lia.
  - reflexivity.
  - vm_compute. split; congruence.
  - lia.
  - reflexivity.
  - exists cc, e. split; [exact E|]. repeat split; assumption.
Defined.

(** ** The line around a position *)

Lemma LineEndPos_loop_ascii (BufP : ED_BufferRecord) :
  ascii_text BufP ->
  forall (fuel : nat) (CurPos : Z),
    0 <= CurPos <= LastPos BufP ->
    LastPos BufP - CurPos < Z.of_nat fuel ->
    exists e,
      LineEndPos_loop fuel BufP CurPos = Some e /\
      CurPos <= e <= LastPos BufP /\
      (forall i, CurPos <= i < e -> byte_at BufP i <> 10) /\
      (e < LastPos BufP -> byte_at BufP e = 10).
Proof.
  intros HA. induction fuel as [|f IH]; intros CurPos HC HF; [lia|].
  cbn [LineEndPos_loop]. cbv zeta.
  destruct (CurPos <? LastPos BufP) eqn:E; bool_lia.
  - destruct (byte_at BufP CurPos =? 10) eqn:EN; bool_lia.
    + exists CurPos. split; [reflexivity|]. split; [lia|].
      split; [intros i Hi; lia | intros _; exact EN].
    + rewrite UTF8Len_ascii by (apply HA; lia).
      destruct (IH (CurPos + 1) ltac:(lia) ltac:(lia))
        as (e & E1 & E2 & E3 & E4).
      exists e. split; [exact E1|]. split; [lia|].
      split; [|exact E4].
      intros i Hi. destruct (Z.eq_dec i CurPos) as [->|N]; [exact EN|].
      apply E3. lia.
  - exists CurPos. split; [reflexivity|]. split; [lia|].
    split; intros; lia.
Qed.

Lemma LineStartPos_loop_ascii (BufP : ED_BufferRecord) :
  ascii_text BufP ->
  forall (fuel : nat) (CurPos : Z),
    0 < CurPos <= LastPos BufP -> CurPos <= Z.of_nat fuel ->
    let s := LineStartPos_loop fuel BufP CurPos in
    0 <= s <= CurPos /\
    (forall i, s <= i < CurPos -> byte_at BufP i <> 10) /\
    (0 < s -> byte_at BufP (s - 1) = 10).
Proof.
  intros HA. induction fuel as [|f IH]; intros CurPos HC HF; [lia|].
  cbn [LineStartPos_loop]. cbv zeta.
  assert (HB : 0 <= byte_at BufP (CurPos - 1) < 128) by (apply HA; lia).
  rewrite (skip_mid_ascii BufP (ED_BufferPosToPtr BufP (CurPos - 1))
             (CurPos - 1) HB).
  fold (byte_at BufP (CurPos - 1)).
  destruct (byte_at BufP (CurPos - 1) =? 10) eqn:EN; bool_lia.
  - replace (CurPos - 1 + 1) with CurPos by lia.
    split; [lia|]. split; [intros i Hi; lia | intros _; exact EN].
  - destruct (CurPos - 1 =? 0) eqn:EZ; bool_lia; cbn [negb].
    + split; [lia|]. split; [|intros; lia].
      intros i Hi. replace i with (CurPos - 1) by lia. exact EN.
    + specialize (IH (CurPos - 1) ltac:(lia) ltac:(lia)). cbv zeta in IH.
      destruct IH as (I1 & I2 & I3).
      split; [lia|]. split; [|exact I3].
      intros i Hi. destruct (Z.eq_dec i (CurPos - 1)) as [->|N]; [exact EN|].
      apply I2. lia.
Qed.

(** The hard line around a position of an ASCII text.
    [ED_BufferGetLineEndPos] answers the place of the first newline at or
    after [OldPos], or the end of the text when there is none;
    [ED_BufferGetLineStartPos] answers the place just after the last
    newline before [OldPos], or 0 when there is none.  Between the two
    answers there is no newline. *)
Theorem line_start_and_end (BufP : ED_BufferRecord) (OldPos : Z)
  (fuel : nat) :
  ascii_text BufP -> 0 <= OldPos <= LastPos BufP ->
  LastPos BufP - OldPos < Z.of_nat fuel ->
  let s := ED_BufferGetLineStartPos BufP OldPos in
  exists e,
    ED_BufferGetLineEndPos fuel BufP OldPos = Some e /\
    0 <= s <= OldPos /\ OldPos <= e <= LastPos BufP /\
    (forall i, s <= i < e -> byte_at BufP i <> 10) /\
    (0 < s -> byte_at BufP (s - 1) = 10) /\
    (e < LastPos BufP -> byte_at BufP e = 10).
Proof.
  intros HA HO HF. cbv zeta.
  assert (S : let s := ED_BufferGetLineStartPos BufP OldPos in
              0 <= s <= OldPos /\
              (forall i, s <= i < OldPos -> byte_at BufP i <> 10) /\
              (0 < s -> byte_at BufP (s - 1) = 10)).
  { cbv zeta. unfold ED_BufferGetLineStartPos.
    destruct (OldPos =? 0) eqn:E0; bool_lia.
    - split; [lia|]. split; intros; lia.
    - apply (LineStartPos_loop_ascii BufP HA); lia. }
  cbv zeta in S. destruct S as (S1 & S2 & S3).
  assert (E : exists e,
             ED_BufferGetLineEndPos fuel BufP OldPos = Some e /\
             OldPos <= e <= LastPos BufP /\
             (forall i, OldPos <= i < e -> byte_at BufP i <> 10) /\
             (e < LastPos BufP -> byte_at BufP e = 10)).
  { unfold ED_BufferGetLineEndPos.
    destruct (OldPos =? LastPos BufP) eqn:EL; bool_lia.
    - exists (LastPos BufP). split; [reflexivity|]. split; [lia|].
      split; intros; lia.
    - apply (LineEndPos_loop_ascii BufP HA); lia. }
  destruct E as (e & E1 & E2 & E3 & E4).
  exists e. split; [exact E1|]. split; [exact S1|]. split; [exact E2|].
  split; [|split; [exact S3 | exact E4]].
  intros i Hi. destruct (Z_lt_le_dec i OldPos) as [L|L];
    [apply S2 | apply E3]; lia.
Qed.

Lemma line_start_and_end_witness :
  exists e,
    ED_BufferGetLineEndPos 10
      (Buf (editor_with (bytes_of "ab"%string ++ [10]
                         ++ bytes_of "cd"%string))) 4 = Some e /\
    4 <= e <= 5.
Proof.
  destruct (line_start_and_end
              (Buf (editor_with (bytes_of "ab"%string ++ [10]
                                 ++ bytes_of "cd"%string))) 4 10)
    as (e & E1 & _ & E2 & _).
  - intros i Hi. change (0 <= i < 5) in Hi.
    assert (Hc : i = 0 \/ i = 1 \/ i = 2 \/ i = 3 \/ i = 4) by lia.
    destruct Hc as [-> | [-> | [-> | [-> | ->]]]]; vm_compute; split;
      congruence.
  - vm_compute. split; congruence.
  - vm_compute. reflexivity.
  - exists e. split; [exact E1 | exact E2].
Defined.

(** ** Moving the cursor by characters *)

Lemma DoShiftSel_frame (st : ED_State) :
  Pane (ED_AuxCmdDoShiftSel st) = Pane st /\
  Cmd (ED_AuxCmdDoShiftSel st) = Cmd st /\
  Mem (Buf (ED_AuxCmdDoShiftSel st)) = Mem (Buf st) /\
  BufEndP (Buf (ED_AuxCmdDoShiftSel st)) = BufEndP (Buf st) /\
  GapStartP (Buf (ED_AuxCmdDoShiftSel st)) = GapStartP (Buf st) /\
  GapEndP (Buf (ED_AuxCmdDoShiftSel st)) = GapEndP (Buf st) /\
  LastPos (Buf (ED_AuxCmdDoShiftSel st)) = LastPos (Buf st).
Proof.
  unfold ED_AuxCmdDoShiftSel, ED_BufferPushMark. cbv zeta.
  repeat case_if; repeat split; reflexivity.
Qed.

Lemma byte_at_store (b b' : ED_BufferRecord) (i : Z) :
  Mem b' = Mem b -> GapStartP b' = GapStartP b -> GapEndP b' = GapEndP b ->
  byte_at b' i = byte_at b i.
Proof.
  intros H1 H2 H3. unfold byte_at, ED_BufferPosToPtr. rewrite H1, H2, H3.
  reflexivity.
Qed.

Lemma st_AfterCursorMove_frame (st : ED_State) :
  CursorPos (Pane (st_AfterCursorMove st)) = CursorPos (Pane st) /\
  Buf (st_AfterCursorMove st) = Buf st /\
  Echo (st_AfterCursorMove st) = Echo st.
Proof.
  unfold st_AfterCursorMove. cbv zeta.
  destruct (ED_PaneFindLoc _ _ _ _ _) as [[s r] c].
  match goal with
  | |- context [ED_PaneMoveAfterCursorMove ?p ?b ?sel ?x ?y] =>
      pose proof (MoveAfterCursorMove_CursorPos p b sel x y) as H;
      destruct (ED_PaneMoveAfterCursorMove p b sel x y) as [p' sel']
  end.
  cbn [fst] in H. repeat split. exact H.
Qed.

Lemma GoNextChar_loop_ascii :
  forall (n : nat) (st : ED_State),
    ascii_text (Buf st) ->
    0 <= CursorPos (Pane st) <= LastPos (Buf st) ->
    CursorPos (Pane (GoNextChar_loop n st))
    = Z.min (CursorPos (Pane st) + Z.of_nat n) (LastPos (Buf st)) /\
    Buf (GoNextChar_loop n st) = Buf st /\
    Echo (GoNextChar_loop n st) = Echo st.
Proof.
  induction n as [|n IH]; intros st HA HP; cbn [GoNextChar_loop]; cbv zeta.
  - split; [cbn; lia|]. split; reflexivity.
  - replace (CursorPos (Pane (set_Mult st (ED_CmdMult (Cmd st) - 1))))
      with (CursorPos (Pane st)) by reflexivity.
    replace (Buf (set_Mult st (ED_CmdMult (Cmd st) - 1))) with (Buf st)
      by reflexivity.
    destruct (CursorPos (Pane st) <? LastPos (Buf st)) eqn:E; bool_lia.
    + rewrite UTF8Len_ascii by (apply HA; lia).
      match goal with
      | |- context [GoNextChar_loop n ?s] =>
          destruct (IH s) as (I1 & I2 & I3); [exact HA | cbn; lia |]
      end.
      rewrite I1, I2, I3. split; [cbn; lia|]. split; reflexivity.
    + split; [cbn; lia|]. split; reflexivity.
Qed.

Lemma GoPrevChar_loop_ascii :
  forall (n : nat) (st : ED_State),
    ascii_text (Buf st) ->
    0 <= CursorPos (Pane st) <= LastPos (Buf st) ->
    CursorPos (Pane (GoPrevChar_loop n st))
    = Z.max (CursorPos (Pane st) - Z.of_nat n) 0 /\
    Buf (GoPrevChar_loop n st) = Buf st /\
    Echo (GoPrevChar_loop n st) = Echo st.
Proof.
  induction n as [|n IH]; intros st HA HP; cbn [GoPrevChar_loop]; cbv zeta.
  - split; [cbn; lia|]. split; reflexivity.
  - replace (CursorPos (Pane (set_Mult st (ED_CmdMult (Cmd st) - 1))))
      with (CursorPos (Pane st)) by reflexivity.
    replace (Buf (set_Mult st (ED_CmdMult (Cmd st) - 1))) with (Buf st)
      by reflexivity.
    destruct (CursorPos (Pane st) =? 0) eqn:E; bool_lia; cbn [negb].
    + split; [cbn; lia|]. split; reflexivity.
    + rewrite skip_mid_ascii
        by (apply (HA (CursorPos (Pane st) - 1)); lia).
      match goal with
      | |- context [GoPrevChar_loop n ?s] =>
          destruct (IH s) as (I1 & I2 & I3); [exact HA | cbn; lia |]
      end.
      rewrite I1, I2, I3. split; [cbn; lia|]. split; reflexivity.
Qed.

Lemma GoNextChar_main_ascii (st : ED_State) :
  ascii_text (Buf st) -> 0 <= CursorPos (Pane st) <= LastPos (Buf st) ->
  0 <= ED_CmdMult (Cmd st) ->
  CursorPos (Pane (GoNextChar_main st))
  = Z.min (CursorPos (Pane st) + ED_CmdMult (Cmd st)) (LastPos (Buf st)) /\
  buf_text (Buf (GoNextChar_main st)) = buf_text (Buf st) /\
  LastPos (Buf (GoNextChar_main st)) = LastPos (Buf st) /\
  (CursorPos (Pane st) = LastPos (Buf st) ->
   GoNextChar_main st = st_SetEchoS st ED_STR_EchoEndBuf).
Proof.
  intros HA HP HM. unfold GoNextChar_main.
  destruct (CursorPos (Pane st) >=? LastPos (Buf st)) eqn:E; bool_lia.
  - split; [cbn; lia|]. repeat split.
  - destruct (DoShiftSel_frame st) as (D1 & D2 & D3 & D4 & D5 & D6 & D7).
    set (st1 := ED_AuxCmdDoShiftSel st) in *.
    assert (HA1 : ascii_text (Buf st1)).
    { intros i Hi. rewrite D7 in Hi.
      rewrite (byte_at_store (Buf st) (Buf st1) i D3 D5 D6). apply HA.
      exact Hi. }
    destruct (GoNextChar_loop_ascii (Z.to_nat (ED_CmdMult (Cmd st1))) st1 HA1)
      as (G1 & G2 & G3); [rewrite D1, D7; exact HP|].
    destruct (st_AfterCursorMove_frame
                (GoNextChar_loop (Z.to_nat (ED_CmdMult (Cmd st1))) st1))
      as (F1 & F2 & F3).
    rewrite F1, F2, G1, G2, D1, D2, D7, Z2Nat.id by exact HM.
    split; [reflexivity|].
    split; [unfold buf_text; rewrite D3, D4, D5, D6; reflexivity|].
    split; [reflexivity | intros H; lia].
Qed.

Lemma GoPrevChar_main_ascii (st : ED_State) :
  ascii_text (Buf st) -> 0 <= CursorPos (Pane st) <= LastPos (Buf st) ->
  0 <= ED_CmdMult (Cmd st) ->
  CursorPos (Pane (GoPrevChar_main st))
  = Z.max (CursorPos (Pane st) - ED_CmdMult (Cmd st)) 0 /\
  buf_text (Buf (GoPrevChar_main st)) = buf_text (Buf st) /\
  LastPos (Buf (GoPrevChar_main st)) = LastPos (Buf st) /\
  (CursorPos (Pane st) = 0 ->
   GoPrevChar_main st = st_SetEchoS st ED_STR_EchoBegBuf).
Proof.
  intros HA HP HM. unfold GoPrevChar_main.
  destruct (CursorPos (Pane st) =? 0) eqn:E; bool_lia.
  - split; [cbn; lia|]. repeat split.
  - destruct (DoShiftSel_frame st) as (D1 & D2 & D3 & D4 & D5 & D6 & D7).
    set (st1 := ED_AuxCmdDoShiftSel st) in *.
    assert (HA1 : ascii_text (Buf st1)).
    { intros i Hi. rewrite D7 in Hi.
      rewrite (byte_at_store (Buf st) (Buf st1) i D3 D5 D6). apply HA.
      exact Hi. }
    destruct (GoPrevChar_loop_ascii (Z.to_nat (ED_CmdMult (Cmd st1))) st1 HA1)
      as (G1 & G2 & G3); [rewrite D1, D7; exact HP|].
    destruct (st_AfterCursorMove_frame
                (GoPrevChar_loop (Z.to_nat (ED_CmdMult (Cmd st1))) st1))
      as (F1 & F2 & F3).
    rewrite F1, F2, G1, G2, D1, D2, D7, Z2Nat.id by exact HM.
    split; [reflexivity|].
    split; [unfold buf_text; rewrite D3, D4, D5, D6; reflexivity|].
    split; [reflexivity | intros H; lia].
Qed.

(** Forward-char and backward-char on an ASCII text, with the cursor at
    [p] and a multiplier [n]: the cursor goes to [p + n], stopping at the
    end of the text, or to [p - n], stopping at 0; the text is not
    changed.  A command that starts at the edge it moves towards only
    shows "End of buffer" or "Beginning of buffer".  A negative argument
    ([ED_CmdMultNeg] set) makes each command move as the other does. *)
Theorem cursor_moves_by_chars (st : ED_State) :
  ascii_text (Buf st) -> 0 <= CursorPos (Pane st) <= LastPos (Buf st) ->
  0 <= ED_CmdMult (Cmd st) ->
  let p := CursorPos (Pane st) in
  let n := ED_CmdMult (Cmd st) in
  let fwd := if ED_CmdMultNeg (Cmd st) =? 0 then ED_CmdGoNextChar st
             else ED_CmdGoPrevChar st in
  let bwd := if ED_CmdMultNeg (Cmd st) =? 0 then ED_CmdGoPrevChar st
             else ED_CmdGoNextChar st in
  CursorPos (Pane fwd) = Z.min (p + n) (LastPos (Buf st)) /\
  CursorPos (Pane bwd) = Z.max (p - n) 0 /\
  buf_text (Buf fwd) = buf_text (Buf st) /\
  buf_text (Buf bwd) = buf_text (Buf st) /\
  (p = LastPos (Buf st) -> echo_shown (Echo fwd) = ED_STR_EchoEndBuf) /\
  (p = 0 -> echo_shown (Echo bwd) = ED_STR_EchoBegBuf).
Proof.
  intros HA HP HM. cbv zeta.
  unfold ED_CmdGoNextChar, ED_CmdGoPrevChar.
  destruct (ED_CmdMultNeg (Cmd st) =? 0) eqn:E; cbn [negb].
  - destruct (GoNextChar_main_ascii st HA HP HM) as (N1 & N2 & N3 & N4).
    destruct (GoPrevChar_main_ascii st HA HP HM) as (P1 & P2 & P3 & P4).
    split; [exact N1|]. split; [exact P1|]. split; [exact N2|].
    split; [exact P2|].
    split; intros H; [rewrite (N4 H) | rewrite (P4 H)]; reflexivity.
  - destruct (GoNextChar_main_ascii (set_MultNeg st 0) HA HP HM)
      as (N1 & N2 & N3 & N4).
    destruct (GoPrevChar_main_ascii (set_MultNeg st 0) HA HP HM)
      as (P1 & P2 & P3 & P4).
    split; [exact N1|]. split; [exact P1|]. split; [exact N2|].
    split; [exact P2|].
    split; intros H; [rewrite (N4 H) | rewrite (P4 H)]; reflexivity.
Qed.

Lemma cursor_moves_by_chars_witness :
  let st := set_Mult (editor_at (bytes_of "abc"%string) 1) 5 in
  CursorPos (Pane (if ED_CmdMultNeg (Cmd st) =? 0 then ED_CmdGoNextChar st
                   else ED_CmdGoPrevChar st))
  = 3.
Proof.
  intro st.
  destruct (cursor_moves_by_chars st) as (H & _).
  - intros i Hi. change (0 <= i < 3) in Hi.
    assert (Hc : i = 0 \/ i = 1 \/ i = 2) by lia.
    destruct Hc as [-> | [-> | ->]]; vm_compute; split; congruence.
  - vm_compute. split; congruence.
  - vm_compute. congruence.
  - rewrite H. reflexivity.
Defined.

(** ** The panes of an edited buffer *)

Lemma same_pane_refl (P : ED_PaneRecord) : same_pane P P.
Proof. repeat split. Qed.

Lemma same_pane_trans (P1 P2 P3 : ED_PaneRecord) :
  same_pane P1 P2 -> same_pane P2 P3 -> same_pane P1 P3.
Proof. unfold same_pane. intuition congruence. Qed.

Lemma same_pane_UpdateStartPos (P : ED_PaneRecord) (BufP : ED_BufferRecord)
  (O : Z) : same_pane P (ED_PaneUpdateStartPos P BufP O).
Proof.
  unfold ED_PaneUpdateStartPos.
  repeat (case_if; try apply same_pane_refl);
    match goal with |- context [StartPos_back ?f ?b ?o ?c ?p ?n] =>
      destruct (StartPos_back f b o c p n) as [[x y] z] end;
    repeat split.
Qed.

Lemma same_pane_MoveForCursor (P : ED_PaneRecord) (BufP : ED_BufferRecord)
  (sel : ED_SelRecord) (S R : Z) :
  same_pane P (fst (ED_PaneMoveForCursor P BufP sel S R)).
Proof.
  unfold ED_PaneMoveForCursor. cbv zeta.
  match goal with |- context [ED_BufferGetPosMinusRows ?b ?p ?r ?m] =>
    destruct (ED_BufferGetPosMinusRows b p r m) as [x y] end.
  repeat split.
Qed.

Lemma same_pane_MoveAfterCursorMove (P : ED_PaneRecord)
  (BufP : ED_BufferRecord) (sel : ED_SelRecord) (S D : Z) :
  same_pane P (fst (ED_PaneMoveAfterCursorMove P BufP sel S D)).
Proof.
  unfold ED_PaneMoveAfterCursorMove.
  repeat case_if; try apply same_pane_refl; apply same_pane_MoveForCursor.
Qed.

Lemma same_pane_OtherPane_PanePos (BufP : ED_BufferRecord) (p N : Z)
  (P : ED_PaneRecord) : same_pane P (OtherPane_PanePos BufP p N P).
Proof.
  unfold OtherPane_PanePos. case_if; [|apply same_pane_refl]. cbv zeta.
  match goal with |- context [ED_PaneFindLoc ?a ?b ?c ?d ?e] =>
    destruct (ED_PaneFindLoc a b c d e) as [[x y] z] end.
  match goal with |- context [ED_PaneUpdateStartPos ?a ?b ?c] =>
    pose proof (same_pane_UpdateStartPos a b c) as H;
    destruct (ED_PaneUpdateStartPos a b c) end.
  exact H.
Qed.

Lemma OtherPane_CursorPos_any (BufP : ED_BufferRecord) (p N : Z)
  (Q : ED_PaneRecord) (sel : ED_SelRecord) :
  same_pane Q (fst (OtherPane_CursorPos BufP p N Q sel)) /\
  CursorPos (fst (OtherPane_CursorPos BufP p N Q sel))
  = (if CursorPos Q >? p then Z.max p (CursorPos Q + N) else CursorPos Q).
Proof.
  unfold OtherPane_CursorPos.
  destruct (CursorPos Q >? p) eqn:E; [|split; [apply same_pane_refl|reflexivity]].
  cbv zeta.
  match goal with |- context [ED_PaneFindLoc ?a ?b ?c ?d ?e] =>
    destruct (ED_PaneFindLoc a b c d e) as [[x y] z] end.
  split.
  - eapply same_pane_trans; [|apply same_pane_MoveAfterCursorMove].
    repeat split.
  - rewrite MoveAfterCursorMove_CursorPos.
    cbn [set_CursorRC set_CursorPos CursorPos].
    destruct (CursorPos Q + N <? p) eqn:E2; bool_lia; lia.
Qed.

Lemma UpdateOtherPane_follows (PaneP : ED_PaneRecord) (BufP : ED_BufferRecord)
  (p N : Z) (F : ED_PaneRecord) (sel : ED_SelRecord) (LRC LRn : Z) :
  PaneAddr F <> PaneAddr PaneP -> PaneBufP F = PaneBufP PaneP ->
  pane_follows_edit PaneP p N F
    (fst (fst (fst (UpdateOtherPane BufP p N F sel LRC LRn)))).
Proof.
  intros HA HB. unfold pane_follows_edit.
  replace (PaneAddr F =? PaneAddr PaneP) with false
    by (symmetry; apply Z.eqb_neq; exact HA).
  rewrite HB, Z.eqb_refl. cbn [negb andb].
  unfold UpdateOtherPane.
  destruct (N =? 0) eqn:EN; cbn [negb fst];
    [split; [apply same_pane_refl | reflexivity]|].
  match goal with
  | |- context [let '(a, b) := ?c in _] =>
      match c with
      | (if _ then _ else _) => destruct c as [LRC' cnt]
      end
  end.
  set (Q := OtherPane_PanePos BufP p N (set_BufRowCount F cnt)).
  assert (SQ : same_pane F Q).
  { eapply same_pane_trans; [|apply same_pane_OtherPane_PanePos].
    repeat split. }
  assert (CQ : CursorPos Q = CursorPos F).
  { unfold Q. rewrite (proj1 (OtherPane_PanePos_CursorPos BufP p N _)).
    reflexivity. }
  destruct (OtherPane_CursorPos_any BufP p N Q sel) as [S2 C2].
  destruct (OtherPane_CursorPos BufP p N Q sel) as [F' sel'].
  cbn [fst] in *. rewrite CQ in C2.
  split; [eapply same_pane_trans; [exact SQ | exact S2] | exact C2].
Qed.

Lemma UpdateOtherPanes_loop_follows (PaneP : ED_PaneRecord)
  (BufP : ED_BufferRecord) (p N : Z) :
  forall (panes : list ED_PaneRecord) (sel : ED_SelRecord) (LRC LRn : Z),
    Forall2 (pane_follows_edit PaneP p N) panes
            (fst (UpdateOtherPanes_loop PaneP BufP p N panes sel LRC LRn)).
Proof.
  induction panes as [|F rest IH]; intros sel LRC LRn;
    cbn [UpdateOtherPanes_loop]; [constructor|].
  destruct (negb (PaneAddr F =? PaneAddr PaneP)
            && (PaneBufP F =? PaneBufP PaneP)) eqn:E.
  - apply andb_prop in E. destruct E as [E1 E2]. bool_lia.
    pose proof (UpdateOtherPane_follows PaneP BufP p N F sel LRC LRn E1 E2)
      as H.
    destruct (UpdateOtherPane BufP p N F sel LRC LRn)
      as [[[F' sel'] LRC'] LRn'].
    cbn [fst] in H.
    specialize (IH sel' LRC' LRn').
    destruct (UpdateOtherPanes_loop PaneP BufP p N rest sel' LRC' LRn')
      as [rest' sel''].
    cbn [fst] in *. constructor; assumption.
  - specialize (IH sel LRC LRn).
    destruct (UpdateOtherPanes_loop PaneP BufP p N rest sel LRC LRn)
      as [rest' sel''].
    cbn [fst] in *. constructor; [|exact IH].
    unfold pane_follows_edit. rewrite E. cbn [andb].
    split; [apply same_pane_refl | reflexivity].
Qed.

(** After an insertion or a deletion of [N] bytes at [p] in the pane
    [PaneP], [ED_PaneUpdateOtherPanes] goes through the panes of all
    frames: it keeps their number and order, leaves the editing pane and
    the panes on other buffers as they are, and moves the cursor of every
    other pane on the buffer with the text: a cursor behind [p] moves by
    [N], but a deletion never takes it to a place before [p].  So the
    cursors that were inside the old text of [L] bytes are inside the new
    text of [L + N] bytes. *)
Theorem other_panes_follow_the_edit (PaneP : ED_PaneRecord)
  (BufP : ED_BufferRecord) (panes : list ED_PaneRecord) (sel : ED_SelRecord)
  (p N L : Z) :
  let panes' := fst (ED_PaneUpdateOtherPanes PaneP BufP panes sel p N) in
  Forall2 (pane_follows_edit PaneP p N) panes panes' /\
  (0 <= p <= L -> p <= L + N ->
   Forall (fun F => 0 <= CursorPos F <= L) panes ->
   Forall (fun F' => PaneAddr F' <> PaneAddr PaneP ->
                     PaneBufP F' = PaneBufP PaneP ->
                     0 <= CursorPos F' <= L + N) panes').
Proof.
  cbv zeta. unfold ED_PaneUpdateOtherPanes.
  pose proof (UpdateOtherPanes_loop_follows PaneP BufP p N panes sel 0 0) as H.
  split; [exact H|].
  intros Hp HN HF.
  induction H as [|F F' l l' HFF Hl IH]; [constructor|].
  inversion HF as [|? ? HF1 HF2]; subst.
  constructor; [|apply IH; exact HF2].
  intros HA HB. destruct HFF as [(S1 & S2 & _) HC].
  rewrite S1 in HA. rewrite S2 in HB.
  replace (PaneAddr F =? PaneAddr PaneP) with false in HC
    by (symmetry; apply Z.eqb_neq; exact HA).
  rewrite HB, Z.eqb_refl in HC. cbn [negb andb] in HC.
  destruct (N =? 0) eqn:EN; bool_lia; cbn [negb] in HC.
  - subst F'. lia.
  - rewrite HC. destruct (CursorPos F >? p) eqn:E; bool_lia; lia.
Qed.

(** ** Deleting the selection *)

Lemma MoveForCursor_SelPaneP (P : ED_PaneRecord) (BufP : ED_BufferRecord)
  (sel : ED_SelRecord) (S R : Z) :
  ED_SelPaneP (snd (ED_PaneMoveForCursor P BufP sel S R)) = ED_SelPaneP sel.
Proof.
  unfold ED_PaneMoveForCursor. cbv zeta.
  match goal with |- context [ED_BufferGetPosMinusRows ?b ?p ?r ?m] =>
    destruct (ED_BufferGetPosMinusRows b p r m) as [x y] end.
  cbn [snd]. case_if; reflexivity.
Qed.

Lemma MoveAfterCursorMove_SelPaneP (P : ED_PaneRecord)
  (BufP : ED_BufferRecord) (sel : ED_SelRecord) (S D : Z) :
  ED_SelPaneP (snd (ED_PaneMoveAfterCursorMove P BufP sel S D))
  = ED_SelPaneP sel.
Proof.
  unfold ED_PaneMoveAfterCursorMove.
  repeat case_if; try reflexivity; apply MoveForCursor_SelPaneP.
Qed.

Lemma OtherPane_CursorPos_SelPaneP (BufP : ED_BufferRecord) (p N : Z)
  (Q : ED_PaneRecord) (sel : ED_SelRecord) :
  ED_SelPaneP (snd (OtherPane_CursorPos BufP p N Q sel)) = ED_SelPaneP sel.
Proof.
  unfold OtherPane_CursorPos. case_if; [|reflexivity]. cbv zeta.
  match goal with |- context [ED_PaneFindLoc ?a ?b ?c ?d ?e] =>
    destruct (ED_PaneFindLoc a b c d e) as [[x y] z] end.
  apply MoveAfterCursorMove_SelPaneP.
Qed.

Lemma UpdateOtherPanes_loop_SelPaneP (PaneP : ED_PaneRecord)
  (BufP : ED_BufferRecord) (p N : Z) :
  forall (panes : list ED_PaneRecord) (sel : ED_SelRecord) (LRC LRn : Z),
    ED_SelPaneP (snd (UpdateOtherPanes_loop PaneP BufP p N panes sel LRC LRn))
    = ED_SelPaneP sel.
Proof.
  induction panes as [|F rest IH]; intros sel LRC LRn;
    cbn [UpdateOtherPanes_loop]; [reflexivity|].
  case_if.
  - assert (H : ED_SelPaneP
                  (snd (fst (fst (UpdateOtherPane BufP p N F sel LRC LRn))))
                = ED_SelPaneP sel).
    { unfold UpdateOtherPane. case_if; [|reflexivity].
      match goal with
      | |- context [let '(a, b) := ?c in _] =>
          match c with
          | (if _ then _ else _) => destruct c as [LRC' cnt]
          end
      end.
      match goal with
      | |- context [OtherPane_CursorPos ?b ?x ?y ?q ?s] =>
          pose proof (OtherPane_CursorPos_SelPaneP b x y q s) as H;
          destruct (OtherPane_CursorPos b x y q s) as [F' sel']
      end.
      exact H. }
    destruct (UpdateOtherPane BufP p N F sel LRC LRn)
      as [[[F' sel'] LRC'] LRn'].
    cbn [fst snd] in H. specialize (IH sel' LRC' LRn').
    destruct (UpdateOtherPanes_loop PaneP BufP p N rest sel' LRC' LRn')
      as [rest' sel''].
    cbn [snd] in *. congruence.
  - specialize (IH sel LRC LRn).
    destruct (UpdateOtherPanes_loop PaneP BufP p N rest sel LRC LRn)
      as [rest' sel''].
    exact IH.
Qed.

Lemma st_UpdateOtherPanes_SelPaneP (st : ED_State) (p N : Z) :
  ED_SelPaneP (Sel (st_UpdateOtherPanes st p N)) = ED_SelPaneP (Sel st).
Proof.
  unfold st_UpdateOtherPanes, ED_PaneUpdateOtherPanes.
  pose proof (UpdateOtherPanes_loop_SelPaneP (Pane st) (Buf st) p N
                (Others st) (Sel st) 0 0) as H.
  destruct (UpdateOtherPanes_loop (Pane st) (Buf st) p N (Others st) (Sel st)
              0 0) as [panes sel].
  exact H.
Qed.

Lemma DelSel_move_frame (st : ED_State) :
  let st8 :=
    if CursorPos (Pane st) =? ED_SelMarkPos (Sel st) then
      let '(p, sel) :=
        ED_PaneMoveAfterCursorMove (Pane st) (Buf st) (Sel st) (-1) 2 in
      set_Sel (set_Pane st p) sel
    else st in
  Buf st8 = Buf st /\ CursorPos (Pane st8) = CursorPos (Pane st) /\
  ED_SelPaneP (Sel st8) = ED_SelPaneP (Sel st) /\ KR st8 = KR st.
Proof.
  cbv zeta. case_if; [|repeat split].
  pose proof (MoveAfterCursorMove_CursorPos (Pane st) (Buf st) (Sel st)
                (-1) 2) as H1.
  pose proof (MoveAfterCursorMove_SelPaneP (Pane st) (Buf st) (Sel st)
                (-1) 2) as H2.
  destruct (ED_PaneMoveAfterCursorMove (Pane st) (Buf st) (Sel st) (-1) 2)
    as [p sel].
  cbn [fst snd] in H1, H2. repeat split; assumption.
Qed.

Lemma DelSelRange_spec (st : ED_State) (DoUpdate : bool) :
  buf_wf (Buf st) -> sel_is (Sel st) (Pane st) = true ->
  0 <= ED_SelMarkPos (Sel st) <= LastPos (Buf st) ->
  0 <= CursorPos (Pane st) <= LastPos (Buf st) ->
  ED_SelMarkPos (Sel st) <> CursorPos (Pane st) ->
  let a := Z.min (ED_SelMarkPos (Sel st)) (CursorPos (Pane st)) in
  let b := Z.max (ED_SelMarkPos (Sel st)) (CursorPos (Pane st)) in
  let st' := fst (ED_PaneDelSelRange st DoUpdate) in
  snd (ED_PaneDelSelRange st DoUpdate) = b - a /\
  buf_text (Buf st')
  = firstn (Z.to_nat a) (buf_text (Buf st))
    ++ skipn (Z.to_nat b) (buf_text (Buf st)) /\
  LastPos (Buf st') = LastPos (Buf st) - (b - a) /\
  buf_wf (Buf st') /\
  CursorPos (Pane st') = a /\
  ED_SelPaneP (Sel st') = None /\
  has (Flags (Buf st')) ED_BUFMODFLAG = true /\
  (ED_CmdThisId (Cmd st) <> ED_KillId -> KR st' = KR st).
Proof.
  intros W HS HM HC HN. cbv zeta.
  unfold ED_PaneDelSelRange. cbv zeta. rewrite HS.
  replace (ED_SelMarkPos (Sel st) =? CursorPos (Pane st)) with false
    by (symmetry; apply Z.eqb_neq; exact HN).
  cbn [negb orb].
  set (a := Z.min (ED_SelMarkPos (Sel st)) (CursorPos (Pane st))).
  set (b := Z.max (ED_SelMarkPos (Sel st)) (CursorPos (Pane st))).
  set (P1 := if CursorPos (Pane st) <? ED_SelMarkPos (Sel st)
             then (CursorPos (Pane st), ED_SelMarkPos (Sel st), Pane st)
             else (ED_SelMarkPos (Sel st), CursorPos (Pane st),
                   set_CursorRC
                     (set_CursorPos (Pane st) (ED_SelMarkPos (Sel st)))
                     (ED_SelMarkRow (Sel st)) (ED_SelMarkCol (Sel st)))).
  assert (EP : fst (fst P1) = a /\ snd (fst P1) = b /\
               CursorPos (snd P1) = a).
  { unfold P1, a, b.
    destruct (CursorPos (Pane st) <? ED_SelMarkPos (Sel st)) eqn:E; bool_lia;
      cbn [fst snd set_CursorRC set_CursorPos CursorPos]; lia. }
  destruct P1 as [[StartPos EndPos] PaneP1]. cbn [fst snd] in EP.
  destruct EP as (-> & -> & EC).
  assert (Hab : 0 <= a /\ a < b /\ b <= LastPos (Buf st)) by (unfold a, b; lia).
  set (st1 := set_SelPaneP (set_Pane (st_SetModFlag st) PaneP1) None).
  assert (HF1 : has (Flags (Buf st1)) ED_BUFMODFLAG = true)
    by (apply has_setf; reflexivity).
  assert (W0 : buf_wf (Buf st1)) by exact W.
  pose proof (PlaceGap_text (Buf st1) a 0 W0 ltac:(change (LastPos (Buf st1))
                with (LastPos (Buf st)); lia))
    as (W1 & G1 & _ & L1 & T1).
  pose proof (PlaceGap_frame (Buf st1) a 0) as (FL & _).
  set (b1 := ED_BufferPlaceGap (Buf st1) a 0) in *.
  set (st2 := st_PlaceGap st1 a 0).
  assert (B2 : Buf st2 = b1) by reflexivity.
  rewrite B2.
  match goal with
  | |- context [st_AddUndoBlock st2 ?x ?y ?z ?d] =>
      pose proof (st_AddUndoBlock_frame st2 x y z d)
        as (F1 & F2 & F3 & F4 & F5 & F6 & F7);
      set (st3 := st_AddUndoBlock st2 x y z d) in *
  end.
  rewrite B2 in F1.
  set (st4 := if ED_CmdThisId (Cmd st3) =? ED_KillId
              then st_KillRingAdd st3 (sub (Mem b1) (GapEndP b1) (b - a)) true
              else st3).
  assert (B4 : Buf st4 = Buf st3 /\ Pane st4 = Pane st3 /\ Sel st4 = Sel st3
               /\ (ED_CmdThisId (Cmd st) <> ED_KillId -> KR st4 = KR st)).
  { unfold st4. rewrite F7.
    change (ED_CmdThisId (Cmd st2)) with (ED_CmdThisId (Cmd st)).
    destruct (ED_CmdThisId (Cmd st) =? ED_KillId) eqn:EK; bool_lia.
    - repeat split. intros H. contradiction.
    - repeat split. intros _. rewrite F3. reflexivity. }
  destruct B4 as (B4 & P4 & S4 & K4).
  set (b5 := set_LastPos (set_GapEndP (Buf st4) (GapEndP (Buf st4) + (b - a)))
                         (LastPos (Buf st4) - (b - a))).
  set (st5 := set_Buf st4 b5).
  destruct F1 as (M1 & M2 & M3 & M4 & M5 & _ & _ & _ & M9).
  assert (Hk : 0 <= b - a <= BufEndP b1 - GapEndP b1).
  { destruct W1 as (V0 & V1 & V2 & V3 & V4).
    unfold text_length, capacity, gap_size in V4.
    change (LastPos (Buf st1)) with (LastPos (Buf st)) in L1. lia. }
  assert (TXT : forall b',
             Mem b' = Mem b5 -> BufEndP b' = BufEndP b5 ->
             GapStartP b' = GapStartP b5 -> GapEndP b' = GapEndP b5 ->
             LastPos b' = LastPos b5 ->
             buf_text b'
             = firstn (Z.to_nat a) (buf_text (Buf st))
               ++ skipn (Z.to_nat b) (buf_text (Buf st)) /\
             LastPos b' = LastPos (Buf st) - (b - a) /\ buf_wf b').
  { intros b' Q1 Q2 Q3 Q4 Q5.
    unfold b5 in Q1, Q2, Q3, Q4, Q5.
    cbn [set_LastPos set_GapEndP set_store Mem BufEndP GapStartP GapEndP
         LastPos] in Q1, Q2, Q3, Q4, Q5.
    rewrite B4 in Q1, Q2, Q3, Q4, Q5.
    rewrite M1 in Q1. rewrite M2 in Q2. rewrite M3 in Q3. rewrite M4 in Q4.
    rewrite M5 in Q5.
    pose proof (buf_text_cut b1 b' (b - a) W1 Hk Q1 Q2 Q3 Q4) as X.
    rewrite G1 in X. replace (a + (b - a)) with b in X by lia.
    change (buf_text (Buf st1)) with (buf_text (Buf st)) in T1.
    rewrite T1 in X.
    change (LastPos (Buf st1)) with (LastPos (Buf st)) in L1.
    split; [exact X|]. split; [lia|].
    destruct W1 as (V0 & V1 & V2 & V3 & V4).
    unfold buf_wf, text_length, capacity, gap_size in *.
    rewrite Q1, Q2, Q3, Q4, Q5. lia. }
  (* the tail of the function changes the panes and the marks only *)
  match goal with
  | |- context [ED_PaneFindLoc (Pane st5) (Buf st5) ?x ?y ?z] =>
      destruct (ED_PaneFindLoc (Pane st5) (Buf st5) x y z) as [[r0 Row] c0]
  end.
  set (st6 := set_Pane st5 (set_BufRowCount (Pane st5) Row)).
  set (st7 := set_Buf st6 (ED_BufferUpdateMark (Buf st6) a (- (b - a)))).
  assert (C7 : CursorPos (Pane st7) = a).
  { change (CursorPos (Pane st7)) with (CursorPos (Pane st4)).
    rewrite P4, F2. exact EC. }
  assert (S7 : ED_SelPaneP (Sel st7) = None).
  { change (Sel st7) with (Sel st4). rewrite S4, F6. reflexivity. }
  assert (K7 : ED_CmdThisId (Cmd st) <> ED_KillId -> KR st7 = KR st)
    by exact K4.
  assert (FL7 : has (Flags (Buf st7)) ED_BUFMODFLAG = true).
  { change (Flags (Buf st7)) with (Flags (Buf st4)). rewrite B4.
    rewrite (M9 ED_BUFMODFLAG) by reflexivity. rewrite FL. exact HF1. }
  destruct (TXT (Buf st7)) as (T2 & T3 & T4); try reflexivity.
  assert (FIN : forall st9,
            Buf st9 = Buf st7 -> CursorPos (Pane st9) = CursorPos (Pane st7) ->
            ED_SelPaneP (Sel st9) = ED_SelPaneP (Sel st7) ->
            KR st9 = KR st7 ->
            snd (st9, b - a) = b - a /\
            buf_text (Buf (fst (st9, b - a)))
            = firstn (Z.to_nat a) (buf_text (Buf st))
              ++ skipn (Z.to_nat b) (buf_text (Buf st)) /\
            LastPos (Buf (fst (st9, b - a))) = LastPos (Buf st) - (b - a) /\
            buf_wf (Buf (fst (st9, b - a))) /\
            CursorPos (Pane (fst (st9, b - a))) = a /\
            ED_SelPaneP (Sel (fst (st9, b - a))) = None /\
            has (Flags (Buf (fst (st9, b - a)))) ED_BUFMODFLAG = true /\
            (ED_CmdThisId (Cmd st) <> ED_KillId ->
             KR (fst (st9, b - a)) = KR st)).
  { intros st9 Q1 Q2 Q3 Q4. cbn [fst snd]. rewrite Q1, Q2, Q3, Q4.
    split; [reflexivity|]. split; [exact T2|]. split; [exact T3|].
    split; [exact T4|]. split; [exact C7|]. split; [exact S7|].
    split; [exact FL7 | exact K7]. }
  destruct DoUpdate; [|apply FIN; reflexivity].
  set (st8 := if CursorPos (Pane st7) =? ED_SelMarkPos (Sel st7)
              then
                let '(p, sel) :=
                  ED_PaneMoveAfterCursorMove (Pane st7) (Buf st7) (Sel st7)
                                             (-1) 2 in
                set_Sel (set_Pane st7 p) sel
              else st7).
  pose proof (DelSel_move_frame st7) as E8. cbv zeta in E8. fold st8 in E8.
  destruct E8 as (E81 & E82 & E83 & E84).
  destruct (st_UpdateOtherPanes_frame st8 (CursorPos (Pane st8)) (- (b - a)))
    as (U1 & U2 & U3 & U4).
  apply FIN.
  - rewrite U1. exact E81.
  - rewrite U2. exact E82.
  - rewrite st_UpdateOtherPanes_SelPaneP. exact E83.
  - rewrite U3. exact E84.
Qed.

(** With a selection in the pane, the deletion commands delete the
    selection.  [ED_PaneDelSelRange] removes the bytes between the mark of
    the selection and the cursor, whichever comes first, and keeps every
    other byte; it leaves the cursor at the start of the removed range,
    ends the selection, marks the buffer modified and answers the number
    of bytes removed.  The kill ring is not written unless the command is
    a kill.  Delete-next-char and delete-previous-char on a writable
    buffer then do nothing else: no character besides the selection is
    deleted. *)
Theorem del_sel_range_removes_selection (st : ED_State) (DoUpdate : bool) :
  buf_wf (Buf st) -> sel_is (Sel st) (Pane st) = true ->
  0 <= ED_SelMarkPos (Sel st) <= LastPos (Buf st) ->
  0 <= CursorPos (Pane st) <= LastPos (Buf st) ->
  ED_SelMarkPos (Sel st) <> CursorPos (Pane st) ->
  let a := Z.min (ED_SelMarkPos (Sel st)) (CursorPos (Pane st)) in
  let b := Z.max (ED_SelMarkPos (Sel st)) (CursorPos (Pane st)) in
  let st' := fst (ED_PaneDelSelRange st DoUpdate) in
  snd (ED_PaneDelSelRange st DoUpdate) = b - a /\
  buf_text (Buf st')
  = firstn (Z.to_nat a) (buf_text (Buf st))
    ++ skipn (Z.to_nat b) (buf_text (Buf st)) /\
  LastPos (Buf st') = LastPos (Buf st) - (b - a) /\
  buf_wf (Buf st') /\
  CursorPos (Pane st') = a /\
  ED_SelPaneP (Sel st') = None /\
  has (Flags (Buf st')) ED_BUFMODFLAG = true /\
  (ED_CmdThisId (Cmd st) <> ED_KillId -> KR st' = KR st) /\
  (has (Flags (Buf st)) ED_BUFREADONLYFLAG = false ->
   ED_CmdDelNextChar st = fst (ED_PaneDelSelRange st true) /\
   ED_CmdDelPrevChar st = fst (ED_PaneDelSelRange st true)).
Proof.
  intros W HS HM HC HN.
  pose proof (DelSelRange_spec st DoUpdate W HS HM HC HN) as H.
  pose proof (DelSelRange_spec st true W HS HM HC HN) as H'.
  cbv zeta in H, H' |- *.
  destruct H as (H1 & H2 & H3 & H4 & H5 & H6 & H7 & H8).
  destruct H' as (T1 & _).
  repeat (split; [assumption|]).
  intros HR. unfold ED_CmdDelNextChar, ED_CmdDelPrevChar, DelChar_guard,
    ED_BufferReadOnly.
  rewrite HR.
  destruct (ED_PaneDelSelRange st true) as [st1 Total]. cbn [fst snd] in *.
  replace (negb (Total =? 0)) with true
    by (symmetry; apply negb_true_iff; apply Z.eqb_neq; lia).
  split; reflexivity.
Qed.

Lemma del_sel_range_removes_selection_witness :
  buf_text
    (Buf (ED_CmdDelNextChar
            (set_Sel (editor_at (bytes_of "abcde"%string) 4)
                     (mkSel (Some 100) 1 1 0))))
  = bytes_of "ae"%string.
Proof.
  destruct (del_sel_range_removes_selection
              (set_Sel (editor_at (bytes_of "abcde"%string) 4)
                       (mkSel (Some 100) 1 1 0)) true)
    as (_ & HT & _ & _ & _ & _ & _ & _ & HD).
  - vm_compute. repeat split; congruence.
  - reflexivity.
  - vm_compute. split; congruence.
  - vm_compute. split; congruence.
  - vm_compute. congruence.
  - destruct (HD ltac:(reflexivity)) as [E _]. rewrite E, HT. reflexivity.
Defined.

(** ** The first line of a killed text *)

Lemma UtilGetLineEnd_loop_ascii (Text : list Z) :
  (forall i, 0 <= i < Z.of_nat (length Text) -> 0 <= rd Text i < 128) ->
  forall (fuel : nat) (CurP Count : Z),
    0 <= CurP <= Z.of_nat (length Text) ->
    Z.of_nat (length Text) - CurP < Z.of_nat fuel ->
    let r := UtilGetLineEnd_loop fuel Text CurP Count in
    CurP <= fst r <= Z.of_nat (length Text) /\
    (forall i, CurP <= i < fst r -> rd Text i <> 10) /\
    (fst r < Z.of_nat (length Text) ->
     rd Text (fst r) = 10 /\ snd r = Count + (fst r - CurP) + 1) /\
    (fst r = Z.of_nat (length Text) -> snd r = Count + (fst r - CurP)).
Proof.
  intros HA. induction fuel as [|f IH]; intros CurP Count HC HF; [lia|].
  cbn [UtilGetLineEnd_loop]. cbv zeta.
  destruct (CurP <? Z.of_nat (length Text)) eqn:E; bool_lia.
  - destruct (rd Text CurP =? 10) eqn:EN; bool_lia; cbn [fst snd].
    + split; [lia|]. split; [intros i Hi; lia|].
      split; [intros _; split; [exact EN | lia] | intros H; lia].
    + rewrite UTF8Len_ascii by (apply HA; lia).
      specialize (IH (CurP + 1) (Count + 1) ltac:(lia) ltac:(lia)).
      cbv zeta in IH. destruct IH as (I1 & I2 & I3 & I4).
      split; [lia|]. split.
      * intros i Hi. destruct (Z.eq_dec i CurP) as [->|N]; [exact EN|].
        apply I2. lia.
      * split.
        -- intros H. destruct (I3 H) as [J1 J2]. split; [exact J1 | lia].
        -- intros H. specialize (I4 H). lia.
  - cbn [fst snd]. split; [lia|]. split; [intros i Hi; lia|].
    split; intros H; lia.
Qed.

(** [ED_UtilGetLineEnd] on an ASCII text (the bytes of a kill ring entry):
    the byte count it answers is the offset of the first newline, or the
    length of the text when it holds none, and no byte before that offset
    is a newline.  The character count it hands back counts the newline
    too: it is one more than the byte count when a newline was found. *)
Theorem util_line_end_counts (Text : list Z) :
  (forall i, 0 <= i < Z.of_nat (length Text) -> 0 <= rd Text i < 128) ->
  let n := fst (ED_UtilGetLineEnd Text) in
  let CharCount := snd (ED_UtilGetLineEnd Text) in
  0 <= n <= Z.of_nat (length Text) /\
  (forall i, 0 <= i < n -> rd Text i <> 10) /\
  (n < Z.of_nat (length Text) -> rd Text n = 10 /\ CharCount = n + 1) /\
  (n = Z.of_nat (length Text) -> CharCount = n).
Proof.
  intros HA. cbv zeta. unfold ED_UtilGetLineEnd.
  pose proof (UtilGetLineEnd_loop_ascii Text HA (length Text + 1) 0 0
                ltac:(lia) ltac:(lia)) as H.
  cbv zeta in H. destruct H as (H1 & H2 & H3 & H4).
  split; [exact H1|]. split; [exact H2|].
  split; intros H; [destruct (H3 H) as [J1 J2]; split; [exact J1 | lia]
                   | specialize (H4 H); lia].
Qed.

Lemma util_line_end_counts_witness :
  fst (ED_UtilGetLineEnd [97; 98; 10; 99]) <= 4.
Proof.
  apply (util_line_end_counts [97; 98; 10; 99]).
  intros i Hi. change (0 <= i < 4) in Hi.
  assert (Hc : i = 0 \/ i = 1 \/ i = 2 \/ i = 3) by lia.
  destruct Hc as [-> | [-> | [-> | ->]]]; vm_compute; split; congruence.
Defined.

(** ** Undo with nothing to undo *)

(** Undo on a writable buffer that has nothing to take back changes
    neither the text nor the cursor.  A buffer without undo slabs answers
    "Undo has been disabled, ..."; a buffer whose undo log holds no block
    (the last slab is still empty), when the command before was not an
    undo, answers "Reached limit of Undo history". *)
Theorem undo_with_empty_log (st : ED_State) :
  has (Flags (Buf st)) ED_BUFREADONLYFLAG = false ->
  (USlabs (Buf st) = [] ->
   Buf (ED_CmdUndo st) = Buf st /\ Pane (ED_CmdUndo st) = Pane st /\
   echo_shown (Echo (ED_CmdUndo st)) = ED_STR_EchoBufNoUndo) /\
  (forall Last, LastUSP (Buf st) = Some Last -> LastUBlock Last = 0 ->
   ED_CmdLastId (Cmd st) <> ED_UndoId ->
   Buf (ED_CmdUndo st) = Buf st /\ Pane (ED_CmdUndo st) = Pane st /\
   echo_shown (Echo (ED_CmdUndo st)) = ED_STR_EchoUndoNoMore).
Proof.
  intros HR. split.
  - intros HU. unfold ED_CmdUndo, ED_BufferReadOnly. rewrite HR.
    assert (HL : LastUSP (Buf st) = None)
      by (unfold LastUSP; rewrite HU; reflexivity).
    destruct (negb (ED_CmdLastId (Cmd st) =? ED_UndoId));
      rewrite Nat.add_1_r; cbn [CmdUndo_loop]; unfold ED_BufferUndo;
      change (Buf (set_UHead st (mkUndoHead 0 None 0))) with (Buf st);
      rewrite HL; repeat split.
  - intros Last HL HB HN. unfold ED_CmdUndo, ED_BufferReadOnly. rewrite HR.
    replace (negb (ED_CmdLastId (Cmd st) =? ED_UndoId)) with true
      by (symmetry; apply negb_true_iff; apply Z.eqb_neq; exact HN).
    rewrite Nat.add_1_r. cbn [CmdUndo_loop]. unfold ED_BufferUndo.
    change (Buf (set_UHead st (mkUndoHead 0 None 0))) with (Buf st).
    rewrite HL.
    change (UHead (set_UHead st (mkUndoHead 0 None 0)))
      with (mkUndoHead 0 None 0).
    cbn [ED_UndoBlock Z.eqb negb].
    change (ED_CmdLastId (Cmd (set_UHead st (mkUndoHead 0 None 0))))
      with (ED_CmdLastId (Cmd st)).
    replace (ED_CmdLastId (Cmd st) =? ED_UndoId) with false
      by (symmetry; apply Z.eqb_neq; exact HN).
    rewrite HB. cbn [ED_UndoBlock Z.eqb].
    repeat split.
Qed.

Lemma undo_with_empty_log_witness :
  Buf (ED_CmdUndo (editor_with [97])) = Buf (editor_with [97]) /\
  echo_shown (Echo (ED_CmdUndo (editor_with [97]))) = ED_STR_EchoUndoNoMore.
Proof.
  destruct (undo_with_empty_log (editor_with [97]) ltac:(reflexivity))
    as (_ & H).
  destruct (H (mkUSlab 1 ED_UNDOINITLEN 0 []))
    as (H1 & _ & H3).
  - reflexivity.
  - reflexivity.
  - vm_compute. congruence.
  - split; [exact H1 | exact H3].
Defined.
